(* ===== verification/_CoqProject ===== *)
-Q . S2P
Prelude.v
Bytes.v
Endian.v
Bitmap.v
HostMem.v
Gvproxy.v
GuestMem.v
Queue.v
FileTraits.v
Regions.v
Hotplug.v
Mmap.v
VolatileIo.v
VolatileRefs.v
Tracked.v
Atomics.v
GuestAccess.v
DescUtils.v
Irqchip.v
Bus.v
VirtioDev.v
Mmio.v
Interrupts.v
Layout.v
Acpi.v
Partition.v
Emulator.v
Vm.v
VmRun.v
Lifecycle.v
Shutdown.v
CLayout.v
BootParams.v
Boot.v
BootState.v
ZeroPage.v
ElfLoad.v
BootFields.v
BzImage.v
KernelImage.v
Worker.v
Batch.v
StoreBuffer.v
Wakeup.v
Completion.v
GoodDriver.v
BlockWorker.v
BlockBatch.v
RngWorker.v
ConsoleWorker.v
NetWorker.v
Terminal.v
Program.v
