(* ===== verification/Prelude.v ===== *)
(** * whypa: a verification library for a Windows Hypervisor Platform VMM

    whypa boots a Linux guest on the Windows Hypervisor Platform: it assembles a
    machine (guest RAM, an I/O APIC, virtio devices behind MMIO windows, ACPI
    tables), loads the kernel, and runs one processor whose exits it answers,
    while a worker thread per virtio device moves data between the guest's
    queues and the host.  This library models that program as functions and
    proves what each part promises and how the parts compose.  This file is the
    root: the document below, and the notions every other file uses.

    ** The program's parts and their files

    Host memory and the vendored [vm-memory] crate.  [HostMem]: host memory as
    a total map from addresses to bytes, so that pointers alias as in the
    program, the crate's errors, and the volatile slices with their copy
    routines; [VolatileRefs], [VolatileIo]: typed references, arrays, atomic
    accesses and the readers and writers over slices ([volatile_memory.rs],
    [bytes.rs], [io.rs]).  [Bitmap]: the dirty bitmap ([bitmap/]).  [Tracked]:
    slices, references and arrays that carry a window of the bitmap and mark
    what they write, with the guards of their pointers.  [Atomics]: the atomic
    integers ([atomic_integer.rs]) and guest memory accessed as atomics.
    [Regions]:
    guest addresses and the sorted collection of regions ([address.rs],
    [region.rs]); [Mmap]: the host mappings behind them ([mmap/]);
    [GuestAccess]: accesses that cross regions ([guest_memory.rs]); [Hotplug]:
    the map that is replaced under a lock while others read it ([atomic.rs]);
    [Endian]: integers of a fixed byte order ([endian.rs]).

    Guest memory of the program.  [GuestMem]: [MemoryManager]
    ([src/memory/memory.rs]), the map from guest regions to host memory with
    its raw, typed and atomic accessors.  [Bytes]: little- and big-endian
    integers ([src/byte_order.rs]).  [Layout]: the address map
    ([src/memory/layout.rs], the memory size of [src/config.rs]).

    Virtio.  [Queue]: descriptor chains and split rings
    ([src/devices/virtio/queue.rs]).  [FileTraits]: vectored file transfers
    ([src/devices/file_traits.rs]).  [DescUtils]: the reader and writer over a
    chain ([descriptor_utils.rs]).  [VirtioDev]: the interface
    [VirtioDevice] (a class with its laws [VirtioDeviceLaws]) and its four
    instances, block, entropy, console and network ([device.rs] of each).
    [Mmio]: the transport, proved against the interface ([mmio.rs]).  [Worker],
    [BlockWorker], [RngWorker], [ConsoleWorker], [NetWorker]: the threads
    ([worker.rs] of each).  [Gvproxy]: the network process and the table of
    error numbers ([net/gvproxy.rs], [bindings.rs]).  [Batch], [GoodDriver],
    [BlockBatch]: what one wake-up of a worker does to a whole batch of chains,
    proved once for the shape the workers share and then for block, entropy,
    console output and network transmission.  [StoreBuffer], [Wakeup],
    [Completion]: a worker and a driver that follows the virtio specification,
    step by step on shared memory, where the worker's stores become visible to
    the driver late: the driver's notifications against a worker that goes to
    sleep, and the worker's interrupts against a driver that does.

    Interrupts and buses.  [Irqchip]: events, the interface [IrqChipT] and the
    I/O APIC ([src/devices/event.rs], [src/devices/legacy]).  [Interrupts]: the
    transport's interrupt status and the I/O APIC together, step by step as the
    device's threads and the processor's interleave.  [Bus]: the port bus
    ([src/devices/bus.rs]).

    The machine.  [Acpi]: the tables and the managers they describe
    ([src/acpi.rs], [src/cpu.rs], [src/device_manager.rs]).  [Partition]: guest
    RAM, windows and handlers, the device setup and the assembly of the machine
    ([src/partition.rs], [src/device_manager.rs], [src/main.rs]).  [CLayout],
    [BootParams]: the layout of C types and the structures of the boot protocol
    ([src/bootparam.rs]).  [Boot]: the loader ([src/linux_boot.rs]);
    [BootState], [ZeroPage], [ElfLoad], [BootFields], [BzImage],
    [KernelImage]: what the processor sees of its page and descriptor tables,
    what the kernel reads in the zero page, the loading of an ELF file and of a
    bzImage, and both formats as one.  [Vm], [Emulator]: the exits and the
    emulator's callbacks ([src/vm.rs], [src/emulator.rs]).  [VmRun]: what a run
    keeps.  [Lifecycle]: what is taken from the host and the destructor.
    [Shutdown]: requests to stop against the loop, and the joins of the
    workers ([src/vm.rs], [src/partition.rs], [src/terminal.rs]).  [Terminal]: the modes of the host's console
    ([src/terminal.rs]).  [Program]: the configuration and the whole of [main]
    ([src/config.rs], [src/main.rs]).

    ** How state and operations correspond

    A struct is a record with the source's field names behind a short prefix; a
    method on [&mut self] is a computation of the monad [M] below, whose state
    is the struct (and the host memory where the method touches it) and whose
    errors keep the state reached so far; a panic is an outcome of its own.
    [&self] methods that write through raw pointers change the host memory of
    the state.  Machine integers are [Z] with the wrap-around or the overflow
    panic of each operator written out; the build profile (overflow checks on
    or off) is the parameter [Profile] and theorems hold for both unless they
    fix one.  Traits are classes.  The comment above a definition names the
    lines it translates.  Code outside the repository is a parameter: Windows
    and hypervisor calls ([WinEvent], [PartitionHost], [VmHost], [EmulatorApi],
    [HostTerminal], [ProcessHost], [MmapHost], [ProcHost]), the
    [acpi_tables] and [imago] crates ([AcpiTables], [ImageOps]), pipes, the
    random generator; what is assumed of it is a named hypothesis or a class of
    laws ([host_ready], [ImageLaws], [PipeLaws], [EmulatorLaws], [TerminalLaws],
    [MmapHostLaws], [ProcHostLaws]), each with an instance in a
    witness.

    ** What the theorems show

    - The whole program: with a sound configuration and host and a well-formed
      kernel, [main] reaches the processor loop with the machine, the kernel
      and the processor's state as the boot protocol asks; whatever happens it
      gives everything back once the workers it joins have ended; after a
      request to stop the main thread waits, under every interleaving, for
      nothing but such joins, and the rounds of those workers ending it goes to
      its end; the outcomes of the configuration ([Program], [Shutdown],
      [Terminal]).
    - Each region of guest memory but its last byte is an array of bytes, and each
      accessor's outcome on every branch ([GuestMem]); the copy routine equals a plain copy ([HostMem]).
    - The vendored crate: the bitmap is a set of pages ([Bitmap]); a region
      collection is a map and its binary search a linear one ([Regions]); an
      access transfers the longest mapped prefix across regions and reads
      return what was written ([GuestAccess]); construction from ranges is all
      or nothing ([Mmap]); no update of the map is lost ([Hotplug]); exact
      transfers equal the loop of short ones ([VolatileIo]); a write through a
      slice, reads from files and sockets included, marks in the bitmap exactly
      the pages of what it has accepted; a read from a file or a socket that
      fails marks nothing, whatever it has stored ([Tracked]).
    - The queue: [pop] yields the available ring in order, chains end, used
      elements are published, the notification window and the re-enabling of
      notifications agree with the virtio specification's arithmetic ([Queue]).
    - Notifications: whatever the interleaving, a worker that waits has missed
      no chain, and every wait ends; this needs the fence of
      [enable_notification], without which a run loses a chain ([Wakeup]).  A
      driver that sleeps has missed no interrupt as long as a round returns
      fewer than 65536 chains; a longer round wraps the count and can leave the
      interrupt out ([Completion]).
    - A writer followed by a reader over the same buffers is the identity, both
      account for every byte and touch guest memory only ([DescUtils]).
    - The transport's status machine: the initialisation sequence activates the
      device, nothing else does, queue fields round trip and are locked outside
      the feature negotiation ([Mmio]).
    - The I/O APIC: which pins fire on a service pass, one injection per
      end-of-interrupt on a level line, round trips of redirection entries
      ([Irqchip]); a device's interrupts through the transport and the I/O APIC
      are those of a level-triggered source under every interleaving of their
      steps, and none is lost but in one race ([Interrupts]).
    - The workers: disk round trip, frames round trip, filtered terminal
      streams ([BlockWorker], [NetWorker], [ConsoleWorker]).  A wake-up refines
      a service without queues: the loops end, and the published requests are
      carried out one after the other, in ring order, each returned once with
      its length ([BlockBatch], [RngWorker], [ConsoleWorker], [NetWorker]; the
      abstract services are [block_step], [rng_step], [console_step] and
      [net_step]).
    - The network process: it runs exactly as long as its owner lives, except
      after a start that times out ([Gvproxy]).
    - The machine: assembly yields a sound address map ([Partition]); ACPI
      pointers locate their tables ([Acpi]); the layouts computed for the boot
      structures pass their generator's tests ([BootParams]); the kernel reads
      the zero page through its own structure and finds the loader's fields and
      nothing else ([BootFields], [BzImage]); the loaded kernel, the page tables
      and the registers are what the boot protocol asks for ([ElfLoad],
      [BzImage], [BootState]); accesses reach the device they name, the Hyper-V
      registers and the reference clock behave ([Vm]); the invariant holds under
      every run ([VmRun]).

    Some theorems state what the code does where a comment or the purpose says
    otherwise; they are plain theorems next to the component they concern.

    ** Bounds and fuel

    Loops over a list are structural.  The chain iterator has fuel one more than
    the head's time-to-live, which decreases at each step; [read_exact] and
    [write_all] have fuel one more than the buffer, since a call that moves no
    byte is an error, and so have the exact transfers of slices.  The binary
    search has fuel one more than the collection, the iterator over the slices
    of a guest range one more than the bytes asked for, since every slice has at
    least one.  The wait for the network process needs 251 looks at the pid
    file, 250 sleeps of 20 ms being its five seconds.  The loops of the workers,
    which have no bound in the code, take their fuel as an argument: for a
    driver that keeps the rules one unit more than the number of pending chains
    is enough, and for a head the device refuses it runs out at every amount;
    both are theorems.  The exit loop takes the list of the exits that happen.
    The interleavings of [Wakeup], [Completion] and [Shutdown] are step relations
    without fuel, and their theorems are about every finite run.

    ** Not modelled

    Logging and texts of errors and diagnostics; the thread creation itself (a
    worker's body is a function of the state it starts from; threads are
    interleaved where they share more than guest memory: the shutdown request,
    the interrupt status, the replaced memory map, and the notifications of a
    queue); the constants and aliases of [src/bootparam.rs] that no modelled
    structure uses; the tests of the vendored crate.
    The driver of [Wakeup] and [Completion] is the guest's and follows the rules
    of the virtio specification; its own stores are visible at once, since the
    specification asks for a fence before it looks at the device's fields. *)

From stdpp Require Export base tactics list numbers option strings gmap.
From Stdlib Require Export ZArith Lia.

Open Scope Z_scope.

Declare Scope whypa_scope.
Delimit Scope whypa_scope with whypa.
Open Scope whypa_scope.

(** ** Build profile

    Rust's [+], [-], [*] on machine integers panic on overflow when the crate
    is compiled with overflow checks (the [dev] profile) and wrap otherwise
    (the [release] profile).  Every definition that uses the plain operators
    takes the profile, and the theorems hold for both unless they fix one. *)
Class Profile := overflow_checks : bool.

Definition dev_profile : Profile := true.
Definition release_profile : Profile := false.

(** ** Outcomes

    [Ok]/[Err] are Rust's [Result]; [Panic] is an unwinding panic (a failed
    [unwrap], an index out of bounds, a checked overflow); [NoFuel] has no
    counterpart in the program: a loop of the model ran out of fuel.  The
    theorems about loops show when it does not occur, or, for a loop that
    never ends, that it is the answer at every fuel. *)
Inductive out (E A : Type) : Type :=
| Ok (a : A)
| Err (e : E)
| Panic
| NoFuel.
Arguments Ok {E A} a.
Arguments Err {E A} e.
Arguments Panic {E A}.
Arguments NoFuel {E A}.

#[export] Instance out_ret E : MRet (out E) := fun A a => Ok a.

#[export] Instance out_bind E : MBind (out E) := fun A B f m =>
  match m with Ok a => f a | Err e => Err e | Panic => Panic | NoFuel => NoFuel end.

#[export] Instance out_fmap E : FMap (out E) := fun A B f m =>
  match m with Ok a => Ok (f a) | Err e => Err e | Panic => Panic | NoFuel => NoFuel end.

(** [Option::ok_or], [Result::map_err], [Result::ok], [unwrap]/[expect]. *)
Definition ok_or {E A} (o : option A) (e : E) : out E A :=
  match o with Some a => Ok a | None => Err e end.

Definition map_err {E F A} (f : E -> F) (m : out E A) : out F A :=
  match m with Ok a => Ok a | Err e => Err (f e) | Panic => Panic | NoFuel => NoFuel end.

Definition out_ok {E F A} (m : out E A) : out F (option A) :=
  match m with
  | Ok a => Ok (Some a) | Err _ => Ok None | Panic => Panic | NoFuel => NoFuel
  end.

Definition unwrap {E F A} (m : out E A) : out F A :=
  match m with Ok a => Ok a | Err _ => Panic | Panic => Panic | NoFuel => NoFuel end.

Definition unwrap_opt {E A} (o : option A) : out E A :=
  match o with Some a => Ok a | None => Panic end.

(** The [Result] itself as a value, for code that matches on it. *)
Definition out_try {E F A} (m : out E A) : out F (A + E) :=
  match m with
  | Ok a => Ok (inl a) | Err e => Ok (inr e) | Panic => Panic | NoFuel => NoFuel
  end.

(** ** State with errors

    A method that takes [&mut self] and returns a [Result].  An error or a
    panic keeps the state reached so far: the mutations made before a [?] or
    an [unwrap] stay. *)
Definition M (S E A : Type) : Type := S -> out E A * S.

#[export] Instance M_ret S E : MRet (M S E) := fun A a s => (Ok a, s).

#[export] Instance M_bind S E : MBind (M S E) := fun A B f m s =>
  match m s with
  | (Ok a, s') => f a s'
  | (Err e, s') => (Err e, s')
  | (Panic, s') => (Panic, s')
  | (NoFuel, s') => (NoFuel, s')
  end.

Definition lift {S E A} (o : out E A) : M S E A := fun s => (o, s).
Definition gets {S E A} (f : S -> A) : M S E A := fun s => (Ok (f s), s).
Definition reads {S E A} (f : S -> out E A) : M S E A := fun s => (f s, s).
Definition modify {S E} (f : S -> S) : M S E unit := fun s => (Ok tt, f s).
Definition throw {S E A} (e : E) : M S E A := fun s => (Err e, s).

Definition Mmap {S E F A B} (f : out E A -> out F B) (m : M S E A) : M S F B :=
  fun s => let '(o, s') := m s in (f o, s').
Definition Mtry {S E F A} (m : M S E A) : M S F (A + E) := Mmap out_try m.
Definition Munwrap {S E F A} (m : M S E A) : M S F A := Mmap unwrap m.
Definition Mmap_err {S E F A} (f : E -> F) (m : M S E A) : M S F A := Mmap (map_err f) m.

(** Run a method of a field [T] of a larger state [S]. *)
Definition zoom {S T E A} (get : S -> T) (set : T -> S -> S) (m : M T E A) : M S E A :=
  fun s => let '(o, t) := m (get s) in (o, set t s).

(** ** Machine integers

    A [w]-bit unsigned integer is a [Z] in [[0, 2^w)]. *)
Definition wrap (w z : Z) : Z := z mod 2 ^ w.
Definition fits (w z : Z) : Prop := 0 <= z < 2 ^ w.

Definition wadd (w a b : Z) : Z := wrap w (a + b).
Definition wsub (w a b : Z) : Z := wrap w (a - b).

Definition checked_add (w a b : Z) : option Z :=
  if a + b <? 2 ^ w then Some (a + b) else None.
Definition checked_sub (a b : Z) : option Z :=
  if b <=? a then Some (a - b) else None.

(** The plain operators. *)
Definition uadd {prof : Profile} {E} (w a b : Z) : out E Z :=
  if a + b <? 2 ^ w then Ok (a + b)
  else if overflow_checks then Panic else Ok (wrap w (a + b)).
Definition usub {prof : Profile} {E} (w a b : Z) : out E Z :=
  if b <=? a then Ok (a - b)
  else if overflow_checks then Panic else Ok (wrap w (a - b)).
Definition umul {prof : Profile} {E} (w a b : Z) : out E Z :=
  if a * b <? 2 ^ w then Ok (a * b)
  else if overflow_checks then Panic else Ok (wrap w (a * b)).

(** [!x] on a [w]-bit integer. *)
Definition wnot (w z : Z) : Z := 2 ^ w - 1 - z.

(** The bit [i] of [z] set or cleared, as the code's masks do it. *)
Definition bit (i : Z) : Z := Z.shiftl 1 i.

(** [x.is_multiple_of(n)] *)
Definition is_multiple_of (x n : Z) : bool :=
  if n =? 0 then x =? 0 else x mod n =? 0.

(** ** Lists as byte buffers *)

(** [&l[i..i+n]] inside bounds. *)
Definition slice {A} (i n : nat) (l : list A) : list A := take n (drop i l).

(** [l[i..i+bs.len()].copy_from_slice(bs)] inside bounds. *)
Definition splice {A} (i : nat) (bs l : list A) : list A :=
  take i l ++ bs ++ drop (i + length bs) l.

(** [dst.iter_mut().zip(src)] assignment: the common prefix is overwritten. *)
Definition zip_write {A} (dst src : list A) : list A :=
  take (length dst) src ++ drop (length src) dst.

Definition is_byte (b : Z) : Prop := 0 <= b < 256.
Definition bytes_ok (bs : list Z) : Prop := Forall is_byte bs.

(** [Z] length of a buffer. *)
Definition zlen {A} (l : list A) : Z := Z.of_nat (length l).

(** ** Finite and infinite runs of a step relation *)
Section runs.
Context {A : Type} (R : A -> A -> Prop).

Inductive steps : A -> A -> Prop :=
| steps_refl a : steps a a
| steps_cons a b c : R a b -> steps b c -> steps a c.

End runs.
Arguments steps {A} R.

(** ** Lemmas *)

Section int_lemmas.
Implicit Types w a b z : Z.

Lemma pow2_pos w : 0 <= w -> 0 < 2 ^ w.
Proof. intros; apply Z.pow_pos_nonneg; lia. Qed.

Lemma wrap_fits w z : 0 <= w -> fits w (wrap w z).
Proof. intros; apply Z.mod_pos_bound, pow2_pos; done. Qed.

Lemma wrap_small w z : fits w z -> wrap w z = z.
Proof. apply Z.mod_small. Qed.

Lemma wrap_idemp w z : wrap w (wrap w z) = wrap w z.
Proof. apply Zmod_mod. Qed.

Lemma wrap_add_l w a b : wrap w (wrap w a + b) = wrap w (a + b).
Proof. apply Zplus_mod_idemp_l. Qed.

Lemma wrap_add_r w a b : wrap w (a + wrap w b) = wrap w (a + b).
Proof. apply Zplus_mod_idemp_r. Qed.

Lemma wrap_sub_l w a b : wrap w (wrap w a - b) = wrap w (a - b).
Proof. apply Zminus_mod_idemp_l. Qed.

Lemma wrap_sub_r w a b : wrap w (a - wrap w b) = wrap w (a - b).
Proof. apply Zminus_mod_idemp_r. Qed.

Lemma checked_add_Some w a b c :
  checked_add w a b = Some c <-> c = a + b /\ a + b < 2 ^ w.
Proof.
  unfold checked_add. destruct (Z.ltb_spec (a + b) (2 ^ w)).
  - split; [intros [= <-]; lia | intros [-> _]; done].
  - split; [done | lia].
Qed.

Lemma checked_add_None w a b : checked_add w a b = None <-> 2 ^ w <= a + b.
Proof.
  unfold checked_add. destruct (Z.ltb_spec (a + b) (2 ^ w)).
  - split; [done | lia].
  - split; done.
Qed.

Lemma checked_sub_Some a b c : checked_sub a b = Some c <-> c = a - b /\ b <= a.
Proof.
  unfold checked_sub. destruct (Z.leb_spec b a).
  - split; [intros [= <-]; lia | intros [-> _]; done].
  - split; [done | lia].
Qed.

Lemma uadd_ok {prof : Profile} {E} w a b :
  a + b < 2 ^ w -> uadd (E:=E) w a b = Ok (a + b).
Proof. intros H. unfold uadd. by rewrite (proj2 (Z.ltb_lt _ _) H). Qed.

Lemma usub_ok {prof : Profile} {E} w a b :
  b <= a -> usub (E:=E) w a b = Ok (a - b).
Proof. intros H. unfold usub. by rewrite (proj2 (Z.leb_le _ _) H). Qed.

Lemma umul_ok {prof : Profile} {E} w a b :
  a * b < 2 ^ w -> umul (E:=E) w a b = Ok (a * b).
Proof. intros H. unfold umul. by rewrite (proj2 (Z.ltb_lt _ _) H). Qed.

End int_lemmas.

(** *** Bits *)
Section bit_lemmas.
Implicit Types a b i n w z : Z.

Lemma bit_spec i n : 0 <= i -> Z.testbit (bit i) n = (n =? i).
Proof.
  intros Hi. unfold bit. rewrite Z.shiftl_1_l.
  rewrite Z.pow2_bits_eqb by lia. apply Z.eqb_sym.
Qed.

Lemma land_bit z i :
  0 <= i -> (Z.land z (bit i) =? 0) = negb (Z.testbit z i).
Proof.
  intros Hi. destruct (Z.testbit z i) eqn:E; simpl.
  - apply Z.eqb_neq. intros H%(f_equal (fun x => Z.testbit x i)).
    rewrite Z.land_spec, E, bit_spec, Z.eqb_refl, Z.bits_0 in H by lia. done.
  - apply Z.eqb_eq, Z.bits_inj_0. intros n. rewrite Z.land_spec, bit_spec by lia.
    destruct (Z.eqb_spec n i) as [->|]; [by rewrite E | apply andb_false_r].
Qed.

Lemma wnot_spec w z i :
  fits w z -> 0 <= i < w -> Z.testbit (wnot w z) i = negb (Z.testbit z i).
Proof.
  intros Hz Hi. unfold wnot.
  replace (2 ^ w - 1 - z) with (Z.ldiff (Z.ones w) z).
  - rewrite Z.ldiff_spec, Z.ones_spec_low by lia. done.
  - rewrite <- Z.sub_nocarry_ldiff.
    + rewrite Z.ones_equiv. lia.
    + apply Z.bits_inj_0. intros n. rewrite Z.ldiff_spec.
      destruct (Z.ltb_spec n w) as [Hn|Hn].
      * destruct (Z.ltb_spec n 0); [by rewrite Z.testbit_neg_r by lia|].
        rewrite Z.ones_spec_low by lia. apply andb_false_r.
      * destruct Hz. rewrite (Z.bits_above_log2 z n); [done|lia|].
        destruct (decide (z = 0)) as [->|]; [simpl; lia|].
        apply Z.log2_lt_pow2; [lia|].
        eapply Z.lt_le_trans; [done|]. apply Z.pow_le_mono_r; lia.
Qed.

Lemma testbit_high w z n : fits w z -> w <= n -> 0 <= w -> Z.testbit z n = false.
Proof.
  intros Hz Hn Hw. rewrite <- (wrap_small w z Hz). unfold wrap.
  apply Z.mod_pow2_bits_high; lia.
Qed.

Lemma testbit_wrap w z n : 0 <= w -> 0 <= n -> Z.testbit (wrap w z) n = (n <? w) && Z.testbit z n.
Proof.
  intros Hw Hn. unfold wrap. destruct (Z.ltb_spec n w); cbn [andb].
  - by rewrite Z.mod_pow2_bits_low.
  - by rewrite Z.mod_pow2_bits_high by lia.
Qed.

Lemma testbit_ones w n : 0 <= w -> 0 <= n -> Z.testbit (Z.ones w) n = (n <? w).
Proof.
  intros Hw Hn. destruct (Z.ltb_spec n w).
  - by apply Z.ones_spec_low.
  - by apply Z.ones_spec_high.
Qed.

(** Equality of two [w]-bit integers, bit by bit. *)
Lemma fits_bits_inj w a b :
  0 <= w -> fits w a -> fits w b ->
  (forall n, 0 <= n < w -> Z.testbit a n = Z.testbit b n) -> a = b.
Proof.
  intros Hw Ha Hb H. apply Z.bits_inj'. intros n Hn.
  destruct (Z.ltb_spec n w); [apply H; lia|].
  by rewrite !(testbit_high w) by done || lia.
Qed.

Lemma fits_bits w z :
  0 <= w -> 0 <= z -> (forall n, w <= n -> Z.testbit z n = false) -> fits w z.
Proof.
  intros Hw Hz H. split; [done|].
  destruct (decide (z = 0)) as [->|]; [by apply pow2_pos|].
  apply Z.log2_lt_pow2; [lia|].
  destruct (Z.ltb_spec (Z.log2 z) w); [done|].
  exfalso. pose proof (H (Z.log2 z) ltac:(lia)) as E.
  rewrite Z.bit_log2 in E by lia. done.
Qed.

Lemma fits_land_l w a b : 0 <= w -> fits w a -> 0 <= b -> fits w (Z.land a b).
Proof.
  intros Hw Ha Hb. apply fits_bits; [done| |].
  - apply Z.land_nonneg. left. by destruct Ha.
  - intros n Hn. by rewrite Z.land_spec, (testbit_high w a n) by done || lia.
Qed.

Lemma fits_lor w a b : 0 <= w -> fits w a -> fits w b -> fits w (Z.lor a b).
Proof.
  intros Hw Ha Hb. apply fits_bits; [done| |].
  - apply Z.lor_nonneg. by destruct Ha, Hb.
  - intros n Hn. by rewrite Z.lor_spec, !(testbit_high w _ n) by done || lia.
Qed.

Lemma fits_wnot w z : fits w z -> fits w (wnot w z).
Proof. unfold fits, wnot. lia. Qed.

Lemma fits_bit w i : 0 <= i < w -> fits w (bit i).
Proof.
  intros Hi. unfold bit. rewrite Z.shiftl_1_l. split.
  - apply Z.pow_nonneg; lia.
  - apply Z.pow_lt_mono_r; lia.
Qed.

Lemma land_not_bit w z i :
  fits w z -> 0 <= i < w -> forall j, Z.testbit (Z.land z (wnot w (bit i))) j =
    Z.testbit z j && negb (j =? i).
Proof.
  intros Hz Hi j. rewrite Z.land_spec.
  destruct (decide (j < 0)) as [Hj|Hj]; [by rewrite !Z.testbit_neg_r by lia|].
  destruct (decide (w <= j)) as [Hjw|Hjw].
  - by rewrite (testbit_high w z j) by (done || lia).
  - rewrite wnot_spec by (try apply fits_bit; lia). by rewrite bit_spec by lia.
Qed.

Lemma lor_bit z i : 0 <= i -> forall j, Z.testbit (Z.lor z (bit i)) j = Z.testbit z j || (j =? i).
Proof. intros Hi j. by rewrite Z.lor_spec, bit_spec by lia. Qed.

Lemma fits_mono w v z : 0 <= w <= v -> fits w z -> fits v z.
Proof.
  intros Hw [??]. split; [done|]. eapply Z.lt_le_trans; [done|].
  apply Z.pow_le_mono_r; lia.
Qed.

Lemma shiftr_fits w n z : 0 <= n -> 0 <= w -> fits (w + n) z -> fits w (Z.shiftr z n).
Proof.
  intros Hn Hw [H1 H2]. split; [by apply Z.shiftr_nonneg|].
  rewrite Z.shiftr_div_pow2 by done. apply Z.div_lt_upper_bound; [by apply pow2_pos|].
  rewrite <- Z.pow_add_r by lia. by rewrite Z.add_comm.
Qed.

(** Rounding down to a power of two by a mask. *)
Lemma land_align n x :
  0 <= n <= 64 -> fits 64 x -> Z.land x (wnot 64 (2 ^ n - 1)) = 2 ^ n * (x / 2 ^ n).
Proof.
  intros Hn Hx.
  rewrite Z.mul_comm, <- Z.shiftr_div_pow2, <- Z.shiftl_mul_pow2 by lia.
  assert (fits 64 (2 ^ n - 1)) as Ho.
  { pose proof (pow2_pos n). pose proof (Z.pow_le_mono_r 2 n 64). unfold fits. lia. }
  apply Z.bits_inj'. intros i Hi. rewrite Z.land_spec, Z.shiftl_spec by done.
  replace (2 ^ n - 1) with (Z.ones n) in * by (rewrite Z.ones_equiv; lia).
  destruct (Z.ltb_spec i 64) as [Hi64|Hi64].
  - rewrite wnot_spec by done || lia. destruct (Z.ltb_spec i n) as [Hin|Hin].
    + rewrite Z.ones_spec_low by lia. rewrite (Z.testbit_neg_r _ (i - n)) by lia. apply andb_false_r.
    + rewrite Z.ones_spec_high, Z.shiftr_spec, andb_true_r by lia. f_equal. lia.
  - rewrite (testbit_high 64 x) by done || lia. destruct (Z.ltb_spec i n); [lia|].
    rewrite Z.shiftr_spec by lia. by rewrite (testbit_high 64 x) by (done || lia).
Qed.

End bit_lemmas.

(** *** Buffers *)
Section buffer_lemmas.
Context {A : Type}.
Implicit Types l bs : list A.

Lemma length_slice i n l : (i + n <= length l)%nat -> length (slice i n l) = n.
Proof. intros. unfold slice. rewrite length_take, length_drop. lia. Qed.

Lemma length_splice i bs l :
  (i + length bs <= length l)%nat -> length (splice i bs l) = length l.
Proof.
  intros. unfold splice. rewrite !length_app, length_take, length_drop. lia.
Qed.

Lemma slice_splice i bs l :
  (i + length bs <= length l)%nat -> slice i (length bs) (splice i bs l) = bs.
Proof.
  intros. unfold slice, splice.
  rewrite drop_app_length' by (rewrite length_take; lia).
  apply take_app_length.
Qed.

Lemma lookup_splice i j bs l :
  (i + length bs <= length l)%nat ->
  splice i bs l !! j =
    if decide (i <= j < i + length bs)%nat then bs !! (j - i)%nat else l !! j.
Proof.
  intros. unfold splice. case_decide as Hj.
  - rewrite lookup_app_r by (rewrite length_take; lia).
    rewrite length_take, lookup_app_l by lia. f_equal. lia.
  - destruct (decide (j < i)%nat).
    + rewrite lookup_app_l by (rewrite length_take; lia).
      by rewrite lookup_take_lt by lia.
    + rewrite lookup_app_r, length_take by (rewrite length_take; lia).
      rewrite lookup_app_r by lia. rewrite lookup_drop. f_equal. lia.
Qed.

Lemma lookup_slice i n j l :
  slice i n l !! j = if decide (j < n)%nat then l !! (i + j)%nat else None.
Proof.
  unfold slice. case_decide.
  - by rewrite lookup_take_lt, lookup_drop by done.
  - by rewrite lookup_take_ge by lia.
Qed.

(** Writing elsewhere does not change a slice. *)
Lemma slice_splice_disjoint i n k bs l :
  (k + length bs <= length l)%nat ->
  (i + n <= k \/ k + length bs <= i)%nat ->
  slice i n (splice k bs l) = slice i n l.
Proof.
  intros Hk Hd. apply list_eq. intros j. rewrite !lookup_slice.
  case_decide; [|done]. rewrite lookup_splice by done.
  case_decide; [lia|done].
Qed.

Lemma length_zip_write dst bs : length (zip_write dst bs) = length dst.
Proof. unfold zip_write. rewrite length_app, length_take, length_drop. lia. Qed.

End buffer_lemmas.

Lemma splice_splice_app {A} i (xs ys l : list A) :
  (i + length xs + length ys <= length l)%nat ->
  splice (i + length xs) ys (splice i xs l) = splice i (xs ++ ys) l.
Proof.
  intros Hl. apply list_eq. intros j.
  rewrite !lookup_splice by (rewrite ?length_splice, ?length_app; lia).
  rewrite length_app. repeat case_decide; try lia; try done.
  - rewrite lookup_app_r by lia. f_equal. lia.
  - by rewrite lookup_app_l by lia.
Qed.

Lemma insert_splice {A} i (x : A) l : (i < length l)%nat -> <[i := x]> l = splice i [x] l.
Proof.
  intros Hi. unfold splice. rewrite insert_take_drop by done.
  cbn [length app]. by rewrite Nat.add_1_r.
Qed.

Lemma alter_splice (f : Z -> Z) i l :
  (i < length l)%nat -> alter f i l = splice i [f (nth i l 0)] l.
Proof.
  intros Hi. destruct (lookup_lt_is_Some_2 l i Hi) as [x Hx].
  rewrite <- insert_splice by done.
  apply list_eq. intros j. destruct (decide (i = j)) as [<-|].
  - rewrite list_lookup_alter_eq, list_lookup_insert_eq, Hx by done. cbn. do 2 f_equal.
    symmetry. by apply nth_lookup_Some.
  - by rewrite list_lookup_alter_ne, list_lookup_insert_ne.
Qed.

Lemma slice_splice_inside {A} k i n (bs l : list A) :
  (k + length bs <= length l)%nat -> (i + n <= length bs)%nat ->
  slice (k + i) n (splice k bs l) = slice i n bs.
Proof.
  intros Hk Hi. apply list_eq. intros j. rewrite !lookup_slice. case_decide; [|done].
  rewrite lookup_splice, decide_True by lia. f_equal. lia.
Qed.

Lemma slice_slice {A} i n j m (l : list A) :
  (j + m <= n)%nat -> slice (i + j) m l = slice j m (slice i n l).
Proof.
  intros Hm. apply list_eq. intros x. rewrite !lookup_slice.
  case_decide; [|done]. rewrite decide_True by lia. f_equal. lia.
Qed.

Lemma slice_splice_at {A} i n (bs l : list A) :
  n = length bs -> (i + n <= length l)%nat -> slice i n (splice i bs l) = bs.
Proof. intros -> Hl. by apply slice_splice. Qed.

Section run_lemmas.
Context {A : Type} (R : A -> A -> Prop).

Lemma steps_one a b : R a b -> steps R a b.
Proof. intros. eapply steps_cons; [done|]. constructor. Qed.

Lemma steps_trans a b c : steps R a b -> steps R b c -> steps R a c.
Proof. induction 1; [done|]. intros. eapply steps_cons; eauto. Qed.

(** An invariant of the steps holds at the end of every run. *)
Lemma steps_invariant (P : A -> Prop) a b :
  (forall x y, R x y -> P x -> P y) -> steps R a b -> P a -> P b.
Proof. intros HP. induction 1; eauto. Qed.

End run_lemmas.

Lemma bytes_ok_app bs cs : bytes_ok (bs ++ cs) <-> bytes_ok bs /\ bytes_ok cs.
Proof. apply Forall_app. Qed.

Lemma bytes_ok_take n bs : bytes_ok bs -> bytes_ok (take n bs).
Proof. apply Forall_take. Qed.

Lemma bytes_ok_drop n bs : bytes_ok bs -> bytes_ok (drop n bs).
Proof. apply Forall_drop. Qed.

(** The check of concrete bytes, by evaluation. *)
Definition bytes_okb (bs : list Z) : bool := forallb (fun b => (0 <=? b) && (b <? 256)) bs.
Lemma bytes_okb_ok bs : bytes_okb bs = true -> bytes_ok bs.
Proof.
  intros H. unfold bytes_okb in H. rewrite forallb_forall in H. apply List.Forall_forall.
  intros b Hb. specialize (H b Hb). unfold is_byte. lia.
Qed.

Lemma zlen_nonneg {A} (l : list A) : 0 <= zlen l.
Proof. unfold zlen; lia. Qed.

(** ** Frames

    [keeps R m]: whatever its outcome, the computation [m] leaves a state
    related by [R] to the state it started from.  For a preorder [R] this is
    compositional, so that an invariant or a frame condition of a handler
    follows from those of its calls; [keeps] in the hint database of the same
    name walks through a computation. *)
Definition keeps {S E A} (R : relation S) (m : M S E A) : Prop := forall s, R s (m s).2.

Section keeps.
Context {S : Type} (R : relation S) `{!PreOrder R}.

Lemma keeps_ret {E A} (a : A) : keeps (E:=E) R (mret a).
Proof. by intros s. Qed.

Lemma keeps_lift {E A} (o : out E A) : keeps R (lift o).
Proof. by intros s. Qed.

Lemma keeps_gets {E A} (f : S -> A) : keeps (E:=E) R (gets f).
Proof. by intros s. Qed.

Lemma keeps_throw {E A} (e : E) : keeps (A:=A) R (throw e).
Proof. by intros s. Qed.

Lemma keeps_bind {E A B} (m : M S E A) (f : A -> M S E B) :
  keeps R m -> (forall a, keeps R (f a)) -> keeps R (m ≫= f).
Proof.
  intros Hm Hf s. unfold mbind, M_bind. specialize (Hm s).
  destruct (m s) as [[a|e| |] s']; [|done..]. etransitivity; [exact Hm|apply Hf].
Qed.

(** A computation that starts by looking at its state. *)
Lemma keeps_gets_bind {E A B} (f : S -> A) (k : A -> M S E B) :
  (forall s, R s (k (f s) s).2) -> keeps R (gets f ≫= k).
Proof. intros Hk s. apply Hk. Qed.

Lemma keeps_map {E F A B} (g : out E A -> out F B) (m : M S E A) :
  keeps R m -> keeps R (Mmap g m).
Proof. intros Hm s. unfold Mmap. specialize (Hm s). by destruct (m s). Qed.

End keeps.

Lemma keeps_modify {S E} (R : relation S) (f : S -> S) :
  (forall s, R s (f s)) -> keeps (E:=E) R (modify f).
Proof. intros Hf s. apply Hf. Qed.

Lemma keeps_zoom {S T E A} (R : relation S) (Q : relation T) (get : S -> T) (set : T -> S -> S)
    (m : M T E A) :
  keeps Q m -> (forall s t, Q (get s) t -> R s (set t s)) -> keeps R (zoom get set m).
Proof. intros Hm Hs s. unfold zoom. specialize (Hm (get s)). destruct (m (get s)). by apply Hs. Qed.

Lemma keeps_weaken {S E A} (Q R : relation S) (m : M S E A) :
  (forall s s', Q s s' -> R s s') -> keeps Q m -> keeps R m.
Proof. intros HQ Hm s. apply HQ, Hm. Qed.

(** An invariant, as the relation it is kept along. *)
Definition along {S} (P : S -> Prop) : relation S := fun s s' => P s -> P s'.
#[export] Instance along_preorder {S} (P : S -> Prop) : PreOrder (along P).
Proof. split; unfold along; [by intros s|intros s1 s2 s3; auto]. Qed.

(** ** Automation

    [whypa] holds the arithmetic facts that close the side conditions of the
    lemmas above; [destr_M] splits one step of a monadic computation. *)
Create HintDb whypa discriminated.
#[export] Hint Resolve wrap_fits fits_lor fits_land_l fits_wnot fits_bit : whypa.
#[export] Hint Resolve bytes_ok_take bytes_ok_drop zlen_nonneg : whypa.
Create Rewrite HintDb buffer_len.
#[export] Hint Rewrite @length_zip_write @length_app @length_take @length_drop
  @length_replicate : buffer_len.

(** Evaluate the head computations of both monads. *)
Ltac run_M :=
  cbn [mbind mret M_bind M_ret out_bind out_ret lift gets reads modify throw
       Mmap Mtry Munwrap Mmap_err out_try unwrap unwrap_opt map_err ok_or out_ok
       zoom fst snd].

(** The same for the state monad, whose binds are functions of the state. *)
Ltac run_St :=
  cbv beta iota delta [mbind mret M_bind M_ret out_bind out_ret lift gets reads modify throw
    Mmap Mtry Munwrap Mmap_err out_try unwrap unwrap_opt map_err ok_or out_ok zoom id];
  cbn [fst snd].

(** Walk through a computation with the rules of [keeps]; what remains are the
    updates and the calls of operations that have no lemma yet. *)
Create HintDb keeps discriminated.
Ltac keeps_step :=
  first
  [ solve [auto with keeps nocore]
  | match goal with
    | |- keeps ?R _ =>
        first [ apply (keeps_ret R) | apply (keeps_lift R) | apply (keeps_gets R)
              | apply (keeps_throw R) | apply (keeps_bind R); [|intro] | apply (keeps_map R) ]
    end
  | apply keeps_modify; intro
  | match goal with
    | |- keeps _ (match ?x with _ => _ end) => destruct x eqn:?
    | |- keeps _ (let '(_, _) := ?x in _) => destruct x eqn:?
    end ].
Ltac keeps := repeat keeps_step.

(** Split on the boolean comparisons of the goal. *)
Ltac case_Z :=
  match goal with
  | |- context [?a <? ?b] => destruct (Z.ltb_spec a b)
  | |- context [?a <=? ?b] => destruct (Z.leb_spec a b)
  | |- context [?a =? ?b] => destruct (Z.eqb_spec a b)
  end.
Ltac case_Z_in H :=
  match type of H with
  | context [?a <? ?b] => destruct (Z.ltb_spec a b)
  | context [?a <=? ?b] => destruct (Z.leb_spec a b)
  | context [?a =? ?b] => destruct (Z.eqb_spec a b)
  end.

(** Equality of words by their bits. *)
Ltac word_bits w := apply (fits_bits_inj w); [lia | .. | intros ?n ?Hn].
