(* ===== verification/Bytes.v ===== *)
(** * Bytes: little- and big-endian integers, [src/byte_order.rs]

    The codec of Rust's [to_le_bytes]/[from_le_bytes] on [Z], the functions the
    macros of [byte_order.rs] generate, and their round trips.  Every component
    that lays out a structure in guest memory uses this codec. *)

From S2P Require Import Prelude.

(** [v.to_le_bytes()] for an [n]-byte integer, and [from_le_bytes]. *)
Fixpoint le_bytes (n : nat) (v : Z) : list Z :=
  match n with
  | O => []
  | S n' => v mod 256 :: le_bytes n' (v / 256)
  end.

Fixpoint le_val (bs : list Z) : Z :=
  match bs with
  | [] => 0
  | b :: bs' => b + 256 * le_val bs'
  end.

Definition be_bytes (n : nat) (v : Z) : list Z := rev (le_bytes n v).
Definition be_val (bs : list Z) : Z := le_val (rev bs).

(** Two's complement reading of a [w]-bit pattern. *)
Definition signed (w z : Z) : Z := if z <? 2 ^ (w - 1) then z else z - 2 ^ w.

(** *** [src/byte_order.rs]

    [generate_read_fn!]: a zeroed array of the type's size is filled from the
    input by [zip] (a short input leaves zeros, a long one is cut). *)
(* src/byte_order.rs:4-15, generate_read_fn! *)
Definition read_array (n : nat) (input : list Z) : list Z :=
  zip_write (replicate n 0) input.

(* src/byte_order.rs:30-30, read_le_u16 *)
Definition read_le_u16 (input : list Z) : Z := le_val (read_array 2 input).
(* src/byte_order.rs:31-31, read_le_u32 *)
Definition read_le_u32 (input : list Z) : Z := le_val (read_array 4 input).
(* src/byte_order.rs:32-32, read_le_u64 *)
Definition read_le_u64 (input : list Z) : Z := le_val (read_array 8 input).
(** The [i8] input bytes are cast with [as u8]. *)
(* src/byte_order.rs:33-33, read_le_i32 *)
Definition read_le_i32 (input : list Z) : Z :=
  signed 32 (le_val (read_array 4 (map (wrap 8) input))).
(* src/byte_order.rs:35-35, read_be_u16 *)
Definition read_be_u16 (input : list Z) : Z := be_val (read_array 2 input).
(* src/byte_order.rs:36-36, read_be_u32 *)
Definition read_be_u32 (input : list Z) : Z := be_val (read_array 4 input).

(** [generate_write_fn!]: the bytes of [n] overwrite the buffer by [zip]. *)
(* src/byte_order.rs:17-38, generate_write_fn! / write_le_u16 *)
Definition write_le_u16 (buf : list Z) (n : Z) : list Z := zip_write buf (le_bytes 2 n).
(* src/byte_order.rs:39-39, write_le_u32 *)
Definition write_le_u32 (buf : list Z) (n : Z) : list Z := zip_write buf (le_bytes 4 n).
(* src/byte_order.rs:40-40, write_le_u64 *)
Definition write_le_u64 (buf : list Z) (n : Z) : list Z := zip_write buf (le_bytes 8 n).
(** The [u8] bytes of the pattern of [n] are cast with [as i8]. *)
(* src/byte_order.rs:41-41, write_le_i32 *)
Definition write_le_i32 (buf : list Z) (n : Z) : list Z :=
  zip_write buf (map (signed 8) (le_bytes 4 n)).
(* src/byte_order.rs:43-43, write_be_u16 *)
Definition write_be_u16 (buf : list Z) (n : Z) : list Z := zip_write buf (be_bytes 2 n).
(* src/byte_order.rs:44-44, write_be_u32 *)
Definition write_be_u32 (buf : list Z) (n : Z) : list Z := zip_write buf (be_bytes 4 n).

(** ** Lemmas *)

Lemma length_le_bytes n v : length (le_bytes n v) = n.
Proof. revert v. induction n; simpl; auto. Qed.

Lemma length_be_bytes n v : length (be_bytes n v) = n.
Proof. unfold be_bytes. by rewrite length_rev, length_le_bytes. Qed.

#[export] Hint Rewrite length_le_bytes length_be_bytes : buffer_len.

Lemma le_bytes_ok n v : bytes_ok (le_bytes n v).
Proof.
  revert v. induction n; intros v; simpl; [constructor|].
  constructor; [apply Z.mod_pos_bound; lia | apply IHn].
Qed.
#[export] Hint Resolve le_bytes_ok : whypa.

Lemma pow_256_S n : 256 ^ Z.of_nat (S n) = 256 * 256 ^ Z.of_nat n.
Proof. rewrite Nat2Z.inj_succ, Z.pow_succ_r; lia. Qed.

Lemma pow_256 n : 256 ^ Z.of_nat n = 2 ^ (8 * Z.of_nat n).
Proof. rewrite Z.pow_mul_r by lia. done. Qed.

Lemma le_val_le_bytes n v : le_val (le_bytes n v) = v mod 256 ^ Z.of_nat n.
Proof.
  revert v. induction n as [|n IH]; intros v; simpl.
  - by rewrite Z.mod_1_r.
  - rewrite IH. change (Z.pos (Pos.of_succ_nat n)) with (Z.of_nat (S n)).
    rewrite pow_256_S. rewrite Z.rem_mul_r; lia.
Qed.

Lemma le_val_bound bs : bytes_ok bs -> 0 <= le_val bs < 256 ^ zlen bs.
Proof.
  unfold zlen. induction 1 as [|b bs Hb _ IH]; [simpl; lia|].
  cbn [length le_val]. rewrite pow_256_S. unfold is_byte in Hb. lia.
Qed.

Lemma le_bytes_le_val bs : bytes_ok bs -> le_bytes (length bs) (le_val bs) = bs.
Proof.
  induction 1 as [|b bs Hb _ IH]; [done|]. cbn [length le_bytes le_val].
  unfold is_byte in Hb.
  replace ((b + 256 * le_val bs) mod 256) with b
    by (rewrite Z.mul_comm, Z_mod_plus_full, Z.mod_small; lia).
  replace ((b + 256 * le_val bs) / 256) with (le_val bs)
    by (rewrite Z.mul_comm, Z.div_add, Z.div_small; lia).
  by rewrite IH.
Qed.

Lemma le_val_le_bytes_fits n v :
  fits (8 * Z.of_nat n) v -> le_val (le_bytes n v) = v.
Proof. intros H. rewrite le_val_le_bytes, pow_256. by apply wrap_small. Qed.

Lemma le_val_app bs cs : le_val (bs ++ cs) = le_val bs + 256 ^ zlen bs * le_val cs.
Proof.
  unfold zlen. induction bs as [|b bs IH]; [simpl; lia|].
  cbn [app le_val length]. rewrite IH, pow_256_S. lia.
Qed.

Lemma le_bytes_inj n v v' :
  fits (8 * Z.of_nat n) v -> fits (8 * Z.of_nat n) v' ->
  le_bytes n v = le_bytes n v' -> v = v'.
Proof.
  intros Hv Hv' H%(f_equal le_val).
  by rewrite !le_val_le_bytes_fits in H.
Qed.

Lemma be_val_be_bytes_fits n v :
  fits (8 * Z.of_nat n) v -> be_val (be_bytes n v) = v.
Proof.
  intros. unfold be_val, be_bytes. rewrite rev_involutive.
  by apply le_val_le_bytes_fits.
Qed.

Lemma signed_wrap w z :
  0 < w -> - 2 ^ (w - 1) <= z < 2 ^ (w - 1) -> signed w (wrap w z) = z.
Proof.
  intros Hw Hz. unfold signed, wrap.
  assert (2 ^ w = 2 * 2 ^ (w - 1)) as E.
  { rewrite <- Z.pow_succ_r by lia. f_equal. lia. }
  destruct (Z.ltb_spec z 0).
  - replace (z mod 2 ^ w) with (z + 2 ^ w).
    + case_Z; lia.
    + apply (Z.mod_unique_pos _ _ (-1)); lia.
  - rewrite Z.mod_small by lia. case_Z; lia.
Qed.

(** Reading from a buffer that holds the bytes of [bs] first. *)
Lemma read_array_zip_write n bs buf :
  length bs = n -> (n <= length buf)%nat -> read_array n (zip_write buf bs) = bs.
Proof.
  intros <- Hl. unfold read_array, zip_write.
  rewrite length_replicate.
  rewrite (take_ge bs) by lia.
  rewrite take_app_length, drop_ge, app_nil_r; [done|].
  rewrite length_replicate, length_app, length_drop. lia.
Qed.
