(* ===== verification/Endian.v ===== *)
(** * Endian: integers of a fixed byte order, [vm-memory/src/endian.rs]

    The types the macro [endian_type!] defines keep the integer that lies in
    memory as the order of the type asks; what lies in memory depends on the
    order of the host, which is a parameter here. *)

From S2P Require Import Prelude Bytes.

Inductive order := Little | Big.
#[export] Instance order_eq_dec : EqDecision order.
Proof. solve_decision. Defined.

(** The host's order, and the bytes of an [n]-byte integer in its memory. *)
Class HostOrder := host_order : order.

Definition order_bytes (o : order) (n : nat) (v : Z) : list Z :=
  match o with Little => le_bytes n v | Big => be_bytes n v end.

Definition order_val (o : order) (bs : list Z) : Z :=
  match o with Little => le_val bs | Big => be_val bs end.

Section endian.
Context {host : HostOrder}.

Definition swap_bytes (n : nat) (v : Z) : Z := be_val (le_bytes n v).

(** [to_le]/[to_be] and [from_le]/[from_be]: a swap when the orders differ. *)
Definition to_order (o : order) (n : nat) (v : Z) : Z :=
  if decide (o = host_order) then v else swap_bytes n v.
Definition from_order (o : order) (n : nat) (v : Z) : Z :=
  if decide (o = host_order) then v else swap_bytes n v.

(** The type [$new_type] of order [o] and width [n]. *)
(* vm-memory/src/endian.rs:53-53, endian_type! *)
Record Endian (o : order) (n : nat) : Type := { en_raw : Z }.

(* vm-memory/src/endian.rs:62-64, to_native *)
Definition to_native {o n} (e : Endian o n) : Z := from_order o n (en_raw o n e).
(* vm-memory/src/endian.rs:71-75, PartialEq<$old_type>::eq *)
Definition endian_eq_native {o n} (e : Endian o n) (v : Z) : bool := en_raw o n e =? to_order o n v.
(* vm-memory/src/endian.rs:77-81, PartialEq<$new_type>::eq *)
Definition native_eq_endian {o n} (v : Z) (e : Endian o n) : bool := to_order o n (en_raw o n e) =? v.
(* vm-memory/src/endian.rs:83-87, From<$new_type>::from *)
Definition native_from {o n} (e : Endian o n) : Z := to_native e.
(* vm-memory/src/endian.rs:89-93, From<$old_type>::from *)
Definition endian_from {o n} (v : Z) : Endian o n := {| en_raw := to_order o n v |}.

(* vm-memory/src/endian.rs:97-97, Le16 *)
Definition Le16 : Type := Endian Little 2.
(* vm-memory/src/endian.rs:98-98, Le32 *)
Definition Le32 : Type := Endian Little 4.
(* vm-memory/src/endian.rs:99-99, Le64 *)
Definition Le64 : Type := Endian Little 8.
(* vm-memory/src/endian.rs:100-100, LeSize *)
Definition LeSize : Type := Endian Little 8.
(* vm-memory/src/endian.rs:101-101, Be16 *)
Definition Be16 : Type := Endian Big 2.
(* vm-memory/src/endian.rs:102-102, Be32 *)
Definition Be32 : Type := Endian Big 4.
(* vm-memory/src/endian.rs:103-103, Be64 *)
Definition Be64 : Type := Endian Big 8.
(* vm-memory/src/endian.rs:104-104, BeSize *)
Definition BeSize : Type := Endian Big 8.

(** What the value looks like in the host's memory. *)
Definition endian_bytes {o n} (e : Endian o n) : list Z := order_bytes host_order n (en_raw o n e).

(** ** Swapping *)

Lemma rev_bytes_ok bs : bytes_ok bs -> bytes_ok (rev bs).
Proof. unfold bytes_ok. intros H. by apply Forall_rev. Qed.

Lemma le_bytes_swap n v : le_bytes n (swap_bytes n v) = be_bytes n v.
Proof.
  unfold swap_bytes, be_val. pose proof (le_bytes_le_val (rev (le_bytes n v))) as H.
  rewrite length_rev, length_le_bytes in H. apply H, rev_bytes_ok, le_bytes_ok.
Qed.

Lemma swap_fits n v : fits (8 * Z.of_nat n) (swap_bytes n v).
Proof.
  unfold swap_bytes, be_val, fits. pose proof (le_val_bound (rev (le_bytes n v))) as H.
  unfold zlen in H. rewrite length_rev, length_le_bytes, pow_256 in H.
  apply H, rev_bytes_ok, le_bytes_ok.
Qed.

Lemma swap_swap n v : fits (8 * Z.of_nat n) v -> swap_bytes n (swap_bytes n v) = v.
Proof.
  intros Hv. unfold swap_bytes at 1. rewrite le_bytes_swap. unfold be_val, be_bytes.
  rewrite rev_involutive. by apply le_val_le_bytes_fits.
Qed.

Lemma to_order_fits o n v : fits (8 * Z.of_nat n) v -> fits (8 * Z.of_nat n) (to_order o n v).
Proof. intros Hv. unfold to_order. case_decide; [done|apply swap_fits]. Qed.

Lemma to_order_to_order o n v : fits (8 * Z.of_nat n) v -> to_order o n (to_order o n v) = v.
Proof. intros Hv. unfold to_order. case_decide; [done|by apply swap_swap]. Qed.

(** On every host a value of a type with a fixed order lies in memory in that
    order, comes back as it was put in, and equals, from either side, exactly
    the native integer it stands for. *)
Theorem endian_types_keep_order (o : order) (n : nat) (v w : Z) :
  fits (8 * Z.of_nat n) v -> fits (8 * Z.of_nat n) w ->
  let e : Endian o n := endian_from v in
  endian_bytes e = order_bytes o n v /\ to_native e = v /\
  (endian_eq_native e w = true <-> v = w) /\ (native_eq_endian w e = true <-> v = w).
Proof.
  intros Hv Hw e. split_and!.
  - unfold e, endian_bytes, endian_from, to_order. cbn [en_raw]. case_decide as Ho; [by rewrite Ho|].
    destruct o, host_order; try done; cbn [order_bytes]; [|by apply le_bytes_swap].
    unfold be_bytes. rewrite le_bytes_swap. unfold be_bytes. apply rev_involutive.
  - by apply to_order_to_order.
  - unfold endian_eq_native, e, endian_from. cbn [en_raw]. rewrite Z.eqb_eq. split; [|by intros ->].
    intros H%(f_equal (to_order o n)). by rewrite !to_order_to_order in H.
  - unfold native_eq_endian, e, endian_from. cbn [en_raw]. rewrite Z.eqb_eq, to_order_to_order by done. done.
Qed.

End endian.
