(* ===== verification/Bitmap.v ===== *)
(** * Bitmap: dirty page tracking, [vm-memory/src/bitmap]

    [AtomicBitmap] has one bit per page in a vector of 64-bit words; ranges of
    bytes are marked, tested and reset at page granularity, and slices track a
    window of it at an offset.  The file shows that it is a set of pages. *)

From S2P Require Import Prelude.

(** ** [AtomicBitmap] *)

(* vm-memory/src/bitmap/backend/atomic_bitmap.rs:10-19, AtomicBitmap *)
Record AtomicBitmap : Type := {
  ab_map : list Z;
  ab_size : Z;
  ab_byte_size : Z;
  ab_page_size : Z;
}.

Definition ab_set_map (m : list Z) (b : AtomicBitmap) : AtomicBitmap :=
  {| ab_map := m; ab_size := ab_size b; ab_byte_size := ab_byte_size b;
     ab_page_size := ab_page_size b |}.

(** [usize::div_ceil] *)
Definition div_ceil (a b : Z) : Z := if a mod b =? 0 then a / b else a / b + 1.

(* vm-memory/src/bitmap/backend/atomic_bitmap.rs:25-36, AtomicBitmap::new *)
Definition bitmap_new (byte_size page_size : Z) : AtomicBitmap :=
  let num_pages := div_ceil byte_size page_size in
  let map_size := div_ceil num_pages 64 in
  {| ab_map := replicate (Z.to_nat map_size) 0; ab_size := num_pages; ab_byte_size := byte_size;
     ab_page_size := page_size |}.

(* vm-memory/src/bitmap/backend/atomic_bitmap.rs:158-162, AtomicBitmap::default *)
Definition bitmap_default : AtomicBitmap := bitmap_new 0 0x1000.

(** [Vec::resize_with] *)
Definition resize_with (n : nat) (l : list Z) : list Z :=
  take n l ++ replicate (n - length l) 0.

Section bitmap.
Context {prof : Profile} {E : Type}.

#[local] Abbreviation B := AtomicBitmap.

(* vm-memory/src/bitmap/backend/atomic_bitmap.rs:40-45, AtomicBitmap::enlarge *)
Definition bitmap_enlarge (additional_size : Z) : M B E unit :=
  b ← gets id;
  byte_size ← lift (uadd 64 (ab_byte_size b) additional_size);
  let size := div_ceil byte_size (ab_page_size b) in
  modify (fun b => {| ab_map := resize_with (Z.to_nat (div_ceil size 64)) (ab_map b);
                      ab_size := size; ab_byte_size := byte_size;
                      ab_page_size := ab_page_size b |}).

(** Indexing of the vector, which panics out of its bounds. *)
Definition word_at (b : B) (index : Z) : out E Z := unwrap_opt (ab_map b !! Z.to_nat index).
Definition update_word (index : Z) (f : Z -> Z) : M B E unit :=
  b ← gets id;
  w ← lift (word_at b index);
  modify (fun b => ab_set_map (<[Z.to_nat index := f w]> (ab_map b)) b).

(* vm-memory/src/bitmap/backend/atomic_bitmap.rs:48-55, AtomicBitmap::is_bit_set *)
Definition is_bit_set (b : B) (index : Z) : out E bool :=
  if index <? ab_size b then
    w ← word_at b (Z.shiftr index 6);
    Ok (negb (Z.land w (Z.shiftl 1 (Z.land index 63)) =? 0))
  else Ok false.

(* vm-memory/src/bitmap/backend/atomic_bitmap.rs:58-60, AtomicBitmap::is_addr_set *)
Definition is_addr_set (b : B) (addr : Z) : out E bool := is_bit_set b (addr / ab_page_size b).

(** [fetch_or] or [fetch_and] of one bit. *)
Definition write_bit (set : bool) (n : Z) : M B E unit :=
  update_word (Z.shiftr n 6) (fun w =>
    if set then Z.lor w (Z.shiftl 1 (Z.land n 63))
    else Z.land w (wnot 64 (Z.shiftl 1 (Z.land n 63)))).

(** The loop over the bits; it leaves at the end of the bitmap, so that one
    turn more than its size is enough. *)
(* vm-memory/src/bitmap/backend/atomic_bitmap.rs:84-94, AtomicBitmap::set_reset_addr_range *)
Fixpoint set_reset_loop (fuel : nat) (n last_bit : Z) (set : bool) : M B E unit :=
  match fuel with
  | O => lift NoFuel
  | S fuel' =>
      if n <=? last_bit then
        b ← gets id;
        if ab_size b <=? n then mret tt
        else
          _ ← write_bit set n;
          set_reset_loop fuel' (n + 1) last_bit set
      else mret tt
  end.

(* vm-memory/src/bitmap/backend/atomic_bitmap.rs:73-95, AtomicBitmap::set_reset_addr_range *)
Definition set_reset_addr_range (start_addr len : Z) (set : bool) : M B E unit :=
  if len =? 0 then mret tt
  else
    b ← gets id;
    let first_bit := start_addr / ab_page_size b in
    let last_bit := Z.min (start_addr + (len - 1)) (2 ^ 64 - 1) / ab_page_size b in
    set_reset_loop (S (Z.to_nat (ab_size b))) first_bit last_bit set.

(* vm-memory/src/bitmap/backend/atomic_bitmap.rs:65-67, AtomicBitmap::set_addr_range *)
Definition set_addr_range (start_addr len : Z) : M B E unit :=
  set_reset_addr_range start_addr len true.
(* vm-memory/src/bitmap/backend/atomic_bitmap.rs:100-102, AtomicBitmap::reset_addr_range *)
Definition reset_addr_range (start_addr len : Z) : M B E unit :=
  set_reset_addr_range start_addr len false.

(* vm-memory/src/bitmap/backend/atomic_bitmap.rs:105-111, AtomicBitmap::set_bit *)
Definition set_bit (index : Z) : M B E unit :=
  b ← gets id;
  if ab_size b <=? index then mret tt else write_bit true index.
(* vm-memory/src/bitmap/backend/atomic_bitmap.rs:114-120, AtomicBitmap::reset_bit *)
Definition reset_bit (index : Z) : M B E unit :=
  b ← gets id;
  if ab_size b <=? index then mret tt else write_bit false index.

(* vm-memory/src/bitmap/backend/atomic_bitmap.rs:123-125, AtomicBitmap::len *)
Definition bitmap_len (b : B) : Z := ab_size b.
(* vm-memory/src/bitmap/backend/atomic_bitmap.rs:128-130, AtomicBitmap::byte_size *)
Definition bitmap_byte_size (b : B) : Z := ab_byte_size b.

(** One [fetch_and(0)] per word. *)
(* vm-memory/src/bitmap/backend/atomic_bitmap.rs:133-138, AtomicBitmap::get_and_reset *)
Definition get_and_reset : M B E (list Z) :=
  b ← gets id;
  _ ← modify (ab_set_map (map (fun w => Z.land w 0) (ab_map b)));
  mret (ab_map b).

(* vm-memory/src/bitmap/backend/atomic_bitmap.rs:141-145, AtomicBitmap::reset *)
Definition bitmap_reset : M B E unit :=
  modify (fun b => ab_set_map (map (fun _ => 0) (ab_map b)) b).

(* vm-memory/src/bitmap/backend/atomic_bitmap.rs:149-162, AtomicBitmap::clone *)
Definition bitmap_clone (b : B) : B :=
  {| ab_map := map id (ab_map b); ab_size := ab_size b; ab_byte_size := ab_byte_size b;
     ab_page_size := ab_page_size b |}.

End bitmap.

(** ** The interface and its instances *)

(** A tracker of type [T] over the shared state [S]: the methods take [&self]
    and write through atomics. *)
(* vm-memory/src/bitmap/mod.rs:32-44, Bitmap *)
Class Bitmap (T S E : Type) : Type := {
  mark_dirty : T -> Z -> Z -> M S E unit;
  dirty_at : T -> S -> Z -> out E bool;
}.

(* vm-memory/src/bitmap/backend/atomic_bitmap.rs:168-180, Bitmap for AtomicBitmap *)
#[export] Instance atomic_bitmap {E} : Bitmap unit AtomicBitmap E := {
  mark_dirty _ := set_addr_range;
  dirty_at _ := is_addr_set;
}.

(* vm-memory/src/bitmap/backend/slice.rs:13-16, BaseSlice *)
Record BaseSlice (T : Type) : Type := { bs_inner : T; bs_base_offset : Z }.
Arguments bs_inner {T}.
Arguments bs_base_offset {T}.
Arguments Build_BaseSlice {T}.

(* vm-memory/src/bitmap/backend/slice.rs:20-25, BaseSlice::new *)
Definition base_slice_new {T} (inner : T) (offset : Z) : BaseSlice T :=
  {| bs_inner := inner; bs_base_offset := offset |}.

(* vm-memory/src/bitmap/backend/slice.rs:67-72, BaseSlice::slice_at *)
Definition base_slice_at {T} (s : BaseSlice T) (offset : Z) : BaseSlice T :=
  {| bs_inner := bs_inner s; bs_base_offset := wadd 64 (bs_base_offset s) offset |}.

(* vm-memory/src/bitmap/backend/slice.rs:43-66, Bitmap for BaseSlice *)
#[export] Instance base_slice {T S E} `{!Bitmap T S E} : Bitmap (BaseSlice T) S E := {
  mark_dirty s offset len := mark_dirty (bs_inner s) (wadd 64 (bs_base_offset s) offset) len;
  dirty_at s st offset := dirty_at (bs_inner s) st (wadd 64 (bs_base_offset s) offset);
}.

(* vm-memory/src/bitmap/backend/atomic_bitmap.rs:177-179, AtomicBitmap::slice_at *)
Definition atomic_slice_at (offset : Z) : BaseSlice unit := base_slice_new tt offset.

(** No tracking. *)
(* vm-memory/src/bitmap/mod.rs:58-66, Bitmap for unit *)
#[export] Instance no_bitmap {S E} : Bitmap Empty_set S E := {
  mark_dirty _ _ _ := mret tt;
  dirty_at _ _ _ := Ok false;
}.

(** Optional tracking. *)
(* vm-memory/src/bitmap/mod.rs:82-102, Bitmap for Option *)
#[export] Instance option_bitmap {T S E} `{!Bitmap T S E} : Bitmap (option T) S E := {
  mark_dirty o offset len := match o with Some inner => mark_dirty inner offset len | None => mret tt end;
  dirty_at o st offset := match o with Some inner => dirty_at inner st offset | None => Ok false end;
}.

(** ** Lemmas *)

(** Bit [i] of the vector. *)
Definition raw_bit (m : list Z) (i : Z) : bool :=
  Z.testbit (nth (Z.to_nat (i / 64)) m 0) (i mod 64).

(** A bitmap whose vector is as long as its pages need and has no bit set
    behind them. *)
Record bitmap_wf (b : AtomicBitmap) : Prop := {
  bw_page : 0 < ab_page_size b;
  bw_size : ab_size b = div_ceil (ab_byte_size b) (ab_page_size b);
  bw_bytes : fits 64 (ab_byte_size b);
  bw_len : length (ab_map b) = Z.to_nat (div_ceil (ab_size b) 64);
  bw_words : Forall (fits 64) (ab_map b);
  bw_clean i : ab_size b <= i -> raw_bit (ab_map b) i = false;
}.

(** The abstract state: the set of dirty pages. *)
Definition dirty (b : AtomicBitmap) (i : Z) : bool :=
  (0 <=? i) && (i <? ab_size b) && raw_bit (ab_map b) i.

(** Everything but the bits. *)
Definition same_shape (b b' : AtomicBitmap) : Prop :=
  ab_size b' = ab_size b /\ ab_byte_size b' = ab_byte_size b /\ ab_page_size b' = ab_page_size b.

Lemma div_ceil_spec a b : 0 <= a -> 0 < b -> 0 <= div_ceil a b /\ b * (div_ceil a b - 1) < a <= b * div_ceil a b \/ (a = 0 /\ div_ceil a b = 0).
Proof.
  intros Ha Hb. unfold div_ceil. pose proof (Z.div_mod a b ltac:(lia)) as Hd.
  pose proof (Z.mod_pos_bound a b Hb) as Hm. pose proof (Z.div_pos a b Ha Hb) as Hp.
  destruct (Z.eqb_spec (a mod b) 0) as [Hz|Hz].
  - destruct (decide (a = 0)) as [->|Hn]; [right; by rewrite Z.div_0_l by lia|].
    left. nia.
  - left. nia.
Qed.

Lemma div_ceil_gt a b i : 0 <= a -> 0 < b -> 0 <= i < div_ceil a b -> 0 <= i / 1 /\ b * i < a.
Proof.
  intros Ha Hb Hi. rewrite Z.div_1_r. split; [lia|].
  destruct (div_ceil_spec a b Ha Hb) as [[_ Hs]|[-> Hs]]; [nia|lia].
Qed.

Section lemmas.
Context {prof : Profile} {E : Type}.
Implicit Types b : AtomicBitmap.

Lemma word_index b i :
  bitmap_wf b -> 0 <= i < ab_size b -> (Z.to_nat (i / 64) < length (ab_map b))%nat.
Proof.
  intros [Hp Hs Hb Hl _ _] Hi. rewrite Hl.
  pose proof (Z.div_mod i 64 ltac:(lia)) as Hd. pose proof (Z.mod_pos_bound i 64 ltac:(lia)) as Hm.
  destruct (div_ceil_spec (ab_size b) 64) as [[H0 H1]|[H0 H1]]; [lia|lia| |lia].
  assert (0 <= i / 64) by (apply Z.div_pos; lia). lia.
Qed.

Lemma bit_index i : 0 <= i -> Z.shiftr i 6 = i / 64 /\ Z.land i 63 = i mod 64.
Proof.
  intros Hi. split; [by rewrite Z.shiftr_div_pow2 by lia|].
  change 63 with (Z.ones 6). by rewrite Z.land_ones by lia.
Qed.

Lemma is_bit_set_eq b i :
  bitmap_wf b -> 0 <= i -> is_bit_set (E:=E) b i = Ok (dirty b i).
Proof.
  intros Hwf Hi. unfold is_bit_set, dirty. rewrite (proj2 (Z.leb_le 0 i)) by done. cbn [andb].
  destruct (Z.ltb_spec i (ab_size b)) as [Hs|Hs]; [|done]. cbn [andb].
  destruct (bit_index i Hi) as [-> ->]. unfold word_at.
  destruct (lookup_lt_is_Some_2 (ab_map b) (Z.to_nat (i / 64))) as [w Hw]; [by apply word_index|].
  rewrite Hw. cbn [unwrap_opt mbind out_bind]. unfold raw_bit. rewrite (nth_lookup_Some _ _ _ _ Hw).
  change (Z.shiftl 1 (i mod 64)) with (bit (i mod 64)).
  rewrite land_bit, negb_involutive; [done|]. by apply Z.mod_pos_bound.
Qed.

(** One bit of a word written, and the vector after it. *)
Definition with_bit (set : bool) (n w : Z) : Z :=
  if set then Z.lor w (bit n) else Z.land w (wnot 64 (bit n)).

Lemma with_bit_spec set n w :
  fits 64 w -> 0 <= n < 64 -> fits 64 (with_bit set n w) /\
  forall j, 0 <= j < 64 -> Z.testbit (with_bit set n w) j = if j =? n then set else Z.testbit w j.
Proof.
  intros Hw Hn. unfold with_bit. split.
  - destruct set; [apply fits_lor|apply fits_land_l]; try done; [by apply fits_bit|].
    by apply fits_wnot, fits_bit.
  - intros j Hj. destruct set.
    + rewrite lor_bit by lia. destruct (Z.eqb_spec j n); [apply orb_true_r|apply orb_false_r].
    + rewrite land_not_bit by (done || lia).
      destruct (Z.eqb_spec j n); [apply andb_false_r|apply andb_true_r].
Qed.

Lemma raw_bit_insert set n m w i :
  m !! Z.to_nat (n / 64) = Some w -> fits 64 w -> 0 <= n -> 0 <= i ->
  raw_bit (<[Z.to_nat (n / 64) := with_bit set (n mod 64) w]> m) i =
    if i =? n then set else raw_bit m i.
Proof.
  intros Hw Hf Hn Hi. pose proof (Z.mod_pos_bound n 64 ltac:(lia)) as Hm.
  pose proof (lookup_lt_Some _ _ _ Hw) as Hlt.
  destruct (with_bit_spec set (n mod 64) w Hf Hm) as [_ Hbits]. unfold raw_bit.
  destruct (decide (i / 64 = n / 64)) as [Ed|Ed].
  - rewrite Ed, nth_lookup, list_lookup_insert_eq by done. cbn [default].
    rewrite Hbits by (apply Z.mod_pos_bound; lia). rewrite (nth_lookup_Some _ _ _ _ Hw).
    destruct (Z.eqb_spec i n) as [->|Hne]; [by rewrite Z.eqb_refl|].
    rewrite (proj2 (Z.eqb_neq (i mod 64) _)); [done|]. intros Em. apply Hne.
    rewrite (Z.div_mod i 64), (Z.div_mod n 64) by lia. lia.
  - rewrite (proj2 (Z.eqb_neq i n)) by congruence. rewrite !nth_lookup, list_lookup_insert_ne; [done|].
    assert (0 <= i / 64) by (apply Z.div_pos; lia). assert (0 <= n / 64) by (apply Z.div_pos; lia). lia.
Qed.

Lemma write_bit_spec set n b :
  bitmap_wf b -> 0 <= n < ab_size b ->
  exists b', write_bit (E:=E) set n b = (Ok tt, b') /\ bitmap_wf b' /\ same_shape b b' /\
    forall i, dirty b' i = if i =? n then set else dirty b i.
Proof.
  intros Hwf Hn. unfold write_bit, update_word, word_at. run_St.
  destruct (bit_index n) as [-> ->]; [lia|].
  destruct (lookup_lt_is_Some_2 _ _ (word_index b n Hwf Hn)) as [w Hw]. rewrite Hw. cbn [unwrap_opt].
  change (Z.shiftl 1 (n mod 64)) with (bit (n mod 64)). fold (with_bit set (n mod 64) w).
  destruct Hwf as [Hp Hs Hb Hl Hws Hc].
  assert (fits 64 w) as Hfw by (rewrite Forall_forall in Hws; by eapply Hws, list_elem_of_lookup_2).
  eexists. split; [reflexivity|]. split; [|split; [done|]].
  - split; cbn [ab_set_map ab_map ab_size ab_byte_size ab_page_size]; [done..| | |].
    + by rewrite length_insert.
    + apply Forall_insert; [done|]. apply with_bit_spec; [done|]. by apply Z.mod_pos_bound.
    + intros i Hi. rewrite raw_bit_insert by (done || lia). 
      rewrite (proj2 (Z.eqb_neq i n)) by lia. by apply Hc.
  - intros i. unfold dirty. cbn [ab_set_map ab_map ab_size].
    destruct (Z.leb_spec 0 i) as [Hi|]; [|rewrite (proj2 (Z.eqb_neq i n)) by lia; done].
    rewrite raw_bit_insert by (done || lia).
    destruct (Z.eqb_spec i n) as [->|]; [|done]. by rewrite (proj2 (Z.ltb_lt n _)) by lia.
Qed.

Lemma same_shape_trans b1 b2 b3 : same_shape b1 b2 -> same_shape b2 b3 -> same_shape b1 b3.
Proof. unfold same_shape. intros (?&?&?) (?&?&?). split_and!; congruence. Qed.

Lemma set_reset_loop_spec set last fuel : forall n b,
  bitmap_wf b -> 0 <= n -> (Z.to_nat (ab_size b - n) < fuel)%nat ->
  exists b', set_reset_loop (E:=E) fuel n last set b = (Ok tt, b') /\ bitmap_wf b' /\ same_shape b b' /\
    forall i, dirty b' i =
      if (n <=? i) && (i <=? last) && (i <? ab_size b) then set else dirty b i.
Proof.
  induction fuel as [|fuel IH]; intros n b Hwf Hn Hf; [lia|]. cbn [set_reset_loop].
  assert (forall i, ~ (n <= i <= last /\ i < ab_size b) ->
    (n <=? i) && (i <=? last) && (i <? ab_size b) = false) as Hout.
  { intros i Hi. destruct (Z.leb_spec n i), (Z.leb_spec i last), (Z.ltb_spec i (ab_size b)); (done || lia). }
  destruct (Z.leb_spec n last) as [Hl|Hl].
  2:{ exists b. split_and!; try done. intros i. by rewrite Hout by lia. }
  run_St. destruct (Z.leb_spec (ab_size b) n) as [Hs|Hs].
  { exists b. split_and!; try done. intros i. by rewrite Hout by lia. }
  destruct (write_bit_spec set n b Hwf) as (b1 & W & Hwf1 & Hsh1 & D1); [lia|]. rewrite W.
  pose proof Hsh1 as (Es & _ & _).
  destruct (IH (n + 1) b1 Hwf1) as (b2 & L & Hwf2 & Hsh2 & D2); [lia|rewrite Es; lia|].
  exists b2. split; [exact L|]. split; [done|]. split; [by eapply same_shape_trans|].
  intros i. rewrite D2, D1, Es.
  destruct (Z.leb_spec (n + 1) i), (Z.leb_spec n i), (Z.leb_spec i last), (Z.ltb_spec i (ab_size b)),
    (Z.eqb_spec i n); cbn [andb]; (done || lia).
Qed.

(** The pages a range of bytes touches, as far as addresses go. *)
Definition touches (page_size start len i : Z) : bool :=
  (0 <? len) && (start / page_size <=? i) &&
  (i <=? Z.min (start + (len - 1)) (2 ^ 64 - 1) / page_size).

Lemma set_reset_spec set start len b :
  bitmap_wf b -> 0 <= start -> 0 <= len ->
  exists b', set_reset_addr_range (E:=E) start len set b = (Ok tt, b') /\ bitmap_wf b' /\
    same_shape b b' /\
    forall i, dirty b' i =
      if touches (ab_page_size b) start len i && (i <? ab_size b) then set else dirty b i.
Proof.
  intros Hwf Hst Hlen. unfold set_reset_addr_range, touches.
  destruct (Z.eqb_spec len 0) as [->|Hz].
  - exists b. by split_and!.
  - run_St. pose proof (bw_page _ Hwf) as Hp.
    destruct (set_reset_loop_spec set (Z.min (start + (len - 1)) (2 ^ 64 - 1) / ab_page_size b)
      (S (Z.to_nat (ab_size b))) (start / ab_page_size b) b Hwf) as (b' & L & Hwf' & Hsh & D).
    + by apply Z.div_pos.
    + assert (0 <= start / ab_page_size b) by (by apply Z.div_pos). lia.
    + exists b'. split_and!; [exact L|done..|]. intros i.
      by rewrite D, (proj2 (Z.ltb_lt 0 len)) by lia.
Qed.

(** A page is touched exactly when it holds a byte of the range. *)
Lemma touches_iff page_size start len i :
  0 < page_size -> 0 <= start < 2 ^ 64 -> 0 <= len ->
  touches page_size start len i = true <->
  exists a, start <= a < start + len /\ a < 2 ^ 64 /\ a / page_size = i.
Proof.
  intros Hp Hs Hl. unfold touches. rewrite !andb_true_iff, Z.ltb_lt, !Z.leb_le. split.
  - intros [[H0 H1] H2]. set (e := Z.min (start + (len - 1)) (2 ^ 64 - 1)) in *.
    exists (Z.min e (Z.max start (i * page_size + (page_size - 1)))).
    pose proof (Z.div_mod start page_size ltac:(lia)) as Ds.
    pose proof (Z.mod_pos_bound start page_size Hp) as Ms.
    pose proof (Z.div_mod e page_size ltac:(lia)) as De.
    pose proof (Z.mod_pos_bound e page_size Hp) as Me. split_and!; [lia..|].
    symmetry. apply (Z.div_unique_pos _ _ _ (Z.min e (Z.max start (i * page_size + (page_size - 1))) - i * page_size));
      nia.
  - intros (a & Ha & Ha' & <-). split_and!; [lia|apply Z.div_le_mono; lia|apply Z.div_le_mono; lia].
Qed.

(** *** The other operations *)

Lemma raw_bit_0 m i : Forall (fun w => w = 0) m -> raw_bit m i = false.
Proof.
  intros Hm. unfold raw_bit. rewrite nth_lookup.
  destruct (m !! Z.to_nat (i / 64)) as [w|] eqn:Ew; cbn [default]; [|apply Z.testbit_0_l].
  rewrite Forall_forall in Hm. rewrite (Hm w) by (by eapply list_elem_of_lookup_2). apply Z.testbit_0_l.
Qed.

Lemma bitmap_new_spec byte_size page_size :
  fits 64 byte_size -> 0 < page_size ->
  bitmap_wf (bitmap_new byte_size page_size) /\ forall i, dirty (bitmap_new byte_size page_size) i = false.
Proof.
  intros Hb Hp. assert (forall i, raw_bit (ab_map (bitmap_new byte_size page_size)) i = false) as H0.
  { intros i. apply raw_bit_0. by apply Forall_replicate. }
  split; [split; try done|].
  - cbn [bitmap_new ab_map ab_size]. apply length_replicate.
  - apply Forall_replicate. unfold fits. lia.
  - intros i. unfold dirty. rewrite H0. apply andb_false_r.
Qed.

Lemma cleared_spec m b :
  bitmap_wf b -> length m = length (ab_map b) -> Forall (fun w => w = 0) m ->
  bitmap_wf (ab_set_map m b) /\ forall i, dirty (ab_set_map m b) i = false.
Proof.
  intros [Hp Hs Hb Hl _ _] Hm H0. split.
  - split; cbn [ab_set_map ab_map ab_size ab_byte_size ab_page_size]; try done; [congruence| |].
    + eapply Forall_impl; [exact H0|]. intros w ->. unfold fits. lia.
    + intros i _. by apply raw_bit_0.
  - intros i. unfold dirty. cbn [ab_set_map ab_map]. by rewrite raw_bit_0, andb_false_r.
Qed.

Lemma div_ceil_mono a a' c : 0 <= a <= a' -> 0 < c -> div_ceil a c <= div_ceil a' c.
Proof.
  intros Ha Hc. destruct (div_ceil_spec a c) as [[? ?]|[? ?]]; [lia|lia| |];
    destruct (div_ceil_spec a' c) as [[? ?]|[? ?]]; try lia; nia.
Qed.

Lemma raw_bit_resize n m i :
  (length m <= n)%nat -> raw_bit (resize_with n m) i = raw_bit m i.
Proof.
  intros Hn. unfold raw_bit, resize_with. rewrite take_ge by done. f_equal.
  rewrite !nth_lookup. destruct (decide (Z.to_nat (i / 64) < length m)%nat) as [Hl|Hl].
  - by rewrite lookup_app_l by done.
  - rewrite lookup_app_r, (lookup_ge_None_2 m) by lia. cbn [default].
    destruct (replicate _ _ !! _) as [w|] eqn:Ew; [|done]. by apply lookup_replicate in Ew as [-> _].
Qed.

Lemma enlarge_spec n b :
  bitmap_wf b -> 0 <= n -> ab_byte_size b + n < 2 ^ 64 ->
  exists b', bitmap_enlarge (E:=E) n b = (Ok tt, b') /\ bitmap_wf b' /\
    ab_byte_size b' = ab_byte_size b + n /\ ab_page_size b' = ab_page_size b /\
    forall i, dirty b' i = dirty b i.
Proof.
  intros Hwf Hn Hb. pose proof Hwf as [Hp Hs Hby Hl Hws Hc]. unfold bitmap_enlarge. run_St.
  rewrite uadd_ok by done. eexists. split; [reflexivity|].
  set (size := div_ceil (ab_byte_size b + n) (ab_page_size b)).
  assert (0 <= ab_size b <= size) as Hsz.
  { rewrite Hs. split; [|apply div_ceil_mono; unfold fits in Hby; lia].
    destruct (div_ceil_spec (ab_byte_size b) (ab_page_size b)) as [[? ?]|[? ?]]; unfold fits in Hby; lia. }
  assert (length (ab_map b) <= Z.to_nat (div_ceil size 64))%nat as Hlen.
  { rewrite Hl. pose proof (div_ceil_mono (ab_size b) size 64 Hsz ltac:(lia)). lia. }
  split; [|split_and!; [done..|]].
  - split; cbn [ab_map ab_size ab_byte_size ab_page_size]; try done.
    + unfold fits in *. lia.
    + unfold resize_with. rewrite length_app, length_take, length_replicate. lia.
    + unfold resize_with. apply Forall_app. split; [by apply Forall_take|].
      apply Forall_replicate. unfold fits. lia.
    + intros i Hi. rewrite raw_bit_resize by done. apply Hc. lia.
  - intros i. unfold dirty. cbn [ab_map ab_size]. fold size. rewrite raw_bit_resize by done.
    destruct (Z.ltb_spec i (ab_size b)) as [Hi|Hi].
    + by rewrite (proj2 (Z.ltb_lt i size)) by lia.
    + rewrite Hc by done. by rewrite !andb_false_r.
Qed.

End lemmas.

(** ** Properties *)

(** C25: the bitmap is a set of pages.  A fresh bitmap is clean; marking or
    resetting any range of bytes never fails and changes exactly the pages
    that hold a byte of the range, up to the end of the address space and of
    the bitmap; resetting all, also with the old words returned, leaves it
    clean; enlarging it keeps the set; and the test of an address is the
    membership of its page. *)
Theorem bitmap_is_page_set {prof : Profile} {E} b start len :
  bitmap_wf b -> fits 64 start -> fits 64 len ->
  (forall byte_size page_size, fits 64 byte_size -> 0 < page_size ->
     let b0 := bitmap_new byte_size page_size in
     bitmap_wf b0 /\ ab_byte_size b0 = byte_size /\ forall i, dirty b0 i = false) /\
  (forall addr, 0 <= addr -> is_addr_set (E:=E) b addr = Ok (dirty b (addr / ab_page_size b))) /\
  (forall set, exists b', set_reset_addr_range (E:=E) start len set b = (Ok tt, b') /\
     bitmap_wf b' /\ same_shape b b' /\
     forall i, 0 <= i ->
       (i < ab_size b /\ (exists a, start <= a < start + len /\ a < 2 ^ 64 /\ a / ab_page_size b = i) ->
        dirty b' i = set) /\
       (~ (i < ab_size b /\ exists a, start <= a < start + len /\ a < 2 ^ 64 /\ a / ab_page_size b = i) ->
        dirty b' i = dirty b i)) /\
  (exists b', get_and_reset (E:=E) b = (Ok (ab_map b), b') /\ bitmap_wf b' /\ forall i, dirty b' i = false) /\
  (exists b', bitmap_reset (E:=E) b = (Ok tt, b') /\ bitmap_wf b' /\ forall i, dirty b' i = false) /\
  (ab_byte_size b + len < 2 ^ 64 ->
     exists b', bitmap_enlarge (E:=E) len b = (Ok tt, b') /\ bitmap_wf b' /\
       ab_byte_size b' = ab_byte_size b + len /\ forall i, dirty b' i = dirty b i).
Proof.
  intros Hwf Hst Hlen. pose proof (bw_page _ Hwf) as Hp. split_and!.
  - intros bs ps Hbs Hps b0. by destruct (bitmap_new_spec bs ps Hbs Hps).
  - intros addr Ha. apply is_bit_set_eq; [done|]. by apply Z.div_pos.
  - intros set. destruct (set_reset_spec (E:=E) set start len b Hwf) as (b' & R & Hwf' & Hsh & D);
      [apply Hst|apply Hlen|]. exists b'. split; [done|]. split; [done|]. split; [done|].
    intros i Hi. rewrite D, <- touches_iff by (done || apply Hlen). split.
    + intros [Hs ->]. by rewrite (proj2 (Z.ltb_lt _ _)).
    + intros Hn. destruct (touches _ _ _ _); [|done]. destruct (Z.ltb_spec i (ab_size b)); [|done].
      exfalso. by apply Hn.
  - destruct (cleared_spec (map (fun w => Z.land w 0) (ab_map b)) b Hwf) as [Hwf' Hd].
    + apply length_map.
    + apply Forall_forall. intros w (x & -> & _)%list_elem_of_fmap. apply Z.land_0_r.
    + eexists. split; [reflexivity|]. by split.
  - destruct (cleared_spec (map (fun _ => 0) (ab_map b)) b Hwf) as [Hwf' Hd].
    + apply length_map.
    + apply Forall_forall. by intros w (x & -> & _)%list_elem_of_fmap.
    + eexists. split; [reflexivity|]. by split.
  - intros Hb. destruct (enlarge_spec (E:=E) len b Hwf) as (b' & R & Hwf' & Hby & _ & D);
      [apply Hlen|done|]. by exists b'.
Qed.

(** A slice at an offset tracks the window of the bitmap that starts there. *)
Lemma slice_tracks_window {prof : Profile} {E} b base offset len :
  bitmap_wf b -> 0 <= base -> 0 <= offset -> base + offset + len < 2 ^ 64 -> 0 <= len ->
  mark_dirty (E:=E) (atomic_slice_at base) offset len b = set_addr_range (base + offset) len b /\
  dirty_at (E:=E) (atomic_slice_at base) b offset = is_addr_set b (base + offset) /\
  base_slice_at (atomic_slice_at base) offset = atomic_slice_at (base + offset).
Proof.
  intros Hwf Hb Ho Hs Hl. cbn [mark_dirty dirty_at base_slice atomic_bitmap atomic_slice_at base_slice_new
    bs_base_offset bs_inner]. unfold base_slice_at. cbn [bs_base_offset bs_inner atomic_slice_at base_slice_new].
  unfold wadd. by rewrite wrap_small by (unfold fits; lia).
Qed.

(** ** Witness *)

(** Three pages of 128 bytes; a write of four bytes across the first border. *)
Lemma bitmap_is_page_set_witness :
  let b := bitmap_new 300 128 in
  exists b', set_addr_range (E:=string) 126 4 b = (Ok tt, b') /\
    dirty b' 0 = true /\ dirty b' 1 = true /\ dirty b' 2 = false.
Proof.
  intros b. assert (bitmap_wf b) as Hwf by (apply bitmap_new_spec; [unfold fits; lia|lia]).
  destruct (bitmap_is_page_set (prof:=dev_profile) (E:=string) b 126 4 Hwf) as (_ & _ & Hset & _);
    [unfold fits; lia..|].
  destruct (Hset true) as (b' & R & _ & _ & D). exists b'. split; [exact R|]. split_and!.
  - apply (D 0); [lia|]. split; [reflexivity|]. exists 126. split_and!; (lia || reflexivity).
  - apply (D 1); [lia|]. split; [reflexivity|]. exists 128. split_and!; (lia || reflexivity).
  - assert (dirty b 2 = false) as <- by reflexivity. apply (D 2); [lia|].
    intros (_ & a & Ha & _ & Hd). change (ab_page_size b) with 128 in Hd.
    assert (a / 128 < 2) by (apply Z.div_lt_upper_bound; lia). lia.
Defined.
