(* ===== verification/HostMem.v ===== *)
(** * HostMem: host memory and volatile slices,
      [vm-memory/src/volatile_memory.rs]

    Guest memory is a block of host memory reached through raw pointers, by
    [MemoryManager] (file [GuestMem]) and by the [VolatileSlice]s that the
    descriptor readers and writers hold.  Host memory is a total map from host
    addresses to bytes, so that two pointers into one block alias as they do
    in the program. *)

From S2P Require Import Prelude Bytes.

Definition hostmem : Type := Z -> Z.

(** [ptr::copy_nonoverlapping] from and to a private buffer. *)
Definition host_read (hm : hostmem) (p : Z) (n : nat) : list Z :=
  map (fun i => hm (p + Z.of_nat i)) (seq 0 n).

Definition host_write (hm : hostmem) (p : Z) (bs : list Z) : hostmem :=
  fun a => if (p <=? a) && (a <? p + zlen bs)
           then nth (Z.to_nat (a - p)) bs 0 else hm a.

Definition hostmem_wf (hm : hostmem) : Prop := forall a, is_byte (hm a).

(** ** Errors *)

(** [std::io::Error] by its kind. *)
Inductive IoError : Type :=
| IoUnexpectedEof
| IoWriteZero
| IoInterrupted
| IoInvalidData
| IoNotFound
| IoTimedOut
| IoOsError (code : Z).

(** [err.kind() == ErrorKind::Interrupted] *)
Definition is_interrupted (e : IoError) : bool :=
  match e with IoInterrupted => true | _ => false end.

(* vm-memory/src/volatile_memory.rs:53-73, Error *)
Inductive VolatileMemoryError : Type :=
| OutOfBounds (addr : Z)
| Overflow (base offset : Z)
| TooBig (nelements size : Z)
| Misaligned (addr alignment : Z)
| IOError (e : IoError)
| PartialBuffer (expected completed : Z).

(* vm-memory/src/guest_memory.rs:61-88, Error *)
Inductive GuestMemoryError : Type :=
| InvalidGuestAddress (addr : Z)
| GmIOError (e : IoError)
| GmPartialBuffer (expected completed : Z)
| InvalidBackendAddress
| HostAddressNotAvailable
| CallbackOutOfRange
| GuestAddressOverflow.

(* vm-memory/src/guest_memory.rs:90-107, Error::from *)
Definition gm_error_from (e : VolatileMemoryError) : GuestMemoryError :=
  match e with
  | OutOfBounds _ | Overflow _ _ | TooBig _ _ | Misaligned _ _ => InvalidBackendAddress
  | IOError e => GmIOError e
  | PartialBuffer expected completed => GmPartialBuffer expected completed
  end.

(** ** [VolatileSlice]

    The bitmap of the program's slices is [()] and its [mmap] field is a
    [PhantomData]: neither is kept. *)
(* vm-memory/src/volatile_memory.rs:393-398, VolatileSlice *)
Record VolatileSlice : Type := { vs_addr : Z; vs_size : Z }.

(* vm-memory/src/volatile_memory.rs:424-436, VolatileSlice::with_bitmap *)
Definition vs_with_bitmap (addr size : Z) : VolatileSlice :=
  {| vs_addr := addr; vs_size := size |}.

(* vm-memory/src/volatile_memory.rs:449-451, VolatileSlice::len *)
Definition vs_len (vs : VolatileSlice) : Z := vs_size vs.
(* vm-memory/src/volatile_memory.rs:454-456, VolatileSlice::is_empty *)
Definition vs_is_empty (vs : VolatileSlice) : bool := vs_size vs =? 0.

(* vm-memory/src/volatile_memory.rs:93-98, compute_offset *)
Definition compute_offset (base offset : Z) : out VolatileMemoryError Z :=
  match checked_add 64 base offset with
  | None => Err (Overflow base offset)
  | Some m => Ok m
  end.

(* vm-memory/src/volatile_memory.rs:291-297, VolatileMemory::compute_end_offset *)
Definition compute_end_offset (len base offset : Z) : out VolatileMemoryError Z :=
  mem_end ← compute_offset base offset;
  if len <? mem_end then Err (OutOfBounds mem_end) else Ok mem_end.

(* vm-memory/src/volatile_memory.rs:494-507, VolatileSlice::subslice *)
Definition vs_subslice (vs : VolatileSlice) (offset count : Z) :
    out VolatileMemoryError VolatileSlice :=
  _ ← compute_end_offset (vs_len vs) offset count;
  Ok (vs_with_bitmap (vs_addr vs + offset) count).

(* vm-memory/src/volatile_memory.rs:514-535, VolatileSlice::offset *)
Definition vs_offset (vs : VolatileSlice) (count : Z) :
    out VolatileMemoryError VolatileSlice :=
  new_addr ← ok_or (checked_add 64 (vs_addr vs) count) (Overflow (vs_addr vs) count);
  new_size ← ok_or (checked_sub (vs_size vs) count) (OutOfBounds new_addr);
  Ok (vs_with_bitmap (vs_addr vs + count) new_size).

(* vm-memory/src/volatile_memory.rs:480-487, VolatileSlice::split_at *)
Definition vs_split_at (vs : VolatileSlice) (mid : Z) :
    out VolatileMemoryError (VolatileSlice * VolatileSlice) :=
  end_ ← vs_offset vs mid;
  Ok (vs_with_bitmap (vs_addr vs) mid, end_).

(** ** [copy_slice_impl]

    [alignment] is [addr & (!addr + 1)]; at address 0 the addition overflows. *)
(* vm-memory/src/volatile_memory.rs:1309-1312, alignment *)
Definition alignment {prof : Profile} {E} (addr : Z) : out E Z :=
  n ← uadd 64 (wnot 64 addr) 1;
  Ok (Z.land addr n).

(** One volatile read and write of an [align]-byte integer. *)
(* vm-memory/src/volatile_memory.rs:1322-1330, copy_single *)
Definition copy_single (align : nat) (src dst : Z) (hm : hostmem) : hostmem :=
  host_write hm dst (le_bytes align (le_val (host_read hm src align))).

(** The [while left >= min_align] loop of the closure [copy_aligned_slice]; the
    state is [(dst, src, left)] of the enclosing function.  [left] decreases
    by at least one per turn, so [left] turns are enough. *)
(* vm-memory/src/volatile_memory.rs:1341-1370, copy_aligned_slice *)
Fixpoint copy_aligned_loop (fuel : nat) (min_align : nat)
    (dst src left : Z) (hm : hostmem) : Z * Z * Z * hostmem :=
  match fuel with
  | O => (dst, src, left, hm)
  | S fuel' =>
      if Z.of_nat min_align <=? left then
        let hm' := copy_single min_align src dst hm in
        let left' := left - Z.of_nat min_align in
        if left' =? 0 then (dst, src, left', hm')
        else copy_aligned_loop fuel' min_align
               (dst + Z.of_nat min_align) (src + Z.of_nat min_align) left' hm'
      else (dst, src, left, hm)
  end.

(* vm-memory/src/volatile_memory.rs:1341-1346, copy_aligned_slice *)
Definition copy_aligned_slice (align : Z) (min_align : nat)
    (st : Z * Z * Z * hostmem) : Z * Z * Z * hostmem :=
  let '(dst, src, left_, hm) := st in
  if align <? Z.of_nat min_align then st
  else copy_aligned_loop (Z.to_nat left_) min_align dst src left_ hm.

(* vm-memory/src/volatile_memory.rs:1336-1382, copy_slice_volatile *)
Definition copy_slice_volatile {prof : Profile} {E} (dst src total : Z) (hm : hostmem) :
    out E (Z * hostmem) :=
  a_src ← alignment src;
  a_dst ← alignment dst;
  let align := Z.min a_src a_dst in
  let '(_, _, _, hm') :=
    copy_aligned_slice align 1 (copy_aligned_slice align 2
      (copy_aligned_slice align 4 (copy_aligned_slice align 8 (dst, src, total, hm)))) in
  Ok (total, hm').

(* vm-memory/src/volatile_memory.rs:1388-1407, copy_slice *)
Definition copy_slice {prof : Profile} {E} (dst src total : Z) (hm : hostmem) :
    out E (Z * hostmem) :=
  if total <=? 8 then
    r ← copy_slice_volatile dst src total hm;
    Ok (total, snd r)
  else Ok (total, host_write hm dst (host_read hm src (Z.to_nat total))).

(** ** Lemmas: host memory *)

Section hostmem_lemmas.
Implicit Types (hm : hostmem) (p q a : Z) (bs : list Z).

Lemma length_host_read hm p n : length (host_read hm p n) = n.
Proof. unfold host_read. by rewrite length_map, length_seq. Qed.

Lemma lookup_host_read hm p n i :
  host_read hm p n !! i = if decide (i < n)%nat then Some (hm (p + Z.of_nat i)) else None.
Proof.
  unfold host_read. rewrite list_lookup_fmap. case_decide.
  - by rewrite lookup_seq_lt by done.
  - by rewrite lookup_seq_ge by lia.
Qed.

Lemma host_read_ext hm hm' p n :
  (forall a, p <= a < p + Z.of_nat n -> hm a = hm' a) ->
  host_read hm p n = host_read hm' p n.
Proof.
  intros H. apply list_eq. intros i. rewrite !lookup_host_read.
  case_decide; [|done]. by rewrite H by lia.
Qed.

Lemma host_read_add hm p n m :
  host_read hm p (n + m) = host_read hm p n ++ host_read hm (p + Z.of_nat n) m.
Proof.
  apply list_eq. intros i. rewrite lookup_host_read.
  destruct (decide (i < n)%nat).
  - rewrite lookup_app_l, lookup_host_read by (rewrite length_host_read; lia).
    by rewrite !decide_True by lia.
  - rewrite lookup_app_r, lookup_host_read, length_host_read
      by (rewrite length_host_read; lia).
    case_decide; [rewrite decide_True by lia | by rewrite decide_False by lia].
    do 2 f_equal. lia.
Qed.

Lemma take_host_read hm p n k :
  (k <= n)%nat -> take k (host_read hm p n) = host_read hm p k.
Proof.
  intros. replace n with (k + (n - k))%nat by lia. rewrite host_read_add.
  by rewrite take_app_length' by (by rewrite length_host_read).
Qed.

Lemma drop_host_read hm p n k :
  (k <= n)%nat -> drop k (host_read hm p n) = host_read hm (p + Z.of_nat k) (n - k).
Proof.
  intros. replace n with (k + (n - k))%nat at 1 by lia. rewrite host_read_add.
  by rewrite drop_app_length' by (by rewrite length_host_read).
Qed.

Lemma host_read_bytes hm p n : hostmem_wf hm -> bytes_ok (host_read hm p n).
Proof.
  intros H. apply Forall_forall. intros x Hx.
  apply list_elem_of_lookup in Hx as [i Hi]. rewrite lookup_host_read in Hi.
  case_decide; [|done]. injection Hi as <-. apply H.
Qed.

Lemma host_write_in hm p bs a b :
  p <= a -> bs !! Z.to_nat (a - p) = Some b -> host_write hm p bs a = b.
Proof.
  intros Ha Hb. unfold host_write.
  pose proof (lookup_lt_Some _ _ _ Hb). unfold zlen.
  rewrite (proj2 (Z.leb_le _ _)), (proj2 (Z.ltb_lt _ _)) by lia. simpl.
  by apply nth_lookup_Some.
Qed.

Lemma host_write_out hm p bs a :
  a < p \/ p + zlen bs <= a -> host_write hm p bs a = hm a.
Proof.
  intros H. unfold host_write.
  destruct (Z.leb_spec p a), (Z.ltb_spec a (p + zlen bs)); simpl; done || lia.
Qed.

Lemma host_write_ext hm hm' p bs a :
  hm a = hm' a -> host_write hm p bs a = host_write hm' p bs a.
Proof. intros H. unfold host_write. by rewrite H. Qed.

Lemma host_read_write hm p bs : host_read (host_write hm p bs) p (length bs) = bs.
Proof.
  apply list_eq. intros i. rewrite lookup_host_read. case_decide.
  - destruct (lookup_lt_is_Some_2 bs i ltac:(done)) as [b Hb]. rewrite Hb. f_equal.
    apply host_write_in; [lia|]. by replace (p + Z.of_nat i - p) with (Z.of_nat i) by lia;
      rewrite Nat2Z.id.
  - symmetry. apply lookup_ge_None. lia.
Qed.

Lemma host_read_write_at hm p bs n : n = length bs -> host_read (host_write hm p bs) p n = bs.
Proof. intros ->. apply host_read_write. Qed.

Lemma host_read_write_disjoint hm p bs q n :
  q + Z.of_nat n <= p \/ p + zlen bs <= q ->
  host_read (host_write hm p bs) q n = host_read hm q n.
Proof. intros H. apply host_read_ext. intros a Ha. apply host_write_out. lia. Qed.

Lemma host_write_wf hm p bs : hostmem_wf hm -> bytes_ok bs -> hostmem_wf (host_write hm p bs).
Proof.
  intros H Hbs a. unfold host_write. case_match; [|done].
  destruct (nth_lookup_or_length bs (Z.to_nat (a - p)) 0) as [Hl|Hl].
  - by eapply Forall_lookup_1 in Hl.
  - apply andb_prop in H0 as [?%Z.leb_le ?%Z.ltb_lt]. unfold zlen in *. lia.
Qed.

Lemma host_write_app hm p bs cs a :
  host_write hm p (bs ++ cs) a = host_write (host_write hm p bs) (p + zlen bs) cs a.
Proof.
  unfold host_write, zlen. rewrite length_app.
  destruct (Z.leb_spec p a), (Z.ltb_spec a (p + Z.of_nat (length bs + length cs))),
    (Z.leb_spec (p + Z.of_nat (length bs)) a),
    (Z.ltb_spec a (p + Z.of_nat (length bs) + Z.of_nat (length cs))),
    (Z.ltb_spec a (p + Z.of_nat (length bs))); simpl; try lia; try done.
  - rewrite app_nth2 by lia. f_equal. lia.
  - rewrite app_nth1 by lia. done.
Qed.

End hostmem_lemmas.
#[export] Hint Resolve host_read_bytes host_write_wf : whypa.
#[export] Hint Rewrite length_host_read : buffer_len.

(** ** Lemmas: slices *)

Definition vs_wf (vs : VolatileSlice) : Prop :=
  0 <= vs_addr vs /\ 0 <= vs_size vs /\ vs_addr vs + vs_size vs < 2 ^ 64.

Lemma vs_offset_ok vs n :
  vs_wf vs -> 0 <= n <= vs_size vs ->
  vs_offset vs n = Ok {| vs_addr := vs_addr vs + n; vs_size := vs_size vs - n |}.
Proof.
  intros (?&?&?) Hn. unfold vs_offset, ok_or, checked_add, checked_sub.
  rewrite (proj2 (Z.ltb_lt _ _)), (proj2 (Z.leb_le _ _)) by lia. done.
Qed.

Lemma vs_subslice_ok vs off n :
  vs_wf vs -> 0 <= off -> 0 <= n -> off + n <= vs_size vs ->
  vs_subslice vs off n = Ok {| vs_addr := vs_addr vs + off; vs_size := n |}.
Proof.
  intros (?&?&?) ???. unfold vs_subslice, compute_end_offset, compute_offset, checked_add, vs_len.
  rewrite (proj2 (Z.ltb_lt _ _)) by lia. cbn.
  by rewrite (proj2 (Z.ltb_ge _ _)) by lia.
Qed.

(** ** [copy_slice] copies like [memcpy] *)

Lemma alignment_pos {prof : Profile} {E} addr :
  0 < addr < 2 ^ 64 -> exists al, alignment (E:=E) addr = Ok al /\ 1 <= al.
Proof.
  intros Ha. exists (Z.land addr (wnot 64 addr + 1)). split.
  { unfold alignment. rewrite uadd_ok by (unfold wnot; lia). done. }
  unfold wnot. replace (2 ^ 64 - 1 - addr + 1) with (2 ^ 64 - addr) by lia.
  assert (0 <= Z.land addr (2 ^ 64 - addr)) by (apply Z.land_nonneg; lia).
  destruct (decide (Z.land addr (2 ^ 64 - addr) = 0)) as [H0|]; [|lia].
  exfalso. apply Z.add_nocarry_lxor in H0 as Hx.
  rewrite Z.lxor_lor in Hx by done.
  assert (fits 64 (Z.lor addr (2 ^ 64 - addr))) as [_ ?]
    by (apply fits_lor; [lia | unfold fits; lia | unfold fits; lia]).
  lia.
Qed.

Section copy.
Context (hm0 : hostmem) (dst0 src0 total : Z).
Hypothesis wf : hostmem_wf hm0.
Hypothesis disjoint : dst0 + total <= src0 \/ src0 + total <= dst0.

(** The first [done] bytes are copied and the cursors stand after them. *)
Definition copied (st : Z * Z * Z * hostmem) : Prop :=
  let '(dst, src, left_, hm) := st in
  exists n : nat,
    left_ = total - Z.of_nat n /\ 0 <= left_ /\
    (left_ <> 0 -> dst = dst0 + Z.of_nat n /\ src = src0 + Z.of_nat n) /\
    forall a, hm a = host_write hm0 dst0 (host_read hm0 src0 n) a.

Lemma copy_single_step (m n : nat) hm a :
  Z.of_nat n + Z.of_nat m <= total ->
  (forall a, hm a = host_write hm0 dst0 (host_read hm0 src0 n) a) ->
  copy_single m (src0 + Z.of_nat n) (dst0 + Z.of_nat n) hm a =
    host_write hm0 dst0 (host_read hm0 src0 (n + m)) a.
Proof.
  intros Hn Hhm. unfold copy_single.
  assert (host_read hm (src0 + Z.of_nat n) m = host_read hm0 (src0 + Z.of_nat n) m) as ->.
  { apply host_read_ext. intros b Hb. rewrite Hhm. apply host_write_out.
    unfold zlen. rewrite length_host_read. lia. }
  assert (le_bytes m (le_val (host_read hm0 (src0 + Z.of_nat n) m))
          = host_read hm0 (src0 + Z.of_nat n) m) as ->.
  { rewrite <- (length_host_read hm0 (src0 + Z.of_nat n) m) at 1.
    apply le_bytes_le_val. by apply host_read_bytes. }
  rewrite host_read_add, host_write_app.
  replace (zlen (host_read hm0 src0 n)) with (Z.of_nat n)
    by (unfold zlen; by rewrite length_host_read).
  apply host_write_ext, Hhm.
Qed.

Lemma copy_aligned_loop_copied (m fuel : nat) dst src left_ hm :
  (1 <= m)%nat -> left_ <= Z.of_nat fuel -> copied (dst, src, left_, hm) ->
  copied (copy_aligned_loop fuel m dst src left_ hm) /\
  (let '(_, _, l, _) := copy_aligned_loop fuel m dst src left_ hm in l < Z.of_nat m).
Proof.
  intros Hm. revert dst src left_ hm.
  induction fuel as [|fuel IH]; intros dst src left_ hm Hf Hc; simpl.
  - split; [done|]. destruct Hc as (n&?&?&_). lia.
  - destruct (Z.leb_spec (Z.of_nat m) left_); [|split; [done|lia]].
    destruct Hc as (n & Hl & Hl0 & Hcur & Hhm).
    destruct (Hcur ltac:(lia)) as [-> ->].
    assert (forall a, copy_single m (src0 + Z.of_nat n) (dst0 + Z.of_nat n) hm a
            = host_write hm0 dst0 (host_read hm0 src0 (n + m)) a) as Hs
      by (intros; apply copy_single_step; [lia|done]).
    case_Z.
    + split; [|lia]. exists (n + m)%nat. split; [lia|]. split; [lia|].
      split; [lia|]. exact Hs.
    + apply IH; [lia|]. exists (n + m)%nat. split; [lia|]. split; [lia|].
      split; [lia|]. exact Hs.
Qed.

Lemma copy_aligned_slice_copied al (m : nat) st :
  (1 <= m)%nat -> copied st ->
  copied (copy_aligned_slice al m st) /\
  (Z.of_nat m <= al ->
   let '(_, _, l, _) := copy_aligned_slice al m st in l < Z.of_nat m).
Proof.
  intros Hm Hc. destruct st as [[[dst src] left_] hm]. unfold copy_aligned_slice.
  destruct (Z.ltb_spec al (Z.of_nat m)); [split; [done|lia]|].
  destruct (copy_aligned_loop_copied m (Z.to_nat left_) dst src left_ hm) as [H1 H2];
    [done| lia | done |]. split; [done|]. intros _. exact H2.
Qed.

End copy.

Lemma copy_slice_volatile_spec {prof : Profile} {E} hm dst src total :
  hostmem_wf hm -> 0 < dst < 2 ^ 64 -> 0 < src < 2 ^ 64 -> 0 <= total ->
  dst + total <= src \/ src + total <= dst ->
  exists hm', copy_slice_volatile (E:=E) dst src total hm = Ok (total, hm') /\
    forall a, hm' a = host_write hm dst (host_read hm src (Z.to_nat total)) a.
Proof.
  intros Hwf Hd Hs Ht Hdis. unfold copy_slice_volatile.
  destruct (alignment_pos (E:=E) src Hs) as (al1&->&?).
  destruct (alignment_pos (E:=E) dst Hd) as (al2&->&?). cbn [mbind out_bind].
  set (al := Z.min al1 al2). assert (1 <= al) by lia.
  assert (copied hm dst src total (dst, src, total, hm)) as Hc0.
  { exists 0%nat. split; [lia|]. split; [lia|]. split; [lia|].
    intros a. symmetry. apply host_write_out.
    unfold zlen. simpl. lia. }
  eapply (copy_aligned_slice_copied _ _ _ _ Hwf Hdis al 8) in Hc0 as [C8 _]; [|lia].
  eapply (copy_aligned_slice_copied _ _ _ _ Hwf Hdis al 4) in C8 as [C4 _]; [|lia].
  eapply (copy_aligned_slice_copied _ _ _ _ Hwf Hdis al 2) in C4 as [C2 _]; [|lia].
  eapply (copy_aligned_slice_copied _ _ _ _ Hwf Hdis al 1) in C2 as [C1 Hend]; [|lia].
  specialize (Hend ltac:(lia)).
  destruct (copy_aligned_slice al 1 _) as [[[d s] l] hm'].
  exists hm'. split; [done|]. destruct C1 as (n & Hl & Hl0 & _ & Hhm). intros a.
  replace (Z.to_nat total) with n by lia. apply Hhm.
Qed.

Lemma copy_slice_ok {prof : Profile} {E} hm dst src total :
  hostmem_wf hm -> 0 < dst < 2 ^ 64 -> 0 < src < 2 ^ 64 -> 0 <= total ->
  dst + total <= src \/ src + total <= dst ->
  exists hm', copy_slice (E:=E) dst src total hm = Ok (total, hm') /\
    forall a, hm' a = host_write hm dst (host_read hm src (Z.to_nat total)) a.
Proof.
  intros Hwf Hd Hs Ht Hdis. unfold copy_slice. case_Z.
  - destruct (copy_slice_volatile_spec (E:=E) hm dst src total) as (hm' & -> & Hhm); [done..|].
    exists hm'. by split.
  - eexists. split; [done|]. done.
Qed.

(** C35: the copy routine of the volatile slices, which moves up to eight bytes
    by aligned 8/4/2/1-byte volatile accesses and longer ranges by
    [copy_nonoverlapping], writes exactly the source bytes to the destination
    and nothing else, whatever the alignment of the two pointers. *)
Theorem copy_slice_memcpy {prof : Profile} {E} hm dst src total :
  hostmem_wf hm -> 0 < dst < 2 ^ 64 -> 0 < src < 2 ^ 64 -> 0 <= total ->
  dst + total <= src \/ src + total <= dst ->
  exists hm', copy_slice (E:=E) dst src total hm = Ok (total, hm') /\
    forall a, hm' a = host_write hm dst (host_read hm src (Z.to_nat total)) a.
Proof. apply copy_slice_ok. Qed.

Lemma copy_slice_memcpy_witness :
  exists hm', copy_slice (prof:=dev_profile) (E:=unit) 4100 8193 7 (fun a => a mod 256)
                = Ok (7, hm') /\ forall a, hm' a = host_write (fun a => a mod 256) 4100
                        (host_read (fun a => a mod 256) 8193 (Z.to_nat 7)) a.
Proof.
  apply (copy_slice_memcpy (prof:=dev_profile) (E:=unit) (fun a => a mod 256) 4100 8193 7).
  - intros a. apply Z.mod_pos_bound. lia.
  - lia.
  - lia.
  - lia.
  - lia.
Defined.
