(* ===== verification/Gvproxy.v ===== *)
(** * Gvproxy: the network proxy's process, [net/gvproxy.rs]

    The proxy is looked up, spawned with its pipes and waited for through its
    pid file; its owner kills it when dropped.  Processes, files and the clock
    are the host's.  The file also holds the table of error numbers of
    [bindings.rs]. *)

From S2P Require Import Prelude HostMem.

(** ** The host *)

(** [std::process], [std::fs], [std::time] and the [which] crate on a state
    [W]: times in milliseconds, a child by its process id.  [Child::kill] and
    [remove_file] say whether they succeeded; [Child::wait] is [None] when it
    never returns. *)
Class ProcHost (W : Type) : Type := {
  current_exe : W -> option string;
  path_parent : string -> option string;
  path_join : string -> string -> string;
  path_exists : string -> W -> bool;
  which : string -> W -> option string;
  temp_dir : W -> string;
  process_id : W -> string;
  spawn_child : string -> list string -> W -> (Z + IoError) * W;
  instant_now : W -> Z;
  thread_sleep : Z -> W -> W;
  child_kill : Z -> W -> bool * W;
  child_wait : Z -> W -> option W;
  remove_file : string -> W -> bool * W;
}.

(** The pipes are taken once. *)
(* src/devices/virtio/net/gvproxy.rs:16-20, GvProxy *)
Record GvProxy : Type := {
  gp_child : Z;
  gp_stdin : bool;
  gp_stdout : bool;
  gp_pid_file : string;
  gp_log_file : string;
}.

Section gvproxy.
Context {W : Type} `{!ProcHost W}.

(* src/devices/virtio/net/gvproxy.rs:91-105, find_gvproxy *)
Definition find_gvproxy (w : W) : option string :=
  let candidate :=
    exe ← current_exe w;
    let candidate := path_join (default "."%string (path_parent exe)) "gvproxy.exe" in
    if path_exists candidate w then Some candidate else None in
  match candidate with
  | Some candidate => Some candidate
  | None => which "gvproxy" w
  end.

(** The arguments, the pipes apart. *)
Definition gvproxy_args (pid_file log_file : string) : list string :=
  ["-listen-stdio"; "accept"; "-pid-file"; pid_file; "-log-file"; log_file]%string.

(* src/devices/virtio/net/gvproxy.rs:61-66, GvProxy::spawn *)
Fixpoint wait_ready (fuel : nat) (deadline : Z) (pid_file : string) : M W IoError unit :=
  match fuel with
  | O => lift NoFuel
  | S fuel' =>
      now ← gets instant_now;
      if now <? deadline then
        ready ← gets (path_exists pid_file);
        if ready : bool then mret tt
        else
          _ ← modify (thread_sleep 20);
          wait_ready fuel' deadline pid_file
      else mret tt
  end.

(** The [Child] of the standard library is not killed when it is dropped. *)
(* src/devices/virtio/net/gvproxy.rs:34-77, GvProxy::spawn *)
Definition gvproxy_spawn (fuel : nat) : M W IoError GvProxy :=
  found ← gets find_gvproxy;
  gvproxy ← lift (ok_or found IoNotFound);
  dir ← gets temp_dir;
  pid ← gets process_id;
  let pid_file := path_join dir ("gvproxy-" +:+ (pid +:+ ".pid"))%string in
  let log_file := path_join dir ("gvproxy-" +:+ (pid +:+ ".log"))%string in
  r ← (fun w => let '(r, w') := spawn_child gvproxy (gvproxy_args pid_file log_file) w in (Ok r, w'));
  match r with
  | inr e => throw e
  | inl child =>
      now ← gets instant_now;
      _ ← wait_ready fuel (now + 5000) pid_file;
      ready ← gets (path_exists pid_file);
      if ready : bool then
        mret {| gp_child := child; gp_stdin := true; gp_stdout := true;
                gp_pid_file := pid_file; gp_log_file := log_file |}
      else throw IoTimedOut
  end.

(* src/devices/virtio/net/gvproxy.rs:23-25, GvProxy::stdout *)
Definition gvproxy_stdout (g : GvProxy) : bool * GvProxy :=
  (gp_stdout g, {| gp_child := gp_child g; gp_stdin := gp_stdin g; gp_stdout := false;
                   gp_pid_file := gp_pid_file g; gp_log_file := gp_log_file g |}).
(* src/devices/virtio/net/gvproxy.rs:27-29, GvProxy::stdin *)
Definition gvproxy_stdin (g : GvProxy) : bool * GvProxy :=
  (gp_stdin g, {| gp_child := gp_child g; gp_stdin := false; gp_stdout := gp_stdout g;
                  gp_pid_file := gp_pid_file g; gp_log_file := gp_log_file g |}).

(** The results are dropped.  [None]: the destructor waits for ever. *)
(* src/devices/virtio/net/gvproxy.rs:81-88, GvProxy::drop *)
Definition gvproxy_drop (g : GvProxy) (w : W) : option W :=
  let w := (child_kill (gp_child g) w).2 in
  w ← child_wait (gp_child g) w;
  Some (remove_file (gp_pid_file g) w).2.

End gvproxy.

(** ** Error numbers *)

(** A second arm for 5 is never reached. *)
(* src/devices/virtio/bindings.rs:29-58, win_to_linux_errno *)
Definition win_to_linux_errno (win_err : Z) : Z :=
  let any := existsb (Z.eqb win_err) in
  if any [0] then 0
  else if any [1; 1314] then 1
  else if any [2; 3] then 2
  else if any [5] then 13
  else if any [5; 6; 21] then 6
  else if any [1117] then 5
  else if any [112] then 28
  else if any [4] then 24
  else if any [8; 14] then 12
  else if any [80; 183] then 17
  else if any [87; 161] then 22
  else if any [145] then 39
  else if any [120] then 38
  else if any [4331] then 61
  else 5.

(** Success and only success maps to 0. *)
Lemma win_to_linux_errno_success win_err : win_to_linux_errno win_err = 0 <-> win_err = 0.
Proof.
  unfold win_to_linux_errno. cbn [existsb]. split; [|by intros ->].
  repeat match goal with
  | |- context [Z.eqb win_err ?n] => destruct (Z.eqb_spec win_err n); cbn [orb]; [by intros|]
  end.
  by intros.
Qed.

(** ** What is assumed of the host

    [running] are the processes that the program has started and that still
    run.  Any of them may end by itself at any moment, so that a call leaves
    some of those there were; only [spawn] adds one. *)
Class ProcHostLaws (W : Type) `{!ProcHost W} : Type := {
  running : W -> gset Z;
  (** time passes while a thread sleeps *)
  ph_sleep d w : 0 <= d -> instant_now w + d <= instant_now (thread_sleep d w);
  ph_sleep_running d w : running (thread_sleep d w) ⊆ running w;
  ph_spawn path args w :
    match spawn_child path args w with
    | (inl child, w') => (child ∉ running w) /\ running w' ⊆ {[child]} ∪ running w
    | (inr _, w') => running w' ⊆ running w
    end;
  (** "Forces the child process to exit", so that a wait for it returns *)
  ph_kill child w :
    running (child_kill child w).2 ⊆ running w /\
    ((child_kill child w).1 = true -> is_Some (child_wait child (child_kill child w).2));
  (** "Waits for the child to exit completely" *)
  ph_wait child w w' :
    child_wait child w = Some w' -> (child ∉ running w') /\ running w' ⊆ running w;
  (** the directory entry is gone when the call succeeds *)
  ph_remove path w :
    running (remove_file path w).2 ⊆ running w /\
    ((remove_file path w).1 = true -> path_exists path (remove_file path w).2 = false);
}.

Section laws.
Context {W : Type} `{!ProcHost W, !ProcHostLaws W}.

(** [n] rounds of the wait. *)
Definition sleeps (n : nat) (w : W) : W := Nat.iter n (thread_sleep 20) w.

Lemma sleeps_S n w : sleeps n (thread_sleep 20 w) = sleeps (S n) w.
Proof. unfold sleeps. by rewrite <- Nat.iter_succ_r. Qed.

Lemma sleeps_running n w : running (sleeps n w) ⊆ running w.
Proof.
  induction n as [|n IH]; [done|]. cbn [sleeps Nat.iter]. etransitivity; [apply ph_sleep_running|exact IH].
Qed.

(** The wait does nothing but sleep, until the pid file is there or the
    deadline has passed. *)
Lemma wait_ready_ends fuel deadline pid_file : forall w : W,
  deadline - instant_now w <= 20 * Z.of_nat fuel ->
  exists n, wait_ready (S fuel) deadline pid_file w = (Ok tt, sleeps n w) /\
    (path_exists pid_file (sleeps n w) = true \/ deadline <= instant_now (sleeps n w)).
Proof.
  induction fuel as [|fuel IH]; intros w Hf; cbn [wait_ready];
    run_St; destruct (Z.ltb_spec (instant_now w) deadline) as [Hlt|Hge];
    try (exists O; split; [done|by right]).
  - lia.
  - destruct (path_exists pid_file w) eqn:Ee; [exists O; split; [done|by left]|].
    destruct (IH (thread_sleep 20 w)) as (n & Hw & Hr).
    + pose proof (ph_sleep 20 w ltac:(lia)). lia.
    + exists (S n). rewrite <- sleeps_S. by split.
Qed.

(** The destructor: it comes to an end when the kill succeeds, and then the
    process has ended. *)
Lemma gvproxy_drop_ends g w :
  ((child_kill (gp_child g) w).1 = true -> is_Some (gvproxy_drop g w)) /\
  (forall w', gvproxy_drop g w = Some w' -> (gp_child g ∉ running w') /\ running w' ⊆ running w).
Proof.
  unfold gvproxy_drop. destruct (ph_kill (gp_child g) w) as [Hk Hr]. split.
  - intros [w1 Hw]%Hr. rewrite Hw. by eexists.
  - intros w' (w1 & Hw & [= <-])%bind_Some. apply ph_wait in Hw as [Hn Hs].
    destruct (ph_remove (gp_pid_file g) w1) as [Hm _]. set_solver.
Qed.

End laws.

(** ** Properties *)

(** C36: the proxy's process from its start to its end.  The start always comes
    to an end, 251 looks at the pid file being enough for its five seconds, and
    has one of four outcomes: no program is found and nothing was done; the
    spawn fails; the pid file shows up, and the proxy owns the one process that
    was started; or it does not within the five seconds, and the start fails
    having done nothing but sleep since the spawn: a process that does not end
    by itself is left running, with no owner.  Dropping the proxy ends its
    process: it comes to an end when the kill succeeds, whenever it does the
    process no longer runs, and no process is started. *)
Theorem gvproxy_lifecycle {W : Type} `{!ProcHost W, !ProcHostLaws W} (fuel : nat) (w : W) :
  (251 <= fuel)%nat ->
  let file ext := path_join (temp_dir w) ("gvproxy-" +:+ (process_id w +:+ ext)) in
  let pid_file := file ".pid"%string in
  match find_gvproxy w with
  | None => gvproxy_spawn fuel w = (Err IoNotFound, w)
  | Some path =>
      match spawn_child path (gvproxy_args pid_file (file ".log"%string)) w with
      | (inr e, w1) => gvproxy_spawn fuel w = (Err e, w1)
      | (inl child, w1) =>
          exists n, let w2 := sleeps n w1 in
            gvproxy_spawn fuel w =
              ((if path_exists pid_file w2
                then Ok {| gp_child := child; gp_stdin := true; gp_stdout := true;
                           gp_pid_file := pid_file; gp_log_file := file ".log"%string |}
                else Err IoTimedOut), w2) /\
            (path_exists pid_file w2 = false -> instant_now w1 + 5000 <= instant_now w2) /\
            (child ∉ running w) /\ running w2 ⊆ {[child]} ∪ running w /\
            ((forall d u, child ∈ running u -> child ∈ running (thread_sleep d u)) ->
             child ∈ running w1 -> child ∈ running w2)
      end
  end /\
  (forall g u, ((child_kill (gp_child g) u).1 = true -> is_Some (gvproxy_drop g u)) /\
     forall u', gvproxy_drop g u = Some u' -> (gp_child g ∉ running u') /\ running u' ⊆ running u).
Proof.
  intros Hf file pid_file. split; [|apply gvproxy_drop_ends].
  unfold gvproxy_spawn. run_St. destruct (find_gvproxy w) as [path|]; [|done].
  pose proof (ph_spawn path (gvproxy_args pid_file (file ".log"%string)) w) as Hs.
  change (path_join (temp_dir w) ("gvproxy-" +:+ (process_id w +:+ ".pid"))) with pid_file.
  change (path_join (temp_dir w) ("gvproxy-" +:+ (process_id w +:+ ".log"))) with (file ".log"%string).
  cbn [ok_or lift]. destruct (spawn_child path _ w) as [[child|e] w1]; [|done]. destruct Hs as [Hnew Hs].
  destruct fuel as [|fuel]; [lia|].
  destruct (wait_ready_ends fuel (instant_now w1 + 5000) pid_file w1) as (n & Hw & He); [lia|].
  exists n. cbv zeta. cbn [fst snd]. rewrite Hw. split_and!.
  - by destruct (path_exists pid_file (sleeps n w1)).
  - intros Hn. destruct He as [He|He]; [congruence|done].
  - done.
  - etransitivity; [apply sleeps_running|done].
  - intros Hkeep Hin. clear -Hkeep Hin. induction n as [|n IH]; [done|]. by apply Hkeep.
Qed.

(** *** Witness *)

(** A host whose state is the clock, the running processes and the files; a
    proxy that is [quick] writes its pid file at once, another one never. *)
Definition proxy_host (quick : bool) : ProcHost (Z * gset Z * gset string) := {|
  current_exe _ := None; path_parent _ := None; path_join a b := a +:+ ("/" +:+ b);
  path_exists p w := bool_decide (p ∈ w.2); which _ _ := Some "gvproxy"%string;
  temp_dir _ := "/tmp"%string; process_id _ := "1"%string;
  spawn_child _ args w := let child := fresh w.1.2 in
    (inl child, (w.1.1, {[child]} ∪ w.1.2,
       if quick then {[nth 3 args ""%string]} ∪ w.2 else w.2));
  instant_now w := w.1.1; thread_sleep d w := (w.1.1 + d, w.1.2, w.2);
  child_kill child w := (true, (w.1.1, w.1.2 ∖ {[child]}, w.2));
  child_wait child w := if bool_decide (child ∈ w.1.2) then None else Some w;
  remove_file p w := (true, (w.1, w.2 ∖ {[p]}));
|}.

Definition proxy_host_laws quick : ProcHostLaws (ProcHost0:=proxy_host quick) (Z * gset Z * gset string).
Proof.
  refine {| running w := w.1.2 |}; cbn; try done.
  - intros _ args w. split; [apply is_fresh|done].
  - intros child w. split; [set_solver|]. intros _. rewrite bool_decide_eq_false_2 by set_solver. by eexists.
  - intros child w w'. case_bool_decide; [done|]. by intros [= <-].
  - intros p w. split; [done|]. intros _. apply bool_decide_eq_false. set_solver.
Defined.

Lemma proxy_sleeps quick n w :
  sleeps (ProcHost0:=proxy_host quick) n w = (w.1.1 + 20 * Z.of_nat n, w.1.2, w.2).
Proof.
  induction n as [|n IH]; [destruct w as [[t r] f]; cbn; by rewrite Z.add_0_r|].
  change (sleeps (ProcHost0:=proxy_host quick) (S n) w) with
    (@thread_sleep _ (proxy_host quick) 20 (sleeps (ProcHost0:=proxy_host quick) n w)). rewrite IH. cbn [thread_sleep proxy_host fst snd].
  do 2 f_equal. lia.
Qed.

(** A proxy that comes up and is dropped, and one that never comes up. *)
Lemma gvproxy_lifecycle_witness :
  (exists g w' w'', gvproxy_spawn (ProcHost0:=proxy_host true) 251 (0, ∅, ∅) = (Ok g, w') /\
    gvproxy_drop (ProcHost0:=proxy_host true) g w' = Some w'' /\ (gp_child g ∉ w''.1.2)) /\
  (exists child w', gvproxy_spawn (ProcHost0:=proxy_host false) 251 (0, ∅, ∅) = (Err IoTimedOut, w') /\
    child ∈ w'.1.2).
Proof.
  split.
  - destruct (gvproxy_lifecycle (ProcHost0:=proxy_host true) (ProcHostLaws0:=proxy_host_laws true)
      251 (0, ∅, ∅) ltac:(lia)) as [(n & Hs & _) Hd]. cbv zeta in Hs. rewrite proxy_sleeps in Hs.
    match type of Hs with _ = (if ?b then _ else _, _) =>
      assert (b = true) as Hb by (vm_compute; reflexivity); rewrite Hb in Hs end.
    match type of Hs with _ = (Ok ?g, ?u) => destruct (Hd g u) as [Hk Hn]; exists g, u end.
    destruct Hk as [w'' Hw]; [reflexivity|]. exists w''. split; [exact Hs|]. split; [exact Hw|].
    apply (Hn w'' Hw).
  - destruct (gvproxy_lifecycle (ProcHost0:=proxy_host false) (ProcHostLaws0:=proxy_host_laws false)
      251 (0, ∅, ∅) ltac:(lia)) as [(n & Hs & _ & _ & _ & Hin) _]. cbv zeta in Hs, Hin.
    rewrite proxy_sleeps in Hs, Hin.
    match type of Hs with _ = (if ?b then _ else _, _) =>
      assert (b = false) as Hb by (vm_compute; reflexivity); rewrite Hb in Hs end.
    eexists _, _. split; [exact Hs|]. apply Hin; [done|]. apply elem_of_union_l, elem_of_singleton. reflexivity.
Defined.
