(* ===== verification/GuestMem.v ===== *)
(** * GuestMem: guest memory, [src/memory/memory.rs]

    [MemoryManager] maps guest physical addresses to host memory through a
    list of regions.  Reads and writes go through raw pointers, so the host
    memory is a state of its own and [&self] methods can change it. *)

From S2P Require Import Prelude Bytes HostMem.

(** ** [GuestAddress]: a 64-bit guest physical address *)

(* src/memory/memory.rs:33-35, GuestAddress::checked_offset_from *)
Definition addr_checked_offset_from (self base : Z) : option Z := checked_sub self base.

(* src/memory/memory.rs:37-39, GuestAddress::checked_add *)
Definition addr_checked_add (self other : Z) : option Z := checked_add 64 self other.

(* src/memory/memory.rs:41-44, GuestAddress::overflowing_add *)
Definition addr_overflowing_add (self other : Z) : Z * bool :=
  (wadd 64 self other, 2 ^ 64 <=? self + other).

(* src/memory/memory.rs:46-48, GuestAddress::unchecked_add *)
Definition addr_unchecked_add {prof : Profile} {E} (self offset : Z) : out E Z :=
  uadd 64 self offset.

(* src/memory/memory.rs:50-52, GuestAddress::checked_sub *)
Definition addr_checked_sub (self other : Z) : option Z := checked_sub self other.

(* src/memory/memory.rs:54-57, GuestAddress::overflowing_sub *)
Definition addr_overflowing_sub (self other : Z) : Z * bool :=
  (wsub 64 self other, self <? other).

(* src/memory/memory.rs:59-61, GuestAddress::unchecked_sub *)
Definition addr_unchecked_sub {prof : Profile} {E} (self other : Z) : out E Z :=
  usub 64 self other.

(** ** [MemoryPerms]

    [contains] of the [bitflags] crate: all the bits of the argument are set. *)
Definition PERM_READ : Z := 1.
Definition PERM_WRITE : Z := 2.
Definition PERM_EXECUTE : Z := 4.

(* src/memory/memory.rs:64-74, MemoryPerms *)
Definition PERM_RWX : Z := Z.lor PERM_READ (Z.lor PERM_WRITE PERM_EXECUTE).

Definition perms_contains (self other : Z) : bool := Z.land self other =? other.

(** ** Regions *)

(* src/memory/memory.rs:92-99, MmioRegion *)
Record MmioRegion : Type := {
  mmio_gpa : Z;
  mmio_size : Z;
  mmio_name : string;
  mmio_handler : option string;
}.

(* src/memory/memory.rs:101-117, MemoryRegion *)
Record MemoryRegion : Type := {
  mr_gpa : Z;
  mr_size : Z;
  mr_perms : Z;
  mr_hpa : option Z;
}.

(** [gpa.unchecked_add(size - 1)]: both operators are plain. *)
(* src/memory/memory.rs:123-125, MemoryRegion::last_addr *)
Definition region_last_addr {prof : Profile} {E} (r : MemoryRegion) : out E Z :=
  n ← usub 64 (mr_size r) 1;
  addr_unchecked_add (mr_gpa r) n.

(** [&&] evaluates [last_addr] only at or above the start. *)
(* src/memory/memory.rs:127-133, MemoryRegion::check_address *)
Definition region_check_address {prof : Profile} {E} (r : MemoryRegion) (addr : Z) :
    out E (option Z) :=
  if mr_gpa r <=? addr then
    last ← region_last_addr r;
    Ok (if addr <=? last then Some addr else None)
  else Ok None.

(* src/memory/memory.rs:136-143, MemoryRegion::checked_offset *)
Definition region_checked_offset {prof : Profile} {E} (r : MemoryRegion) (base offset : Z) :
    out E (option Z) :=
  match addr_checked_add base offset with
  | Some addr => region_check_address r addr
  | None => Ok None
  end.

(** [addr] is an offset into the region here, not a guest address. *)
(* src/memory/memory.rs:147-175, MemoryRegion::get_slice *)
Definition region_get_slice (r : MemoryRegion) (addr count : Z) :
    out GuestMemoryError VolatileSlice :=
  end_ ← ok_or (checked_add 64 addr count) InvalidBackendAddress;
  if mr_size r <? end_ then Err InvalidBackendAddress
  else
    hpa ← ok_or (mr_hpa r) HostAddressNotAvailable;
    Ok (vs_with_bitmap (hpa + addr) count).

(** ** Access violations *)

(* src/memory/memory.rs:178-185, MemoryAccessViolation *)
Record MemoryAccessViolation : Type := {
  mav_gpa : Z;
  mav_action : Z;
  mav_access_size : Z;
  mav_instruction_rip : Z;
}.

(** The arguments are the fields of [WHV_RUN_VP_EXIT_CONTEXT] the code reads:
    whether the exit reason is [WHvRunVpExitReasonMemoryAccess], the access
    info word, the guest address and the instruction pointer. *)
(* src/memory/memory.rs:188-217, MemoryAccessViolation::from_exit_context *)
Definition mav_from_exit_context (is_memory_access : bool) (access_info gpa rip : Z) :
    option MemoryAccessViolation :=
  if is_memory_access then
    let is_write := negb (Z.land access_info 1 =? 0) in
    let is_execute := negb (Z.land access_info 2 =? 0) in
    let action :=
      match is_write, is_execute with
      | false, false => PERM_READ
      | true, false => PERM_WRITE
      | false, true => PERM_EXECUTE
      | true, true => Z.lor PERM_WRITE PERM_EXECUTE
      end in
    Some {| mav_gpa := gpa; mav_action := action;
            mav_access_size := Z.land (Z.shiftr access_info 2) 7;
            mav_instruction_rip := rip |}
  else None.

(** ** [MemoryManager] *)

(* src/memory/memory.rs:221-226, MemoryManager *)
Record MemoryManager : Type := {
  mm_regions : list MemoryRegion;
  mm_mmio_regions : list MmioRegion;
  mm_access_log : list (Z * bool * Z);
  mm_acpi_address : option Z;
}.

(* src/memory/memory.rs:235-242, MemoryManager::new *)
Definition mm_new : MemoryManager :=
  {| mm_regions := []; mm_mmio_regions := []; mm_access_log := []; mm_acpi_address := None |}.

(* src/memory/memory.rs:252-254, MemoryManager::register_region *)
Definition mm_register_region (mm : MemoryManager) (r : MemoryRegion) : MemoryManager :=
  {| mm_regions := mm_regions mm ++ [r]; mm_mmio_regions := mm_mmio_regions mm;
     mm_access_log := mm_access_log mm; mm_acpi_address := mm_acpi_address mm |}.

(* src/memory/memory.rs:256-258, MemoryManager::register_mmio *)
Definition mm_register_mmio (mm : MemoryManager) (m : MmioRegion) : MemoryManager :=
  {| mm_regions := mm_regions mm; mm_mmio_regions := mm_mmio_regions mm ++ [m];
     mm_access_log := mm_access_log mm; mm_acpi_address := mm_acpi_address mm |}.

(* src/memory/memory.rs:260-268, MemoryManager::log_access *)
Definition mm_log_access (mm : MemoryManager) (gpa : Z) (is_write : bool) : MemoryManager :=
  let log := mm_access_log mm ++ [(gpa, is_write, zlen (mm_access_log mm))] in
  let log := if (1000 <? length log)%nat then drop 1 log else log in
  {| mm_regions := mm_regions mm; mm_mmio_regions := mm_mmio_regions mm;
     mm_access_log := log; mm_acpi_address := mm_acpi_address mm |}.

Section manager.
  Context {prof : Profile}.

(** [regions.iter().find(|r| gpa >= r.start_addr() && gpa <= r.last_addr())] *)
Fixpoint find_region_in {E} (rs : list MemoryRegion) (gpa : Z) :
    out E (option MemoryRegion) :=
  match rs with
  | [] => Ok None
  | r :: rs' =>
      if mr_gpa r <=? gpa then
        last ← region_last_addr r;
        if gpa <=? last then Ok (Some r) else find_region_in rs' gpa
      else find_region_in rs' gpa
  end.

(* src/memory/memory.rs:275-278, MemoryManager::find_region *)
Definition mm_find_region {E} (mm : MemoryManager) (gpa : Z) : out E (option MemoryRegion) :=
  find_region_in (mm_regions mm) gpa.

(* src/memory/memory.rs:270-272, MemoryManager::address_in_range *)
Definition mm_address_in_range {E} (mm : MemoryManager) (addr : Z) : out E bool :=
  r ← mm_find_region mm addr;
  Ok (bool_decide (is_Some r)).

Fixpoint find_mmio_in {E} (rs : list MmioRegion) (gpa : Z) : out E (option MmioRegion) :=
  match rs with
  | [] => Ok None
  | r :: rs' =>
      if mmio_gpa r <=? gpa then
        end_ ← uadd 64 (mmio_gpa r) (mmio_size r);
        if gpa <? end_ then Ok (Some r) else find_mmio_in rs' gpa
      else find_mmio_in rs' gpa
  end.

(* src/memory/memory.rs:281-284, MemoryManager::find_mmio *)
Definition mm_find_mmio {E} (mm : MemoryManager) (gpa : Z) : out E (option MmioRegion) :=
  find_mmio_in (mm_mmio_regions mm) gpa.

(** The checks shared by the two raw accessors; the result is the host
    address of [gpa]. *)
(* src/memory/memory.rs:369-378, MemoryManager::write_guest_memory *)
Definition mm_checked_range (mm : MemoryManager) (gpa len perm : Z)
    (exceeds denied : string) : out string Z :=
  r ← mm_find_region mm gpa;
  r ← ok_or r "Memory not allocated"%string;
  end_ ← addr_unchecked_add gpa len;
  last ← region_last_addr r;
  if last <? end_ then Err exceeds
  else if negb (perms_contains (mr_perms r) perm) then Err denied
  else
    hpa ← ok_or (mr_hpa r) "Region has no host physical address"%string;
    Ok (hpa + (gpa - mr_gpa r)).

(* src/memory/memory.rs:369-384, MemoryManager::write_guest_memory *)
Definition write_guest_memory (mm : MemoryManager) (code : list Z) (gpa : Z) :
    M hostmem string unit :=
  p ← lift (mm_checked_range mm gpa (zlen code) PERM_WRITE
              "Code exceeds allocated memory" "Memory is read-only");
  modify (fun hm => host_write hm p code).

(* src/memory/memory.rs:387-403, MemoryManager::read_guest_memory *)
Definition read_guest_memory (mm : MemoryManager) (hm : hostmem) (gpa : Z) (size : nat) :
    out string (list Z) :=
  p ← mm_checked_range mm gpa (Z.of_nat size) PERM_READ
        "Read exceeds allocated memory" "Memory is not readable";
  Ok (host_read hm p size).

(** [store] and [load] look up the region of the first byte only. *)
Definition mm_cell (mm : MemoryManager) (addr perm : Z) (denied : string) : out string Z :=
  r ← mm_find_region mm addr;
  r ← ok_or r "Memory not allocated"%string;
  if negb (perms_contains (mr_perms r) perm) then Err denied
  else
    hpa ← ok_or (mr_hpa r) "Region has no host physical address"%string;
    Ok (hpa + (addr - mr_gpa r)).

(* src/memory/memory.rs:505-524, MemoryManager::store *)
Definition mm_store (mm : MemoryManager) (n : nat) (val addr : Z) : M hostmem string unit :=
  p ← lift (mm_cell mm addr PERM_WRITE "Memory is read-only");
  modify (fun hm => host_write hm p (le_bytes n val)).

(* src/memory/memory.rs:543-558, MemoryManager::load *)
Definition mm_load (mm : MemoryManager) (n : nat) (hm : hostmem) (addr : Z) : out string Z :=
  p ← mm_cell mm addr PERM_READ "Memory is not readable";
  Ok (le_val (host_read hm p n)).

End manager.

(** ** Typed objects

    A [repr(C)] type without padding: its size and its two byte views
    ([zerocopy::FromBytes] and the transmute of [write_obj]). *)
Class Pod (T : Type) : Type := {
  pod_size : nat;
  pod_of : list Z -> T;
  pod_to : T -> list Z;
}.
Arguments pod_size T {_}.

(** What the byte views promise, for the values [ok] of the type. *)
Class PodLaws (T : Type) `{Pod T} (ok : T -> Prop) : Prop := {
  pod_to_length v : length (pod_to v) = pod_size T;
  pod_to_bytes v : bytes_ok (pod_to v);
  pod_of_to v : ok v -> pod_of (pod_to v) = v;
}.

Section objects.
  Context {prof : Profile} {T : Type} `{Pod T}.

(* src/memory/memory.rs:430-442, MemoryManager::read_obj *)
Definition read_obj (mm : MemoryManager) (hm : hostmem) (gpa : Z) : out string T :=
  bytes ← read_guest_memory mm hm gpa (pod_size T);
  Ok (pod_of (take (pod_size T) bytes)).

(* src/memory/memory.rs:468-485, MemoryManager::write_obj *)
Definition write_obj (mm : MemoryManager) (obj : T) (gpa : Z) : M hostmem string unit :=
  write_guest_memory mm (pod_to obj) gpa.

End objects.

(** The [u8], [u16] and [u32] objects the devices read and write. *)
Definition pod_uint (n : nat) : Pod Z :=
  {| pod_size := n; pod_of := le_val; pod_to := le_bytes n |}.

(** ** Well-formed maps

    Every region is non-empty and ends within the 64-bit space; the regions
    have host memory, and neither their guest ranges nor their host ranges
    overlap.  This is what [Partition::allocate_memory_with_size] registers. *)
Definition region_wf (r : MemoryRegion) : Prop :=
  0 <= mr_gpa r /\ 0 < mr_size r /\ mr_gpa r + mr_size r <= 2 ^ 64.

Definition region_contains (r : MemoryRegion) (gpa : Z) : Prop :=
  mr_gpa r <= gpa < mr_gpa r + mr_size r.

#[export] Instance region_contains_dec r gpa : Decision (region_contains r gpa).
Proof. unfold region_contains. apply _. Defined.

Definition ranges_disjoint (a n b m : Z) : Prop := a + n <= b \/ b + m <= a.

Definition regions_wf (mm : MemoryManager) : Prop := Forall region_wf (mm_regions mm).

(** No two regions share a guest address or a host address. *)
Record mm_wf (mm : MemoryManager) : Prop := {
  mm_wf_regions : regions_wf mm;
  mm_wf_guest i j r1 r2 :
    mm_regions mm !! i = Some r1 -> mm_regions mm !! j = Some r2 -> i <> j ->
    ranges_disjoint (mr_gpa r1) (mr_size r1) (mr_gpa r2) (mr_size r2);
  mm_wf_host i j r1 r2 h1 h2 :
    mm_regions mm !! i = Some r1 -> mm_regions mm !! j = Some r2 -> i <> j ->
    mr_hpa r1 = Some h1 -> mr_hpa r2 = Some h2 ->
    ranges_disjoint h1 (mr_size r1) h2 (mr_size r2);
}.

(** The region the program finds: the first one that contains the address. *)
Definition region_at (mm : MemoryManager) (gpa : Z) : option MemoryRegion :=
  list_find (fun r => region_contains r gpa) (mm_regions mm) ≫= fun p => Some p.2.

(** [mapped mm gpa n p]: the [n] bytes at [gpa] are readable and writable guest
    memory, strictly below the last byte of their region (the accessors refuse
    a range that ends exactly there), and sit at host address [p]. *)
Definition mapped (mm : MemoryManager) (gpa n p : Z) : Prop :=
  exists r h, region_at mm gpa = Some r /\ mr_hpa r = Some h /\
    perms_contains (mr_perms r) PERM_READ = true /\
    perms_contains (mr_perms r) PERM_WRITE = true /\
    gpa + n < mr_gpa r + mr_size r /\ 0 <= n /\
    p = h + (gpa - mr_gpa r).

(** The abstract guest memory: the byte at a guest address, if one is there. *)
Definition guest_byte (mm : MemoryManager) (hm : hostmem) (gpa : Z) : option Z :=
  r ← region_at mm gpa; h ← mr_hpa r; Some (hm (h + (gpa - mr_gpa r))).

(** ** Lemmas *)

Section lemmas.
Context {prof : Profile}.
Implicit Types (mm : MemoryManager) (r : MemoryRegion) (hm : hostmem).

Lemma region_last_addr_wf {E} r :
  region_wf r -> region_last_addr (E:=E) r = Ok (mr_gpa r + mr_size r - 1).
Proof.
  intros (?&?&?). unfold region_last_addr, addr_unchecked_add.
  rewrite usub_ok by lia. cbn. rewrite uadd_ok by lia. f_equal. lia.
Qed.

Lemma region_check_address_wf {E} r addr :
  region_wf r ->
  region_check_address (E:=E) r addr =
    Ok (if decide (region_contains r addr) then Some addr else None).
Proof.
  intros Hr. unfold region_check_address. rewrite region_last_addr_wf by done.
  unfold region_contains. case_decide; case_Z; cbn; try case_Z; try done; lia.
Qed.

Lemma find_region_in_wf {E} rs gpa :
  Forall region_wf rs ->
  find_region_in (E:=E) rs gpa =
    Ok (list_find (fun r => region_contains r gpa) rs ≫= fun p => Some p.2).
Proof.
  induction 1 as [|r rs Hr _ IH]; [done|]. cbn [find_region_in list_find].
  rewrite region_last_addr_wf by done. cbn [mbind out_bind].
  rewrite IH. destruct (decide (region_contains r gpa)) as [Hc|Hc];
    unfold region_contains in Hc.
  - by rewrite (proj2 (Z.leb_le _ _)), (proj2 (Z.leb_le _ _)) by lia.
  - destruct (list_find _ rs) as [[??]|]; repeat case_Z; cbn; try done; lia.
Qed.

Lemma find_region_wf {E} mm gpa :
  regions_wf mm -> mm_find_region (E:=E) mm gpa = Ok (region_at mm gpa).
Proof. apply find_region_in_wf. Qed.

Lemma region_at_Some mm gpa r :
  region_at mm gpa = Some r -> r ∈ mm_regions mm /\ region_contains r gpa.
Proof.
  unfold region_at. intros (p & Hp & [= <-])%bind_Some.
  destruct p as [i r']. apply list_find_Some in Hp as (Hi & Hc & _).
  split; [by eapply list_elem_of_lookup_2|done].
Qed.

Lemma region_at_None mm gpa :
  region_at mm gpa = None <-> Forall (fun r => ~ region_contains r gpa) (mm_regions mm).
Proof.
  unfold region_at. rewrite <- (list_find_None (fun r => region_contains r gpa)).
  destruct (list_find _ _); cbn; split; congruence.
Qed.

Lemma checked_range_wf mm gpa len perm e1 e2 r :
  regions_wf mm -> region_at mm gpa = Some r -> 0 <= len ->
  gpa + len < 2 ^ 64 ->
  mm_checked_range mm gpa len perm e1 e2 =
    if mr_gpa r + mr_size r <=? gpa + len then Err e1
    else if negb (perms_contains (mr_perms r) perm) then Err e2
    else match mr_hpa r with
         | Some h => Ok (h + (gpa - mr_gpa r))
         | None => Err "Region has no host physical address"%string
         end.
Proof.
  intros Hwf Hr Hl Hb. unfold mm_checked_range.
  rewrite find_region_wf, Hr by done. run_M. unfold addr_unchecked_add.
  rewrite uadd_ok by lia. run_M.
  apply region_at_Some in Hr as [Hin Hc].
  assert (region_wf r) as Hrw by (by eapply Forall_forall in Hwf).
  rewrite region_last_addr_wf by done. run_M.
  repeat case_Z; try lia; [done|]. case_match; [done|]. by destruct (mr_hpa r).
Qed.

Lemma mapped_checked_range mm gpa n p perm e1 e2 :
  regions_wf mm -> mapped mm gpa n p -> perm = PERM_READ \/ perm = PERM_WRITE ->
  mm_checked_range mm gpa n perm e1 e2 = Ok p.
Proof.
  intros Hwf (r & h & Hr & Hh & Hpr & Hpw & Hn & Hn0 & ->) Hperm.
  pose proof Hr as [Hin Hc]%region_at_Some.
  assert (region_wf r) as (?&?&?) by (by eapply Forall_forall in Hwf).
  rewrite (checked_range_wf _ _ _ _ _ _ r) by done || lia.
  rewrite (proj2 (Z.leb_gt _ _)) by lia. rewrite Hh.
  destruct Hperm as [-> | ->]; rewrite ?Hpr, ?Hpw; done.
Qed.

Lemma mapped_cell mm gpa n p perm e :
  regions_wf mm -> mapped mm gpa n p -> perm = PERM_READ \/ perm = PERM_WRITE ->
  mm_cell mm gpa perm e = Ok p.
Proof.
  intros Hwf (r & h & Hr & Hh & Hpr & Hpw & Hn & Hn0 & ->) Hperm.
  unfold mm_cell. rewrite find_region_wf, Hr by done. run_M. rewrite Hh.
  destruct Hperm as [-> | ->]; rewrite ?Hpr, ?Hpw; done.
Qed.

Lemma region_at_inside mm gpa r a :
  mm_wf mm -> region_at mm gpa = Some r -> region_contains r a ->
  region_at mm a = Some r.
Proof.
  intros Hwf [Hin _]%region_at_Some Ha.
  destruct (region_at mm a) as [r'|] eqn:E.
  - apply region_at_Some in E as [Hin' Ha'].
    apply list_elem_of_lookup in Hin as [i Hi], Hin' as [j Hj].
    destruct (decide (i = j)) as [->|Hne]; [congruence|].
    pose proof (mm_wf_guest _ Hwf _ _ _ _ Hi Hj Hne) as Hd.
    unfold ranges_disjoint, region_contains in *. lia.
  - apply region_at_None in E. rewrite Forall_forall in E. by destruct (E r Hin).
Qed.

Lemma mapped_sub mm gpa n p off k :
  mm_wf mm -> mapped mm gpa n p -> 0 <= off -> 0 <= k -> off + k <= n ->
  mapped mm (gpa + off) k (p + off).
Proof.
  intros Hwf (r & h & Hr & Hh & Hpr & Hpw & Hn & Hn0 & ->) ???.
  pose proof Hr as [_ Hc]%region_at_Some. unfold region_contains in Hc.
  exists r, h. split_and!; try done; try lia.
  apply (region_at_inside mm gpa); [done..|]. unfold region_contains. lia.
Qed.

(** A host write inside the host range of a region changes the guest bytes
    of the region only. *)
Lemma guest_byte_write mm hm r h gpa bs a :
  mm_wf mm -> region_at mm gpa = Some r -> mr_hpa r = Some h ->
  gpa + zlen bs <= mr_gpa r + mr_size r ->
  guest_byte mm (host_write hm (h + (gpa - mr_gpa r)) bs) a =
    if decide (gpa <= a < gpa + zlen bs)
    then bs !! Z.to_nat (a - gpa) else guest_byte mm hm a.
Proof.
  intros Hwf Hr Hh Hl. pose proof Hr as [Hin Hc]%region_at_Some.
  unfold region_contains in Hc. case_decide as Ha.
  - unfold guest_byte. rewrite (region_at_inside mm gpa r a) by
      (done || unfold region_contains; lia). cbn. rewrite Hh. cbn.
    unfold host_write. unfold zlen in *.
    destruct (Z.leb_spec (h + (gpa - mr_gpa r)) (h + (a - mr_gpa r))); [|lia].
    destruct (Z.ltb_spec (h + (a - mr_gpa r)) (h + (gpa - mr_gpa r) + Z.of_nat (length bs)));
      [|lia]. cbn [andb].
    replace (h + (a - mr_gpa r) - (h + (gpa - mr_gpa r))) with (a - gpa) by lia.
    destruct (lookup_lt_is_Some_2 bs (Z.to_nat (a - gpa))) as [b Hb]; [lia|].
    rewrite Hb. f_equal. by apply nth_lookup_Some.
  - unfold guest_byte. destruct (region_at mm a) as [r'|] eqn:E; [|done]. cbn.
    destruct (mr_hpa r') as [h'|] eqn:Eh; [|done]. cbn. f_equal.
    apply host_write_out.
    pose proof E as [Hin' Hc']%region_at_Some. unfold region_contains in Hc'.
    apply list_elem_of_lookup in Hin as [i Hi], Hin' as [j Hj].
    destruct (decide (i = j)) as [->|Hne].
    + simplify_eq. lia.
    + pose proof (mm_wf_host _ Hwf _ _ _ _ _ _ Hi Hj Hne Hh Eh) as Hd.
      unfold ranges_disjoint in Hd. lia.
Qed.

Lemma guest_bytes_read mm hm r h gpa n i :
  mm_wf mm -> region_at mm gpa = Some r -> mr_hpa r = Some h ->
  gpa + Z.of_nat n <= mr_gpa r + mr_size r -> (i < n)%nat ->
  host_read hm (h + (gpa - mr_gpa r)) n !! i = guest_byte mm hm (gpa + Z.of_nat i).
Proof.
  intros Hwf Hr Hh Hl Hi. pose proof Hr as [_ Hc]%region_at_Some.
  unfold region_contains in Hc. rewrite lookup_host_read, decide_True by done.
  unfold guest_byte. rewrite (region_at_inside mm gpa r) by
    (done || unfold region_contains; lia). cbn. rewrite Hh. cbn. do 2 f_equal. lia.
Qed.

End lemmas.

(** *** Atomic accesses *)

Section cell_lemmas.
Context {prof : Profile}.

Lemma load_mapped mm hm gpa n p :
  regions_wf mm -> mapped mm gpa (Z.of_nat n) p ->
  mm_load mm n hm gpa = Ok (le_val (host_read hm p n)).
Proof.
  intros Hwf Hm. unfold mm_load. by rewrite (mapped_cell _ _ _ p) by eauto.
Qed.

Lemma store_mapped mm hm gpa n v p :
  regions_wf mm -> mapped mm gpa (Z.of_nat n) p ->
  mm_store mm n v gpa hm = (Ok tt, host_write hm p (le_bytes n v)).
Proof.
  intros Hwf Hm. unfold mm_store. by rewrite (mapped_cell _ _ _ p) by eauto.
Qed.

End cell_lemmas.

(** *** Objects *)

Section object_lemmas.
Context {prof : Profile} {T : Type} `{HP : Pod T} {ok : T -> Prop} `{!PodLaws T ok}.

Lemma write_obj_mapped mm hm v gpa p :
  regions_wf mm -> mapped mm gpa (Z.of_nat (pod_size T)) p ->
  write_obj mm v gpa hm = (Ok tt, host_write hm p (pod_to v)).
Proof.
  intros Hwf Hm. unfold write_obj, write_guest_memory.
  rewrite (mapped_checked_range _ _ _ p); [done|done| |by right].
  unfold zlen. by rewrite pod_to_length.
Qed.

Lemma read_obj_mapped mm hm gpa p :
  regions_wf mm -> mapped mm gpa (Z.of_nat (pod_size T)) p ->
  read_obj (T:=T) mm hm gpa = Ok (pod_of (host_read hm p (pod_size T))).
Proof.
  intros Hwf Hm. unfold read_obj, read_guest_memory.
  rewrite (mapped_checked_range _ _ _ p); [|done|done|by left]. run_M.
  by rewrite take_ge by (rewrite length_host_read; lia).
Qed.

End object_lemmas.

#[export] Instance pod_uint_laws n : @PodLaws Z (pod_uint n) (fits (8 * Z.of_nat n)).
Proof.
  split; cbn.
  - intros v. apply length_le_bytes.
  - intros v. apply le_bytes_ok.
  - intros v. apply le_val_le_bytes_fits.
Qed.

(** *** Ranges of guest bytes *)

(** The [n] bytes at [gpa] of the abstract guest memory. *)
Definition guest_bytes (mm : MemoryManager) (hm : hostmem) (gpa : Z) (n : nat) : option (list Z) :=
  mapM (fun i => guest_byte mm hm (gpa + Z.of_nat i)) (seq 0 n).

Lemma guest_bytes_Some mm hm gpa n bs :
  guest_bytes mm hm gpa n = Some bs <->
  length bs = n /\ forall i, (i < n)%nat -> guest_byte mm hm (gpa + Z.of_nat i) = bs !! i.
Proof.
  unfold guest_bytes. rewrite mapM_Some. split.
  - intros Hf. pose proof (Forall2_length _ _ _ Hf) as Hl. rewrite length_seq in Hl.
    split; [done|]. intros i Hi.
    destruct (lookup_lt_is_Some_2 bs i) as [b Hb]; [lia|]. rewrite Hb.
    eapply Forall2_lookup_lr in Hf; [exact Hf| |exact Hb]. by apply lookup_seq_lt.
  - intros [Hl Hb]. apply Forall2_same_length_lookup_2; [by rewrite length_seq|].
    intros i x y [-> Hi]%lookup_seq Hy. cbn. by rewrite Hb.
Qed.

Lemma guest_bytes_frame mm hm hm' gpa n bs :
  (forall a, gpa <= a < gpa + Z.of_nat n -> guest_byte mm hm' a = guest_byte mm hm a) ->
  guest_bytes mm hm gpa n = Some bs -> guest_bytes mm hm' gpa n = Some bs.
Proof.
  rewrite !guest_bytes_Some. intros Ha [Hl Hb]. split; [done|].
  intros i Hi. rewrite Ha by lia. by apply Hb.
Qed.

Lemma guest_bytes_slice mm hm gpa n bs off k :
  guest_bytes mm hm gpa n = Some bs -> (off + k <= n)%nat ->
  guest_bytes mm hm (gpa + Z.of_nat off) k = Some (slice off k bs).
Proof.
  rewrite !guest_bytes_Some. intros [Hl Hb] Hk. split; [apply length_slice; lia|].
  intros i Hi. rewrite lookup_slice, decide_True by done.
  rewrite <- Hb by lia. f_equal. lia.
Qed.

(** A raw write of mapped bytes, as its effect on the guest bytes. *)
Lemma write_mapped {prof : Profile} mm hm code gpa p :
  mm_wf mm -> mapped mm gpa (zlen code) p ->
  exists hm', write_guest_memory mm code gpa hm = (Ok tt, hm') /\
    guest_bytes mm hm' gpa (length code) = Some code /\
    forall a, ~ gpa <= a < gpa + zlen code -> guest_byte mm hm' a = guest_byte mm hm a.
Proof.
  intros Hwf Hm. exists (host_write hm p code).
  split; [|split].
  - unfold write_guest_memory.
    by rewrite (mapped_checked_range _ _ _ p) by (auto using mm_wf_regions; done).
  - destruct Hm as (r & h & Hra & Hh & _ & _ & Hn & _ & ->).
    apply guest_bytes_Some. split; [done|]. intros i Hi.
    rewrite (guest_byte_write mm hm r) by (done || lia). unfold zlen in *.
    rewrite decide_True by lia. f_equal. lia.
  - intros a Ha. destruct Hm as (r & h & Hra & Hh & _ & _ & Hn & _ & ->).
    rewrite (guest_byte_write mm hm r) by (done || lia). by rewrite decide_False.
Qed.

Lemma mapped_guest_bytes {prof : Profile} mm hm gpa n p :
  mm_wf mm -> mapped mm gpa (Z.of_nat n) p ->
  guest_bytes mm hm gpa n = Some (host_read hm p n).
Proof.
  intros Hwf (r & h & Hra & Hh & _ & _ & Hn & _ & ->). apply guest_bytes_Some.
  split; [apply length_host_read|]. intros i Hi. symmetry. apply guest_bytes_read; done || lia.
Qed.

(** ** Properties *)

(** C13: each region of guest memory behaves as an array of bytes.  A write to a
    range that lies in one readable and writable region and leaves out its last
    byte succeeds, puts exactly its bytes at their guest addresses and changes
    no other guest byte, in whichever region; a read of any such range then
    returns the bytes of the array in order.  A range that reaches the last
    byte of the region it starts in, or goes beyond, is refused by both
    accessors, without effect. *)
Theorem guest_memory_is_a_byte_array {prof : Profile} mm hm code gpa p :
  mm_wf mm -> mapped mm gpa (zlen code) p ->
  exists hm', write_guest_memory mm code gpa hm = (Ok tt, hm') /\
    (forall a, guest_byte mm hm' a =
       if decide (gpa <= a < gpa + zlen code)
       then code !! Z.to_nat (a - gpa) else guest_byte mm hm a) /\
    (forall gpa2 n2 p2, mapped mm gpa2 (Z.of_nat n2) p2 ->
       exists bs, read_guest_memory mm hm' gpa2 n2 = Ok bs /\ length bs = n2 /\
         forall i, (i < n2)%nat -> bs !! i = guest_byte mm hm' (gpa2 + Z.of_nat i)) /\
    (forall r gpa2 bs, region_at mm gpa2 = Some r -> gpa2 + zlen bs < 2 ^ 64 ->
       mr_gpa r + mr_size r <= gpa2 + zlen bs ->
       (exists e, write_guest_memory mm bs gpa2 hm = (Err e, hm)) /\
       exists e, read_guest_memory mm hm gpa2 (length bs) = Err e).
Proof.
  intros Hwf Hm. exists (host_write hm p code).
  pose proof (mm_wf_regions _ Hwf) as Hr.
  split_and!.
  - unfold write_guest_memory. rewrite (mapped_checked_range _ _ _ p) by (auto; done). done.
  - intros a. destruct Hm as (r & h & Hra & Hh & _ & _ & Hn & _ & ->).
    apply guest_byte_write; done || lia.
  - intros gpa2 n2 p2 Hm2. eexists. split_and!.
    + unfold read_guest_memory. by rewrite (mapped_checked_range _ _ _ p2) by auto.
    + apply length_host_read.
    + intros i Hi. destruct Hm2 as (r2 & h2 & Hra2 & Hh2 & _ & _ & Hn2 & _ & ->).
      apply guest_bytes_read; done || lia.
  - intros r gpa2 bs Hra Hb He. unfold write_guest_memory, read_guest_memory. fold (zlen bs).
    rewrite !(checked_range_wf _ _ _ _ _ _ r) by (done || apply zlen_nonneg).
    rewrite (proj2 (Z.leb_le _ _)) by done. by split; eexists.
Qed.

(** A map with one 64 KiB region of RAM at guest address 0x1000. *)
Definition example_mm : MemoryManager :=
  mm_register_region mm_new
    {| mr_gpa := 4096; mr_size := 65536; mr_perms := PERM_RWX; mr_hpa := Some 1048576 |}.

Lemma example_mm_wf : mm_wf example_mm.
Proof.
  split.
  - constructor; [|constructor]. unfold region_wf; cbn; lia.
  - intros [|[|i]] [|[|j]]; cbn; intros; simplify_eq; done.
  - intros [|[|i]] [|[|j]]; cbn; intros; simplify_eq; done.
Qed.

Lemma example_mapped gpa n :
  4096 <= gpa -> 0 <= n -> gpa + n < 69632 ->
  mapped example_mm gpa n (1048576 + (gpa - 4096)).
Proof.
  intros. exists {| mr_gpa := 4096; mr_size := 65536; mr_perms := PERM_RWX; mr_hpa := Some 1048576 |}, 1048576.
  split_and!; try done. unfold region_at, example_mm. cbn.
  rewrite decide_True by (unfold region_contains; cbn; lia). done.
Qed.

Lemma guest_memory_is_a_byte_array_witness :
  exists hm', write_guest_memory (prof:=dev_profile) example_mm [1; 2; 3] 8192 (fun _ => 0) = (Ok tt, hm') /\
    (forall a, guest_byte example_mm hm' a =
       if decide (8192 <= a < 8192 + zlen [1; 2; 3])
       then [1; 2; 3] !! Z.to_nat (a - 8192) else guest_byte example_mm (fun _ => 0) a) /\
    (forall gpa2 n2 p2, mapped example_mm gpa2 (Z.of_nat n2) p2 ->
       exists bs, read_guest_memory (prof:=dev_profile) example_mm hm' gpa2 n2 = Ok bs /\ length bs = n2 /\
         forall i, (i < n2)%nat -> bs !! i = guest_byte example_mm hm' (gpa2 + Z.of_nat i)) /\
    (forall r gpa2 bs, region_at example_mm gpa2 = Some r -> gpa2 + zlen bs < 2 ^ 64 ->
       mr_gpa r + mr_size r <= gpa2 + zlen bs ->
       (exists e, write_guest_memory (prof:=dev_profile) example_mm bs gpa2 (fun _ => 0) =
          (Err e, fun _ => 0)) /\
       exists e, read_guest_memory (prof:=dev_profile) example_mm (fun _ => 0) gpa2 (length bs) = Err e).
Proof.
  apply (guest_memory_is_a_byte_array (prof:=dev_profile) example_mm (fun _ => 0) [1; 2; 3] 8192
           (1048576 + (8192 - 4096))).
  - apply example_mm_wf.
  - apply example_mapped; unfold zlen; cbn; lia.
Defined.

(** Every outcome of a raw write, in the order of the code's checks: no
    region at the address, a range that reaches the last byte of the region
    (the code compares the end with the inclusive last address, so that a
    range ending exactly at the end of the region is refused too), a region
    without write permission, a region without host memory.  On every error
    host memory is unchanged. *)
Theorem write_guest_memory_outcomes {prof : Profile} mm hm code gpa :
  regions_wf mm -> gpa + zlen code < 2 ^ 64 ->
  write_guest_memory mm code gpa hm =
    match region_at mm gpa with
    | None => (Err "Memory not allocated"%string, hm)
    | Some r =>
        if mr_gpa r + mr_size r <=? gpa + zlen code
        then (Err "Code exceeds allocated memory"%string, hm)
        else if negb (perms_contains (mr_perms r) PERM_WRITE)
        then (Err "Memory is read-only"%string, hm)
        else match mr_hpa r with
             | None => (Err "Region has no host physical address"%string, hm)
             | Some h => (Ok tt, host_write hm (h + (gpa - mr_gpa r)) code)
             end
    end.
Proof.
  intros Hwf Hb. unfold write_guest_memory.
  destruct (region_at mm gpa) as [r|] eqn:Hr.
  - rewrite (checked_range_wf _ _ _ _ _ _ r) by (done || apply zlen_nonneg).
    repeat case_match; done.
  - unfold mm_checked_range. rewrite find_region_wf, Hr by done. done.
Qed.

Lemma write_guest_memory_outcomes_witness :
  write_guest_memory (prof:=dev_profile) example_mm (replicate 4096 0) (69632 - 4096) (fun _ => 0)
    = (Err "Code exceeds allocated memory"%string, fun _ => 0).
Proof.
  rewrite (write_guest_memory_outcomes (prof:=dev_profile)
             example_mm (fun _ => 0) (replicate 4096 0) (69632 - 4096)).
  - vm_compute. reflexivity.
  - apply (mm_wf_regions _ example_mm_wf).
  - vm_compute. reflexivity.
Defined.

(** The atomic accessors check the region of the first byte only.  A store
    of two or more bytes at the last byte of a region succeeds and writes the
    host bytes that follow the region. *)
Theorem store_overruns_region {prof : Profile} mm hm r h n v :
  regions_wf mm -> region_at mm (mr_gpa r + mr_size r - 1) = Some r ->
  mr_hpa r = Some h -> perms_contains (mr_perms r) PERM_WRITE = true ->
  exists hm', mm_store mm (S n) v (mr_gpa r + mr_size r - 1) hm = (Ok tt, hm') /\
    host_read hm' (h + mr_size r) n = le_bytes n (v / 256).
Proof.
  intros Hwf Hr Hh Hp. eexists. split.
  - unfold mm_store, mm_cell. rewrite find_region_wf, Hr by done. run_M.
    rewrite Hp, Hh. done.
  - apply list_eq. intros i. rewrite lookup_host_read. case_decide as Hi.
    + unfold host_write. cbn [le_bytes]. unfold zlen. cbn [length].
      rewrite length_le_bytes. repeat case_Z; try lia. cbn [andb].
      replace (h + mr_size r + Z.of_nat i - (h + (mr_gpa r + mr_size r - 1 - mr_gpa r)))
        with (Z.of_nat (S i)) by lia.
      rewrite Nat2Z.id. cbn [nth].
      destruct (lookup_lt_is_Some_2 (le_bytes n (v / 256)) i) as [b Hb];
        [by rewrite length_le_bytes|].
      rewrite Hb. f_equal. by apply nth_lookup_Some.
    + symmetry. apply lookup_ge_None. rewrite length_le_bytes. lia.
Qed.

Lemma store_overruns_region_witness :
  exists hm', mm_store (prof:=dev_profile) example_mm 4 305419896 69631 (fun _ => 0) = (Ok tt, hm') /\
    host_read hm' (1048576 + 65536) 3 = le_bytes 3 (305419896 / 256).
Proof.
  apply (store_overruns_region (prof:=dev_profile) example_mm (fun _ => 0)
    {| mr_gpa := 4096; mr_size := 65536; mr_perms := PERM_RWX; mr_hpa := Some 1048576 |}
    1048576 3 305419896).
  - apply (mm_wf_regions _ example_mm_wf).
  - vm_compute. reflexivity.
  - reflexivity.
  - reflexivity.
Defined.
