(* ===== verification/Queue.v ===== *)
(** * Queue: split virtqueues, [src/devices/virtio/queue.rs]

    Descriptor chains and their iterators, the available and the used ring, and
    the notification-suppression logic.  The rings live in guest memory: the
    operations act on the queue together with host memory. *)

From S2P Require Import Prelude Bytes HostMem GuestMem.

(** The errors this file returns; the payload of [GuestMemory] is the message
    of the [anyhow] error. *)
(* src/devices/virtio/queue.rs:13-50, Error *)
Inductive QueueError : Type :=
| AddressOverflow
| GuestMemory (e : string)
| InvalidIndirectDescriptor
| InvalidIndirectDescriptorTable
| InvalidChain
| InvalidDescriptorIndex
| InvalidMaxSize
| InvalidSize
| InvalidDescTableAlign
| InvalidAvailRingAlign
| InvalidUsedRingAlign
| InvalidAvailRingIndex
| QueueNotReady
| DescriptorChainOverflow
| FindMemoryRegion
| SplitOutOfBounds (off : Z).

(* src/devices/virtio/queue.rs:52-91, Error::fmt *)
Definition queue_error_display (e : QueueError) : option string :=
  match e with
  | AddressOverflow => Some "address overflow"
  | GuestMemory _ => Some "error accessing guest memory"
  | InvalidChain => Some "invalid descriptor chain"
  | InvalidIndirectDescriptor => Some "invalid indirect descriptor"
  | InvalidIndirectDescriptorTable => Some "invalid indirect descriptor table"
  | InvalidDescriptorIndex => Some "invalid descriptor index"
  | InvalidMaxSize => Some "invalid queue maximum size"
  | InvalidSize => Some "invalid queue size"
  | InvalidDescTableAlign => Some "virtio queue descriptor table breaks alignment constraints"
  | InvalidAvailRingAlign => Some "virtio queue available ring breaks alignment constraints"
  | InvalidUsedRingAlign => Some "virtio queue used ring breaks alignment constraints"
  | InvalidAvailRingIndex =>
      Some "invalid available ring index (more descriptors to process than queue size)"
  | QueueNotReady => Some "trying to process requests on a queue that's not ready"
  | DescriptorChainOverflow =>
      Some "the combined length of all the buffers in a `DescriptorChain` would overflow"
  | FindMemoryRegion => Some "no memory region for this address range"
  | SplitOutOfBounds _ => None (* the offset is formatted into the message *)
  end%string.

(* src/devices/virtio/queue.rs:100-103, VirtqUsedElem *)
Record VirtqUsedElem : Type := { ue_id : Z; ue_len : Z }.

(* src/devices/virtio/queue.rs:111-113, VirtqUsedElem::new *)
Definition used_elem_new (id len : Z) : VirtqUsedElem := {| ue_id := id; ue_len := len |}.

#[export] Instance used_elem_pod : Pod VirtqUsedElem :=
  {| pod_size := 8;
     pod_of bs := {| ue_id := le_val (slice 0 4 bs); ue_len := le_val (slice 4 4 bs) |};
     pod_to e := le_bytes 4 (ue_id e) ++ le_bytes 4 (ue_len e) |}.

(* src/devices/virtio/queue.rs:117-117, VIRTQ_DESC_F_NEXT *)
Definition VIRTQ_DESC_F_NEXT : Z := 1.
(* src/devices/virtio/queue.rs:118-118, VIRTQ_DESC_F_WRITE *)
Definition VIRTQ_DESC_F_WRITE : Z := 2.
(* src/devices/virtio/queue.rs:120-120, VIRTQ_USED_RING_HEADER_SIZE *)
Definition VIRTQ_USED_RING_HEADER_SIZE : Z := 4.
(* src/devices/virtio/queue.rs:123-123, VIRTQ_USED_ELEMENT_SIZE *)
Definition VIRTQ_USED_ELEMENT_SIZE : Z := 8.
(* src/devices/virtio/queue.rs:126-126, VIRTQ_AVAIL_RING_HEADER_SIZE *)
Definition VIRTQ_AVAIL_RING_HEADER_SIZE : Z := 4.
(* src/devices/virtio/queue.rs:129-129, VIRTQ_AVAIL_ELEMENT_SIZE *)
Definition VIRTQ_AVAIL_ELEMENT_SIZE : Z := 2.
(* src/devices/virtio/queue.rs:131-131, VRING_USED_F_NO_NOTIFY *)
Definition VRING_USED_F_NO_NOTIFY : Z := 1.

(** ** Descriptor chains *)

(* src/devices/virtio/queue.rs:173-180, Descriptor *)
Record Descriptor : Type := { d_addr : Z; d_len : Z; d_flags : Z; d_next : Z }.

#[export] Instance descriptor_pod : Pod Descriptor :=
  {| pod_size := 16;
     pod_of bs :=
       {| d_addr := le_val (slice 0 8 bs); d_len := le_val (slice 8 4 bs);
          d_flags := le_val (slice 12 2 bs); d_next := le_val (slice 14 2 bs) |};
     pod_to d := le_bytes 8 (d_addr d) ++ le_bytes 4 (d_len d) ++
                 le_bytes 2 (d_flags d) ++ le_bytes 2 (d_next d) |}.

(** The reference [mem] to guest memory is an argument of the methods. *)
(* src/devices/virtio/queue.rs:182-207, DescriptorChain *)
Record DescriptorChain : Type := {
  dc_desc_table : Z;
  dc_queue_size : Z;
  dc_ttl : Z;
  dc_index : Z;
  dc_addr : Z;
  dc_len : Z;
  dc_flags : Z;
  dc_next : Z;
}.

(* src/devices/virtio/queue.rs:248-250, DescriptorChain::has_next *)
Definition chain_has_next (c : DescriptorChain) : bool :=
  negb (Z.land (dc_flags c) VIRTQ_DESC_F_NEXT =? 0) && (1 <? dc_ttl c).

(* src/devices/virtio/queue.rs:243-245, DescriptorChain::is_valid *)
Definition chain_is_valid (c : DescriptorChain) : bool :=
  negb (chain_has_next c) || (dc_next c <? dc_queue_size c).

(* src/devices/virtio/queue.rs:256-258, DescriptorChain::is_write_only *)
Definition chain_is_write_only (c : DescriptorChain) : bool :=
  negb (Z.land (dc_flags c) VIRTQ_DESC_F_WRITE =? 0).

(* src/devices/virtio/queue.rs:264-266, DescriptorChain::is_read_only *)
Definition chain_is_read_only (c : DescriptorChain) : bool :=
  Z.land (dc_flags c) VIRTQ_DESC_F_WRITE =? 0.

(* src/devices/virtio/queue.rs:291-298, DescriptorChain::descriptor *)
Definition chain_descriptor (c : DescriptorChain) : Descriptor :=
  {| d_addr := dc_addr c; d_len := dc_len c; d_flags := dc_flags c; d_next := dc_next c |}.

Definition chain_set_ttl (t : Z) (c : DescriptorChain) : DescriptorChain :=
  {| dc_desc_table := dc_desc_table c; dc_queue_size := dc_queue_size c; dc_ttl := t;
     dc_index := dc_index c; dc_addr := dc_addr c; dc_len := dc_len c;
     dc_flags := dc_flags c; dc_next := dc_next c |}.

Section queue.
Context {prof : Profile}.

(** [ok()?] on the read: an error of guest memory gives [None], a panic stays. *)
(* src/devices/virtio/queue.rs:210-241, DescriptorChain::checked_new *)
Definition chain_checked_new {E} (mm : MemoryManager) (hm : hostmem)
    (desc_table queue_size index : Z) : out E (option DescriptorChain) :=
  if queue_size <=? index then Ok None
  else
    match addr_checked_add desc_table (index * 16) with
    | None => Ok None
    | Some desc_addr =>
        d ← out_ok (read_obj (T:=Descriptor) mm hm desc_addr);
        match d with
        | None => Ok None
        | Some desc =>
            let chain := {| dc_desc_table := desc_table; dc_queue_size := queue_size;
                            dc_ttl := queue_size; dc_index := index;
                            dc_addr := d_addr desc; dc_len := d_len desc;
                            dc_flags := d_flags desc; dc_next := d_next desc |} in
            Ok (if chain_is_valid chain then Some chain else None)
        end
    end.

(* src/devices/virtio/queue.rs:272-283, DescriptorChain::next_descriptor *)
Definition chain_next_descriptor {E} (mm : MemoryManager) (hm : hostmem)
    (c : DescriptorChain) : out E (option DescriptorChain) :=
  if chain_has_next c then
    n ← chain_checked_new mm hm (dc_desc_table c) (dc_queue_size c) (dc_next c);
    match n with
    | None => Ok None
    | Some c' => t ← usub 16 (dc_ttl c) 1; Ok (Some (chain_set_ttl t c'))
    end
  else Ok None.

(** The iterator's state is its [next] field. *)
(* src/devices/virtio/queue.rs:159-170, DescIter::next *)
Definition desc_iter_next {E} (mm : MemoryManager) (hm : hostmem)
    (it : option DescriptorChain) : out E (option DescriptorChain * option DescriptorChain) :=
  match it with
  | Some current => n ← chain_next_descriptor mm hm current; Ok (Some current, n)
  | None => Ok (None, None)
  end.

(** All the items of an iterator. *)
Fixpoint desc_iter_collect {E} (fuel : nat) (mm : MemoryManager) (hm : hostmem)
    (it : option DescriptorChain) : out E (list DescriptorChain) :=
  match fuel with
  | O => NoFuel
  | S fuel' =>
      r ← desc_iter_next mm hm it;
      match r with
      | (None, _) => Ok []
      | (Some c, it') => cs ← desc_iter_collect fuel' mm hm it'; Ok (c :: cs)
      end
  end.

(** One call more than the time-to-live of the head. *)
(* src/devices/virtio/queue.rs:285-289, DescriptorChain::into_iter *)
Definition chain_into_iter {E} (mm : MemoryManager) (hm : hostmem) (c : DescriptorChain) :
    out E (list DescriptorChain) :=
  desc_iter_collect (S (S (Z.to_nat (dc_ttl c)))) mm hm (Some c).

End queue.

Fixpoint take_while {A} (f : A -> bool) (l : list A) : list A :=
  match l with [] => [] | x :: l' => if f x then x :: take_while f l' else [] end.
Fixpoint skip_while {A} (f : A -> bool) (l : list A) : list A :=
  match l with [] => [] | x :: l' => if f x then skip_while f l' else l end.

(* src/devices/virtio/queue.rs:148-151, DescIter::readable *)
Definition chain_readable (cs : list DescriptorChain) : list DescriptorChain :=
  take_while chain_is_read_only cs.

(* src/devices/virtio/queue.rs:153-156, DescIter::writable *)
Definition chain_writable (cs : list DescriptorChain) : list DescriptorChain :=
  skip_while chain_is_read_only cs.

(** ** The queue *)

(* src/devices/virtio/queue.rs:301-331, Queue *)
Record Queue : Type := {
  q_max_size : Z;
  q_size : Z;
  q_ready : bool;
  q_desc_table : Z;
  q_avail_ring : Z;
  q_used_ring : Z;
  q_next_avail : Z;
  q_next_used : Z;
  q_event_idx_enabled : bool;
  q_num_added : Z;
}.

(* src/devices/virtio/queue.rs:335-348, Queue::new *)
Definition q_new (max_size : Z) : Queue :=
  {| q_max_size := max_size; q_size := 0; q_ready := false; q_desc_table := 0;
     q_avail_ring := 0; q_used_ring := 0; q_next_avail := 0; q_next_used := 0;
     q_event_idx_enabled := false; q_num_added := 0 |}.

(* src/devices/virtio/queue.rs:350-352, Queue::get_max_size *)
Definition q_get_max_size (q : Queue) : Z := q_max_size q.

(* src/devices/virtio/queue.rs:354-358, Queue::actual_size *)
Definition q_actual_size (q : Queue) : Z := Z.min (q_size q) (q_max_size q).

Definition q_set_next_avail (v : Z) (q : Queue) : Queue :=
  {| q_max_size := q_max_size q; q_size := q_size q; q_ready := q_ready q;
     q_desc_table := q_desc_table q; q_avail_ring := q_avail_ring q;
     q_used_ring := q_used_ring q; q_next_avail := v; q_next_used := q_next_used q;
     q_event_idx_enabled := q_event_idx_enabled q; q_num_added := q_num_added q |}.

Definition q_set_used (next_used num_added : Z) (q : Queue) : Queue :=
  {| q_max_size := q_max_size q; q_size := q_size q; q_ready := q_ready q;
     q_desc_table := q_desc_table q; q_avail_ring := q_avail_ring q;
     q_used_ring := q_used_ring q; q_next_avail := q_next_avail q; q_next_used := next_used;
     q_event_idx_enabled := q_event_idx_enabled q; q_num_added := num_added |}.

(* src/devices/virtio/queue.rs:558-560, Queue::set_event_idx *)
Definition q_set_event_idx (enabled : bool) (q : Queue) : Queue :=
  {| q_max_size := q_max_size q; q_size := q_size q; q_ready := q_ready q;
     q_desc_table := q_desc_table q; q_avail_ring := q_avail_ring q;
     q_used_ring := q_used_ring q; q_next_avail := q_next_avail q;
     q_next_used := q_next_used q; q_event_idx_enabled := enabled;
     q_num_added := q_num_added q |}.

(* src/devices/virtio/queue.rs:477-479, Queue::undo_pop *)
Definition q_undo_pop (q : Queue) : Queue := q_set_next_avail (wsub 16 (q_next_avail q) 1) q.

(* src/devices/virtio/queue.rs:668-673, Queue::go_to_previous_position *)
Definition q_go_to_previous_position (q : Queue) : Queue :=
  q_set_next_avail (wsub 16 (q_next_avail q) 1) q.

(** The methods act on the queue and on host memory. *)
Definition QM (A : Type) : Type := M (Queue * hostmem) QueueError A.

Definition q_modify (f : Queue -> Queue) : QM unit := modify (fun s => (f s.1, s.2)).

(** A method of guest memory run on the host memory of the state. *)
Definition q_mem {A} (m : M hostmem string A) : QM A :=
  zoom snd (fun hm s => (s.1, hm)) (Mmap_err GuestMemory m).

Section operations.
Context {prof : Profile}.
Variable mm : MemoryManager.

(** [is_none_or(|v| !mem.address_in_range(v))] *)
Definition out_of_range {E} (a : option Z) : out E bool :=
  match a with None => Ok true | Some v => b ← mm_address_in_range mm v; Ok (negb b) end.

(* src/devices/virtio/queue.rs:360-417, Queue::is_valid *)
Definition q_is_valid {E} (q : Queue) : out E bool :=
  let queue_size := q_actual_size q in
  let desc_table_size := 16 * queue_size in
  let avail_ring_size := 6 + 2 * queue_size in
  let used_ring_size := 6 + 8 * queue_size in
  if negb (q_ready q) then Ok false
  else if (q_max_size q <? q_size q) || (q_size q =? 0)
          || negb (Z.land (q_size q) (q_size q - 1) =? 0) then Ok false
  else
    d ← out_of_range (addr_checked_add (q_desc_table q) desc_table_size);
    if (d : bool) then Ok false
    else
      a ← out_of_range (addr_checked_add (q_avail_ring q) avail_ring_size);
      if (a : bool) then Ok false
      else
        u ← out_of_range (addr_checked_add (q_used_ring q) used_ring_size);
        if (u : bool) then Ok false
        else if negb (Z.land (q_desc_table q) 15 =? 0) then Ok false
        else if negb (Z.land (q_avail_ring q) 1 =? 0) then Ok false
        else if negb (Z.land (q_used_ring q) 3 =? 0) then Ok false
        else Ok true.

(* src/devices/virtio/queue.rs:675-687, Queue::avail_idx *)
Definition q_avail_idx (q : Queue) (hm : hostmem) : out QueueError Z :=
  addr ← ok_or (addr_checked_add (q_avail_ring q) 2) AddressOverflow;
  map_err GuestMemory (mm_load mm 2 hm addr).

(* src/devices/virtio/queue.rs:419-423, Queue::len *)
Definition q_len (q : Queue) (hm : hostmem) : out QueueError Z :=
  i ← unwrap (q_avail_idx q hm);
  Ok (wsub 16 i (q_next_avail q)).

(* src/devices/virtio/queue.rs:425-428, Queue::is_empty *)
Definition q_is_empty (q : Queue) (hm : hostmem) : out QueueError bool :=
  n ← q_len q hm; Ok (n =? 0).

(** [%] panics when the divisor is 0 in every profile; here it is not. *)
(* src/devices/virtio/queue.rs:430-473, Queue::pop *)
Definition q_pop : QM (option DescriptorChain) :=
  '(q, hm) ← gets id;
  n ← lift (q_len q hm);
  if (n =? 0) || (q_actual_size q =? 0) then mret None
  else
    o2 ← lift (umul 16 2 (q_next_avail q mod q_actual_size q));
    index_offset ← lift (uadd 16 4 o2);
    a ← lift (addr_unchecked_add (q_avail_ring q) index_offset);
    desc_index ← lift (unwrap (read_obj (H:=pod_uint 2) mm hm a));
    c ← lift (chain_checked_new mm hm (q_desc_table q) (q_actual_size q) desc_index);
    match c with
    | Some _ =>
        _ ← q_modify (fun q => q_set_next_avail (wadd 16 (q_next_avail q) 1) q);
        mret c
    | None => mret None
    end.

(** The [Result] of [write_obj] is dropped: the statement has no [?]. *)
(* src/devices/virtio/queue.rs:481-514, Queue::add_used *)
Definition q_add_used (head_index len : Z) : QM unit :=
  q ← gets fst;
  if q_size q <=? head_index then throw InvalidDescriptorIndex
  else
    let next_used_index := q_next_used q mod q_size q in
    let offset := VIRTQ_USED_RING_HEADER_SIZE + next_used_index * VIRTQ_USED_ELEMENT_SIZE in
    addr ← lift (ok_or (addr_checked_add (q_used_ring q) offset) AddressOverflow);
    _ ← Mtry (q_mem (write_obj mm (used_elem_new head_index len) addr));
    _ ← q_modify (fun q => q_set_used (wadd 16 (q_next_used q) 1) (wadd 16 (q_num_added q) 1) q);
    q ← gets fst;
    addr ← lift (ok_or (addr_checked_add (q_used_ring q) 2) AddressOverflow);
    q_mem (mm_store mm 2 (q_next_used q) addr).

(* src/devices/virtio/queue.rs:523-536, Queue::used_event *)
Definition q_used_event (q : Queue) (hm : hostmem) : out QueueError Z :=
  let used_event_offset :=
    VIRTQ_AVAIL_RING_HEADER_SIZE + q_size q * VIRTQ_AVAIL_ELEMENT_SIZE in
  a ← ok_or (addr_checked_add (q_avail_ring q) used_event_offset) AddressOverflow;
  map_err GuestMemory (mm_load mm 2 hm a).

(* src/devices/virtio/queue.rs:538-556, Queue::set_avail_event *)
Definition q_set_avail_event (val : Z) : QM unit :=
  q ← gets fst;
  let avail_event_offset :=
    VIRTQ_USED_RING_HEADER_SIZE + VIRTQ_USED_ELEMENT_SIZE * q_size q in
  addr ← lift (ok_or (addr_checked_add (q_used_ring q) avail_event_offset) AddressOverflow);
  q_mem (mm_store mm 2 val addr).

(* src/devices/virtio/queue.rs:562-571, Queue::set_used_flags *)
Definition q_set_used_flags (val : Z) : QM unit :=
  q ← gets fst;
  q_mem (mm_store mm 2 val (q_used_ring q)).

(* src/devices/virtio/queue.rs:573-594, Queue::set_notification *)
Definition q_set_notification (enable : bool) : QM unit :=
  q ← gets fst;
  if enable then
    if q_event_idx_enabled q then q_set_avail_event (q_next_avail q)
    else q_set_used_flags 0
  else if negb (q_event_idx_enabled q) then q_set_used_flags (wrap 16 VRING_USED_F_NO_NOTIFY)
  else mret tt.

(* src/devices/virtio/queue.rs:616-629, Queue::enable_notification *)
Definition q_enable_notification : QM bool :=
  _ ← q_set_notification true;
  '(q, hm) ← gets id;
  idx ← lift (q_avail_idx q hm);
  mret (negb (idx =? q_next_avail q)).

(* src/devices/virtio/queue.rs:631-633, Queue::disable_notification *)
Definition q_disable_notification : QM unit := q_set_notification false.

(* src/devices/virtio/queue.rs:635-666, Queue::needs_notification *)
Definition q_needs_notification : QM bool :=
  '(q, hm) ← gets id;
  let used_idx := q_next_used q in
  if q_event_idx_enabled q then
    used_event ← lift (q_used_event q hm);
    let old := wsub 16 used_idx (q_num_added q) in
    _ ← q_modify (fun q => q_set_used (q_next_used q) 0 q);
    mret (wsub 16 (wsub 16 used_idx used_event) 1 <? wsub 16 used_idx old)
  else mret true.

End operations.

(** ** The rings as the driver laid them out

    [pd], [pa] and [pu] are the host addresses of the descriptor table, the
    available ring and the used ring. *)

Definition avail_ring_idx (hm : hostmem) (pa : Z) : Z := le_val (host_read hm (pa + 2) 2).
Definition avail_ring_entry (hm : hostmem) (pa i : Z) : Z :=
  le_val (host_read hm (pa + (4 + 2 * i)) 2).

(** The chain that starts at entry [i] of the descriptor table. *)
Definition table_chain (q : Queue) (hm : hostmem) (pd i : Z) : DescriptorChain :=
  let d : Descriptor := pod_of (host_read hm (pd + i * 16) 16) in
  {| dc_desc_table := q_desc_table q; dc_queue_size := q_actual_size q;
     dc_ttl := q_actual_size q; dc_index := i; dc_addr := d_addr d; dc_len := d_len d;
     dc_flags := d_flags d; dc_next := d_next d |}.

(** A head the device accepts: in the table, and its link is in the table. *)
Definition head_ok (q : Queue) (hm : hostmem) (pd i : Z) : bool :=
  (i <? q_actual_size q) && chain_is_valid (table_chain q hm pd i).

(** The configuration a driver is to set up.  The size bound is that of the
    16-bit offset computed by [pop]; the devices' queues have at most 1024
    entries. *)
Record queue_wf (q : Queue) : Prop := {
  qwf_size : 0 < q_size q <= q_max_size q;
  qwf_max : q_max_size q <= 32766;
  qwf_next_avail : fits 16 (q_next_avail q);
  qwf_next_used : fits 16 (q_next_used q);
  qwf_num_added : fits 16 (q_num_added q);
  qwf_desc : 0 <= q_desc_table q;
  qwf_avail : 0 <= q_avail_ring q;
  qwf_used : 0 <= q_used_ring q;
}.

Record rings_mapped (mm : MemoryManager) (q : Queue) (pd pa pu : Z) : Prop := {
  rm_desc : mapped mm (q_desc_table q) (16 * q_size q) pd;
  rm_avail : mapped mm (q_avail_ring q) (6 + 2 * q_size q) pa;
  rm_used : mapped mm (q_used_ring q) (6 + 8 * q_size q) pu;
}.

(** ** Lemmas *)

#[export] Instance used_elem_laws :
  PodLaws VirtqUsedElem (fun e => fits 32 (ue_id e) /\ fits 32 (ue_len e)).
Proof.
  split; cbn -[le_bytes].
  - intros v. by autorewrite with buffer_len.
  - intros v. apply bytes_ok_app. split; apply le_bytes_ok.
  - intros [i l] [Hi Hl]; cbn -[le_bytes] in *. unfold slice. f_equal.
    + rewrite drop_0, take_app_length' by (by rewrite length_le_bytes). by apply le_val_le_bytes_fits.
    + rewrite drop_app_length' by (by rewrite length_le_bytes).
      rewrite take_ge by (rewrite length_le_bytes; lia). by apply le_val_le_bytes_fits.
Qed.

Lemma actual_size_wf q : queue_wf q -> q_actual_size q = q_size q.
Proof. intros []. unfold q_actual_size. lia. Qed.

Lemma mapped_below mm gpa n p : regions_wf mm -> mapped mm gpa n p -> gpa + n < 2 ^ 64.
Proof.
  intros Hwf (r & h & Hr & _ & _ & _ & Hn & _). apply region_at_Some in Hr as [Hin _].
  assert (region_wf r) as (?&?&?) by (by eapply Forall_forall in Hwf). lia.
Qed.

Lemma wadd_fits w a b : 0 <= w -> fits w (wadd w a b).
Proof. apply wrap_fits. Qed.

Lemma le_val_fits_16 hm p : hostmem_wf hm -> fits 16 (le_val (host_read hm p 2)).
Proof.
  intros Hwf. pose proof (le_val_bound (host_read hm p 2)) as H.
  unfold zlen in H. rewrite length_host_read in H. unfold fits.
  change (2 ^ 16) with (256 ^ Z.of_nat 2). apply H.
  by apply host_read_bytes.
Qed.

Section lemmas.
Context {prof : Profile} (mm : MemoryManager) (Hmm : mm_wf mm).
Variables (pd pa pu : Z).

Let Hregs : regions_wf mm := mm_wf_regions mm Hmm.

Lemma checked_new_mapped {E} q hm i :
  queue_wf q -> rings_mapped mm q pd pa pu -> 0 <= i ->
  chain_checked_new (E:=E) mm hm (q_desc_table q) (q_actual_size q) i =
    Ok (if head_ok q hm pd i then Some (table_chain q hm pd i) else None).
Proof using Hmm.
  intros Hq Hr Hi. unfold chain_checked_new, head_ok.
  pose proof (actual_size_wf q Hq) as Ha.
  destruct (Z.leb_spec (q_actual_size q) i), (Z.ltb_spec i (q_actual_size q)); try lia; [done|].
  pose proof (rm_desc _ _ _ _ _ Hr) as Hd.
  pose proof (mapped_below _ _ _ _ Hregs Hd).
  unfold addr_checked_add.
  rewrite (proj2 (checked_add_Some 64 (q_desc_table q) (i * 16) _)) by (split; [done|lia]).
  erewrite (read_obj_mapped mm hm (q_desc_table q + i * 16)).
  - run_M. cbn [andb]. done.
  - done.
  - apply (mapped_sub mm _ (16 * q_size q)); [done..|lia|cbn; lia|cbn; lia].
Qed.

Lemma avail_idx_mapped q hm :
  queue_wf q -> rings_mapped mm q pd pa pu ->
  q_avail_idx mm q hm = Ok (avail_ring_idx hm pa).
Proof using Hmm.
  intros Hq Hr. pose proof (rm_avail _ _ _ _ _ Hr) as Hav.
  pose proof (mapped_below _ _ _ _ Hregs Hav). destruct Hq.
  unfold q_avail_idx, addr_checked_add.
  rewrite (proj2 (checked_add_Some 64 (q_avail_ring q) 2 _)) by (split; [done|lia]).
  run_M. rewrite (load_mapped mm hm _ 2 (pa + 2)); [done|done|].
  apply (mapped_sub mm _ (6 + 2 * q_size q)); [done..| | |]; lia.
Qed.

Lemma ring_entry_mapped q hm i :
  queue_wf q -> rings_mapped mm q pd pa pu -> 0 <= i < q_size q ->
  read_obj (H:=pod_uint 2) mm hm (q_avail_ring q + (4 + 2 * i)) = Ok (avail_ring_entry hm pa i).
Proof using Hmm.
  intros Hq Hr Hi.
  rewrite (read_obj_mapped (HP:=pod_uint 2) mm hm _ (pa + (4 + 2 * i))); [done|done|].
  pose proof (rm_avail _ _ _ _ _ Hr) as Hav.
  apply (mapped_sub mm _ (6 + 2 * q_size q)); [done..| | |]; cbn; lia.
Qed.

(** What [pop] does on a well-formed queue. *)
Definition pop_result (q : Queue) (hm : hostmem) : option DescriptorChain * Queue :=
  if avail_ring_idx hm pa =? q_next_avail q then (None, q)
  else
    let head := avail_ring_entry hm pa (q_next_avail q mod q_size q) in
    if head_ok q hm pd head
    then (Some (table_chain q hm pd head), q_set_next_avail (wadd 16 (q_next_avail q) 1) q)
    else (None, q).

Lemma pop_mapped q hm :
  hostmem_wf hm -> queue_wf q -> rings_mapped mm q pd pa pu ->
  q_pop mm (q, hm) = (Ok (pop_result q hm).1, ((pop_result q hm).2, hm)).
Proof using Hmm.
  intros Hhm Hq Hr. unfold q_pop, q_len.
  run_St.
  rewrite (avail_idx_mapped q hm) by done. run_St.
  rewrite (actual_size_wf q Hq). pose proof Hq as [? ? Hna ? ? ? Hav ?].
  assert ((wsub 16 (avail_ring_idx hm pa) (q_next_avail q) =? 0) =
          (avail_ring_idx hm pa =? q_next_avail q)) as ->.
  { pose proof (le_val_fits_16 hm (pa + 2) Hhm) as Hf. unfold avail_ring_idx, wsub, wrap, fits in *.
    repeat case_Z; try done; [|].
    - apply Z.mod_divide in e as [k Hk]; [|lia]. exfalso. lia.
    - exfalso. apply n. rewrite e, Z.sub_diag. done. }
  unfold pop_result. destruct (Z.eqb_spec (avail_ring_idx hm pa) (q_next_avail q)); [done|].
  destruct (Z.eqb_spec (q_size q) 0); [lia|]. cbn [orb].
  pose proof (Z.mod_pos_bound (q_next_avail q) (q_size q) ltac:(lia)) as Hm.
  rewrite umul_ok by lia. rewrite uadd_ok by lia. unfold addr_unchecked_add.
  pose proof (mapped_below _ _ _ _ Hregs (rm_avail _ _ _ _ _ Hr)).
  rewrite uadd_ok by lia. rewrite (ring_entry_mapped q hm _) by (done || lia). run_St.
  pose proof (checked_new_mapped (E:=QueueError) q hm
    (avail_ring_entry hm pa (q_next_avail q mod q_size q)) Hq Hr) as Hc.
  rewrite (actual_size_wf q Hq) in Hc. rewrite Hc.
  - by destruct (head_ok _ _ _ _).
  - by apply le_val_fits_16.
Qed.

Lemma queue_wf_next_avail q v : queue_wf q -> fits 16 v -> queue_wf (q_set_next_avail v q).
Proof using. intros [] Hv. split; done. Qed.

Lemma queue_wf_used q v n :
  queue_wf q -> fits 16 v -> fits 16 n -> queue_wf (q_set_used v n q).
Proof using. intros [] Hv Hn. split; done. Qed.

Lemma rings_mapped_next_avail q v :
  rings_mapped mm q pd pa pu -> rings_mapped mm (q_set_next_avail v q) pd pa pu.
Proof using. intros []. split; done. Qed.

(** Element and index written by [add_used]. *)
Definition used_write (q : Queue) (hm : hostmem) (head len : Z) : hostmem :=
  host_write
    (host_write hm (pu + (4 + 8 * (q_next_used q mod q_size q)))
       (le_bytes 4 head ++ le_bytes 4 len))
    (pu + 2) (le_bytes 2 (wadd 16 (q_next_used q) 1)).

Lemma add_used_mapped q hm head len :
  queue_wf q -> rings_mapped mm q pd pa pu -> 0 <= head < q_size q ->
  q_add_used mm head len (q, hm) =
    (Ok tt, (q_set_used (wadd 16 (q_next_used q) 1) (wadd 16 (q_num_added q) 1) q,
             used_write q hm head len)).
Proof using Hmm.
  intros Hq Hr Hh. unfold q_add_used, q_mem, q_modify. run_St.
  pose proof (rm_used _ _ _ _ _ Hr) as Hu.
  pose proof (mapped_below _ _ _ _ Hregs Hu). pose proof Hq as [].
  destruct (Z.leb_spec (q_size q) head); [lia|].
  pose proof (Z.mod_pos_bound (q_next_used q) (q_size q) ltac:(lia)) as Hm.
  unfold VIRTQ_USED_RING_HEADER_SIZE, VIRTQ_USED_ELEMENT_SIZE, addr_checked_add.
  cbn [q_used_ring q_set_used q_next_used].
  rewrite (proj2 (checked_add_Some 64 (q_used_ring q) (4 + _) _)) by (split; [done|lia]).
  rewrite (write_obj_mapped mm hm _ _ (pu + (4 + q_next_used q mod q_size q * 8))).
  - run_St. cbn [q_used_ring q_set_used q_next_used].
    rewrite (proj2 (checked_add_Some 64 (q_used_ring q) 2 _)) by (split; [done|lia]).
    run_St. rewrite (store_mapped mm _ _ 2 _ (pu + 2)).
    + unfold used_write. by rewrite (Z.mul_comm 8).
    + done.
    + apply (mapped_sub mm _ (6 + 8 * q_size q)); [done..| | |]; lia.
  - done.
  - apply (mapped_sub mm _ (6 + 8 * q_size q)); [done..| | |]; cbn; lia.
Qed.

(** The field through which the device asks for notifications, or for none. *)
Definition notification_write (q : Queue) (hm : hostmem) (enable : bool) : hostmem :=
  if q_event_idx_enabled q then
    if enable then host_write hm (pu + (4 + 8 * q_size q)) (le_bytes 2 (q_next_avail q)) else hm
  else host_write hm pu (le_bytes 2 (if enable then 0 else wrap 16 VRING_USED_F_NO_NOTIFY)).

Lemma set_notification_mapped q hm enable :
  queue_wf q -> rings_mapped mm q pd pa pu ->
  q_set_notification mm enable (q, hm) = (Ok tt, (q, notification_write q hm enable)).
Proof using Hmm.
  intros Hq Hr. pose proof (rm_used _ _ _ _ _ Hr) as Hu. pose proof Hq as [].
  pose proof (mapped_below _ _ _ _ Hregs Hu).
  assert (mapped mm (q_used_ring q) 2 pu) as Hflags.
  { rewrite <- (Z.add_0_r pu), <- (Z.add_0_r (q_used_ring q)).
    apply (mapped_sub mm _ (6 + 8 * q_size q)); [done..| | |]; lia. }
  unfold q_set_notification, q_set_avail_event, q_set_used_flags, q_mem, notification_write.
  unfold VIRTQ_USED_RING_HEADER_SIZE, VIRTQ_USED_ELEMENT_SIZE, addr_checked_add.
  run_St. destruct enable, (q_event_idx_enabled q) eqn:Ee; cbn [negb]; run_St.
  - rewrite (proj2 (checked_add_Some 64 (q_used_ring q) (4 + _) _)) by (split; [done|lia]). run_St.
    rewrite (store_mapped mm _ _ 2 _ (pu + (4 + 8 * q_size q))); [done|done|].
    apply (mapped_sub mm _ (6 + 8 * q_size q)); [done..| | |]; lia.
  - by rewrite (store_mapped mm _ _ 2 _ pu).
  - done.
  - by rewrite (store_mapped mm _ _ 2 _ pu).
Qed.

(** It stays within the used ring, and host memory stays sound. *)
Lemma notification_write_frame q hm enable :
  hostmem_wf hm -> queue_wf q ->
  hostmem_wf (notification_write q hm enable) /\
  forall p n, p + Z.of_nat n <= pu \/ pu + (6 + 8 * q_size q) <= p ->
    host_read (notification_write q hm enable) p n = host_read hm p n.
Proof using.
  intros Hhm []. unfold notification_write. split.
  - repeat case_match; try done; apply host_write_wf; auto using le_bytes_ok.
  - intros p n Hd. repeat case_match; try done; apply host_read_write_disjoint;
      unfold zlen; rewrite length_le_bytes; lia.
Qed.

(** Whether the driver wants an interrupt for the elements added since the
    last answer. *)
Definition notification_wanted (q : Queue) (hm : hostmem) : bool :=
  if q_event_idx_enabled q then
    wsub 16 (wsub 16 (q_next_used q) (le_val (host_read hm (pa + (4 + 2 * q_size q)) 2))) 1
      <? q_num_added q
  else true.

Lemma needs_notification_mapped q hm :
  queue_wf q -> rings_mapped mm q pd pa pu ->
  q_needs_notification mm (q, hm) =
    (Ok (notification_wanted q hm),
     (if q_event_idx_enabled q then q_set_used (q_next_used q) 0 q else q, hm)).
Proof using Hmm.
  intros Hq Hr. pose proof (rm_avail _ _ _ _ _ Hr) as Hav. pose proof Hq as [].
  pose proof (mapped_below _ _ _ _ Hregs Hav).
  unfold q_needs_notification, q_used_event, q_modify, notification_wanted. run_St.
  destruct (q_event_idx_enabled q) eqn:He; [|done].
  unfold VIRTQ_AVAIL_RING_HEADER_SIZE, VIRTQ_AVAIL_ELEMENT_SIZE, addr_checked_add.
  rewrite (proj2 (checked_add_Some 64 (q_avail_ring q) (4 + _) _)) by (split; [done|lia]). run_St.
  rewrite (load_mapped mm hm _ 2 (pa + (4 + q_size q * 2))).
  - run_St. rewrite (Z.mul_comm (q_size q) 2). do 3 f_equal.
    unfold wsub. rewrite wrap_sub_r. rewrite Z.sub_sub_distr, Z.sub_diag. cbn [Z.add].
    by apply wrap_small.
  - done.
  - apply (mapped_sub mm _ (6 + 2 * q_size q)); [done..| | |]; lia.
Qed.

End lemmas.

(** The unused reads of a write: its bytes at their place, others kept. *)
Lemma avail_idx_fits hm pa : hostmem_wf hm -> fits 16 (avail_ring_idx hm pa).
Proof. apply le_val_fits_16. Qed.

Section sequences.
Context {prof : Profile} (mm : MemoryManager) (Hmm : mm_wf mm).
Variables (pd pa pu : Z).

(** [k] successive calls of [pop]. *)
Fixpoint q_pop_n (k : nat) : QM (list (option DescriptorChain)) :=
  match k with
  | O => mret []
  | S k' => c ← q_pop mm; cs ← q_pop_n k'; mret (c :: cs)
  end.

Definition nth_chain (q : Queue) (hm : hostmem) (i : nat) : DescriptorChain :=
  table_chain q hm pd
    (avail_ring_entry hm pa (wadd 16 (q_next_avail q) (Z.of_nat i) mod q_size q)).

Lemma pop_n_mapped k q hm :
  hostmem_wf hm -> queue_wf q -> rings_mapped mm q pd pa pu ->
  Z.of_nat k <= wsub 16 (avail_ring_idx hm pa) (q_next_avail q) ->
  (forall i, (i < k)%nat -> head_ok q hm pd (dc_index (nth_chain q hm i)) = true) ->
  q_pop_n k (q, hm) =
    (Ok (map (fun i => Some (nth_chain q hm i)) (seq 0 k)),
     (q_set_next_avail (wadd 16 (q_next_avail q) (Z.of_nat k)) q, hm)).
Proof using Hmm.
  intros Hhm. revert q. induction k as [|k IH]; intros q Hq Hr Hk Hok.
  - cbn. unfold wadd. rewrite Z.add_0_r, wrap_small by apply Hq. by destruct q.
  - cbn [q_pop_n]. unfold mbind at 1, M_bind at 1.
    rewrite (pop_mapped mm Hmm pd pa pu q hm) by done.
    pose proof (Hok 0%nat ltac:(lia)) as H0. unfold nth_chain in H0. cbn [dc_index table_chain] in H0.
    pose proof (qwf_next_avail q Hq) as Hna.
    assert (wadd 16 (q_next_avail q) (Z.of_nat 0) = q_next_avail q) as E0
      by (unfold wadd; rewrite Z.add_0_r; by apply wrap_small).
    rewrite E0 in H0. unfold pop_result.
    destruct (Z.eqb_spec (avail_ring_idx hm pa) (q_next_avail q)) as [E|E].
    { rewrite E in Hk. unfold wsub in Hk. rewrite Z.sub_diag in Hk.
      change (wrap 16 0) with 0 in Hk. lia. }
    rewrite H0. cbn [fst snd].
    set (q' := q_set_next_avail (wadd 16 (q_next_avail q) 1) q).
    assert (forall i, nth_chain q' hm i = nth_chain q hm (S i)) as En.
    { intros i. unfold nth_chain. cbn [q_next_avail q_size q' q_set_next_avail].
      unfold wadd. rewrite wrap_add_l.
      replace (q_next_avail q + 1 + Z.of_nat i) with (q_next_avail q + Z.of_nat (S i)) by lia.
      done. }
    unfold mbind at 1, M_bind at 1. rewrite (IH q').
    + unfold mret, M_ret. cbn [seq map]. f_equal.
      * f_equal. f_equal; [unfold nth_chain; by rewrite E0|].
        rewrite <- seq_shift, map_map. apply map_ext. intros i. by rewrite En.
      * f_equal. cbn [q_next_avail q' q_set_next_avail]. unfold wadd.
        rewrite wrap_add_l. unfold q', q_set_next_avail. cbn. do 2 f_equal. lia.
    + apply queue_wf_next_avail; [done|]. apply wadd_fits. lia.
    + by apply rings_mapped_next_avail.
    + cbn [q_next_avail q' q_set_next_avail]. unfold wsub, wadd in *.
      rewrite wrap_sub_r, Z.sub_add_distr, <- wrap_sub_l.
      pose proof (wrap_fits 16 (avail_ring_idx hm pa - q_next_avail q) ltac:(lia)) as Hw.
      rewrite wrap_small; unfold fits in *; lia.
    + intros i Hi. rewrite En. apply (Hok (S i)). lia.
Qed.

End sequences.

(** *** Chains *)

Section chains.
Context {prof : Profile} (mm : MemoryManager) (Hmm : mm_wf mm).
Variables (pd pa pu : Z).

(** The successor of a chain in the descriptor table. *)
Definition chain_succ (q : Queue) (hm : hostmem) (c c' : DescriptorChain) : Prop :=
  chain_has_next c = true /\ head_ok q hm pd (dc_next c) = true /\
  c' = chain_set_ttl (dc_ttl c - 1) (table_chain q hm pd (dc_next c)).

(** [walk q hm c cs]: [cs] starts at [c], follows the links and stops where
    the code stops. *)
Inductive walk (q : Queue) (hm : hostmem) : DescriptorChain -> list DescriptorChain -> Prop :=
| walk_end c :
    chain_has_next c = false \/ head_ok q hm pd (dc_next c) = false -> walk q hm c [c]
| walk_link c c' cs : chain_succ q hm c c' -> walk q hm c' cs -> walk q hm c (c :: cs).

Lemma next_descriptor_mapped {E} q hm c :
  queue_wf q -> rings_mapped mm q pd pa pu ->
  dc_desc_table c = q_desc_table q -> dc_queue_size c = q_actual_size q -> 0 <= dc_next c ->
  chain_next_descriptor (E:=E) mm hm c =
    Ok (if chain_has_next c && head_ok q hm pd (dc_next c)
        then Some (chain_set_ttl (dc_ttl c - 1) (table_chain q hm pd (dc_next c))) else None).
Proof using Hmm.
  intros Hq Hr Ht Hs Hn. unfold chain_next_descriptor.
  destruct (chain_has_next c) eqn:Ec; [|done].
  rewrite Ht, Hs, (checked_new_mapped mm Hmm pd pa pu q hm) by done. run_M. cbn [andb].
  destruct (head_ok _ _ _ _); [|done].
  unfold chain_has_next in Ec. apply andb_prop in Ec as [_ Ec%Z.ltb_lt].
  by rewrite usub_ok by lia.
Qed.

Lemma table_next_nonneg q hm i : hostmem_wf hm -> 0 <= dc_next (table_chain q hm pd i).
Proof using.
  intros Hhm. cbn. pose proof (le_val_bound (slice 14 2 (host_read hm (pd + i * 16) 16))) as H.
  apply H. apply bytes_ok_take, bytes_ok_drop, host_read_bytes, Hhm.
Qed.

Lemma collect_walk {E} q hm fuel c :
  hostmem_wf hm -> queue_wf q -> rings_mapped mm q pd pa pu ->
  dc_desc_table c = q_desc_table q -> dc_queue_size c = q_actual_size q -> 0 <= dc_next c ->
  (Z.to_nat (dc_ttl c) + 2 <= fuel)%nat -> 0 <= dc_ttl c ->
  exists cs, desc_iter_collect (E:=E) fuel mm hm (Some c) = Ok cs /\ walk q hm c cs /\
    zlen cs <= Z.max 1 (dc_ttl c).
Proof using Hmm.
  intros Hhm Hq Hr. revert c. induction fuel as [|fuel IH]; intros c Ht Hs Hn Hf Httl; [lia|].
  cbn [desc_iter_collect desc_iter_next].
  rewrite (next_descriptor_mapped q hm c) by done. run_M.
  destruct (chain_has_next c) eqn:Ec.
  - destruct (head_ok q hm pd (dc_next c)) eqn:Eh; cbn [andb].
    + assert (1 < dc_ttl c) as H1
        by (unfold chain_has_next in Ec; apply andb_prop in Ec as [_ Ec%Z.ltb_lt]; done).
      destruct (IH (chain_set_ttl (dc_ttl c - 1) (table_chain q hm pd (dc_next c))))
        as (cs & -> & Hw & Hl); try done.
      * by apply table_next_nonneg.
      * cbn. lia.
      * cbn. lia.
      * run_M. exists (c :: cs). split_and!; [done| |].
        -- by eapply walk_link.
        -- unfold zlen in *. cbn [length dc_ttl chain_set_ttl] in *. lia.
    + destruct fuel; [lia|]. exists [c]. split_and!; [done|by constructor; right|].
      unfold zlen; cbn; lia.
  - destruct fuel; [lia|]. exists [c]. split_and!; [done|by constructor; left|].
    unfold zlen; cbn; lia.
Qed.

End chains.

(** ** Properties *)

(** C1: [pop] hands out the published heads in ring order.  When the driver
    has published [k] entries beyond [next_avail] (counted in the circular
    16-bit index space) and their heads are acceptable, [k] calls return
    exactly the chains of the entries [next_avail, next_avail + 1, ...] modulo
    the queue size, advance [next_avail] to the driver's index, and the next
    call returns nothing and changes nothing. *)
Theorem pop_yields_ring_in_order {prof : Profile} mm pd pa pu q hm k :
  mm_wf mm -> hostmem_wf hm -> queue_wf q -> rings_mapped mm q pd pa pu ->
  Z.of_nat k = wsub 16 (avail_ring_idx hm pa) (q_next_avail q) ->
  (forall i, (i < k)%nat -> head_ok q hm pd (dc_index (nth_chain pd pa q hm i)) = true) ->
  exists q', q_pop_n mm k (q, hm) =
      (Ok (map (fun i => Some (nth_chain pd pa q hm i)) (seq 0 k)), (q', hm)) /\
    q' = q_set_next_avail (avail_ring_idx hm pa) q /\
    q_pop mm (q', hm) = (Ok None, (q', hm)).
Proof.
  intros Hmm Hhm Hq Hr Hk Hok. eexists. split; [|split; [done|]].
  - rewrite (pop_n_mapped mm Hmm pd pa pu k q hm) by (done || lia).
    do 4 f_equal. rewrite Hk. unfold wadd, wsub. rewrite wrap_add_r.
    rewrite Z.add_comm, Z.sub_add. apply wrap_small. by apply avail_idx_fits.
  - rewrite (pop_mapped mm Hmm pd pa pu); [|done| |by apply rings_mapped_next_avail].
    + unfold pop_result. cbn [q_next_avail q_set_next_avail]. by rewrite Z.eqb_refl.
    + apply queue_wf_next_avail; [done|]. by apply avail_idx_fits.
Qed.

(** A queue of four entries: the descriptor table at 0x1000, the rings at
    0x2000 and 0x3000; the driver has published the heads 2 and 0. *)
Definition example_queue : Queue :=
  {| q_max_size := 256; q_size := 4; q_ready := true; q_desc_table := 4096;
     q_avail_ring := 8192; q_used_ring := 12288; q_next_avail := 65535; q_next_used := 65535;
     q_event_idx_enabled := true; q_num_added := 0 |}.

Definition example_hm : hostmem :=
  host_write (host_write (host_write (fun _ => 0)
    (1048576 + 4096) [0; 0; 1; 0; 0; 0; 2; 0; 0; 0; 2; 0])
    1048576 (pod_to {| d_addr := 16384; d_len := 64; d_flags := 0; d_next := 0 |}))
    (1048576 + 32) (pod_to {| d_addr := 20480; d_len := 512; d_flags := 1; d_next := 0 |}).

Lemma example_queue_wf : queue_wf example_queue.
Proof. split; cbn; unfold fits; lia. Qed.

Lemma example_rings :
  rings_mapped example_mm example_queue 1048576 (1048576 + 4096) (1048576 + 8192).
Proof.
  split.
  - apply (example_mapped 4096); cbn; lia.
  - apply (example_mapped 8192); cbn; lia.
  - apply (example_mapped 12288); cbn; lia.
Qed.

Lemma example_hm_wf : hostmem_wf example_hm.
Proof.
  unfold example_hm. repeat apply host_write_wf.
  - intros a. unfold is_byte. lia.
  - repeat constructor; unfold is_byte; lia.
  - repeat (apply bytes_ok_app; split); apply le_bytes_ok.
  - repeat (apply bytes_ok_app; split); apply le_bytes_ok.
Qed.

Lemma pop_yields_ring_in_order_witness :
  exists q', q_pop_n (prof:=dev_profile) example_mm 2 (example_queue, example_hm) =
      (Ok (map (fun i => Some (nth_chain 1048576 (1048576 + 4096) example_queue example_hm i))
             (seq 0 2)), (q', example_hm)) /\
    q' = q_set_next_avail (avail_ring_idx example_hm (1048576 + 4096)) example_queue /\
    q_pop (prof:=dev_profile) example_mm (q', example_hm) = (Ok None, (q', example_hm)).
Proof.
  apply (pop_yields_ring_in_order (prof:=dev_profile) example_mm 1048576 (1048576 + 4096)
           (1048576 + 8192) example_queue example_hm 2).
  - apply example_mm_wf.
  - apply example_hm_wf.
  - apply example_queue_wf.
  - apply example_rings.
  - vm_compute. reflexivity.
  - intros [|[|i]] Hi; [vm_compute; reflexivity | vm_compute; reflexivity | lia].
Defined.

(** C20: walking a descriptor chain always ends, also when the guest links its
    descriptors in a cycle: the iterator yields at least one and at most
    queue-size descriptors, each one the table entry its predecessor links
    to, and stops exactly where a descriptor has no next one, its link is not
    acceptable, or the time to live is used up. *)
Theorem chain_walk_terminates {prof : Profile} mm pd pa pu q hm i :
  mm_wf mm -> hostmem_wf hm -> queue_wf q -> rings_mapped mm q pd pa pu -> 0 <= i ->
  head_ok q hm pd i = true ->
  exists cs, chain_into_iter (E:=QueueError) mm hm (table_chain q hm pd i) = Ok cs /\
    walk pd q hm (table_chain q hm pd i) cs /\ 1 <= zlen cs <= q_size q.
Proof.
  intros Hmm Hhm Hq Hr Hi Hok. unfold chain_into_iter.
  pose proof (qwf_size q Hq) as Hs. pose proof (actual_size_wf q Hq) as Ha.
  destruct (collect_walk (E:=QueueError) mm Hmm pd pa pu q hm
    (S (S (Z.to_nat (dc_ttl (table_chain q hm pd i))))) (table_chain q hm pd i))
    as (cs & Hc & Hw & Hl); try done.
  - by apply table_next_nonneg.
  - lia.
  - cbn. lia.
  - exists cs. split_and!; [done|done| |cbn [dc_ttl table_chain] in Hl; lia].
    destruct Hw; unfold zlen; cbn; lia.
Qed.

(** A table whose only descriptor links to itself. *)
Definition cyclic_hm : hostmem :=
  host_write (fun _ => 0) 1048576
    (pod_to {| d_addr := 16384; d_len := 64; d_flags := 1; d_next := 0 |}).

Lemma chain_walk_terminates_witness :
  exists cs, chain_into_iter (prof:=dev_profile) (E:=QueueError) example_mm cyclic_hm
               (table_chain example_queue cyclic_hm 1048576 0) = Ok cs /\
    walk 1048576 example_queue cyclic_hm (table_chain example_queue cyclic_hm 1048576 0) cs /\
    1 <= zlen cs <= 4.
Proof.
  apply (chain_walk_terminates (prof:=dev_profile) example_mm 1048576 (1048576 + 4096)
           (1048576 + 8192) example_queue cyclic_hm 0).
  - apply example_mm_wf.
  - apply host_write_wf; [intros a; unfold is_byte; lia|].
    repeat (apply bytes_ok_app; split); apply le_bytes_ok.
  - apply example_queue_wf.
  - apply example_rings.
  - lia.
  - vm_compute. reflexivity.
Defined.

(** [add_used] puts the element (head, length) in the slot
    [next_used mod size] of the used ring, then publishes the incremented
    index, and counts the element; apart from these ten bytes guest memory is
    unchanged, so the element is complete when the index shows it. *)
Theorem add_used_publishes_element {prof : Profile} mm pd pa pu q hm head len :
  mm_wf mm -> queue_wf q -> rings_mapped mm q pd pa pu -> 0 <= head < q_size q -> fits 32 len ->
  exists q' hm', q_add_used mm head len (q, hm) = (Ok tt, (q', hm')) /\
    q' = q_set_used (wadd 16 (q_next_used q) 1) (wadd 16 (q_num_added q) 1) q /\
    let slot := 4 + 8 * (q_next_used q mod q_size q) in
    pod_of (host_read hm' (pu + slot) 8) = used_elem_new head len /\
    le_val (host_read hm' (pu + 2) 2) = wadd 16 (q_next_used q) 1 /\
    forall a, ~ (pu + slot <= a < pu + slot + 8) -> ~ (pu + 2 <= a < pu + 4) -> hm' a = hm a.
Proof.
  intros Hmm Hq Hr Hh Hl. do 2 eexists. split; [by apply (add_used_mapped mm Hmm pd pa pu)|].
  split; [done|]. cbv zeta. pose proof Hq as [Hs Hmax Hna Hnu _ _ _ _].
  pose proof (Z.mod_pos_bound (q_next_used q) (q_size q) ltac:(lia)) as Hm.
  assert (fits 32 head) as Hhead by (unfold fits; lia).
  set (slot := 4 + 8 * (q_next_used q mod q_size q)). unfold used_write. fold slot.
  set (elem := le_bytes 4 head ++ le_bytes 4 len).
  assert (length elem = 8%nat) as He by (unfold elem; by autorewrite with buffer_len).
  set (idx := le_bytes 2 (wadd 16 (q_next_used q) 1)).
  assert (length idx = 2%nat) as Hi by (unfold idx; by autorewrite with buffer_len).
  split_and!.
  - rewrite host_read_write_disjoint by (unfold zlen; rewrite Hi; lia).
    rewrite <- He, host_read_write. unfold elem.
    change (pod_of (pod_to (used_elem_new head len)) = used_elem_new head len).
    by apply pod_of_to.
  - rewrite <- Hi, host_read_write. apply le_val_le_bytes_fits. apply wadd_fits. lia.
  - intros a H1 H2. rewrite !host_write_out; [done| |]; unfold zlen; lia.
Qed.

Lemma add_used_publishes_element_witness :
  exists q' hm', q_add_used (prof:=dev_profile) example_mm 2 576 (example_queue, example_hm)
                   = (Ok tt, (q', hm')) /\
    q' = q_set_used 0 1 example_queue /\
    let slot := 4 + 8 * (65535 mod 4) in
    pod_of (host_read hm' (1048576 + 8192 + slot) 8) = used_elem_new 2 576 /\
    le_val (host_read hm' (1048576 + 8192 + 2) 2) = 0 /\
    forall a, ~ (1048576 + 8192 + slot <= a < 1048576 + 8192 + slot + 8) ->
              ~ (1048576 + 8192 + 2 <= a < 1048576 + 8192 + 4) -> hm' a = example_hm a.
Proof.
  apply (add_used_publishes_element (prof:=dev_profile) example_mm 1048576 (1048576 + 4096)
           (1048576 + 8192) example_queue example_hm 2 576).
  - apply example_mm_wf.
  - apply example_queue_wf.
  - apply example_rings.
  - cbn; lia.
  - unfold fits; lia.
Defined.

(** [add_used] drops the [Result] of the write of the element.  When the
    slot of the element is not guest memory but the header of the ring is,
    the call returns success and publishes the incremented index: the driver
    is shown an element that was never written. *)
Theorem add_used_ignores_failed_element {prof : Profile} mm q hm head len pu :
  regions_wf mm -> fits 16 (q_next_used q) -> 0 <= q_used_ring q -> q_used_ring q + 2 < 2 ^ 64 ->
  0 <= head < q_size q -> q_size q < 2 ^ 16 ->
  q_used_ring q + (4 + (q_next_used q mod q_size q) * 8) < 2 ^ 64 ->
  region_at mm (q_used_ring q + (4 + (q_next_used q mod q_size q) * 8)) = None ->
  mapped mm (q_used_ring q + 2) 2 pu ->
  q_add_used mm head len (q, hm) =
    (Ok tt, (q_set_used (wadd 16 (q_next_used q) 1) (wadd 16 (q_num_added q) 1) q,
             host_write hm pu (le_bytes 2 (wadd 16 (q_next_used q) 1)))).
Proof.
  intros Hwf Hnu Hu0 Hu Hh Hs Hslot Hnone Hidx. unfold q_add_used, q_mem, q_modify. run_St.
  destruct (Z.leb_spec (q_size q) head); [lia|].
  unfold VIRTQ_USED_RING_HEADER_SIZE, VIRTQ_USED_ELEMENT_SIZE, addr_checked_add.
  rewrite (proj2 (checked_add_Some 64 (q_used_ring q) (4 + _) _)) by (split; [done|lia]).
  unfold write_obj, write_guest_memory, mm_checked_range. run_St.
  rewrite find_region_wf, Hnone by done. run_St. cbn [q_used_ring q_set_used q_next_used].
  rewrite (proj2 (checked_add_Some 64 (q_used_ring q) 2 _)) by (split; [done|lia]). run_St.
  by rewrite (store_mapped mm _ _ 2 _ pu).
Qed.

(** The used ring starts eight bytes before the end of the region. *)
Definition truncated_queue : Queue :=
  {| q_max_size := 256; q_size := 4; q_ready := true; q_desc_table := 4096;
     q_avail_ring := 8192; q_used_ring := 69632 - 8; q_next_avail := 0; q_next_used := 3;
     q_event_idx_enabled := false; q_num_added := 0 |}.

Lemma add_used_ignores_failed_element_witness :
  q_add_used (prof:=dev_profile) example_mm 1 100 (truncated_queue, example_hm) =
    (Ok tt, (q_set_used 4 1 truncated_queue,
             host_write example_hm (1048576 + (69626 - 4096)) (le_bytes 2 4))).
Proof.
  apply (add_used_ignores_failed_element (prof:=dev_profile) example_mm truncated_queue
           example_hm 1 100 (1048576 + (69626 - 4096))).
  - apply (mm_wf_regions _ example_mm_wf).
  - unfold fits; cbn; lia.
  - cbn; lia.
  - vm_compute. reflexivity.
  - cbn; lia.
  - cbn; lia.
  - vm_compute. reflexivity.
  - vm_compute. reflexivity.
  - apply example_mapped; cbn; lia.
Defined.

(** C32: with event indices negotiated, [needs_notification] answers whether
    the driver's [used_event] lies in the circular window of the elements
    added since the last call, for every position of the wrapping 16-bit
    counters; the window restarts empty, so a second call without an added
    element always answers no. *)
Theorem needs_notification_window {prof : Profile} mm pd pa pu q hm :
  mm_wf mm -> hostmem_wf hm -> queue_wf q -> rings_mapped mm q pd pa pu ->
  q_event_idx_enabled q = true ->
  let used_event := le_val (host_read hm (pa + (4 + 2 * q_size q)) 2) in
  exists b q', q_needs_notification mm (q, hm) = (Ok b, (q', hm)) /\
    q' = q_set_used (q_next_used q) 0 q /\
    (b = true <-> exists j, 0 <= j < q_num_added q /\
       used_event = wadd 16 (wsub 16 (q_next_used q) (q_num_added q)) j) /\
    q_needs_notification mm (q', hm) = (Ok false, (q', hm)).
Proof.
  intros Hmm Hhm Hq Hr He used_event.
  assert (forall n, fits 16 n -> q_needs_notification mm (q_set_used (q_next_used q) n q, hm) =
    (Ok (wsub 16 (wsub 16 (q_next_used q) used_event) 1 <? n),
     (q_set_used (q_next_used q) 0 q, hm))) as Hrun.
  { intros n Hn. rewrite (needs_notification_mapped mm Hmm pd pa pu) by
      (try apply queue_wf_used; first [done | apply Hq | split; apply Hr]).
    unfold notification_wanted. cbn [q_event_idx_enabled q_set_used]. by rewrite He. }
  pose proof Hq as [_ _ _ Hnu Hna _ _ _].
  exists (wsub 16 (wsub 16 (q_next_used q) used_event) 1 <? q_num_added q). eexists.
  split_and!; [|done| |].
  - rewrite <- (Hrun (q_num_added q)) by done. by destruct q.
  - pose proof (le_val_fits_16 hm (pa + (4 + 2 * q_size q)) Hhm) as Hue. fold used_event in Hue.
    rewrite Z.ltb_lt. unfold wsub, wadd. rewrite wrap_sub_l.
    set (d := wrap 16 (q_next_used q - used_event - 1)). split.
    + intros Hlt. exists (q_num_added q - 1 - d).
      assert (0 <= d) by (apply wrap_fits; lia). split; [lia|].
      rewrite wrap_add_l.
      replace (q_next_used q - q_num_added q + (q_num_added q - 1 - d))
        with (q_next_used q - 1 - d) by lia.
      unfold d. rewrite wrap_sub_r.
      replace (q_next_used q - 1 - (q_next_used q - used_event - 1)) with used_event by lia.
      symmetry. by apply wrap_small.
    + intros (j & Hj & E). unfold d. rewrite E, wrap_add_l.
      rewrite <- wrap_sub_l, wrap_sub_r, wrap_sub_l.
      replace (q_next_used q - (q_next_used q - q_num_added q + j) - 1)
        with (q_num_added q - 1 - j) by lia.
      rewrite wrap_small; [lia|]. destruct Hna. split; lia.
  - rewrite (Hrun 0) by (unfold fits; lia). do 2 f_equal. apply Z.ltb_ge.
    apply wrap_fits. lia.
Qed.

Lemma needs_notification_window_witness :
  let q := q_set_used 1 2 example_queue in
  let hm := host_write example_hm (1048576 + 4096 + 12) [255; 255] in
  let used_event := le_val (host_read hm (1048576 + 4096 + (4 + 2 * 4)) 2) in
  exists b q', q_needs_notification (prof:=dev_profile) example_mm (q, hm) = (Ok b, (q', hm)) /\
    q' = q_set_used 1 0 q /\
    (b = true <-> exists j, 0 <= j < 2 /\ used_event = wadd 16 (wsub 16 1 2) j) /\
    q_needs_notification (prof:=dev_profile) example_mm (q', hm) = (Ok false, (q', hm)).
Proof.
  apply (needs_notification_window (prof:=dev_profile) example_mm 1048576 (1048576 + 4096)
           (1048576 + 8192) (q_set_used 1 2 example_queue)
           (host_write example_hm (1048576 + 4096 + 12) [255; 255])).
  - apply example_mm_wf.
  - apply host_write_wf; [apply example_hm_wf|]. repeat constructor; unfold is_byte; lia.
  - apply queue_wf_used; [apply example_queue_wf| |]; unfold fits; lia.
  - split; apply example_rings.
  - reflexivity.
Defined.

(** [enable_notification] asks the driver for a kick at the first chain the
    device has not popped ([avail_event := next_avail], or clear flags without
    event indices), and answers whether chains were published meanwhile; the
    queue itself is unchanged and no byte outside the written field is. *)
Theorem enable_notification_spec {prof : Profile} mm pd pa pu q hm :
  mm_wf mm -> hostmem_wf hm -> queue_wf q -> rings_mapped mm q pd pa pu ->
  pa + (6 + 2 * q_size q) <= pu \/ pu + (6 + 8 * q_size q) <= pa ->
  let field := if q_event_idx_enabled q then pu + (4 + 8 * q_size q) else pu in
  let value := if q_event_idx_enabled q then q_next_avail q else 0 in
  exists hm', q_enable_notification mm (q, hm) =
      (Ok (negb (avail_ring_idx hm pa =? q_next_avail q)), (q, hm')) /\
    le_val (host_read hm' field 2) = value /\
    forall a, ~ (field <= a < field + 2) -> hm' a = hm a.
Proof.
  intros Hmm Hhm Hq Hr Hdis field value.
  exists (host_write hm field (le_bytes 2 value)).
  pose proof (rm_used _ _ _ _ _ Hr) as Hu. pose proof Hq as [].
  pose proof (mapped_below _ _ _ _ (mm_wf_regions _ Hmm) Hu).
  assert (pu <= field /\ field + 2 <= pu + (6 + 8 * q_size q)) as Hf
    by (unfold field; case_match; lia).
  assert (fits 16 value) as Hv by (unfold value; case_match; [done|unfold fits; lia]).
  split_and!.
  - unfold q_enable_notification. unfold mbind at 1, M_bind at 1.
    assert (q_set_notification mm true (q, hm) =
      (Ok tt, (q, host_write hm field (le_bytes 2 value)))) as ->.
    { rewrite (set_notification_mapped mm Hmm pd pa pu) by done.
      unfold notification_write, field, value. by destruct (q_event_idx_enabled q). }
    run_St. rewrite (avail_idx_mapped mm Hmm pd pa pu) by done. unfold avail_ring_idx.
    by rewrite host_read_write_disjoint by (unfold zlen; rewrite length_le_bytes; lia).
  - pose proof (host_read_write hm field (le_bytes 2 value)) as E.
    rewrite length_le_bytes in E. rewrite E. by apply le_val_le_bytes_fits.
  - intros a Ha. apply host_write_out. unfold zlen. rewrite length_le_bytes. lia.
Qed.

Lemma enable_notification_spec_witness :
  exists hm', q_enable_notification (prof:=dev_profile) example_mm (example_queue, example_hm) =
      (Ok true, (example_queue, hm')) /\
    le_val (host_read hm' (1048576 + 8192 + (4 + 8 * 4)) 2) = 65535 /\
    forall a, ~ (1048576 + 8192 + (4 + 8 * 4) <= a < 1048576 + 8192 + (4 + 8 * 4) + 2) ->
              hm' a = example_hm a.
Proof.
  apply (enable_notification_spec (prof:=dev_profile) example_mm 1048576 (1048576 + 4096)
           (1048576 + 8192) example_queue example_hm).
  - apply example_mm_wf.
  - apply example_hm_wf.
  - apply example_queue_wf.
  - apply example_rings.
  - left. cbn. lia.
Defined.

(** The available ring starts four bytes below the region. *)
Definition straddling_queue : Queue :=
  {| q_max_size := 256; q_size := 4; q_ready := true; q_desc_table := 8192;
     q_avail_ring := 4092; q_used_ring := 12288; q_next_avail := 0; q_next_used := 0;
     q_event_idx_enabled := false; q_num_added := 0 |}.

(** [is_valid] tests the end address of each ring only, so it does not
    establish what the comment in [pop] relies on: a queue it accepts can have
    an available ring whose index is not guest memory, and [pop] then panics
    in its [unwrap], whatever the memory holds. *)
Theorem is_valid_does_not_protect_pop {prof : Profile} hm :
  mm_wf example_mm /\ queue_wf straddling_queue /\
  q_is_valid (E:=QueueError) example_mm straddling_queue = Ok true /\
  q_pop example_mm (straddling_queue, hm) = (Panic, (straddling_queue, hm)).
Proof.
  split_and!.
  - apply example_mm_wf.
  - split; cbn; unfold fits; lia.
  - destruct prof; vm_compute; reflexivity.
  - destruct prof; vm_compute; reflexivity.
Qed.
