(* ===== verification/FileTraits.v ===== *)
(** * FileTraits: volatile file I/O, [src/devices/file_traits.rs]

    The traits through which files and disks read into and write from guest
    buffers, with their default methods, the implementation for [File] and the
    one for the block device's disk.  The Windows calls [ReadFile] and
    [WriteFile] and the [readv]/[writev] of the [imago] crate are parameters:
    operations on a state [St] that contains host memory and the files. *)

From S2P Require Import Prelude Bytes HostMem.

(** ** [FileReadWriteVolatile] *)

Section volatile.
Context {St : Type}.

(** [read_volatile] or [write_volatile] of the implementation. *)
Variable op : VolatileSlice -> M St IoError Z.

(** [bufs.iter().find(|b| !b.is_empty()).map(..).unwrap_or(Ok(0))] *)
Definition vectored_default (bufs : list VolatileSlice) : M St IoError Z :=
  match list_find (fun b => vs_is_empty b = false) bufs with
  | Some (_, b) => op b
  | None => mret 0
  end.

(** The loop shared by [read_exact_volatile] and [write_all_volatile]: they
    differ in the operation and in the error for a transfer of no bytes. *)
Fixpoint exact_loop (fuel : nat) (zero : IoError) (slice : VolatileSlice) : M St IoError unit :=
  match fuel with
  | O => lift NoFuel
  | S fuel' =>
      if vs_is_empty slice then mret tt
      else
        n ← op slice;
        if n =? 0 then throw zero
        else
          slice' ← lift (unwrap (vs_offset slice n));
          exact_loop fuel' zero slice'
  end.

(** The loop of the [_at_] variants: retries on [Interrupted]. *)
Fixpoint exact_at_loop (op_at : VolatileSlice -> Z -> M St IoError Z) (fuel : nat)
    (zero : IoError) (slice : VolatileSlice) (offset : Z) : M St IoError unit :=
  match fuel with
  | O => lift NoFuel
  | S fuel' =>
      if vs_is_empty slice then mret tt
      else
        r ← Mtry (op_at slice offset);
        match r with
        | inl n =>
            if n =? 0 then throw zero
            else
              slice' ← lift (unwrap (vs_offset slice n));
              offset' ← lift (unwrap_opt (checked_add 64 offset n));
              exact_at_loop op_at fuel' zero slice' offset'
        | inr e =>
            if is_interrupted e then exact_at_loop op_at fuel' zero slice offset else throw e
        end
  end.

End volatile.

Section methods.
Context {St : Type}.
Variables (read_volatile write_volatile : VolatileSlice -> M St IoError Z).
Variables (read_at_volatile write_at_volatile : VolatileSlice -> Z -> M St IoError Z).

(* src/devices/file_traits.rs:45-55, FileReadWriteVolatile::read_vectored_volatile *)
Definition read_vectored_volatile (bufs : list VolatileSlice) : M St IoError Z :=
  vectored_default read_volatile bufs.

(* src/devices/file_traits.rs:57-70, FileReadWriteVolatile::read_exact_volatile *)
Definition read_exact_volatile (fuel : nat) (slice : VolatileSlice) : M St IoError unit :=
  exact_loop read_volatile fuel IoUnexpectedEof slice.

(* src/devices/file_traits.rs:76-86, FileReadWriteVolatile::write_vectored_volatile *)
Definition write_vectored_volatile (bufs : list VolatileSlice) : M St IoError Z :=
  vectored_default write_volatile bufs.

(* src/devices/file_traits.rs:88-102, FileReadWriteVolatile::write_all_volatile *)
Definition write_all_volatile (fuel : nat) (slice : VolatileSlice) : M St IoError unit :=
  exact_loop write_volatile fuel IoWriteZero slice.

(* src/devices/file_traits.rs:136-147, FileReadWriteAtVolatile::read_vectored_at_volatile *)
Definition read_vectored_at_volatile (bufs : list VolatileSlice) (offset : Z) : M St IoError Z :=
  match bufs with
  | slice :: _ => read_at_volatile slice offset
  | [] => mret 0
  end.

(* src/devices/file_traits.rs:149-164, FileReadWriteAtVolatile::read_exact_at_volatile *)
Definition read_exact_at_volatile (fuel : nat) (slice : VolatileSlice) (offset : Z) :
    M St IoError unit :=
  exact_at_loop read_at_volatile fuel IoUnexpectedEof slice offset.

(* src/devices/file_traits.rs:170-181, FileReadWriteAtVolatile::write_vectored_at_volatile *)
Definition write_vectored_at_volatile (bufs : list VolatileSlice) (offset : Z) : M St IoError Z :=
  match bufs with
  | slice :: _ => write_at_volatile slice offset
  | [] => mret 0
  end.

(* src/devices/file_traits.rs:183-199, FileReadWriteAtVolatile::write_all_at_volatile *)
Definition write_all_at_volatile (fuel : nat) (slice : VolatileSlice) (offset : Z) :
    M St IoError unit :=
  exact_at_loop write_at_volatile fuel IoWriteZero slice offset.

End methods.

(** ** [volatile_impl!(File)] *)

Section file.
Context {prof : Profile} {St : Type}.

(** [ReadFile]/[WriteFile] on a buffer address and a 32-bit length, at the
    file pointer or at an [OVERLAPPED] offset given as two 32-bit halves; the
    result is the transferred count or the last OS error. *)
Variables (ReadFile WriteFile : Z -> Z -> M St IoError Z).
Variables (ReadFileAt WriteFileAt : Z -> Z -> Z -> Z -> M St IoError Z).

(* src/devices/file_traits.rs:230-248, File::read_volatile *)
Definition file_read_volatile (slice : VolatileSlice) : M St IoError Z :=
  ReadFile (vs_addr slice) (wrap 32 (vs_len slice)).

(* src/devices/file_traits.rs:261-279, File::write_volatile *)
Definition file_write_volatile (slice : VolatileSlice) : M St IoError Z :=
  WriteFile (vs_addr slice) (wrap 32 (vs_len slice)).

(* src/devices/file_traits.rs:294-311, File::read_at_volatile *)
Definition file_read_at_volatile (slice : VolatileSlice) (offset : Z) : M St IoError Z :=
  ReadFileAt (vs_addr slice) (wrap 32 (vs_len slice))
    (wrap 32 offset) (wrap 32 (Z.shiftr offset 32)).

(* src/devices/file_traits.rs:329-345, File::write_at_volatile *)
Definition file_write_at_volatile (slice : VolatileSlice) (offset : Z) : M St IoError Z :=
  WriteFileAt (vs_addr slice) (wrap 32 (vs_len slice))
    (wrap 32 offset) (wrap 32 (Z.shiftr offset 32)).

(** The loops over the buffers, with [total] and [current_offset]. *)
Fixpoint vectored_loop (op : VolatileSlice -> M St IoError Z) (bufs : list VolatileSlice)
    (total : Z) : M St IoError Z :=
  match bufs with
  | [] => mret total
  | buf :: bufs' =>
      n ← op buf;
      total ← lift (uadd 64 total n);
      if n <? vs_len buf then mret total else vectored_loop op bufs' total
  end.

Fixpoint vectored_at_loop (op : VolatileSlice -> Z -> M St IoError Z)
    (bufs : list VolatileSlice) (total current_offset : Z) : M St IoError Z :=
  match bufs with
  | [] => mret total
  | buf :: bufs' =>
      n ← op buf current_offset;
      total ← lift (uadd 64 total n);
      current_offset ← lift (uadd 64 current_offset n);
      if n <? vs_len buf then mret total else vectored_at_loop op bufs' total current_offset
  end.

(* src/devices/file_traits.rs:250-259, File::read_vectored_volatile *)
Definition file_read_vectored_volatile (bufs : list VolatileSlice) : M St IoError Z :=
  vectored_loop file_read_volatile bufs 0.

(* src/devices/file_traits.rs:281-290, File::write_vectored_volatile *)
Definition file_write_vectored_volatile (bufs : list VolatileSlice) : M St IoError Z :=
  vectored_loop file_write_volatile bufs 0.

(* src/devices/file_traits.rs:313-327, File::read_vectored_at_volatile *)
Definition file_read_vectored_at_volatile (bufs : list VolatileSlice) (offset : Z) :
    M St IoError Z :=
  vectored_at_loop file_read_at_volatile bufs 0 offset.

(* src/devices/file_traits.rs:347-361, File::write_vectored_at_volatile *)
Definition file_write_vectored_at_volatile (bufs : list VolatileSlice) (offset : Z) :
    M St IoError Z :=
  vectored_at_loop file_write_at_volatile bufs 0 offset.

End file.

(** ** The disk of the block device

    [IoVector::len] of [imago] is the total length of the buffers; [readv] and
    [writev] transfer all of it or fail. *)
Section disk.
Context {St : Type}.
Variable iovec_len : list VolatileSlice -> Z.
Variables (readv writev : list VolatileSlice -> Z -> M St IoError unit).

(** [try_into] from [u64] to [usize] cannot fail on a 64-bit host. *)
(* src/devices/file_traits.rs:374-386, DiskProperties::read_vectored_at_volatile *)
Definition disk_read_vectored_at_volatile (bufs : list VolatileSlice) (offset : Z) :
    M St IoError Z :=
  match bufs with
  | [] => mret 0
  | _ => _ ← readv bufs offset; mret (iovec_len bufs)
  end.

(* src/devices/file_traits.rs:370-372, DiskProperties::read_at_volatile *)
Definition disk_read_at_volatile (slice : VolatileSlice) (offset : Z) : M St IoError Z :=
  disk_read_vectored_at_volatile [slice] offset.

(* src/devices/file_traits.rs:392-404, DiskProperties::write_vectored_at_volatile *)
Definition disk_write_vectored_at_volatile (bufs : list VolatileSlice) (offset : Z) :
    M St IoError Z :=
  match bufs with
  | [] => mret 0
  | _ => _ ← writev bufs offset; mret (iovec_len bufs)
  end.

(* src/devices/file_traits.rs:388-390, DiskProperties::write_at_volatile *)
Definition disk_write_at_volatile (slice : VolatileSlice) (offset : Z) : M St IoError Z :=
  disk_write_vectored_at_volatile [slice] offset.

End disk.

(** ** Buffers as address streams

    The abstract view of a list of slices: the host addresses of its bytes in
    order. *)
Definition slice_wf (vs : VolatileSlice) : Prop :=
  0 <= vs_addr vs /\ 0 <= vs_size vs /\ vs_addr vs + vs_size vs < 2 ^ 64.

Definition slice_stream (vs : VolatileSlice) : list Z := seqZ (vs_addr vs) (vs_size vs).
Definition stream (bufs : list VolatileSlice) : list Z := concat (map slice_stream bufs).

(** The bytes at a stream of addresses, and their update. *)
Definition stream_read (hm : hostmem) (l : list Z) : list Z := map hm l.
Fixpoint stream_write (hm : hostmem) (l bs : list Z) : hostmem :=
  match l, bs with
  | a :: l', b :: bs' => stream_write (fun x => if x =? a then b else hm x) l' bs'
  | _, _ => hm
  end.

Lemma length_slice_stream vs : 0 <= vs_size vs -> zlen (slice_stream vs) = vs_size vs.
Proof. intros. unfold zlen, slice_stream. rewrite length_seqZ. lia. Qed.

Lemma zlen_app {A} (l k : list A) : zlen (l ++ k) = zlen l + zlen k.
Proof. unfold zlen. rewrite length_app. lia. Qed.

Lemma stream_app bufs bufs' : stream (bufs ++ bufs') = stream bufs ++ stream bufs'.
Proof. unfold stream. by rewrite map_app, concat_app. Qed.

Lemma take_slice_stream vs n :
  0 <= n <= vs_size vs -> take (Z.to_nat n) (slice_stream vs) = seqZ (vs_addr vs) n.
Proof.
  intros. unfold slice_stream. apply list_eq. intros i.
  destruct (decide (i < Z.to_nat n)%nat).
  - rewrite lookup_take_lt by done. rewrite !lookup_seqZ_lt by lia. done.
  - rewrite lookup_take_ge by lia. by rewrite lookup_seqZ_ge by lia.
Qed.

Lemma drop_slice_stream vs n :
  0 <= n <= vs_size vs ->
  drop (Z.to_nat n) (slice_stream vs) = seqZ (vs_addr vs + n) (vs_size vs - n).
Proof.
  intros. unfold slice_stream. apply list_eq. intros i. rewrite lookup_drop.
  destruct (decide (Z.of_nat i < vs_size vs - n)).
  - rewrite !lookup_seqZ_lt by lia. f_equal. lia.
  - by rewrite !lookup_seqZ_ge by lia.
Qed.

Lemma host_read_stream hm vs n :
  0 <= n <= vs_size vs ->
  host_read hm (vs_addr vs) (Z.to_nat n) = stream_read hm (take (Z.to_nat n) (slice_stream vs)).
Proof.
  intros. rewrite take_slice_stream by done. unfold host_read, stream_read.
  apply list_eq. intros i. rewrite !list_lookup_fmap.
  destruct (decide (i < Z.to_nat n)%nat).
  - rewrite lookup_seq_lt, lookup_seqZ_lt by lia. cbn. done.
  - rewrite lookup_seq_ge, lookup_seqZ_ge by lia. done.
Qed.

Lemma stream_write_notin hm l bs a : a ∉ l -> stream_write hm l bs a = hm a.
Proof.
  revert hm bs. induction l as [|b l IH]; intros hm bs Ha; [done|].
  apply not_elem_of_cons in Ha as [Hab Hl]. destruct bs as [|x bs]; [done|].
  cbn. rewrite IH by done. by rewrite (proj2 (Z.eqb_neq a b)).
Qed.

Lemma stream_write_app hm l l' bs bs' :
  length l = length bs ->
  stream_write hm (l ++ l') (bs ++ bs') = stream_write (stream_write hm l bs) l' bs'.
Proof.
  revert hm bs. induction l as [|a l IH]; intros hm [|b bs] H; simplify_eq/=; [done|].
  by rewrite IH by lia.
Qed.

Lemma stream_read_write hm l bs :
  NoDup l -> length l = length bs -> stream_read (stream_write hm l bs) l = bs.
Proof.
  revert hm bs. induction l as [|a l IH]; intros hm [|b bs] Hnd H; simplify_eq/=; [done|].
  apply NoDup_cons in Hnd as [Ha Hnd]. f_equal.
  - rewrite stream_write_notin by done. by rewrite Z.eqb_refl.
  - apply (IH _ bs); [done|lia].
Qed.

Lemma stream_read_disjoint hm l bs l' :
  (forall a, a ∈ l' -> a ∉ l) -> stream_read (stream_write hm l bs) l' = stream_read hm l'.
Proof.
  intros H. unfold stream_read. apply map_ext_in. intros a Ha.
  apply stream_write_notin, H. by apply list_elem_of_In.
Qed.

(** [seqZ] writes are host writes, point by point. *)
Lemma host_write_stream hm p bs x :
  host_write hm p bs x = stream_write hm (seqZ p (zlen bs)) bs x.
Proof.
  revert hm p. induction bs as [|b bs IH]; intros hm p.
  - by rewrite host_write_out by (unfold zlen; cbn; lia).
  - unfold zlen in *. cbn [length]. rewrite seqZ_cons by lia. cbn [stream_write].
    replace (Z.pred (Z.of_nat (S (length bs)))) with (Z.of_nat (length bs)) by lia.
    rewrite <- (IH _ (Z.succ p)). unfold host_write, zlen. cbn [length].
    destruct (decide (x = p)) as [->|].
    + rewrite Z.leb_refl, Z.sub_diag, Z.eqb_refl.
      destruct (Z.ltb_spec p (p + Z.of_nat (S (length bs)))); [|lia].
      destruct (Z.leb_spec (Z.succ p) p); [lia|done].
    + rewrite (proj2 (Z.eqb_neq x p)) by done.
      destruct (Z.leb_spec p x), (Z.leb_spec (Z.succ p) x); try lia; cbn [andb]; [|done].
      destruct (Z.ltb_spec x (p + Z.of_nat (S (length bs)))),
               (Z.ltb_spec x (Z.succ p + Z.of_nat (length bs))); try (exfalso; lia); try done.
      replace (Z.to_nat (x - p)) with (S (Z.to_nat (x - Z.succ p))) by lia. done.
Qed.

Lemma stream_write_ext hm hm' l bs x :
  (forall y, hm y = hm' y) -> stream_write hm l bs x = stream_write hm' l bs x.
Proof.
  revert hm hm' bs. induction l as [|a l IH]; intros hm hm' bs H; [apply H|].
  destruct bs as [|b bs]; [apply H|]. cbn. apply IH. intros y. by rewrite H.
Qed.

Lemma stream_write_wf hm l bs :
  hostmem_wf hm -> bytes_ok bs -> hostmem_wf (stream_write hm l bs).
Proof.
  intros Hhm Hbs. revert hm l Hhm. induction Hbs as [|b bs Hb _ IH]; intros hm [|a l] Hhm; try done.
  cbn. apply IH. intros x. by destruct (x =? a).
Qed.
