(* ===== verification/Regions.v ===== *)
(** * Regions: guest addresses and collections of memory regions,
      [vm-memory/src/address.rs], [region.rs] and [guest_memory.rs]

    The address arithmetic of [vm-memory], the interface [GuestMemoryRegion]
    of one contiguous region, and [GuestRegionCollection], the sorted vector of
    regions with its insertion, removal and lookup by binary search.  The file
    shows that a collection is a map from guest addresses to regions. *)

From stdpp Require Import sorting.
From S2P Require Import Prelude HostMem.

(** ** Addresses

    [impl_address_ops!] is used at [u64]: [GuestAddress] and
    [MemoryRegionAddress] are 64-bit words. *)
Section address.
Context {prof : Profile} {E : Type}.

(* vm-memory/src/address.rs:40-49, AddressValue::zero / AddressValue::one *)
Definition av_one : Z := 1.
(* vm-memory/src/address.rs:82-84, Address::mask *)
Definition ga_mask (self mask : Z) : Z := Z.land self mask.
(* vm-memory/src/address.rs:180-182, Address::checked_offset_from *)
Definition ga_checked_offset_from (self base : Z) : option Z := checked_sub self base.
(* vm-memory/src/address.rs:107-109, Address::unchecked_offset_from *)
Definition ga_unchecked_offset_from (self base : Z) : out E Z := usub 64 self base.
(* vm-memory/src/address.rs:184-186, Address::checked_add *)
Definition ga_checked_add (self other : Z) : option Z := checked_add 64 self other.
(* vm-memory/src/address.rs:188-191, Address::overflowing_add *)
Definition ga_overflowing_add (self other : Z) : Z * bool :=
  (wadd 64 self other, 2 ^ 64 <=? self + other).
(* vm-memory/src/address.rs:193-195, Address::unchecked_add *)
Definition ga_unchecked_add (self offset : Z) : out E Z := uadd 64 self offset.
(* vm-memory/src/address.rs:197-199, Address::checked_sub *)
Definition ga_checked_sub (self other : Z) : option Z := checked_sub self other.
(* vm-memory/src/address.rs:201-204, Address::overflowing_sub *)
Definition ga_overflowing_sub (self other : Z) : Z * bool := (wsub 64 self other, self <? other).
(* vm-memory/src/address.rs:206-208, Address::unchecked_sub *)
Definition ga_unchecked_sub (self other : Z) : out E Z := usub 64 self other.
(* vm-memory/src/address.rs:217-231, BitAnd::bitand *)
Definition ga_bitand (self other : Z) : Z := Z.land self other.

(** The assertions follow the computation of the mask. *)
(* vm-memory/src/address.rs:112-117, Address::checked_align_up *)
Definition ga_checked_align_up (self power_of_two : Z) : out E (option Z) :=
  mask ← usub 64 power_of_two av_one;
  if power_of_two =? 0 then Panic
  else if negb (Z.land power_of_two mask =? 0) then Panic
  else Ok ((fun x => ga_bitand x (wnot 64 mask)) <$> ga_checked_add self mask).

(* vm-memory/src/address.rs:121-124, Address::unchecked_align_up *)
Definition ga_unchecked_align_up (self power_of_two : Z) : out E Z :=
  mask ← usub 64 power_of_two av_one;
  s ← ga_unchecked_add self mask;
  Ok (ga_bitand s (wnot 64 mask)).

End address.

(** ** [GuestMemoryRegion] *)

(** What an implementation provides; [GuestMemoryError] is the error type of
    all of them.  The bitmap and the backing file are of no concern here. *)
(* vm-memory/src/region.rs:41-58, GuestMemoryRegion *)
Class GuestMemoryRegion (R : Type) : Type := {
  rg_len : R -> Z;
  rg_start_addr : R -> Z;
  rg_get_host_address : R -> Z -> out GuestMemoryError Z;
  rg_get_slice : R -> Z -> Z -> out GuestMemoryError VolatileSlice;
}.

(* vm-memory/src/region.rs:102-104, GuestMemoryRegion::get_host_address *)
Definition default_get_host_address (addr : Z) : out GuestMemoryError Z :=
  Err HostAddressNotAvailable.
(* vm-memory/src/region.rs:114-120, GuestMemoryRegion::get_slice *)
Definition default_get_slice (offset count : Z) : out GuestMemoryError VolatileSlice :=
  Err HostAddressNotAvailable.

Section region.
Context {prof : Profile} {R : Type} `{!GuestMemoryRegion R}.

(* vm-memory/src/region.rs:52-55, GuestMemoryRegion::last_addr *)
Definition rg_last_addr {E} (r : R) : out E Z :=
  n ← usub 64 (rg_len r) 1;
  ga_unchecked_add (rg_start_addr r) n.

(* vm-memory/src/region.rs:70-72, GuestMemoryRegion::address_in_range *)
Definition rg_address_in_range (r : R) (addr : Z) : bool := addr <? rg_len r.
(* vm-memory/src/region.rs:61-67, GuestMemoryRegion::check_address *)
Definition rg_check_address (r : R) (addr : Z) : option Z :=
  if rg_address_in_range r addr then Some addr else None.
(* vm-memory/src/region.rs:75-82, GuestMemoryRegion::checked_offset *)
Definition rg_checked_offset (r : R) (base offset : Z) : option Z :=
  ga_checked_add base offset ≫= rg_check_address r.
(* vm-memory/src/region.rs:87-90, GuestMemoryRegion::to_region_addr *)
Definition rg_to_region_addr (r : R) (addr : Z) : option Z :=
  ga_checked_offset_from addr (rg_start_addr r) ≫= rg_check_address r.
(* vm-memory/src/region.rs:146-148, GuestMemoryRegion::as_volatile_slice *)
Definition rg_as_volatile_slice (r : R) : out GuestMemoryError VolatileSlice :=
  rg_get_slice r 0 (rg_len r).

End region.

(** ** The standard library's searching and sorting *)

(** [slice::binary_search_by_key]: halving as the library does it; [inl] is
    [Ok] with the index found, [inr] is [Err] with the insertion point. *)
Fixpoint bsearch_loop (fuel : nat) (keys : list Z) (base size : nat) (key : Z) : nat :=
  match fuel with
  | O => base
  | S fuel' =>
      if (size <=? 1)%nat then base
      else
        let half := (size / 2)%nat in
        let mid := (base + half)%nat in
        let base' := if key <? nth mid keys 0 then base else mid in
        bsearch_loop fuel' keys base' (size - half) key
  end.

Definition binary_search_by_key (keys : list Z) (key : Z) : nat + nat :=
  match keys with
  | [] => inr 0%nat
  | _ =>
      let base := bsearch_loop (length keys) keys 0 (length keys) key in
      let k := nth base keys 0 in
      if k =? key then inl base else inr (if k <? key then S base else base)
  end.

(** [slice::sort_by_key], which is stable. *)
Section sort.
Context {A : Type} (f : A -> Z).

Fixpoint insert_by_key (x : A) (l : list A) : list A :=
  match l with
  | [] => [x]
  | y :: l' => if f x <=? f y then x :: l else y :: insert_by_key x l'
  end.
Definition sort_by_key (l : list A) : list A := foldr insert_by_key [] l.

End sort.

(** ** [GuestRegionCollection] *)

(* vm-memory/src/region.rs:171-181, GuestRegionCollectionError *)
Inductive GuestRegionCollectionError : Type :=
| NoMemoryRegion
| MemoryRegionOverlap
| UnsortedMemoryRegions.

(** The regions are immutable behind their [Arc]s. *)
(* vm-memory/src/region.rs:188-190, GuestRegionCollection *)
Record GuestRegionCollection (R : Type) : Type := { grc_regions : list R }.
Arguments grc_regions {R}.
Arguments Build_GuestRegionCollection {R}.

Section collection.
Context {prof : Profile} {R : Type} `{!GuestMemoryRegion R}.
#[local] Abbreviation C := (GuestRegionCollection R).
#[local] Abbreviation Res := (out GuestRegionCollectionError).

(* vm-memory/src/region.rs:195-201, GuestRegionCollection::default *)
Definition grc_default : C := {| grc_regions := [] |}.
(* vm-memory/src/region.rs:213-215, GuestRegionCollection::new *)
Definition grc_new : C := grc_default.

(** [for window in regions.windows(2)] *)
(* vm-memory/src/region.rs:249-260, GuestRegionCollection::from_arc_regions *)
Fixpoint check_windows (prev : R) (rest : list R) : Res unit :=
  match rest with
  | [] => Ok tt
  | next :: rest' =>
      if rg_start_addr next <? rg_start_addr prev then Err UnsortedMemoryRegions
      else
        last ← rg_last_addr prev;
        if rg_start_addr next <=? last then Err MemoryRegionOverlap
        else check_windows next rest'
  end.

(* vm-memory/src/region.rs:242-263, GuestRegionCollection::from_arc_regions *)
Definition from_arc_regions (regions : list R) : Res C :=
  match regions with
  | [] => Err NoMemoryRegion
  | r :: rest => _ ← check_windows r rest; Ok {| grc_regions := regions |}
  end.

(* vm-memory/src/region.rs:224-228, GuestRegionCollection::from_regions *)
Definition from_regions (regions : list R) : Res C := from_arc_regions regions.

(* vm-memory/src/region.rs:269-278, GuestRegionCollection::insert_region *)
Definition insert_region (c : C) (region : R) : Res C :=
  from_arc_regions (sort_by_key rg_start_addr (grc_regions c ++ [region])).

(* vm-memory/src/region.rs:286-300, GuestRegionCollection::remove_region *)
Definition remove_region (c : C) (base size : Z) : Res (C * R) :=
  match binary_search_by_key (map rg_start_addr (grc_regions c)) base with
  | inl region_index =>
      r ← unwrap_opt (grc_regions c !! region_index);
      if rg_len r =? size
      then Ok ({| grc_regions := delete region_index (grc_regions c) |}, r)
      else Err NoMemoryRegion
  | inr _ => Err NoMemoryRegion
  end.

(* vm-memory/src/region.rs:306-308, GuestRegionCollection::num_regions *)
Definition grc_num_regions (c : C) : Z := zlen (grc_regions c).

(* vm-memory/src/region.rs:310-318, GuestRegionCollection::find_region *)
Definition grc_find_region {E} (c : C) (addr : Z) : out E (option R) :=
  index ← match binary_search_by_key (map rg_start_addr (grc_regions c)) addr with
          | inl x => Ok (Some x)
          | inr O => Ok None
          | inr (S x) =>
              r ← unwrap_opt (grc_regions c !! x);
              last ← rg_last_addr r;
              Ok (if addr <=? last then Some x else None)
          end;
  match index with
  | Some x => r ← unwrap_opt (grc_regions c !! x); Ok (Some r)
  | None => Ok None
  end.

(** ** The methods [GuestMemory] provides by default *)

(* vm-memory/src/guest_memory.rs:278-280, GuestMemory::num_regions *)
Definition default_num_regions (regions : list R) : Z := zlen regions.

(* vm-memory/src/guest_memory.rs:283-286, GuestMemory::find_region *)
Fixpoint default_find_region {E} (regions : list R) (addr : Z) : out E (option R) :=
  match regions with
  | [] => Ok None
  | r :: regions' =>
      if rg_start_addr r <=? addr then
        last ← rg_last_addr r;
        if addr <=? last then Ok (Some r) else default_find_region regions' addr
      else default_find_region regions' addr
  end.

(** [.map(last_addr).fold(GuestAddress(0), max)] *)
Fixpoint fold_last_addr {E} (regions : list R) (acc : Z) : out E Z :=
  match regions with
  | [] => Ok acc
  | r :: regions' => last ← rg_last_addr r; fold_last_addr regions' (Z.max acc last)
  end.
(* vm-memory/src/guest_memory.rs:332-336, GuestMemory::last_addr *)
Definition gm_last_addr {E} (c : C) : out E Z := fold_last_addr (grc_regions c) 0.

(* vm-memory/src/guest_memory.rs:341-344, GuestMemory::to_region_addr *)
Definition gm_to_region_addr {E} (c : C) (addr : Z) : out E (option (R * Z)) :=
  o ← grc_find_region c addr;
  match o with
  | Some r => a ← unwrap_opt (rg_to_region_addr r addr); Ok (Some (r, a))
  | None => Ok None
  end.

(* vm-memory/src/guest_memory.rs:347-349, GuestMemory::address_in_range *)
Definition gm_address_in_range {E} (c : C) (addr : Z) : out E bool :=
  o ← grc_find_region c addr; Ok (match o with Some _ => true | None => false end).

(* vm-memory/src/guest_memory.rs:352-354, GuestMemory::check_address *)
Definition gm_check_address {E} (c : C) (addr : Z) : out E (option Z) :=
  o ← grc_find_region c addr; Ok (match o with Some _ => Some addr | None => None end).

(* vm-memory/src/guest_memory.rs:364-367, GuestMemory::checked_offset *)
Definition gm_checked_offset {E} (c : C) (base offset : Z) : out E (option Z) :=
  match ga_checked_add base offset with
  | Some addr => gm_check_address c addr
  | None => Ok None
  end.

(* vm-memory/src/guest_memory.rs:450-454, GuestMemory::get_host_address *)
Definition gm_get_host_address (c : C) (addr : Z) : out GuestMemoryError Z :=
  o ← gm_to_region_addr c addr;
  ra ← ok_or o (InvalidGuestAddress addr);
  rg_get_host_address ra.1 ra.2.

(* vm-memory/src/guest_memory.rs:458-462, GuestMemory::get_slice *)
Definition gm_get_slice (c : C) (addr count : Z) : out GuestMemoryError VolatileSlice :=
  o ← gm_to_region_addr c addr;
  ra ← ok_or o (InvalidGuestAddress addr);
  rg_get_slice ra.1 ra.2 count.

End collection.

(** ** Lemmas: alignment *)

Lemma align_up_spec {prof : Profile} {E} n a :
  0 <= n < 64 -> fits 64 a ->
  let m := 2 ^ n * ((a + (2 ^ n - 1)) / 2 ^ n) in
  a <= m < a + 2 ^ n /\
  ga_checked_align_up (E:=E) a (2 ^ n) = Ok (if m <? 2 ^ 64 then Some m else None).
Proof.
  intros Hn Ha m. pose proof (pow2_pos n ltac:(lia)) as Hp.
  pose proof (Z.pow_lt_mono_r 2 n 64 ltac:(lia) ltac:(lia) ltac:(lia)) as Hlt.
  pose proof (Z.div_mod (a + (2 ^ n - 1)) (2 ^ n) ltac:(lia)) as Hd.
  pose proof (Z.mod_pos_bound (a + (2 ^ n - 1)) (2 ^ n) Hp) as Hm.
  assert (a <= m < a + 2 ^ n) as Hb by (subst m; lia). split; [exact Hb|].
  unfold ga_checked_align_up, av_one, usub. rewrite (proj2 (Z.leb_le 1 _)) by lia.
  cbn [mbind out_bind]. rewrite (proj2 (Z.eqb_neq _ 0)) by lia.
  replace (Z.land (2 ^ n) (2 ^ n - 1)) with 0.
  2:{ replace (2 ^ n - 1) with (Z.ones n) by (rewrite Z.ones_equiv; lia).
      rewrite Z.land_ones by lia. by rewrite Z_mod_same_full. }
  cbn [negb Z.eqb]. f_equal. unfold ga_checked_add, checked_add, ga_bitand.
  destruct (Z.ltb_spec (a + (2 ^ n - 1)) (2 ^ 64)) as [Hs|Hs]; cbn [fmap option_fmap option_map].
  - rewrite land_align by (unfold fits in *; lia). fold m. rewrite (proj2 (Z.ltb_lt m _)); [done|]. subst m. lia.
  - rewrite (proj2 (Z.ltb_ge m _)); [done|]. subst m.
    replace (2 ^ 64) with (2 ^ n * 2 ^ (64 - n)) in Hs |- * by (rewrite <- Z.pow_add_r by lia; f_equal; lia).
    apply Z.mul_le_mono_nonneg_l; [lia|]. apply Z.div_le_lower_bound; lia.
Qed.

(** ** Lemmas: searching and sorting *)

Lemma ssorted_lookup {A} (P : relation A) l i j x y :
  StronglySorted P l -> (i < j)%nat -> l !! i = Some x -> l !! j = Some y -> P x y.
Proof.
  intros Hs. revert i j. induction Hs as [|z l Hs IH Hz]; intros i j Hij Hi Hj; [done|].
  destruct i as [|i], j as [|j]; try lia; cbn in Hi, Hj.
  - injection Hi as ->. rewrite Forall_forall in Hz. by eapply Hz, list_elem_of_lookup_2.
  - by apply (IH i j); [lia|..].
Qed.

(** In a strictly increasing list the search ends at the last key that is not
    above [key], or at the start. *)
Lemma bsearch_loop_spec keys key fuel : forall base size,
  StronglySorted Z.lt keys -> (size <= fuel)%nat -> (1 <= size)%nat ->
  (base + size <= length keys)%nat ->
  (forall i k, (i < base)%nat -> keys !! i = Some k -> k < key) ->
  (forall i k, (base + size <= i)%nat -> keys !! i = Some k -> key < k) ->
  let b := bsearch_loop fuel keys base size key in
  (b < length keys)%nat /\
  (forall i k, (i < b)%nat -> keys !! i = Some k -> k < key) /\
  (forall i k, (b < i)%nat -> keys !! i = Some k -> key < k).
Proof.
  induction fuel as [|fuel IH]; intros base size Hs Hf H1 Hb Hlow Hhigh; [lia|].
  cbn [bsearch_loop]. destruct (Nat.leb_spec size 1) as [Hle|Hgt].
  - split_and!; [lia|done|]. intros i k Hi Hk. apply (Hhigh i k); [lia|done].
  - pose proof (Nat.div_lt size 2 ltac:(lia) ltac:(lia)) as Hd.
    pose proof (Nat.Div0.mul_div_le size 2) as Hd2.
    assert (1 <= size / 2)%nat as Hd1 by (apply Nat.div_le_lower_bound; lia).
    set (half := (size / 2)%nat) in *. set (mid := (base + half)%nat).
    destruct (lookup_lt_is_Some_2 keys mid ltac:(lia)) as [m Hm].
    rewrite (nth_lookup_Some _ _ _ _ Hm).
    assert (forall i j x y, (i < j)%nat -> keys !! i = Some x -> keys !! j = Some y -> x < y) as Hlt.
    { intros i j x y Hij Hx Hy. by apply (ssorted_lookup Z.lt keys i j). }
    destruct (Z.ltb_spec key m) as [Hkm|Hkm].
    + apply IH; [done|lia|lia|lia|done|]. intros i k Hi Hk.
      destruct (decide (i = mid)) as [->|]; [congruence|].
      destruct (decide (i < mid)%nat); [lia|]. pose proof (Hlt mid i m k ltac:(lia) Hm Hk). lia.
    + apply IH; [done|lia|lia|lia| |].
      * intros i k Hi Hk. pose proof (Hlt i mid k m Hi Hk Hm). lia.
      * intros i k Hi Hk. apply (Hhigh i k); [lia|done].
Qed.

(** [binary_search_by_key] on a strictly increasing list of keys. *)
Lemma binary_search_spec keys key :
  StronglySorted Z.lt keys ->
  match binary_search_by_key keys key with
  | inl i => keys !! i = Some key
  | inr i => (i <= length keys)%nat /\
      (forall j k, (j < i)%nat -> keys !! j = Some k -> k < key) /\
      (forall j k, (i <= j)%nat -> keys !! j = Some k -> key < k)
  end.
Proof.
  intros Hs. unfold binary_search_by_key. destruct keys as [|k0 ks] eqn:Ek; [done|].
  rewrite <- Ek in *. assert (1 <= length keys)%nat as H1 by (subst; cbn; lia).
  destruct (bsearch_loop_spec keys key (length keys) 0 (length keys) Hs) as (Hb & Hlow & Hhigh);
    [lia|lia|lia|intros; lia|intros i k Hi Hk; apply lookup_lt_Some in Hk; lia|].
  set (b := bsearch_loop _ _ _ _ _) in *.
  destruct (lookup_lt_is_Some_2 keys b Hb) as [x Hx]. rewrite (nth_lookup_Some _ _ _ _ Hx).
  destruct (Z.eqb_spec x key) as [->|Hne]; [done|].
  destruct (Z.ltb_spec x key) as [Hlt|Hge]; (split; [lia|split]); intros j k Hj Hk.
  - destruct (decide (j = b)) as [->|]; [congruence|]. apply (Hlow j k); [lia|done].
  - apply (Hhigh j k); [lia|done].
  - by apply (Hlow j k).
  - destruct (decide (j = b)) as [->|]; [replace k with x by congruence; lia|].
    apply (Hhigh j k); [lia|done].
Qed.

Section sort_lemmas.
Context {A : Type} (f : A -> Z).
Definition key_le (x y : A) : Prop := f x <= f y.

Lemma insert_by_key_perm x l : insert_by_key f x l ≡ₚ x :: l.
Proof.
  induction l as [|y l IH]; [done|]. cbn. case_match; [done|]. rewrite IH. constructor.
Qed.

Lemma sort_by_key_perm l : sort_by_key f l ≡ₚ l.
Proof. induction l as [|x l IH]; [done|]. cbn. by rewrite insert_by_key_perm, IH. Qed.

Lemma insert_by_key_sorted x l :
  StronglySorted key_le l -> StronglySorted key_le (insert_by_key f x l).
Proof.
  induction 1 as [|y l Hl IH Hy]; cbn; [repeat constructor|].
  destruct (Z.leb_spec (f x) (f y)) as [Hle|Hgt].
  - constructor; [by constructor|]. constructor; [done|].
    eapply Forall_impl; [exact Hy|]. unfold key_le. intros z Hz. lia.
  - constructor; [done|]. rewrite insert_by_key_perm. constructor; [unfold key_le; lia|done].
Qed.

Lemma sort_by_key_sorted l : StronglySorted key_le (sort_by_key f l).
Proof. induction l as [|x l IH]; cbn; [constructor|by apply insert_by_key_sorted]. Qed.

End sort_lemmas.

(** ** Collections as maps

    A collection is well formed when its regions are not empty, end inside the
    address space and follow one another; the abstract view is the region that
    holds an address. *)
Section map.
Context {prof : Profile} {R : Type} `{!GuestMemoryRegion R}.
Implicit Types (r : R) (rs : list R) (c : GuestRegionCollection R) (a : Z).

Definition region_ok r : Prop :=
  0 <= rg_start_addr r /\ 0 < rg_len r /\ rg_start_addr r + rg_len r <= 2 ^ 64.
Definition before r1 r2 : Prop := 0 < rg_len r1 /\ rg_start_addr r1 + rg_len r1 <= rg_start_addr r2.
Definition regions_wf rs : Prop := Forall region_ok rs /\ StronglySorted before rs.
Definition collection_wf c : Prop := regions_wf (grc_regions c).

Definition owns r a : bool := (rg_start_addr r <=? a) && (a <? rg_start_addr r + rg_len r).
Fixpoint region_at rs a : option R :=
  match rs with [] => None | r :: rs' => if owns r a then Some r else region_at rs' a end.
Definition apart r1 r2 : Prop :=
  rg_start_addr r1 + rg_len r1 <= rg_start_addr r2 \/ rg_start_addr r2 + rg_len r2 <= rg_start_addr r1.

#[local] Instance before_trans : Transitive before.
Proof. unfold before. intros r1 r2 r3 ??. lia. Qed.
#[local] Instance apart_sym : Symmetric apart.
Proof. unfold apart. intros r1 r2. lia. Qed.

Lemma owns_spec r a : owns r a = true <-> rg_start_addr r <= a < rg_start_addr r + rg_len r.
Proof. unfold owns. lia. Qed.

Lemma region_at_is_Some rs a r : region_at rs a = Some r -> r ∈ rs /\ owns r a = true.
Proof.
  induction rs as [|r' rs IH]; [done|]. cbn. destruct (owns r' a) eqn:Eo.
  - intros [= ->]. split; [left|done].
  - intros Hr. destruct (IH Hr). split; [by right|done].
Qed.

Lemma region_at_is_None rs a : region_at rs a = None <-> Forall (fun r => owns r a = false) rs.
Proof.
  induction rs as [|r' rs IH]; [done|]. cbn. rewrite Forall_cons.
  destruct (owns r' a); [split; [done|by intros [? _]]|]. rewrite IH. tauto.
Qed.

(** Regions that are apart share no address. *)
Lemma apart_owns r1 r2 a : apart r1 r2 -> owns r1 a = true -> owns r2 a = false.
Proof. unfold apart, owns. lia. Qed.

Lemma not_apart_owns r1 r2 :
  0 < rg_len r1 -> 0 < rg_len r2 -> ~ apart r1 r2 -> exists a, owns r1 a = true /\ owns r2 a = true.
Proof.
  intros H1 H2 Hn. exists (Z.max (rg_start_addr r1) (rg_start_addr r2)).
  unfold apart, owns in *. lia.
Qed.

Lemma apart_perm rs rs' : ForallOrdPairs apart rs -> rs ≡ₚ rs' -> ForallOrdPairs apart rs'.
Proof.
  intros Hf Hp. induction Hp as [|r rs rs' Hp IH|r1 r2 rs|rs1 rs2 rs3 Hp1 IH1 Hp2 IH2]; [done| | |by auto].
  - inversion Hf; subst. constructor; [by rewrite <- Hp|by apply IH].
  - inversion Hf as [|?? Ha Hf']; subst. inversion Ha; subst. inversion Hf'; subst.
    constructor; [by constructor; [symmetry|]|by constructor].
Qed.

Lemma region_at_perm rs rs' a :
  ForallOrdPairs apart rs -> rs ≡ₚ rs' -> region_at rs a = region_at rs' a.
Proof.
  intros Hf Hp. induction Hp as [|r rs rs' Hp IH|r1 r2 rs|rs1 rs2 rs3 Hp1 IH1 Hp2 IH2].
  - done.
  - cbn. destruct (owns r a); [done|]. inversion Hf; subst. by apply IH.
  - cbn. inversion Hf as [|?? Ha Hf']; subst. inversion Ha as [|?? Hr]; subst.
    destruct (owns r2 a) eqn:E2; [|done]. by rewrite (apart_owns r2 r1 a).
  - rewrite IH1 by done. apply IH2. by eapply apart_perm.
Qed.

Lemma before_apart rs : StronglySorted before rs -> ForallOrdPairs apart rs.
Proof.
  induction 1 as [|r rs Hs IH Hr]; constructor; [|done].
  eapply Forall_impl; [exact Hr|]. unfold before, apart. lia.
Qed.

Lemma sorted_apart_before rs :
  Forall region_ok rs -> StronglySorted (key_le rg_start_addr) rs -> ForallOrdPairs apart rs ->
  StronglySorted before rs.
Proof.
  intros Hok Hs Hf. induction Hs as [|r rs Hs IH Hr]; [constructor|].
  apply Forall_cons in Hok as [Hr0 Hok]. inversion Hf as [|?? Ha Hf']; subst.
  constructor; [by apply IH|]. rewrite Forall_forall in Hr, Ha, Hok |- *. intros r' Hin.
  specialize (Hr r' Hin). specialize (Ha r' Hin). specialize (Hok r' Hin).
  unfold key_le, apart, region_ok, before in *. lia.
Qed.

Lemma rg_last_addr_ok {E} r :
  region_ok r -> rg_last_addr (E:=E) r = Ok (rg_start_addr r + rg_len r - 1).
Proof.
  intros (?&?&?). unfold rg_last_addr, ga_unchecked_add, usub, uadd.
  rewrite (proj2 (Z.leb_le 1 _)) by lia. cbn [mbind out_bind].
  rewrite (proj2 (Z.ltb_lt _ _)) by lia. f_equal. lia.
Qed.

(** The check of neighbours decides that the regions follow one another. *)
Lemma check_windows_spec r rest :
  Forall region_ok (r :: rest) ->
  match check_windows r rest with
  | Ok _ => Sorted before (r :: rest)
  | Err e => ~ Sorted before (r :: rest) /\
      (StronglySorted (key_le rg_start_addr) (r :: rest) -> e = MemoryRegionOverlap)
  | _ => False
  end.
Proof.
  revert r. induction rest as [|r' rest IH]; intros r Hok; [by repeat constructor|].
  cbn [check_windows]. apply Forall_cons in Hok as [Hr Hok].
  pose proof (proj1 (Forall_cons _ _ _) Hok) as [Hr' _].
  assert (~ before r r' -> ~ Sorted before (r :: r' :: rest)) as Hnb.
  { intros Hb Hs. apply Sorted_inv in Hs as [_ Hd]. apply Hb. by inversion Hd. }
  destruct (Z.ltb_spec (rg_start_addr r') (rg_start_addr r)) as [Hu|Hu].
  - split; [apply Hnb; unfold before, region_ok in *; lia|].
    intros Hs. apply StronglySorted_inv in Hs as [_ Hd]. apply Forall_cons in Hd as [Hd _].
    unfold key_le in Hd. lia.
  - rewrite rg_last_addr_ok by done. cbn [mbind out_bind].
    destruct (Z.leb_spec (rg_start_addr r') (rg_start_addr r + rg_len r - 1)) as [Ho|Ho].
    + split; [|done]. apply Hnb. unfold before. lia.
    + specialize (IH r' Hok). destruct (check_windows r' rest) as [u|e| |]; [| |done..].
      * constructor; [done|]. constructor. unfold before, region_ok in *. lia.
      * destruct IH as [IH1 IH2]. split.
        -- intros Hs. apply IH1. by apply Sorted_inv in Hs as [Hs _].
        -- intros Hs. apply IH2. by apply StronglySorted_inv in Hs as [Hs _].
Qed.

Lemma from_arc_regions_spec rs :
  Forall region_ok rs ->
  match from_arc_regions rs with
  | Ok c => c = {| grc_regions := rs |} /\ rs <> [] /\ regions_wf rs
  | Err e => (e = NoMemoryRegion /\ rs = []) \/ (rs <> [] /\ ~ StronglySorted before rs /\
      (StronglySorted (key_le rg_start_addr) rs -> e = MemoryRegionOverlap))
  | _ => False
  end.
Proof.
  intros Hok. unfold from_arc_regions. destruct rs as [|r rest]; [by left|].
  pose proof (check_windows_spec r rest Hok) as Hc.
  destruct (check_windows r rest) as [u|e| |]; cbn [mbind out_bind]; [| |done..].
  - split; [done|split; [done|split; [done|]]]. by apply Sorted_StronglySorted; [apply before_trans|].
  - right. destruct Hc as [Hc1 Hc2]. split_and!; [done| |done].
    intros Hs. apply Hc1. by apply StronglySorted_Sorted.
Qed.

Lemma default_find_region_eq {E} rs a :
  Forall region_ok rs -> default_find_region (E:=E) rs a = Ok (region_at rs a).
Proof.
  induction 1 as [|r rs Hr Hok IH]; [done|]. cbn. unfold owns.
  rewrite rg_last_addr_ok by done. cbn [mbind out_bind].
  destruct (Z.leb_spec (rg_start_addr r) a); cbn [andb]; [|done].
  destruct (Z.leb_spec a (rg_start_addr r + rg_len r - 1)), (Z.ltb_spec a (rg_start_addr r + rg_len r));
    [done|lia|lia|done].
Qed.

Lemma starts_sorted rs : StronglySorted before rs -> StronglySorted Z.lt (map rg_start_addr rs).
Proof.
  induction 1 as [|r rs Hs IH Hr]; [constructor|]. cbn. constructor; [done|].
  apply Forall_map. eapply Forall_impl; [exact Hr|]. unfold before. cbn. lia.
Qed.

Lemma starts_lookup rs i k :
  map rg_start_addr rs !! i = Some k -> exists r, rs !! i = Some r /\ k = rg_start_addr r.
Proof. intros Hk. apply list_lookup_fmap_Some in Hk as (r & -> & Hr). eauto. Qed.

Lemma region_at_unique rs r a :
  StronglySorted before rs -> r ∈ rs -> owns r a = true -> region_at rs a = Some r.
Proof.
  intros Hs%before_apart. induction Hs as [|r' rs Ha Hf IH]; intros Hin Ho; [by apply not_elem_of_nil in Hin|].
  cbn. apply elem_of_cons in Hin as [->|Hin]; [by rewrite Ho|].
  rewrite Forall_forall in Ha. rewrite (apart_owns r r' a); [by apply IH|by symmetry; apply Ha|done].
Qed.

Lemma grc_find_region_eq {E} c a :
  collection_wf c -> grc_find_region (E:=E) c a = Ok (region_at (grc_regions c) a).
Proof.
  intros [Hok Hs]. unfold grc_find_region. set (rs := grc_regions c) in *.
  pose proof (binary_search_spec (map rg_start_addr rs) a (starts_sorted rs Hs)) as Hb.
  destruct (binary_search_by_key _ a) as [i|[|i]].
  - apply starts_lookup in Hb as (r & Hr & ->). cbn [mbind out_bind]. rewrite Hr. cbn [unwrap_opt mbind out_bind].
    rewrite (region_at_unique rs r); [done|done|by eapply list_elem_of_lookup_2|].
    rewrite Forall_forall in Hok. specialize (Hok r (list_elem_of_lookup_2 _ _ _ Hr)).
    unfold owns, region_ok in *. lia.
  - destruct Hb as (_ & _ & Hhigh). cbn [mbind out_bind]. f_equal. symmetry. apply region_at_is_None.
    apply Forall_forall. intros r Hin. apply list_elem_of_lookup in Hin as [j Hj].
    assert (a < rg_start_addr r); [|unfold owns; lia].
    apply (Hhigh j); [lia|]. by rewrite list_lookup_fmap, Hj.
  - destruct Hb as (Hlen & Hlow & Hhigh). rewrite length_map in Hlen.
    destruct (lookup_lt_is_Some_2 rs i ltac:(lia)) as [r Hr]. rewrite Hr. cbn [unwrap_opt mbind out_bind].
    assert (r ∈ rs) as Hin by (by eapply list_elem_of_lookup_2).
    rewrite Forall_forall in Hok. rewrite rg_last_addr_ok by auto. cbn [mbind out_bind].
    assert (rg_start_addr r < a) as Hlt by (apply (Hlow i); [lia|by rewrite list_lookup_fmap, Hr]).
    destruct (Z.leb_spec a (rg_start_addr r + rg_len r - 1)) as [Ha|Ha]; cbn [mbind out_bind].
    + rewrite Hr. cbn [unwrap_opt mbind out_bind]. rewrite (region_at_unique rs r); [done|done|done|].
      unfold owns. lia.
    + f_equal. symmetry. apply region_at_is_None. apply Forall_forall. intros r' Hin'.
      apply list_elem_of_lookup in Hin' as [j Hj].
      destruct (lt_eq_lt_dec j i) as [[Hji| ->]|Hji].
      * pose proof (ssorted_lookup before rs j i r' r Hs Hji Hj Hr). unfold owns, before in *. lia.
      * replace r' with r by congruence. unfold owns. lia.
      * assert (a < rg_start_addr r'); [|unfold owns; lia].
        apply (Hhigh j); [lia|]. by rewrite list_lookup_fmap, Hj.
Qed.

Lemma insert_sorted_wf c r :
  collection_wf c -> region_ok r ->
  let rs := sort_by_key rg_start_addr (grc_regions c ++ [r]) in
  rs ≡ₚ r :: grc_regions c /\ Forall region_ok rs /\ StronglySorted (key_le rg_start_addr) rs /\
  (Forall (apart r) (grc_regions c) -> ForallOrdPairs apart rs).
Proof.
  intros [Hok Hs] Hr rs. assert (rs ≡ₚ r :: grc_regions c) as Hp.
  { subst rs. rewrite sort_by_key_perm. by rewrite Permutation_app_comm. }
  split; [done|]. split; [by rewrite Hp, Forall_cons|]. split; [apply sort_by_key_sorted|].
  intros Ha. eapply apart_perm; [|by symmetry]. constructor; [done|by apply before_apart].
Qed.

Lemma insert_region_spec c r :
  collection_wf c -> region_ok r ->
  match insert_region c r with
  | Ok c' => collection_wf c' /\ grc_regions c' ≡ₚ r :: grc_regions c /\ Forall (apart r) (grc_regions c)
  | Err e => e = MemoryRegionOverlap /\ ~ Forall (apart r) (grc_regions c)
  | _ => False
  end.
Proof.
  intros Hc Hr. destruct (insert_sorted_wf c r Hc Hr) as (Hp & Hok & Hsort & Hap).
  unfold insert_region. set (rs := sort_by_key _ _) in *.
  pose proof (from_arc_regions_spec rs Hok) as Hf. destruct (from_arc_regions rs) as [c'|e| |]; [| |done..].
  - destruct Hf as (-> & _ & Hwf). split_and!; [exact Hwf|done|].
    pose proof (apart_perm _ _ (before_apart _ (proj2 Hwf)) Hp) as Ha. by inversion Ha.
  - destruct Hf as [[_ Hnil]|(_ & Hns & Ho)].
    + rewrite Hnil in Hp. by apply Permutation_nil_cons in Hp.
    + split; [by apply Ho|]. intros Ha. apply Hns. by apply sorted_apart_before; auto.
Qed.

Lemma remove_region_spec c base size :
  collection_wf c ->
  match remove_region c base size with
  | Ok (c', r) => rg_start_addr r = base /\ rg_len r = size /\
      grc_regions c ≡ₚ r :: grc_regions c' /\ collection_wf c'
  | Err e => e = NoMemoryRegion /\
      Forall (fun r => ~ (rg_start_addr r = base /\ rg_len r = size)) (grc_regions c)
  | _ => False
  end.
Proof.
  intros [Hok Hs]. unfold remove_region. set (rs := grc_regions c) in *.
  pose proof (binary_search_spec (map rg_start_addr rs) base (starts_sorted rs Hs)) as Hb.
  destruct (binary_search_by_key _ base) as [i|i].
  - apply starts_lookup in Hb as (r & Hr & ->). rewrite Hr. cbn [unwrap_opt mbind out_bind].
    destruct (Z.eqb_spec (rg_len r) size) as [<-|Hne].
    + split_and!; [done|done|by apply delete_Permutation|]. cbn.
      rewrite <- (take_drop_middle rs i r Hr) in Hok, Hs. rewrite delete_take_drop.
      apply Forall_app in Hok as [Hok1 [_ Hok2]%Forall_cons].
      apply StronglySorted_app in Hs as (Hx & Hs1 & [Hs2 _]%StronglySorted_inv).
      split; [by apply Forall_app|]. apply StronglySorted_app. split_and!; [|done|done].
      intros x y Hxi Hy. apply Hx; [done|by right].
    + split; [done|]. apply Forall_forall. intros r' Hin [Es El].
      assert (r' = r) as ->; [|done]. rewrite Forall_forall in Hok.
      assert (owns r (rg_start_addr r) = true /\ owns r' (rg_start_addr r) = true) as [H1 H2].
      { pose proof (Hok r' Hin). pose proof (Hok r (list_elem_of_lookup_2 _ _ _ Hr)).
        unfold owns, region_ok in *. lia. }
      apply (region_at_unique rs _ _ Hs) in H1; [|by eapply list_elem_of_lookup_2].
      apply (region_at_unique rs _ _ Hs Hin) in H2. congruence.
  - destruct Hb as (_ & Hlow & Hhigh). split; [done|]. apply Forall_forall.
    intros r Hin [Es _]. apply list_elem_of_lookup in Hin as [j Hj].
    assert (map rg_start_addr rs !! j = Some base) as Hk by (by rewrite list_lookup_fmap, Hj, <- Es).
    destruct (decide (j < i)%nat) as [Hji|Hji]; [specialize (Hlow j base Hji Hk)|specialize (Hhigh j base ltac:(lia) Hk)]; lia.
Qed.

End map.

(** ** Properties *)

(** C17: a region collection is a map from guest addresses to regions.  A new
    collection holds no address; inserting a region that shares no address
    with the others adds it for exactly its addresses and keeps the rest, and
    an insertion that would share one is refused; removal by base and size
    takes exactly the addresses of that region away and is refused when there
    is no such region; the results are well formed again, and no operation
    panics. *)
Theorem region_collection_is_a_map {prof : Profile} {R : Type} `{!GuestMemoryRegion R}
    (c : GuestRegionCollection R) :
  collection_wf c ->
  (forall a, region_at (grc_regions grc_new) a = (None : option R)) /\
  (forall r, region_ok r ->
    match insert_region c r with
    | Ok c' => collection_wf c' /\ forall a, region_at (grc_regions c') a =
        (if owns r a then Some r else region_at (grc_regions c) a) /\
        (owns r a = true -> region_at (grc_regions c) a = None)
    | Err e => e = MemoryRegionOverlap /\
        exists a r', region_at (grc_regions c) a = Some r' /\ owns r a = true
    | _ => False
    end) /\
  (forall base size,
    match remove_region c base size with
    | Ok (c', r) => rg_start_addr r = base /\ rg_len r = size /\ collection_wf c' /\
        forall a, region_at (grc_regions c') a =
          (if owns r a then None else region_at (grc_regions c) a) /\
          (owns r a = true -> region_at (grc_regions c) a = Some r)
    | Err e => e = NoMemoryRegion /\
        forall a r, region_at (grc_regions c) a = Some r -> ~ (rg_start_addr r = base /\ rg_len r = size)
    | _ => False
    end).
Proof.
  intros Hc. split; [done|]. split.
  - intros r Hr. pose proof (insert_region_spec c r Hc Hr) as Hi.
    destruct (insert_region c r) as [c'|e| |]; [| |done..].
    + destruct Hi as (Hc' & Hp & Ha). split; [done|]. intros a. split.
      * by rewrite (region_at_perm _ _ a (before_apart _ (proj2 Hc')) Hp).
      * intros Ho. apply region_at_is_None. eapply Forall_impl; [exact Ha|].
        intros r' Hap. by eapply apart_owns.
    + destruct Hi as [-> Ha]. split; [done|].
      apply (not_Forall_Exists (apart r)) in Ha. apply Exists_exists in Ha as (r' & Hin & Hna).
      destruct Hc as [Hok Hs]. rewrite Forall_forall in Hok. destruct Hr as (_ & Hr & _).
      destruct (not_apart_owns r r' Hr (proj1 (proj2 (Hok r' Hin))) Hna) as (a & H1 & H2).
      exists a, r'. split; [by apply region_at_unique|done].
  - intros base size. pose proof (remove_region_spec c base size Hc) as Hm.
    destruct (remove_region c base size) as [[c' r]|e| |]; [| |done..].
    + destruct Hm as (Hb & Hz & Hp & Hc'). split_and!; [done..|]. intros a.
      pose proof (before_apart _ (proj2 Hc)) as Hap. rewrite !(region_at_perm _ _ a Hap Hp). cbn.
      destruct (owns r a) eqn:Eo; [|by split]. split; [|done].
      pose proof (apart_perm _ _ Hap Hp) as Hap'. inversion Hap' as [|?? Ha]; subst.
      apply region_at_is_None. eapply Forall_impl; [exact Ha|]. intros r' Hr'. by eapply apart_owns.
    + destruct Hm as [-> Hm]. split; [done|]. intros a r Hat. rewrite Forall_forall in Hm.
      apply Hm. by apply region_at_is_Some in Hat as [? _].
Qed.

(** The lookup of a collection, a binary search over the sorted start
    addresses followed by a look at one region, returns for every address what
    the linear search of the [GuestMemory] trait returns, and neither
    panics. *)
Theorem find_region_equiv {prof : Profile} {R : Type} `{!GuestMemoryRegion R} {E}
    (c : GuestRegionCollection R) a :
  collection_wf c ->
  grc_find_region (E:=E) c a = default_find_region (grc_regions c) a /\
  default_find_region (E:=E) (grc_regions c) a = Ok (region_at (grc_regions c) a).
Proof.
  intros Hc. rewrite grc_find_region_eq by done. by rewrite default_find_region_eq by apply Hc.
Qed.

(** *** Witnesses *)

(** The region of the crate's own tests: a start and a length. *)
#[export] Instance mock_region : GuestMemoryRegion (Z * Z) := {
  rg_len r := r.2;
  rg_start_addr r := r.1;
  rg_get_host_address _ := default_get_host_address;
  rg_get_slice _ := default_get_slice;
}.

Definition mock_collection : GuestRegionCollection (Z * Z) :=
  {| grc_regions := [(0, 0x1000); (0x4000, 0x1000); (0x10_0000, 0x1000)] |}.

Lemma mock_collection_wf : collection_wf mock_collection.
Proof. split; repeat constructor; cbn; lia. Qed.

Lemma mock_insert :
  from_regions [(0, 0x1000); (0x4000, 0x1000); (0x10_0000, 0x1000)] (prof:=dev_profile)
    = Ok mock_collection /\
  insert_region (prof:=dev_profile) mock_collection (0x4800, 0x1000) = Err MemoryRegionOverlap /\
  (grc_regions <$> insert_region (prof:=dev_profile) mock_collection (0x8000, 0x1000))
    = Ok [(0, 0x1000); (0x4000, 0x1000); (0x8000, 0x1000); (0x10_0000, 0x1000)] /\
  from_regions (prof:=dev_profile) [(100, 100); (0, 100)] = Err UnsortedMemoryRegions.
Proof. by vm_compute. Qed.

Lemma region_collection_is_a_map_witness :
  exists c', insert_region (prof:=release_profile) mock_collection (0x8000, 0x1000) = Ok c' /\
    collection_wf c'.
Proof.
  pose proof (region_collection_is_a_map (prof:=release_profile) mock_collection mock_collection_wf)
    as (_ & Hi & _).
  specialize (Hi (0x8000, 0x1000) ltac:(repeat split; cbn; lia)).
  destruct (insert_region _ _) as [c'|e| |] eqn:Ei.
  - exists c'. split; [done|exact (proj1 Hi)].
  - exfalso. revert Ei. vm_compute. discriminate.
  - done.
  - done.
Defined.

Lemma find_region_equiv_witness :
  grc_find_region (prof:=dev_profile) (E:=unit) mock_collection 0x4fff
    = default_find_region (prof:=dev_profile) (grc_regions mock_collection) 0x4fff.
Proof. exact (proj1 (find_region_equiv mock_collection 0x4fff mock_collection_wf)). Defined.
