(* ===== verification/Hotplug.v ===== *)
(** * Hotplug: replacing a memory map under its readers,
      [vm-memory/src/atomic.rs]

    [GuestMemoryAtomic] is a cell that holds the current memory map and a lock
    for those who replace it: readers take a snapshot and keep it, an updater
    locks, loads, computes a new map and stores it.  The cell ([ArcSwap]) loads
    and stores atomically.  The threads are interleaved step by step; the file
    shows that no update is lost and that every snapshot is one of the maps
    there were. *)

From S2P Require Import Prelude HostMem Regions.

(** ** The cell *)

(** The map and the holder of the lock; the [Mutex] keeps its poison flag. *)
(* vm-memory/src/atomic.rs:24-33, GuestMemoryAtomic *)
Record GuestMemoryAtomic (M : Type) : Type := {
  gma_map : M;
  gma_holder : option nat;
  gma_poisoned : bool;
}.
Arguments gma_map {M}.
Arguments gma_holder {M}.
Arguments gma_poisoned {M}.
Arguments Build_GuestMemoryAtomic {M}.

Section cell.
Context {M : Type}.
#[local] Abbreviation A := (GuestMemoryAtomic M).

(* vm-memory/src/atomic.rs:35-44, GuestMemoryAtomic::from *)
Definition gma_from (map : M) : A := {| gma_map := map; gma_holder := None; gma_poisoned := false |}.
(* vm-memory/src/atomic.rs:49-51, GuestMemoryAtomic::new *)
Definition gma_new (map : M) : A := gma_from map.
(* vm-memory/src/atomic.rs:53-55, GuestMemoryAtomic::load *)
Definition gma_load (a : A) : M := gma_map a.
(* vm-memory/src/atomic.rs:88-90, GuestMemoryAtomic::memory *)
Definition gma_memory (a : A) : M := gma_load a.

(** [None] while another thread holds the lock; the guard comes with the
    poison flag, as [Ok] or inside the error. *)
(* vm-memory/src/atomic.rs:62-73, GuestMemoryAtomic::lock *)
Definition gma_lock (i : nat) (a : A) : option (bool * A) :=
  match gma_holder a with
  | Some _ => None
  | None => Some (gma_poisoned a,
      {| gma_map := gma_map a; gma_holder := Some i; gma_poisoned := gma_poisoned a |})
  end.

(** The end of an exclusive guard. *)
Definition gma_unlock (a : A) : A :=
  {| gma_map := gma_map a; gma_holder := None; gma_poisoned := gma_poisoned a |}.

(** The guard is consumed: the store is followed by its end. *)
(* vm-memory/src/atomic.rs:143-145, GuestMemoryExclusiveGuard::replace *)
Definition gma_replace (map : M) (a : A) : A :=
  gma_unlock {| gma_map := map; gma_holder := gma_holder a; gma_poisoned := gma_poisoned a |}.

End cell.

(** ** Threads

    Updater [i] wants to apply [update i], which may refuse; a reader appears
    at any time.  [ht_log] records the updates that were made, with the map
    each produced, [ht_readers] the snapshots taken. *)
Section threads.
Context {M : Type} (update : nat -> M -> option M).

Inductive UpdaterPc : Type := Waiting | Locked | Loaded (m : M) | Finished.

Record Hot : Type := {
  ht_cell : GuestMemoryAtomic M;
  ht_pc : nat -> UpdaterPc;
  ht_log : list (nat * M);
  ht_readers : list M;
}.

Definition hot_start (m : M) : Hot :=
  {| ht_cell := gma_new m; ht_pc := fun _ => Waiting; ht_log := []; ht_readers := [] |}.

Definition at_pc (i : nat) (pc : UpdaterPc) (h : Hot) : nat -> UpdaterPc :=
  fun j => if decide (j = i) then pc else ht_pc h j.

Inductive hot_step : Hot -> Hot -> Prop :=
| step_read h :
    hot_step h {| ht_cell := ht_cell h; ht_pc := ht_pc h; ht_log := ht_log h;
                  ht_readers := ht_readers h ++ [gma_memory (ht_cell h)] |}
| step_lock h i poisoned cell :
    ht_pc h i = Waiting -> gma_lock i (ht_cell h) = Some (poisoned, cell) ->
    hot_step h {| ht_cell := cell; ht_pc := at_pc i Locked h; ht_log := ht_log h;
                  ht_readers := ht_readers h |}
| step_load h i :
    ht_pc h i = Locked ->
    hot_step h {| ht_cell := ht_cell h; ht_pc := at_pc i (Loaded (gma_memory (ht_cell h))) h;
                  ht_log := ht_log h; ht_readers := ht_readers h |}
| step_replace h i m m' :
    ht_pc h i = Loaded m -> update i m = Some m' ->
    hot_step h {| ht_cell := gma_replace m' (ht_cell h); ht_pc := at_pc i Finished h;
                  ht_log := ht_log h ++ [(i, m')]; ht_readers := ht_readers h |}
| step_abandon h i m :
    ht_pc h i = Loaded m -> update i m = None ->
    hot_step h {| ht_cell := gma_unlock (ht_cell h); ht_pc := at_pc i Finished h;
                  ht_log := ht_log h; ht_readers := ht_readers h |}.

(** The updates of a log, one after the other, lead from [m] to [m']. *)
Fixpoint run_log (m : M) (log : list (nat * M)) (m' : M) : Prop :=
  match log with
  | [] => m' = m
  | (i, m1) :: log' => update i m = Some m1 /\ run_log m1 log' m'
  end.

Lemma run_log_snoc log : forall m m' i m2,
  run_log m log m' -> update i m' = Some m2 -> run_log m (log ++ [(i, m2)]) m2.
Proof.
  induction log as [|[j m1] log IH]; intros m m' i m2 Hr Hu; cbn in *.
  - by subst.
  - destruct Hr as [Hj Hr]. split; [done|]. by eapply IH.
Qed.

Definition holding (pc : UpdaterPc) : Prop :=
  match pc with Locked | Loaded _ => True | _ => False end.

Record hot_inv (m0 : M) (h : Hot) : Prop := {
  hi_log : run_log m0 (ht_log h) (gma_map (ht_cell h));
  hi_holder i : holding (ht_pc h i) -> gma_holder (ht_cell h) = Some i;
  hi_loaded i m : ht_pc h i = Loaded m -> m = gma_map (ht_cell h);
  hi_readers : Forall (fun m => m ∈ m0 :: map snd (ht_log h)) (ht_readers h);
  hi_current : gma_map (ht_cell h) ∈ m0 :: map snd (ht_log h);
}.

Lemma hot_inv_step m0 h h' : hot_step h h' -> hot_inv m0 h -> hot_inv m0 h'.
Proof.
  intros Hs [Hlog Hhold Hload Hread Hcur]. destruct Hs as [h|h i p cell Hpc Hl|h i Hpc|h i m m' Hpc Hu|h i m Hpc Hu];
    cbn [ht_cell ht_pc ht_log ht_readers] in *.
  - split; [done..| |done]. apply Forall_app. split; [done|]. apply Forall_singleton. exact Hcur.
  - unfold gma_lock in Hl. destruct (gma_holder (ht_cell h)) eqn:Eh; [done|]. injection Hl as <- <-.
    split; cbn; [done| | |done|done]; intros j; unfold at_pc; destruct (decide (j = i)) as [->|Hj].
    + done.
    + intros Hh. apply Hhold in Hh. congruence.
    + done.
    + apply Hload.
  - assert (gma_holder (ht_cell h) = Some i) as Hi by (apply Hhold; by rewrite Hpc).
    split; cbn; [done| | |done|done]; intros j; unfold at_pc; destruct (decide (j = i)) as [->|Hj].
    + done.
    + apply Hhold.
    + by intros m [= <-].
    + apply Hload.
  - assert (gma_holder (ht_cell h) = Some i) as Hi by (apply Hhold; by rewrite Hpc).
    rewrite (Hload i m Hpc) in Hu.
    split; cbn; [by eapply run_log_snoc| | | |].
    + intros j. unfold at_pc. destruct (decide (j = i)) as [->|Hj]; [done|]. intros Hh. apply Hhold in Hh. congruence.
    + intros j m2. unfold at_pc. destruct (decide (j = i)) as [->|Hj]; [done|]. intros Hh.
      assert (gma_holder (ht_cell h) = Some j) as Hj2 by (apply Hhold; by rewrite Hh). congruence.
    + eapply Forall_impl; [exact Hread|]. intros x Hx. rewrite map_app. cbn in Hx |- *.
      rewrite app_comm_cons. apply elem_of_app. by left.
    + rewrite map_app. right. apply elem_of_app. right. left.
  - assert (gma_holder (ht_cell h) = Some i) as Hi by (apply Hhold; by rewrite Hpc).
    split; cbn; [done| | |done|done].
    + intros j. unfold at_pc. destruct (decide (j = i)) as [->|Hj]; [done|]. intros Hh. apply Hhold in Hh. congruence.
    + intros j m2. unfold at_pc. destruct (decide (j = i)) as [->|Hj]; [done|]. apply Hload.
Qed.

End threads.
Arguments Waiting {M}.
Arguments Locked {M}.
Arguments Loaded {M}.
Arguments Finished {M}.
Arguments ht_cell {M}.
Arguments ht_pc {M}.
Arguments ht_log {M}.
Arguments ht_readers {M}.

(** ** Properties *)

(** C26: however updaters and readers are interleaved, the current map is what
    the updates made so far give when they are applied one after the other, in
    the order of their locks: an update computed under the lock is never based
    on a stale map, so none is lost; and every snapshot a reader holds is the
    first map or one that an update produced. *)
Theorem updates_are_not_lost {M : Type} (update : nat -> M -> option M) m0 h :
  steps (hot_step update) (hot_start m0) h ->
  run_log update m0 (ht_log h) (gma_map (ht_cell h)) /\
  Forall (fun m => m ∈ m0 :: map snd (ht_log h)) (ht_readers h).
Proof.
  intros Hs.
  assert (hot_inv update m0 h) as Hi.
  { eapply steps_invariant; [|exact Hs|]; [intros x y; apply hot_inv_step|].
    split; cbn; [done|done|done|constructor|left]. }
  split; [by apply hi_log|by apply (hi_readers update)].
Qed.

(** *** Witness: an insertion, and a reader after it. *)

Definition insert_update (i : nat) (c : GuestRegionCollection (Z * Z)) : option (GuestRegionCollection (Z * Z)) :=
  match insert_region (prof:=dev_profile) c (Z.of_nat i * 0x2000 + 0x8000, 0x1000) with
  | Ok c' => Some c'
  | _ => None
  end.

Definition inserted : GuestRegionCollection (Z * Z) :=
  {| grc_regions := [(0, 0x1000); (0x4000, 0x1000); (0x8000, 0x1000); (0x10_0000, 0x1000)] |}.
Lemma insert_update_ok : insert_update 0 mock_collection = Some inserted.
Proof. by vm_compute. Qed.

Lemma updates_are_not_lost_witness :
  exists h, steps (hot_step insert_update) (hot_start mock_collection) h /\
    run_log insert_update mock_collection (ht_log h) (gma_map (ht_cell h)) /\
    gma_map (ht_cell h) = inserted /\ ht_readers h = [inserted].
Proof.
  assert (exists h, steps (hot_step insert_update) (hot_start mock_collection) h /\
    gma_map (ht_cell h) = inserted /\ ht_readers h = [inserted]) as (h & Hs & Hl & Hr).
  { eexists. split.
    - eapply steps_cons; [eapply (step_lock _ _ 0%nat); reflexivity|].
      eapply steps_cons; [eapply (step_load _ _ 0%nat); reflexivity|].
      eapply steps_cons; [eapply (step_replace _ _ 0%nat mock_collection); [reflexivity|exact insert_update_ok]|].
      eapply steps_cons; [apply step_read|].
      apply steps_refl.
    - split; reflexivity. }
  exists h. split_and!; [exact Hs| |exact Hl|exact Hr].
  exact (proj1 (updates_are_not_lost insert_update mock_collection h Hs)).
Defined.
