(* ===== verification/Mmap.v ===== *)
(** * Mmap: regions of allocated memory, [vm-memory/src/mmap]

    [MmapRegion] owns a block of host memory, allocated or a view of a file,
    [GuestRegionMmap] places one at a guest address and [GuestMemoryMmap] is a
    collection of them.  The file shows that construction yields a well-formed
    collection of ordinary memory or releases what it allocated. *)

From S2P Require Import Prelude HostMem Regions.

(** ** The host

    The calls of the Windows API; [W] is what they change. *)
Class MmapHost (W : Type) : Type := {
  virtual_alloc : Z -> Z -> Z -> Z -> W -> Z * W;
  virtual_free : Z -> Z -> Z -> W -> Z * W;
  create_file_mapping : Z -> Z -> Z -> Z -> W -> Z * W;
  map_view_of_file : Z -> Z -> Z -> Z -> Z -> W -> Z * W;
  close_handle : Z -> W -> Z * W;
  last_os_error : W -> IoError;
}.

(* vm-memory/src/mmap/windows.rs:51-51, MM_HIGHEST_VAD_ADDRESS *)
Definition MM_HIGHEST_VAD_ADDRESS : Z := 0x000007FFFFFDFFFF.
(* vm-memory/src/mmap/windows.rs:53-53, MEM_COMMIT *)
Definition MEM_COMMIT : Z := 0x00001000.
(* vm-memory/src/mmap/windows.rs:54-54, MEM_RELEASE *)
Definition MEM_RELEASE : Z := 0x00008000.
(* vm-memory/src/mmap/windows.rs:55-55, FILE_MAP_ALL_ACCESS *)
Definition FILE_MAP_ALL_ACCESS : Z := 0xf001f.
(* vm-memory/src/mmap/windows.rs:56-56, PAGE_READWRITE *)
Definition PAGE_READWRITE : Z := 0x04.
(* vm-memory/src/mmap/windows.rs:59-59, INVALID_HANDLE_VALUE *)
Definition INVALID_HANDLE_VALUE : Z := 2 ^ 64 - 1.
(** [libc::EINVAL], [libc::EBADF] *)
Definition EINVAL : IoError := IoOsError 22.
Definition EBADF : IoError := IoOsError 9.

(* vm-memory/src/guest_memory.rs:132-135, FileOffset *)
Record FileOffset : Type := { fo_file : Z; fo_start : Z }.

(* vm-memory/src/guest_memory.rs:144-146, FileOffset::from_arc *)
Definition file_offset_from_arc (file start : Z) : FileOffset :=
  {| fo_file := file; fo_start := start |}.
(* vm-memory/src/guest_memory.rs:139-141, FileOffset::new *)
Definition file_offset_new (file start : Z) : FileOffset := file_offset_from_arc file start.

(* vm-memory/src/mmap/windows.rs:73-78, MmapRegion *)
Record MmapRegion : Type := {
  mmr_addr : Z;
  mmr_size : Z;
  mmr_file_offset : option FileOffset;
}.

Section mmap.
Context {W : Type} `{!MmapHost W}.

Definition host_call {E A} (f : W -> A * W) : M W E A := fun w => let '(a, w') := f w in (Ok a, w').
Definition fail_last {A} : M W IoError A := e ← gets last_os_error; throw e.

(* vm-memory/src/mmap/windows.rs:92-109, MmapRegion::new *)
Definition mmap_new (size : Z) : M W IoError MmapRegion :=
  if (size =? 0) || (MM_HIGHEST_VAD_ADDRESS <? size) then throw EINVAL
  else
    addr ← host_call (virtual_alloc 0 size MEM_COMMIT PAGE_READWRITE);
    if addr =? 0 then fail_last
    else mret {| mmr_addr := addr; mmr_size := size; mmr_file_offset := None |}.

(* vm-memory/src/mmap/windows.rs:116-163, MmapRegion::from_file *)
Definition mmap_from_file (file_offset : FileOffset) (size : Z) : M W IoError MmapRegion :=
  let handle := fo_file file_offset in
  if handle =? INVALID_HANDLE_VALUE then throw EBADF
  else
    mapping ← host_call (create_file_mapping handle PAGE_READWRITE
                           (wrap 32 (Z.shiftr size 32)) (wrap 32 size));
    if mapping =? 0 then fail_last
    else
      let offset := fo_start file_offset in
      addr ← host_call (map_view_of_file mapping FILE_MAP_ALL_ACCESS
                          (wrap 32 (Z.shiftr offset 32)) (wrap 32 offset) size);
      _ ← host_call (close_handle mapping);
      if addr =? 0 then fail_last
      else mret {| mmr_addr := addr; mmr_size := size; mmr_file_offset := Some file_offset |}.

(** A failure is only printed. *)
(* vm-memory/src/mmap/windows.rs:223-241, MmapRegion::drop *)
Definition mmap_drop {E} (r : MmapRegion) : M W E unit :=
  _ ← host_call (virtual_free (mmr_addr r) 0 MEM_RELEASE);
  mret tt.

(* vm-memory/src/mmap/windows.rs:199-219, MmapRegion::get_slice *)
Definition mmap_get_slice (r : MmapRegion) (offset count : Z) : out VolatileMemoryError VolatileSlice :=
  end_ ← compute_offset offset count;
  if mmr_size r <? end_ then Err (OutOfBounds end_)
  else Ok (vs_with_bitmap (mmr_addr r + offset) count).

(** ** [GuestRegionMmap] *)

(* vm-memory/src/mmap/mod.rs:24-27, GuestRegionMmap *)
Record GuestRegionMmap : Type := { grm_mapping : MmapRegion; grm_guest_base : Z }.

(* vm-memory/src/mmap/mod.rs:42-50, GuestRegionMmap::with_arc *)
Definition grm_with_arc (mapping : MmapRegion) (guest_base : Z) : option GuestRegionMmap :=
  match checked_add 64 guest_base (mmr_size mapping) with
  | Some _ => Some {| grm_mapping := mapping; grm_guest_base := guest_base |}
  | None => None
  end.
(* vm-memory/src/mmap/mod.rs:38-40, GuestRegionMmap::new *)
Definition grm_new (mapping : MmapRegion) (guest_base : Z) : option GuestRegionMmap :=
  grm_with_arc mapping guest_base.

(* vm-memory/src/mmap/mod.rs:118-125, FromRangesError *)
Inductive FromRangesError : Type :=
| FreCollection (e : GuestRegionCollectionError)
| FreMmapRegion (e : IoError)
| FreInvalidGuestRegion.

(** A region that cannot be placed is dropped. *)
(* vm-memory/src/mmap/mod.rs:58-71, GuestRegionMmap::from_range *)
Definition grm_from_range (addr size : Z) (file : option FileOffset) : M W FromRangesError GuestRegionMmap :=
  region ← Mmap_err FreMmapRegion
    (match file with Some f_off => mmap_from_file f_off size | None => mmap_new size end);
  match grm_new region addr with
  | Some r => mret r
  | None => _ ← mmap_drop region; throw FreInvalidGuestRegion
  end.

(* vm-memory/src/mmap/mod.rs:74-111, GuestMemoryRegion for GuestRegionMmap *)
#[export] Instance guest_region_mmap : GuestMemoryRegion GuestRegionMmap := {
  rg_len r := mmr_size (grm_mapping r);
  rg_start_addr r := grm_guest_base r;
  rg_get_host_address r addr :=
    if addr <? mmr_size (grm_mapping r) then Ok (wadd 64 (mmr_addr (grm_mapping r)) addr)
    else Err InvalidBackendAddress;
  rg_get_slice r offset count := map_err gm_error_from (mmap_get_slice (grm_mapping r) offset count);
}.

(** ** [GuestMemoryMmap] *)

(** Dropping a vector of regions. *)
Fixpoint drop_regions {E} (rs : list GuestRegionMmap) : M W E unit :=
  match rs with
  | [] => mret tt
  | r :: rs' => _ ← mmap_drop (grm_mapping r); drop_regions rs'
  end.

(** [.map(from_range).collect::<Result<Vec<_>, _>>()]: an error drops the
    regions collected so far. *)
(* vm-memory/src/mmap/mod.rs:137-144, GuestMemoryMmap::from_ranges_with_files *)
Fixpoint collect_ranges (ranges : list (Z * Z * option FileOffset)) (acc : list GuestRegionMmap) :
    M W FromRangesError (list GuestRegionMmap) :=
  match ranges with
  | [] => mret acc
  | (addr, size, file) :: ranges' =>
      x ← Mtry (grm_from_range addr size file);
      match x with
      | inl r => collect_ranges ranges' (acc ++ [r])
      | inr e => _ ← drop_regions acc; throw e
      end
  end.

Context {prof : Profile}.

(* vm-memory/src/mmap/mod.rs:132-147, GuestMemoryMmap::from_ranges_with_files *)
Definition from_ranges_with_files (ranges : list (Z * Z * option FileOffset)) :
    M W FromRangesError (GuestRegionCollection GuestRegionMmap) :=
  regions ← collect_ranges ranges [];
  x ← Mtry (lift (from_regions regions));
  match x with
  | inl c => mret c
  | inr e => _ ← drop_regions regions; throw (FreCollection e)
  end.

(* vm-memory/src/mmap/mod.rs:128-130, GuestMemoryMmap::from_ranges *)
Definition from_ranges (ranges : list (Z * Z)) :
    M W FromRangesError (GuestRegionCollection GuestRegionMmap) :=
  from_ranges_with_files (map (fun r => (r.1, r.2, None)) ranges).

End mmap.

(** ** What is assumed of the host

    [VirtualAlloc] hands out a block apart from those in use or nothing;
    [VirtualFree] releases the block at an address.  [allocs] are the blocks
    in use, by address, with their sizes. *)
Class MmapHostLaws (W : Type) `{!MmapHost W} : Type := {
  allocs : W -> gmap Z Z;
  mh_alloc size w : 0 < size ->
    let '(a, w') := virtual_alloc 0 size MEM_COMMIT PAGE_READWRITE w in
    (a = 0 /\ allocs w' = allocs w) \/
    (0 < a /\ a + size < 2 ^ 64 /\ allocs w !! a = None /\ allocs w' = <[a := size]> (allocs w) /\
     forall b s, allocs w !! b = Some s -> a + size <= b \/ b + s <= a);
  mh_free a w : allocs (virtual_free a 0 MEM_RELEASE w).2 = delete a (allocs w);
}.

(** ** Lemmas *)
Section lemmas.
Context {W : Type} `{!MmapHost W, !MmapHostLaws W} {prof : Profile}.
Implicit Types (w : W) (m : gmap Z Z) (r : GuestRegionMmap) (rs : list GuestRegionMmap).

Definition grm_host r : Z := mmr_addr (grm_mapping r).
Definition grm_size r : Z := mmr_size (grm_mapping r).
Definition host_before r1 r2 : Prop :=
  grm_host r1 + grm_size r1 <= grm_host r2 \/ grm_host r2 + grm_size r2 <= grm_host r1.

(** What a list of regions holds of the host, starting from the blocks [m]. *)
Record holds m rs w : Prop := {
  ho_rest i : (forall r, r ∈ rs -> grm_host r <> i) -> allocs w !! i = m !! i;
  ho_new r : r ∈ rs -> m !! grm_host r = None;
  ho_in r : r ∈ rs -> allocs w !! grm_host r = Some (grm_size r);
  ho_ok r : r ∈ rs -> region_ok r /\ 0 < grm_host r /\ grm_host r + grm_size r < 2 ^ 64;
  ho_apart : ForallOrdPairs host_before rs;
}.

Lemma drop_regions_spec {E} rs : forall w, exists w',
  drop_regions (E:=E) rs w = (Ok tt, w') /\
  forall i, allocs w' !! i = if decide (Exists (fun r => grm_host r = i) rs) then None else allocs w !! i.
Proof.
  induction rs as [|r rs IH]; intros w.
  - exists w. split; [done|]. intros i. rewrite decide_False; [done|]. by intros []%Exists_nil.
  - cbn [drop_regions]. unfold mmap_drop, host_call. run_St.
    pose proof (mh_free (grm_host r) w) as Hf. unfold grm_host in Hf.
    destruct (virtual_free _ 0 MEM_RELEASE w) as [x w1]. cbn [snd] in Hf.
    destruct (IH w1) as (w' & -> & Hw'). exists w'. split; [done|]. intros i. rewrite Hw', Hf.
    destruct (decide (grm_host r = i)) as [Hi|Hi].
    + rewrite (decide_True (P:=Exists _ (r :: rs))) by (by left).
      unfold grm_host in Hi. subst i. rewrite lookup_delete_eq. by case_decide.
    + unfold grm_host in Hi. rewrite lookup_delete_ne by done.
      destruct (decide (Exists (fun r => grm_host r = i) rs)) as [He|He].
      * rewrite decide_True; [done|]. by right.
      * rewrite decide_False; [done|]. rewrite Exists_cons. unfold grm_host. tauto.
Qed.

(** Dropping everything a list holds gives back exactly that. *)
Lemma drop_holds {E} m rs w :
  holds m rs w -> exists w', drop_regions (E:=E) rs w = (Ok tt, w') /\ allocs w' = m.
Proof.
  intros [Hrest Hnew _ _ _]. destruct (drop_regions_spec (E:=E) rs w) as (w' & Hd & Hw').
  exists w'. split; [done|]. apply map_eq. intros i. rewrite Hw'. case_decide as He.
  - apply Exists_exists in He as (r & Hin & <-). by rewrite Hnew.
  - apply Hrest. intros r Hin Hr. apply He, Exists_exists. eauto.
Qed.

Lemma holds_nil w : holds (allocs w) [] w.
Proof. split; [done|by intros r []%not_elem_of_nil..|constructor]. Qed.

Lemma ordpairs_snoc {A} (P : A -> A -> Prop) l x :
  ForallOrdPairs P l -> Forall (fun y => P y x) l -> ForallOrdPairs P (l ++ [x]).
Proof.
  induction 1 as [|y l Hy Hl IH]; intros Hx; [repeat constructor|]. apply Forall_cons in Hx as [Hyx Hx].
  cbn. constructor; [|by apply IH]. apply Forall_app. split; [done|]. by repeat constructor.
Qed.

(** One anonymous range. *)
Lemma from_range_holds m rs w addr size :
  holds m rs w -> 0 <= addr -> fits 64 size ->
  match grm_from_range addr size None w with
  | (Ok r, w') => holds m (rs ++ [r]) w' /\ grm_guest_base r = addr /\ grm_size r = size
  | (Err _, w') => holds m rs w'
  | _ => False
  end.
Proof.
  intros Hh Ha Hsz. pose proof Hh as [Hrest Hnew Hin Hok Hap]. unfold grm_from_range, mmap_new.
  destruct ((size =? 0) || (MM_HIGHEST_VAD_ADDRESS <? size)) eqn:Eg; [done|].
  unfold Mmap_err, Mmap, host_call. run_St. unfold fits in Hsz.
  pose proof (mh_alloc size w ltac:(lia)) as Hal.
  destruct (virtual_alloc 0 size MEM_COMMIT PAGE_READWRITE w) as [a w1].
  destruct Hal as [[-> Hw1]|(Hapos & Hae & Hnone & Hw1 & Hdis)].
  { rewrite Z.eqb_refl. cbn. split; [|exact Hnew| |exact Hok|exact Hap]; intros; rewrite Hw1; auto. }
  rewrite (proj2 (Z.eqb_neq a 0)) by lia. cbn [fst snd map_err].
  unfold grm_new, grm_with_arc, checked_add. cbn [mmr_size].
  assert (forall r, r ∈ rs -> grm_host r <> a) as Hne.
  { intros r Hr <-. rewrite (Hin r Hr) in Hnone. done. }
  assert (m !! a = None) as Hma by (by rewrite <- (Hrest a Hne)).
  destruct (Z.ltb_spec (addr + size) (2 ^ 64)) as [Hlt|Hge].
  - split; [|done]. split.
    + intros i Hi. rewrite Hw1, lookup_insert_ne.
      * apply Hrest. intros r Hr. apply Hi, elem_of_app. by left.
      * intros <-. apply (Hi {| grm_mapping := {| mmr_addr := a; mmr_size := size; mmr_file_offset := None |};
          grm_guest_base := addr |}); [|done]. apply elem_of_app. right. left.
    + intros r [Hr| ->%list_elem_of_singleton]%elem_of_app; [by apply Hnew|done].
    + intros r [Hr| ->%list_elem_of_singleton]%elem_of_app; rewrite Hw1.
      * rewrite lookup_insert_ne; [by apply Hin|]. by apply not_eq_sym, Hne.
      * by rewrite lookup_insert_eq.
    + intros r [Hr| ->%list_elem_of_singleton]%elem_of_app; [by apply Hok|].
      unfold region_ok, grm_host, grm_size. cbn. lia.
    + apply ordpairs_snoc; [done|]. apply Forall_forall. intros r Hr. specialize (Hdis _ _ (Hin r Hr)).
      unfold host_before, grm_host, grm_size in *. cbn. lia.
  - unfold mmap_drop, host_call. run_St. cbn [mmr_addr].
    pose proof (mh_free a w1) as Hf. destruct (virtual_free a 0 MEM_RELEASE w1) as [x w2]. cbn [snd] in Hf.
    assert (allocs w2 = allocs w) as Hw2.
    { rewrite Hf, Hw1. by apply delete_insert_id. }
    split; [|exact Hnew| |exact Hok|exact Hap]; intros; rewrite Hw2; auto.
Qed.

Lemma collect_ranges_holds m ranges : forall rs w,
  holds m rs w -> Forall (fun x : Z * Z => 0 <= x.1 /\ fits 64 x.2) ranges ->
  match collect_ranges (map (fun x : Z * Z => (x.1, x.2, None)) ranges) rs w with
  | (Ok rs', w') => holds m rs' w' /\
      exists new, rs' = rs ++ new /\ map (fun r => (grm_guest_base r, grm_size r)) new = ranges
  | (Err _, w') => allocs w' = m
  | _ => False
  end.
Proof.
  induction ranges as [|[addr size] ranges IH]; intros rs w Hh Hr.
  - split; [done|]. exists []. by rewrite app_nil_r.
  - apply Forall_cons in Hr as [[Ha Hs] Hr]. cbn [map collect_ranges fst snd] in *.
    pose proof (from_range_holds m rs w addr size Hh Ha Hs) as Hf.
    run_St. unfold Mtry, Mmap. destruct (grm_from_range addr size None w) as [[r|e| |] w1]; [| |done..].
    + destruct Hf as (Hh1 & Hb & Hz). cbn [out_try fst snd]. specialize (IH (rs ++ [r]) w1 Hh1 Hr).
      destruct (collect_ranges _ (rs ++ [r]) w1) as [[rs'|e| |] w2]; [|exact IH|done..].
      destruct IH as (Hh2 & new & -> & Hn). split; [done|]. exists (r :: new).
      split; [by rewrite <- app_assoc|]. cbn. by rewrite Hb, Hz, Hn.
    + cbn [out_try fst snd]. destruct (drop_holds (E:=FromRangesError) m rs w1 Hf) as (w2 & -> & Hw2). done.
Qed.

End lemmas.

(** ** Properties *)

(** C31: building a memory from guest ranges either yields a well-formed
    collection with one region per range, backed by blocks of their own that
    lie apart in host memory, or fails and gives every block it had allocated
    back to the host; it never panics. *)
Theorem from_ranges_all_or_nothing {W : Type} `{!MmapHost W, !MmapHostLaws W} {prof : Profile}
    (ranges : list (Z * Z)) (w : W) :
  Forall (fun r => 0 <= r.1 /\ fits 64 r.2) ranges ->
  match from_ranges ranges w with
  | (Ok c, w') => collection_wf c /\
      map (fun r => (grm_guest_base r, grm_size r)) (grc_regions c) = ranges /\
      (forall r, r ∈ grc_regions c -> allocs w !! grm_host r = None /\
         allocs w' !! grm_host r = Some (grm_size r) /\ 0 < grm_host r /\ grm_host r + grm_size r < 2 ^ 64) /\
      ForallOrdPairs host_before (grc_regions c)
  | (Err _, w') => allocs w' = allocs w
  | _ => False
  end.
Proof.
  intros Hr. unfold from_ranges, from_ranges_with_files. run_St.
  pose proof (collect_ranges_holds (allocs w) ranges [] w (holds_nil w) Hr) as Hc.
  destruct (collect_ranges _ [] w) as [[rs|e| |] w1]; [|exact Hc|done..].
  destruct Hc as (Hh & new & -> & Hn). cbn [app] in Hh |- *.
  assert (Forall region_ok new) as Hok by (apply Forall_forall; intros r Hin; by apply (ho_ok _ _ _ Hh)).
  pose proof (from_arc_regions_spec new Hok) as Hf. unfold from_regions, Mtry, Mmap.
  destruct (from_arc_regions new) as [c|e| |]; cbn [out_try fst snd]; [| |done..].
  - destruct Hf as (-> & _ & Hwf). split_and!; [exact Hwf|exact Hn| |by eapply ho_apart].
    intros r Hin. destruct (ho_ok _ _ _ Hh r Hin) as (_ & ? & ?).
    split_and!; [by eapply ho_new|by eapply ho_in|done|done].
  - destruct (drop_holds (E:=FromRangesError) _ _ _ Hh) as (w2 & -> & Hw2). exact Hw2.
Qed.

(** The destructor releases a file mapping with [VirtualFree], which does not
    unmap a view: whatever the views of the process are, as long as that call
    leaves them alone, the view of a region built from a file outlives it. *)
Theorem drop_keeps_view {W : Type} `{!MmapHost W} (views : W -> gset Z) r (w : W) :
  (forall a size ty w, views (virtual_free a size ty w).2 = views w) ->
  is_Some (mmr_file_offset r) -> mmr_addr r ∈ views w ->
  mmr_addr r ∈ views (mmap_drop (E:=unit) r w).2.
Proof.
  intros Hfree _ Hin. unfold mmap_drop, host_call. run_St.
  pose proof (Hfree (mmr_addr r) 0 MEM_RELEASE w) as Hf.
  destruct (virtual_free _ _ _ w) as [x w']. cbn in *. by rewrite Hf.
Qed.

(** Unlike [new], [from_file] takes a size of 0, for which the host maps the
    whole file; the region it makes has no last address, and a collection with
    a region after it cannot be checked without an overflow. *)
Theorem empty_view_panics {W : Type} `{!MmapHost W} f guest_base r' rest (w : W) r w' :
  mmap_from_file f 0 w = (Ok r, w') -> guest_base <= rg_start_addr r' ->
  from_regions (prof:=dev_profile) ({| grm_mapping := r; grm_guest_base := guest_base |} :: r' :: rest) = Panic.
Proof.
  unfold mmap_from_file. case_match; [done|]. unfold fail_last, host_call. run_St.
  destruct (create_file_mapping _ _ _ _ w) as [mapping w1]. case_match; [done|]. cbn [fst snd].
  destruct (map_view_of_file _ _ _ _ _ w1) as [addr w2]. destruct (close_handle mapping w2) as [x w3].
  case_match; [done|]. intros [= <- <-] Hle. unfold from_regions, from_arc_regions, check_windows.
  cbn [rg_start_addr guest_region_mmap grm_guest_base]. rewrite (proj2 (Z.ltb_ge _ _)) by exact Hle. done.
Qed.

(** *** Witnesses *)

(** A host that hands out blocks upwards: the blocks in use lie below the next
    one. *)
Record BumpState : Type := {
  bump : Z * gmap Z Z;
  bump_pos : 0 < bump.1;
  bump_below b s : bump.2 !! b = Some s -> b + s <= bump.1 /\ b < bump.1;
}.

Program Definition bump_alloc (size : Z) (w : BumpState) : Z * BumpState :=
  if decide (0 < size /\ (bump w).1 + size < 2 ^ 64)
  then ((bump w).1, {| bump := ((bump w).1 + size, <[(bump w).1 := size]> (bump w).2) |})
  else (0, w).
Next Obligation. intros size w [Hs _]. cbn. pose proof (bump_pos w). lia. Qed.
Next Obligation.
  intros size w [Hs _] b s Hb. cbn in *. destruct (decide ((bump w).1 = b)) as [<-|Hne].
  - rewrite lookup_insert_eq in Hb. injection Hb as <-. lia.
  - rewrite lookup_insert_ne in Hb by done. apply (bump_below w) in Hb. lia.
Qed.

Program Definition bump_free (a : Z) (w : BumpState) : Z * BumpState :=
  (1, {| bump := ((bump w).1, delete a (bump w).2) |}).
Next Obligation. intros a w. apply bump_pos. Qed.
Next Obligation.
  intros a w b s Hb. cbn in *. apply lookup_delete_Some in Hb as [_ Hb]. by apply (bump_below w).
Qed.

#[export] Instance bump_host : MmapHost BumpState := {
  virtual_alloc _ size _ _ w := bump_alloc size w;
  virtual_free a _ _ w := bump_free a w;
  create_file_mapping _ _ _ _ w := (0, w);
  map_view_of_file _ _ _ _ _ w := (0, w);
  close_handle _ w := (1, w);
  last_os_error _ := IoOsError 8;
}.

#[export] Program Instance bump_laws : MmapHostLaws BumpState := { allocs w := (bump w).2 }.
Next Obligation.
  intros size w Hs. cbn. unfold bump_alloc. destruct (decide _) as [[Hp Hd]|]; [|by left].
  right. cbn. pose proof (bump_pos w). split_and!; [done|done| |done|].
  - destruct ((bump w).2 !! (bump w).1) as [s|] eqn:E; [|done]. apply (bump_below w) in E. lia.
  - intros b s Hb. apply (bump_below w) in Hb. lia.
Qed.
Next Obligation. done. Qed.

Program Definition bump_start : BumpState := {| bump := (0x10000, ∅) |}.
Next Obligation. done. Qed.
Next Obligation. intros b s Hb. cbn in Hb. by apply lookup_empty_Some in Hb. Qed.

Lemma from_ranges_all_or_nothing_witness :
  match from_ranges (prof:=dev_profile) [(0, 0x1000); (0x1000, 0x1000); (0x800, 0x100)] bump_start with
  | (Ok _, _) => False
  | (Err _, w') => allocs w' = ∅
  | _ => False
  end.
Proof.
  pose proof (from_ranges_all_or_nothing (prof:=dev_profile)
    [(0, 0x1000); (0x1000, 0x1000); (0x800, 0x100)] bump_start) as Hf.
  assert (Forall (fun r : Z * Z => 0 <= r.1 /\ fits 64 r.2) [(0, 0x1000); (0x1000, 0x1000); (0x800, 0x100)])
    as Hr by (repeat constructor; cbn; lia).
  specialize (Hf Hr). destruct (from_ranges _ bump_start) as [[c|e| |] w'] eqn:Ec.
  - exfalso. apply (f_equal fst) in Ec. revert Ec. vm_compute. discriminate.
  - exact Hf.
  - done.
  - done.
Defined.

Lemma drop_keeps_view_witness :
  5 ∈ (fun _ : BumpState => {[5]} : gset Z)
    (mmap_drop (E:=unit) {| mmr_addr := 5; mmr_size := 1; mmr_file_offset := Some {| fo_file := 3; fo_start := 0 |} |}
       bump_start).2.
Proof.
  refine (drop_keeps_view (fun _ : BumpState => {[5]} : gset Z)
    {| mmr_addr := 5; mmr_size := 1; mmr_file_offset := Some {| fo_file := 3; fo_start := 0 |} |} bump_start _ _ _).
  - done.
  - done.
  - by apply elem_of_singleton.
Defined.

(** A host with a view of a file at 4096. *)
Definition view_host : MmapHost unit := {|
  virtual_alloc _ _ _ _ w := (0, w); virtual_free _ _ _ w := (0, w);
  create_file_mapping _ _ _ _ w := (7, w); map_view_of_file _ _ _ _ _ w := (4096, w);
  close_handle _ w := (1, w); last_os_error _ := IoOsError 0;
|}.
Lemma empty_view_panics_witness :
  from_regions (prof:=dev_profile)
    [{| grm_mapping := {| mmr_addr := 4096; mmr_size := 0; mmr_file_offset := Some {| fo_file := 3; fo_start := 0 |} |};
        grm_guest_base := 0 |};
     {| grm_mapping := {| mmr_addr := 9000; mmr_size := 4; mmr_file_offset := None |}; grm_guest_base := 8 |}]
  = Panic.
Proof.
  refine (empty_view_panics (MmapHost0:=view_host) {| fo_file := 3; fo_start := 0 |} 0 _ [] tt _ tt _ _).
  - reflexivity.
  - cbn. lia.
Defined.
