(* ===== verification/VolatileIo.v ===== *)
(** * VolatileIo: sources and sinks of volatile slices, [vm-memory/src/io.rs]

    The traits [ReadVolatile] and [WriteVolatile] with their default loops, and
    their implementations for byte slices, cursors, files and sockets.  The
    private side of a transfer is a Rust slice, a pointer and a length into
    the same host memory.  The file shows what a transfer copies and that the
    loops end. *)

From S2P Require Import Prelude Bytes HostMem.

(** A [&[u8]] or [&mut [u8]]. *)
Record Buf : Type := { b_ptr : Z; b_len : Z }.

(** [s.split_at(mid).1] *)
Definition buf_split_at {E} (b : Buf) (mid : Z) : out E Buf :=
  if mid <=? b_len b then Ok {| b_ptr := b_ptr b + mid; b_len := b_len b - mid |} else Panic.

(* vm-memory/src/volatile_memory.rs:1412-1421, copy_from_volatile_slice *)
Definition copy_from_volatile_slice {prof : Profile} {E} (dst : Z) (slice : VolatileSlice)
    (total : Z) (hm : hostmem) : out E (Z * hostmem) :=
  copy_slice dst (vs_addr slice) total hm.

(** The bitmap of the program's slices is [()]. *)
(* vm-memory/src/volatile_memory.rs:1427-1438, copy_to_volatile_slice *)
Definition copy_to_volatile_slice {prof : Profile} {E} (slice : VolatileSlice) (src : Z)
    (total : Z) (hm : hostmem) : out E (Z * hostmem) :=
  copy_slice (vs_addr slice) src total hm.

(** ** The traits *)

Definition is_eintr (e : VolatileMemoryError) : bool :=
  match e with IOError e => is_interrupted e | _ => false end.

Section traits.
Context {St : Type}.

(* vm-memory/src/io.rs:12-26, retry_eintr! *)
Fixpoint retry_eintr {A} (fuel : nat) (io_call : M St VolatileMemoryError A) :
    M St VolatileMemoryError A :=
  match fuel with
  | O => lift NoFuel
  | S fuel' =>
      r ← Mtry io_call;
      match r with
      | inl a => mret a
      | inr e => if is_eintr e then retry_eintr fuel' io_call else throw e
      end
  end.

(** [read_volatile] or [write_volatile] of the implementation. *)
Variable op : VolatileSlice -> M St VolatileMemoryError Z.

(** The loop the two default methods share; they differ in the operation and
    in the error for a transfer of no bytes. *)
(* vm-memory/src/io.rs:59-71, ReadVolatile::read_exact_volatile *)
Fixpoint exact_volatile_loop (fuel retries : nat) (zero : IoError) (partial_buf : VolatileSlice) :
    M St VolatileMemoryError unit :=
  match fuel with
  | O => lift NoFuel
  | S fuel' =>
      if vs_is_empty partial_buf then mret tt
      else
        n ← retry_eintr retries (op partial_buf);
        if n =? 0 then throw (IOError zero)
        else
          partial_buf' ← lift (vs_offset partial_buf n);
          exact_volatile_loop fuel' retries zero partial_buf'
  end.

(* vm-memory/src/io.rs:51-74, ReadVolatile::read_exact_volatile *)
Definition default_read_exact (fuel retries : nat) (buf : VolatileSlice) :
    M St VolatileMemoryError unit :=
  partial_buf ← lift (vs_offset buf 0);
  exact_volatile_loop fuel retries IoUnexpectedEof partial_buf.

(* vm-memory/src/io.rs:97-120, WriteVolatile::write_all_volatile *)
Definition default_write_all (fuel retries : nat) (buf : VolatileSlice) :
    M St VolatileMemoryError unit :=
  partial_buf ← lift (vs_offset buf 0);
  exact_volatile_loop fuel retries IoWriteZero partial_buf.

End traits.

(** ** Files and sockets

    [ReadFile], [WriteFile], [WSARecv] and [WSASend] are parameters: they take
    the address of the buffer and a 32-bit length and return the transferred
    count or the last OS error. *)
Section handles.
Context {St : Type}.
Variables (ReadFile WriteFile WSARecv WSASend : Z -> Z -> M St IoError Z).

Definition u32_max : Z := 2 ^ 32 - 1.

(* vm-memory/src/io.rs:269-298, read_volatile_raw_handle *)
Definition read_volatile_raw_handle (buf : VolatileSlice) : M St VolatileMemoryError Z :=
  Mmap_err IOError (ReadFile (vs_addr buf) (Z.min (vs_len buf) u32_max)).
(* vm-memory/src/io.rs:300-327, write_volatile_raw_handle *)
Definition write_volatile_raw_handle (buf : VolatileSlice) : M St VolatileMemoryError Z :=
  Mmap_err IOError (WriteFile (vs_addr buf) (Z.min (vs_len buf) u32_max)).
(* vm-memory/src/io.rs:329-362, read_volatile_raw_socket *)
Definition read_volatile_raw_socket (buf : VolatileSlice) : M St VolatileMemoryError Z :=
  Mmap_err IOError (WSARecv (vs_addr buf) (Z.min (vs_len buf) u32_max)).
(* vm-memory/src/io.rs:364-402, write_volatile_raw_socket *)
Definition write_volatile_raw_socket (buf : VolatileSlice) : M St VolatileMemoryError Z :=
  Mmap_err IOError (WSASend (vs_addr buf) (Z.min (vs_len buf) u32_max)).

End handles.

(** ** Byte slices *)
Section slices.
Context {prof : Profile}.
#[local] Abbreviation SliceIo := (M (hostmem * Buf) VolatileMemoryError).

(** A copy between host memory and the slice, which is then advanced. *)
Definition slice_transfer (copy : hostmem -> Buf -> out VolatileMemoryError (Z * hostmem)) : SliceIo Z :=
  st ← gets id;
  r ← lift (copy st.1 st.2);
  _ ← modify (fun st => (r.2, st.2));
  b ← lift (buf_split_at st.2 r.1);
  _ ← modify (fun st => (st.1, b));
  mret r.1.

(* vm-memory/src/io.rs:443-464, ReadVolatile::read_volatile for &[u8] *)
Definition slice_read_volatile (buf : VolatileSlice) : SliceIo Z :=
  slice_transfer (fun hm self =>
    let total := Z.min (vs_len buf) (b_len self) in
    copy_to_volatile_slice buf (b_ptr self) total hm).

(* vm-memory/src/io.rs:466-480, ReadVolatile::read_exact_volatile for &[u8] *)
Definition slice_read_exact (buf : VolatileSlice) : SliceIo unit :=
  st ← gets id;
  if b_len st.2 <? vs_len buf then throw (IOError IoUnexpectedEof)
  else _ ← slice_read_volatile buf; mret tt.

(* vm-memory/src/io.rs:404-425, WriteVolatile::write_volatile for &mut [u8] *)
Definition slice_write_volatile (buf : VolatileSlice) : SliceIo Z :=
  slice_transfer (fun hm self =>
    let total := Z.min (vs_len buf) (b_len self) in
    copy_from_volatile_slice (b_ptr self) buf total hm).

(* vm-memory/src/io.rs:427-440, WriteVolatile::write_all_volatile for &mut [u8] *)
Definition slice_write_all (buf : VolatileSlice) : SliceIo unit :=
  n ← slice_write_volatile buf;
  if n =? vs_len buf then mret tt else throw (IOError IoWriteZero).

(** ** Cursors over a byte slice *)

Record Cursor : Type := { cu_inner : Buf; cu_pos : Z }.
Definition cursor_rest (c : Cursor) : Buf :=
  let len := Z.min (cu_pos c) (b_len (cu_inner c)) in
  {| b_ptr := b_ptr (cu_inner c) + len; b_len := b_len (cu_inner c) - len |}.

(** Run an operation of a byte slice on the rest of the cursor. *)
Definition on_rest {A} (m : SliceIo A) : M (hostmem * Cursor) VolatileMemoryError A := fun st =>
  let '(r, (hm, _)) := m (st.1, cursor_rest st.2) in (r, (hm, st.2)).
Definition cursor_advance (n : Z) : M (hostmem * Cursor) VolatileMemoryError unit :=
  st ← gets id;
  p ← lift (uadd 64 (cu_pos st.2) n);
  modify (fun st => (st.1, {| cu_inner := cu_inner st.2; cu_pos := p |})).

(* vm-memory/src/io.rs:515-528, ReadVolatile::read_volatile for Cursor *)
Definition cursor_read_volatile (buf : VolatileSlice) : M (hostmem * Cursor) VolatileMemoryError Z :=
  n ← on_rest (slice_read_volatile buf);
  _ ← cursor_advance n;
  mret n.

(* vm-memory/src/io.rs:530-540, ReadVolatile::read_exact_volatile for Cursor *)
Definition cursor_read_exact (buf : VolatileSlice) : M (hostmem * Cursor) VolatileMemoryError unit :=
  let n := vs_len buf in
  _ ← on_rest (slice_read_exact buf);
  cursor_advance n.

(* vm-memory/src/io.rs:543-552, WriteVolatile::write_volatile for Cursor *)
Definition cursor_write_volatile (buf : VolatileSlice) : M (hostmem * Cursor) VolatileMemoryError Z :=
  n ← on_rest (slice_write_volatile buf);
  _ ← cursor_advance n;
  mret n.

End slices.

(** ** Lemmas *)

Definition buf_wf (b : Buf) : Prop := 0 < b_ptr b /\ 0 <= b_len b /\ b_ptr b + b_len b < 2 ^ 64.
(** A Rust slice and guest memory do not overlap. *)
Definition buf_apart (b : Buf) (vs : VolatileSlice) : Prop :=
  b_ptr b + b_len b <= vs_addr vs \/ vs_addr vs + vs_size vs <= b_ptr b.
Definition slice_ok (vs : VolatileSlice) : Prop :=
  0 < vs_addr vs /\ 0 <= vs_size vs /\ vs_addr vs + vs_size vs < 2 ^ 64.
Definition buf_advance (b : Buf) (n : Z) : Buf := {| b_ptr := b_ptr b + n; b_len := b_len b - n |}.

Section lemmas.
Context {prof : Profile}.
Implicit Types (hm : hostmem) (b : Buf) (vs : VolatileSlice).

(** One transfer copies the common length and advances the slice by it. *)
Lemma slice_read_volatile_spec hm b vs :
  hostmem_wf hm -> buf_wf b -> slice_ok vs -> buf_apart b vs ->
  let n := Z.min (vs_size vs) (b_len b) in
  exists hm', slice_read_volatile vs (hm, b) = (Ok n, (hm', buf_advance b n)) /\
    forall a, hm' a = host_write hm (vs_addr vs) (host_read hm (b_ptr b) (Z.to_nat n)) a.
Proof.
  intros Hwf Hb Hv Hap n. unfold slice_read_volatile, slice_transfer, copy_to_volatile_slice, vs_len.
  run_St. fold n. unfold buf_wf, slice_ok, buf_apart in *.
  destruct (copy_slice_ok (E:=VolatileMemoryError) hm (vs_addr vs) (b_ptr b) n) as (hm' & -> & Hhm);
    [done|lia..|]. cbn [fst snd]. exists hm'. split; [|exact Hhm].
  unfold buf_split_at. rewrite (proj2 (Z.leb_le n _)) by lia. done.
Qed.

Lemma slice_write_volatile_spec hm b vs :
  hostmem_wf hm -> buf_wf b -> slice_ok vs -> buf_apart b vs ->
  let n := Z.min (vs_size vs) (b_len b) in
  exists hm', slice_write_volatile vs (hm, b) = (Ok n, (hm', buf_advance b n)) /\
    forall a, hm' a = host_write hm (b_ptr b) (host_read hm (vs_addr vs) (Z.to_nat n)) a.
Proof.
  intros Hwf Hb Hv Hap n. unfold slice_write_volatile, slice_transfer, copy_from_volatile_slice, vs_len.
  run_St. fold n. unfold buf_wf, slice_ok, buf_apart in *.
  destruct (copy_slice_ok (E:=VolatileMemoryError) hm (b_ptr b) (vs_addr vs) n) as (hm' & -> & Hhm);
    [done|lia..|]. cbn [fst snd]. exists hm'. split; [|exact Hhm].
  unfold buf_split_at. rewrite (proj2 (Z.leb_le n _)) by lia. done.
Qed.

Lemma retry_eintr_one {St A} k (io : M St VolatileMemoryError A) s :
  (forall e s', io s = (Err e, s') -> is_eintr e = false) -> retry_eintr (S k) io s = io s.
Proof.
  intros Hio. cbn [retry_eintr]. run_St. unfold Mmap. specialize (Hio).
  destruct (io s) as [[a|e| |] s'] eqn:Ei; cbn; try done. by rewrite (Hio e s').
Qed.

Lemma slice_ok_wf vs : slice_ok vs -> vs_wf vs.
Proof. unfold slice_ok, vs_wf. lia. Qed.

(** A copy of nothing. *)
Lemma copy_slice_0 {E} dst src hm :
  0 < dst < 2 ^ 64 -> 0 < src < 2 ^ 64 -> copy_slice (E:=E) dst src 0 hm = Ok (0, hm).
Proof.
  intros Hd Hs. unfold copy_slice, copy_slice_volatile.
  destruct (alignment_pos (E:=E) src Hs) as (a1 & -> & _).
  destruct (alignment_pos (E:=E) dst Hd) as (a2 & -> & _). cbn [mbind out_bind].
  unfold copy_aligned_slice. change (Z.to_nat 0) with 0%nat. cbn [copy_aligned_loop].
  destruct (Z.min a1 a2 <? Z.of_nat 8), (Z.min a1 a2 <? Z.of_nat 4), (Z.min a1 a2 <? Z.of_nat 2),
    (Z.min a1 a2 <? Z.of_nat 1); done.
Qed.

Lemma slice_read_nothing hm b vs :
  buf_wf b -> slice_ok vs -> Z.min (vs_size vs) (b_len b) = 0 ->
  slice_read_volatile vs (hm, b) = (Ok 0, (hm, b)).
Proof.
  intros (?&?&?) (?&?&?) Hz. unfold slice_read_volatile, slice_transfer, copy_to_volatile_slice, vs_len.
  run_St. rewrite Hz, copy_slice_0 by lia. cbn [fst snd]. unfold buf_split_at.
  rewrite (proj2 (Z.leb_le 0 _)) by lia. rewrite Z.add_0_r, Z.sub_0_r. by destruct b.
Qed.

Lemma buf_advance_0 b : buf_advance b 0 = b.
Proof. unfold buf_advance. rewrite Z.add_0_r, Z.sub_0_r. by destruct b. Qed.

(** One turn of the default loops. *)
Lemma exact_volatile_step {St} (op : VolatileSlice -> M St VolatileMemoryError Z) fuel k zero vs s n s' :
  vs_wf vs -> 0 <= n <= vs_size vs -> vs_size vs <> 0 -> op vs s = (Ok n, s') ->
  exact_volatile_loop op (S fuel) (S k) zero vs s =
    if n =? 0 then (Err (IOError zero), s')
    else exact_volatile_loop op fuel (S k) zero
           {| vs_addr := vs_addr vs + n; vs_size := vs_size vs - n |} s'.
Proof.
  intros Hwf Hn Hne Hop. cbn [exact_volatile_loop]. unfold vs_is_empty.
  rewrite (proj2 (Z.eqb_neq _ _) Hne). unfold mbind, M_bind at 1.
  rewrite retry_eintr_one by congruence. rewrite Hop. destruct (n =? 0); [done|].
  run_St. by rewrite vs_offset_ok.
Qed.

Lemma exact_volatile_done {St} (op : VolatileSlice -> M St VolatileMemoryError Z) fuel k zero vs s :
  vs_size vs = 0 -> exact_volatile_loop op (S fuel) k zero vs s = (Ok tt, s).
Proof. intros Hz. cbn [exact_volatile_loop]. unfold vs_is_empty. by rewrite Hz. Qed.

(** The default loops end: with an operation that is not interrupted and
    reports no more than it was asked for, one turn more than the size of the
    buffer is enough. *)
Lemma exact_volatile_ends {St} (op : VolatileSlice -> M St VolatileMemoryError Z) k zero fuel : forall vs s,
  (forall vs s, vs_wf vs ->
    match (op vs s).1 with
    | Ok n => 0 <= n <= vs_size vs | Err e => is_eintr e = false | Panic => True | NoFuel => False
    end) ->
  vs_wf vs -> vs_size vs < Z.of_nat fuel -> (exact_volatile_loop op fuel (S k) zero vs s).1 <> NoFuel.
Proof.
  induction fuel as [|fuel IH]; intros vs s Hop Hwf Hf; [destruct Hwf; lia|].
  destruct (decide (vs_size vs = 0)) as [Hz|Hz]; [by rewrite exact_volatile_done|].
  pose proof (Hop vs s Hwf) as Ho. destruct (op vs s) as [r s'] eqn:Eo. cbn [fst] in Ho.
  destruct r as [n|e| |]; [| | |done].
  - rewrite (exact_volatile_step _ _ _ _ _ _ n s') by done. destruct (Z.eqb_spec n 0); [done|].
    unfold vs_wf in Hwf. apply IH; [exact Hop|unfold vs_wf; cbn; lia|cbn; lia].
  - cbn [exact_volatile_loop]. unfold vs_is_empty. rewrite (proj2 (Z.eqb_neq _ _) Hz).
    unfold mbind, M_bind at 1. rewrite retry_eintr_one by congruence. by rewrite Eo.
  - cbn [exact_volatile_loop retry_eintr]. unfold vs_is_empty. rewrite (proj2 (Z.eqb_neq _ _) Hz).
    run_St. unfold Mmap. by rewrite Eo.
Qed.

End lemmas.

(** ** Properties *)

(** The default [read_exact_volatile], a loop of [read_volatile] calls that
    retries interrupted ones, agrees on a byte slice with the slice's own
    [read_exact_volatile].  When the slice has enough bytes both end with the
    same memory and the same rest of the slice.  When it has too few both
    report [UnexpectedEof], the slice's own before it touches memory, the
    default after the bytes there were have been copied. *)
Theorem slice_read_exact_equiv {prof : Profile} hm b vs fuel retries :
  hostmem_wf hm -> buf_wf b -> slice_ok vs -> buf_apart b vs -> (3 <= fuel)%nat -> (1 <= retries)%nat ->
  (vs_size vs <= b_len b ->
    exists hm', default_read_exact slice_read_volatile fuel retries vs (hm, b)
        = (Ok tt, (hm', buf_advance b (vs_size vs))) /\
      slice_read_exact vs (hm, b) = (Ok tt, (hm', buf_advance b (vs_size vs))) /\
      forall a, hm' a = host_write hm (vs_addr vs) (host_read hm (b_ptr b) (Z.to_nat (vs_size vs))) a) /\
  (b_len b < vs_size vs ->
    slice_read_exact vs (hm, b) = (Err (IOError IoUnexpectedEof), (hm, b)) /\
    exists hm', default_read_exact slice_read_volatile fuel retries vs (hm, b)
        = (Err (IOError IoUnexpectedEof), (hm', buf_advance b (b_len b))) /\
      forall a, hm' a = host_write hm (vs_addr vs) (host_read hm (b_ptr b) (Z.to_nat (b_len b))) a).
Proof.
  intros Hwf Hb Hv Hap Hf Hr. destruct fuel as [|[|[|fuel]]]; [lia..|]. destruct retries as [|retries]; [lia|].
  pose proof (slice_ok_wf vs Hv) as Hvw. pose proof Hv as (Hv1 & Hv2 & Hv3). pose proof Hb as (Hb1 & Hb2 & Hb3).
  destruct (slice_read_volatile_spec hm b vs Hwf Hb Hv Hap) as (hm' & Hr1 & Hhm).
  assert (default_read_exact slice_read_volatile (S (S (S fuel))) (S retries) vs (hm, b)
    = exact_volatile_loop slice_read_volatile (S (S (S fuel))) (S retries) IoUnexpectedEof vs (hm, b)) as ->.
  { unfold default_read_exact. run_St. rewrite vs_offset_ok by (done || lia).
    rewrite Z.add_0_r, Z.sub_0_r. by destruct vs. }
  unfold slice_read_exact. run_St. split; intros Hlen.
  - rewrite (proj2 (Z.ltb_ge (b_len b) _)) by (unfold vs_len; lia). rewrite Z.min_l in Hr1, Hhm by lia.
    rewrite Hr1. exists hm'. split; [|by split].
    destruct (decide (vs_size vs = 0)) as [Hz|Hz].
    + rewrite exact_volatile_done by done. rewrite slice_read_nothing in Hr1 by (done || lia).
      rewrite Hz in Hr1 |- *. by injection Hr1 as <-; rewrite buf_advance_0.
    + rewrite (exact_volatile_step _ _ _ _ _ _ (vs_size vs) (hm', buf_advance b (vs_size vs))) by (done || lia).
      rewrite (proj2 (Z.eqb_neq _ 0) Hz). by rewrite exact_volatile_done by (cbn; lia).
  - rewrite (proj2 (Z.ltb_lt (b_len b) _)) by (unfold vs_len; lia). split; [done|].
    rewrite Z.min_r in Hr1, Hhm by lia. exists hm'. split; [|exact Hhm].
    rewrite (exact_volatile_step _ _ _ _ _ _ (b_len b) (hm', buf_advance b (b_len b))) by (done || lia).
    destruct (Z.eqb_spec (b_len b) 0) as [Hz|Hz]; [done|].
    set (b' := buf_advance b (b_len b)).
    rewrite (exact_volatile_step _ _ _ _ _ _ 0 (hm', b')); [done|..].
    + unfold vs_wf. cbn. lia.
    + cbn. lia.
    + cbn. lia.
    + apply slice_read_nothing.
      * unfold b', buf_wf, buf_advance. cbn. lia.
      * unfold slice_ok. cbn. lia.
      * unfold b', buf_advance. cbn. lia.
Qed.

Lemma slice_read_exact_equiv_witness :
  exists hm', default_read_exact (slice_read_volatile (prof:=dev_profile)) 3 1
      {| vs_addr := 4096; vs_size := 4 |} (fun a => a mod 256, {| b_ptr := 64; b_len := 6 |})
    = (Ok tt, (hm', {| b_ptr := 68; b_len := 2 |})) /\ hm' 4097 = 65.
Proof.
  assert (hostmem_wf (fun a => a mod 256)) as Hw by (intros a; apply Z.mod_pos_bound; lia).
  destruct (slice_read_exact_equiv (prof:=dev_profile) (fun a => a mod 256) {| b_ptr := 64; b_len := 6 |}
    {| vs_addr := 4096; vs_size := 4 |} 3 1 Hw) as [He _].
  - unfold buf_wf. cbn. lia.
  - unfold slice_ok. cbn. lia.
  - unfold buf_apart. cbn. lia.
  - lia.
  - lia.
  - destruct He as (hm' & Hd & _ & Hm); [cbn; lia|]. exists hm'. split; [exact Hd|].
    rewrite Hm. reflexivity.
Defined.
