(* ===== verification/VolatileRefs.v ===== *)
(** * VolatileRefs: access through volatile slices,
      [vm-memory/src/volatile_memory.rs] and [bytes.rs]

    The trait [VolatileMemory] with its checked references, the references to
    one value and to an array of values, and the accessors [Bytes<usize>] of a
    volatile slice.  A value of a [ByteValued] type is its bytes; its size is
    an argument.  The file shows the outcome of every accessor and that what is
    written is read back. *)

From S2P Require Import Prelude Bytes HostMem VolatileIo.

(** ** [VolatileMemory] *)

(* vm-memory/src/volatile_memory.rs:101-119, VolatileMemory *)
Class VolatileMemory (V : Type) : Type := {
  vm_len : V -> Z;
  vm_get_slice : V -> Z -> Z -> out VolatileMemoryError VolatileSlice;
}.

(* vm-memory/src/volatile_memory.rs:843-853, VolatileMemory for VolatileSlice *)
#[export] Instance volatile_slice_memory : VolatileMemory VolatileSlice := {
  vm_len := vs_len;
  vm_get_slice := vs_subslice;
}.

(* vm-memory/src/volatile_memory.rs:869-875, VolatileRef *)
Record VolatileRef : Type := { vr_addr : Z; vr_size : Z }.
(* vm-memory/src/volatile_memory.rs:999-1006, VolatileArrayRef *)
Record VolatileArrayRef : Type := { va_addr : Z; va_nelem : Z; va_size : Z }.

(** A computation that reads and replaces the memory when it succeeds. *)
Definition on_memory {E A} (f : hostmem -> out E (A * hostmem)) : M hostmem E A := fun hm =>
  match f hm with
  | Ok (a, hm') => (Ok a, hm') | Err e => (Err e, hm) | Panic => (Panic, hm) | NoFuel => (NoFuel, hm)
  end.

Definition is_power_of_two_or_0 (a : Z) (mask : Z) : bool := Z.land a mask =? 0.

(** [debug_assert!] is compiled in with the overflow checks' profile. *)
(* vm-memory/src/volatile_memory.rs:665-675, VolatileSlice::check_alignment *)
Definition check_alignment {prof : Profile} (vs : VolatileSlice) (alignment : Z) :
    out VolatileMemoryError unit :=
  mask ← usub 64 alignment 1;
  if overflow_checks && negb (is_power_of_two_or_0 alignment mask) then Panic
  else if negb (Z.land (vs_addr vs) mask =? 0) then Err (Misaligned (vs_addr vs) alignment)
  else Ok tt.

Section volatile_memory.
Context {prof : Profile} {V : Type} `{!VolatileMemory V}.

(* vm-memory/src/volatile_memory.rs:109-111, VolatileMemory::is_empty *)
Definition vm_is_empty (v : V) : bool := vm_len v =? 0.
(* vm-memory/src/volatile_memory.rs:122-124, VolatileMemory::as_volatile_slice *)
Definition vm_as_volatile_slice {E} (v : V) : out E VolatileSlice :=
  unwrap (vm_get_slice v 0 (vm_len v)).

(** [get_slice] and the assertion on the length of its result. *)
Definition checked_slice (v : V) (offset count : Z) : out VolatileMemoryError VolatileSlice :=
  s ← vm_get_slice v offset count;
  if vs_len s =? count then Ok s else Panic.

(* vm-memory/src/volatile_memory.rs:127-149, VolatileMemory::get_ref *)
Definition vm_get_ref (size : Z) (v : V) (offset : Z) : out VolatileMemoryError VolatileRef :=
  s ← checked_slice v offset size;
  Ok {| vr_addr := vs_addr s; vr_size := size |}.

(** [isize::try_from(n).ok().and_then(|n| n.checked_mul(size))] *)
Definition isize_bytes (n size : Z) : option Z :=
  if n <? 2 ^ 63 then if n * size <? 2 ^ 63 then Some (n * size) else None else None.

(* vm-memory/src/volatile_memory.rs:152-188, VolatileMemory::get_array_ref *)
Definition vm_get_array_ref (size : Z) (v : V) (offset n : Z) :
    out VolatileMemoryError VolatileArrayRef :=
  nbytes ← ok_or (isize_bytes n size) (TooBig n size);
  s ← checked_slice v offset nbytes;
  Ok {| va_addr := vs_addr s; va_nelem := n; va_size := size |}.

(** The three accessors that hand out an aligned pointer differ in its type. *)
Definition aligned_pointer (size align : Z) (v : V) (offset : Z) : out VolatileMemoryError Z :=
  s ← vm_get_slice v offset size;
  _ ← check_alignment s align;
  if vs_len s =? size then Ok (vs_addr s) else Panic.
(* vm-memory/src/volatile_memory.rs:198-217, VolatileMemory::aligned_as_ref *)
Definition vm_aligned_as_ref := aligned_pointer.
(* vm-memory/src/volatile_memory.rs:231-251, VolatileMemory::aligned_as_mut *)
Definition vm_aligned_as_mut := aligned_pointer.
(* vm-memory/src/volatile_memory.rs:260-279, VolatileMemory::get_atomic_ref *)
Definition vm_get_atomic_ref (size : Z) (v : V) (offset : Z) : out VolatileMemoryError Z :=
  aligned_pointer size size v offset.

End volatile_memory.

(* vm-memory/src/volatile_memory.rs:300-312, VolatileSlice::from *)
Definition vs_from_buf (value : Buf) : VolatileSlice := vs_with_bitmap (b_ptr value) (b_len value).

(** ** [VolatileRef] *)

(* vm-memory/src/volatile_memory.rs:938-940, VolatileRef::len *)
Definition vr_len (r : VolatileRef) : Z := vr_size r.
(* vm-memory/src/volatile_memory.rs:949-955, VolatileRef::store *)
Definition vr_store {E} (r : VolatileRef) (v : list Z) : M hostmem E unit :=
  modify (fun hm => host_write hm (vr_addr r) v).
(* vm-memory/src/volatile_memory.rs:959-967, VolatileRef::load *)
Definition vr_load (r : VolatileRef) (hm : hostmem) : list Z :=
  host_read hm (vr_addr r) (Z.to_nat (vr_size r)).
(* vm-memory/src/volatile_memory.rs:971-981, VolatileRef::to_slice *)
Definition vr_to_slice (r : VolatileRef) : VolatileSlice := vs_with_bitmap (vr_addr r) (vr_size r).

(** ** [VolatileArrayRef] *)
Section array_ref.
Context {prof : Profile} {E : Type}.

(* vm-memory/src/volatile_memory.rs:1079-1081, VolatileArrayRef::len *)
Definition va_len (r : VolatileArrayRef) : Z := va_nelem r.
(* vm-memory/src/volatile_memory.rs:1065-1067, VolatileArrayRef::is_empty *)
Definition va_is_empty (r : VolatileArrayRef) : bool := va_nelem r =? 0.
(* vm-memory/src/volatile_memory.rs:1094-1096, VolatileArrayRef::element_size *)
Definition va_element_size (r : VolatileArrayRef) : Z := va_size r.
(* vm-memory/src/volatile_memory.rs:1114-1124, VolatileArrayRef::to_slice *)
Definition va_to_slice (r : VolatileArrayRef) : out E VolatileSlice :=
  n ← umul 64 (va_nelem r) (va_element_size r);
  Ok (vs_with_bitmap (va_addr r) n).

(* vm-memory/src/volatile_memory.rs:1131-1141, VolatileArrayRef::ref_at *)
Definition va_ref_at (r : VolatileArrayRef) (index : Z) : out E VolatileRef :=
  if index <? va_nelem r then
    byteofs ← umul 64 (va_element_size r) index;
    Ok {| vr_addr := va_addr r + byteofs; vr_size := va_size r |}
  else Panic.

(* vm-memory/src/volatile_memory.rs:1144-1146, VolatileArrayRef::load *)
Definition va_load (r : VolatileArrayRef) (index : Z) (hm : hostmem) : out E (list Z) :=
  e ← va_ref_at r index; Ok (vr_load e hm).
(* vm-memory/src/volatile_memory.rs:1149-1153, VolatileArrayRef::store *)
Definition va_store (r : VolatileArrayRef) (index : Z) (value : list Z) : M hostmem E unit :=
  e ← lift (va_ref_at r index); vr_store e value.

(** The loops over the elements, from [ptr]; [p] walks over the other buffer
    and both advance by the size of an element. *)
(* vm-memory/src/volatile_memory.rs:1197-1206, VolatileArrayRef::copy_to *)
Fixpoint copy_elements (n : nat) (size dst src : Z) (hm : hostmem) : hostmem :=
  match n with
  | O => hm
  | S n' => copy_elements n' size (dst + size) (src + size)
              (host_write hm dst (host_read hm src (Z.to_nat size)))
  end.

(** [buf] is a slice of elements; the pointer difference of zero-sized types
    panics. *)
(* vm-memory/src/volatile_memory.rs:1175-1210, VolatileArrayRef::copy_to *)
Definition va_copy_to (r : VolatileArrayRef) (buf : Z) (buf_len : Z) : M hostmem E Z :=
  if va_size r =? 1 then
    source ← lift (va_to_slice r);
    on_memory (copy_from_volatile_slice buf source (Z.min buf_len (vs_len source)))
  else
    let n := Z.min buf_len (va_len r) in
    _ ← modify (copy_elements (Z.to_nat n) (va_size r) buf (va_addr r));
    if va_size r =? 0 then lift Panic else mret n.

(** [ptr::copy] may overlap. *)
(* vm-memory/src/volatile_memory.rs:1231-1241, VolatileArrayRef::copy_to_volatile_slice *)
Definition va_copy_to_volatile_slice (r : VolatileArrayRef) (slice : VolatileSlice) : M hostmem E unit :=
  n ← lift (umul 64 (va_len r) (va_element_size r));
  let count := Z.min n (vs_size slice) in
  modify (fun hm => host_write hm (vs_addr slice) (host_read hm (va_addr r) (Z.to_nat count))).

(* vm-memory/src/volatile_memory.rs:1263-1296, VolatileArrayRef::copy_from *)
Definition va_copy_from (r : VolatileArrayRef) (buf : Z) (buf_len : Z) : M hostmem E unit :=
  if va_size r =? 1 then
    destination ← lift (va_to_slice r);
    _ ← on_memory (copy_to_volatile_slice destination buf (Z.min buf_len (vs_len destination)));
    mret tt
  else modify (copy_elements (Z.to_nat (Z.min buf_len (va_len r))) (va_size r) (va_addr r) buf).

(* vm-memory/src/volatile_memory.rs:1299-1305, VolatileArrayRef::from *)
Definition va_from_slice (slice : VolatileSlice) : VolatileArrayRef :=
  {| va_addr := vs_addr slice; va_nelem := vs_len slice; va_size := 1 |}.

(** ** Copies of a slice; [size] is the size of an element of [buf] *)

(** [self.size / size_of::<T>()] panics for a zero-sized type. *)
Definition element_count (vs : VolatileSlice) (size : Z) : out E Z :=
  if size =? 0 then Panic else Ok (vs_size vs / size).

Definition element_array (vs : VolatileSlice) (size : Z) : out E VolatileArrayRef :=
  count ← element_count vs size;
  unwrap (vm_get_array_ref size vs 0 count).

(* vm-memory/src/volatile_memory.rs:558-579, VolatileSlice::copy_to *)
Definition vs_copy_to (vs : VolatileSlice) (size buf buf_len : Z) : M hostmem E Z :=
  if size =? 1 then on_memory (copy_from_volatile_slice buf vs (Z.min buf_len (vs_len vs)))
  else source ← lift (element_array vs size); va_copy_to source buf buf_len.

(* vm-memory/src/volatile_memory.rs:602-612, VolatileSlice::copy_to_volatile_slice *)
Definition vs_copy_to_volatile_slice (vs slice : VolatileSlice) : M hostmem E unit :=
  let count := Z.min (vs_size vs) (vs_size slice) in
  modify (fun hm => host_write hm (vs_addr slice) (host_read hm (vs_addr vs) (Z.to_nat count))).

(* vm-memory/src/volatile_memory.rs:637-662, VolatileSlice::copy_from *)
Definition vs_copy_from (vs : VolatileSlice) (size buf buf_len : Z) : M hostmem E unit :=
  if size =? 1 then
    _ ← on_memory (copy_to_volatile_slice vs buf (Z.min buf_len (vs_len vs)));
    mret tt
  else dest ← lift (element_array vs size); va_copy_from dest buf buf_len.

End array_ref.

(** ** [Bytes<usize>] of a volatile slice *)
Section bytes_usize.
Context {prof : Profile}.
#[local] Abbreviation Mem := (M hostmem VolatileMemoryError).

(** Run a transfer of a Rust slice that is a local variable. *)
Definition with_buf {A} (b : Buf) (m : M (hostmem * Buf) VolatileMemoryError A) : Mem A :=
  fun hm => let '(r, (hm', _)) := m (hm, b) in (r, hm').

(* vm-memory/src/volatile_memory.rs:694-707, VolatileSlice::write *)
Definition vs_write (vs : VolatileSlice) (buf : Buf) (addr : Z) : Mem Z :=
  if b_len buf =? 0 then mret 0
  else if vs_size vs <=? addr then throw (OutOfBounds addr)
  else
    s ← lift (vs_offset vs addr);
    with_buf buf (slice_read_volatile s).

(* vm-memory/src/volatile_memory.rs:723-737, VolatileSlice::read *)
Definition vs_read (vs : VolatileSlice) (buf : Buf) (addr : Z) : Mem Z :=
  if b_len buf =? 0 then mret 0
  else if vs_size vs <=? addr then throw (OutOfBounds addr)
  else
    s ← lift (vs_offset vs addr);
    with_buf buf (slice_write_volatile s).

(* vm-memory/src/volatile_memory.rs:756-766, VolatileSlice::write_slice *)
Definition vs_write_slice (vs : VolatileSlice) (buf : Buf) (addr : Z) : Mem unit :=
  len ← vs_write vs buf addr;
  if len =? b_len buf then mret tt else throw (PartialBuffer (b_len buf) len).

(* vm-memory/src/volatile_memory.rs:785-794, VolatileSlice::read_slice *)
Definition vs_read_slice (vs : VolatileSlice) (buf : Buf) (addr : Z) : Mem unit :=
  len ← vs_read vs buf addr;
  if len =? b_len buf then mret tt else throw (PartialBuffer (b_len buf) len).

(** The methods of [src] and [dst], on a state that holds the memory. *)
Section streams.
Context {St : Type}.
Variable op : VolatileSlice -> M St VolatileMemoryError Z.
Variables (read_exact_volatile write_all_volatile : VolatileSlice -> M St VolatileMemoryError unit).

(** The slice cut to [count] bytes from [addr] on. *)
Definition cut_slice (vs : VolatileSlice) (addr count : Z) : out VolatileMemoryError VolatileSlice :=
  slice ← vs_offset vs addr;
  unwrap (vs_subslice slice 0 (Z.min (vs_len slice) count)).

(* vm-memory/src/volatile_memory.rs:796-804, VolatileSlice::read_volatile_from *)
Definition vs_read_volatile_from (retries : nat) (vs : VolatileSlice) (addr count : Z) :
    M St VolatileMemoryError Z :=
  slice ← lift (cut_slice vs addr count);
  retry_eintr retries (op slice).
(* vm-memory/src/volatile_memory.rs:806-811, VolatileSlice::read_exact_volatile_from *)
Definition vs_read_exact_volatile_from (vs : VolatileSlice) (addr count : Z) :
    M St VolatileMemoryError unit :=
  slice ← lift (vm_get_slice vs addr count);
  read_exact_volatile slice.
(* vm-memory/src/volatile_memory.rs:813-821, VolatileSlice::write_volatile_to *)
Definition vs_write_volatile_to (retries : nat) (vs : VolatileSlice) (addr count : Z) :
    M St VolatileMemoryError Z :=
  slice ← lift (cut_slice vs addr count);
  retry_eintr retries (op slice).
(* vm-memory/src/volatile_memory.rs:823-828, VolatileSlice::write_all_volatile_to *)
Definition vs_write_all_volatile_to (vs : VolatileSlice) (addr count : Z) :
    M St VolatileMemoryError unit :=
  slice ← lift (vm_get_slice vs addr count);
  write_all_volatile slice.

End streams.

(** Atomic accesses of [n] bytes, little-endian. *)
(* vm-memory/src/volatile_memory.rs:830-835, VolatileSlice::store *)
Definition vs_store (n : nat) (vs : VolatileSlice) (val addr : Z) : Mem unit :=
  p ← lift (vm_get_atomic_ref (Z.of_nat n) vs addr);
  modify (fun hm => host_write hm p (le_bytes n val)).
(* vm-memory/src/volatile_memory.rs:837-840, VolatileSlice::load *)
Definition vs_load (n : nat) (vs : VolatileSlice) (addr : Z) : Mem Z :=
  p ← lift (vm_get_atomic_ref (Z.of_nat n) vs addr);
  gets (fun hm => le_val (host_read hm p n)).

End bytes_usize.

(** ** [ByteValued] and the default methods of [Bytes] *)

(** [align_to] yields one whole value when the pointer is aligned; for a
    zero-sized type it never does. *)
(* vm-memory/src/bytes.rs:44-62, ByteValued::from_slice *)
Definition bv_from_slice (size align : Z) (data : Buf) : option Z :=
  if negb (b_len data =? size) then None
  else if (size =? 0) || negb (b_ptr data mod align =? 0) then None
  else Some (b_ptr data).
(* vm-memory/src/bytes.rs:70-88, ByteValued::from_mut_slice *)
Definition bv_from_mut_slice (size align : Z) (data : Buf) : option Z := bv_from_slice size align data.
(* vm-memory/src/bytes.rs:93-98, ByteValued::as_slice *)
Definition bv_as_slice (size self : Z) : Buf := {| b_ptr := self; b_len := size |}.
(* vm-memory/src/bytes.rs:105-113, ByteValued::as_mut_slice *)
Definition bv_as_mut_slice (size self : Z) : Buf := {| b_ptr := self; b_len := size |}.
(* vm-memory/src/bytes.rs:117-119, ByteValued::as_bytes *)
Definition bv_as_bytes (size self : Z) : VolatileSlice := vs_from_buf (bv_as_mut_slice size self).
(* vm-memory/src/bytes.rs:122-127, ByteValued::zeroed *)
Definition bv_zeroed (size : Z) : list Z := replicate (Z.to_nat size) 0.

Section bytes_default.
Context {E : Type} (write_slice read_slice : Buf -> Z -> M hostmem E unit).

(** The value lives at [val]. *)
(* vm-memory/src/bytes.rs:300-302, Bytes::write_obj *)
Definition bytes_write_obj (size val addr : Z) : M hostmem E unit :=
  write_slice (bv_as_slice size val) addr.

(** The local variable [result] lives at [result]. *)
(* vm-memory/src/bytes.rs:313-316, Bytes::read_obj *)
Definition bytes_read_obj (size result addr : Z) : M hostmem E (list Z) :=
  _ ← modify (fun hm => host_write hm result (bv_zeroed size));
  _ ← read_slice (bv_as_mut_slice size result) addr;
  gets (fun hm => host_read hm result (Z.to_nat size)).

End bytes_default.

(** ** Lemmas *)

Section lemmas.
Context {prof : Profile}.
Implicit Types (hm : hostmem) (b : Buf) (vs : VolatileSlice).

Lemma slice_ok_offset vs addr :
  slice_ok vs -> 0 <= addr <= vs_size vs ->
  slice_ok {| vs_addr := vs_addr vs + addr; vs_size := vs_size vs - addr |}.
Proof. unfold slice_ok. cbn. lia. Qed.

Lemma buf_apart_offset b vs addr :
  buf_apart b vs -> 0 <= addr <= vs_size vs ->
  buf_apart b {| vs_addr := vs_addr vs + addr; vs_size := vs_size vs - addr |}.
Proof. unfold buf_apart. cbn. lia. Qed.

(** [Bytes::write] and [Bytes::read] inside the slice. *)
Lemma vs_write_inside hm vs b addr :
  hostmem_wf hm -> slice_ok vs -> buf_wf b -> buf_apart b vs -> 0 <= addr < vs_size vs -> b_len b <> 0 ->
  let n := Z.min (vs_size vs - addr) (b_len b) in
  exists hm', vs_write vs b addr hm = (Ok n, hm') /\
    forall a, hm' a = host_write hm (vs_addr vs + addr) (host_read hm (b_ptr b) (Z.to_nat n)) a.
Proof.
  intros Hwf Hv Hb Hap Ha Hne n. unfold vs_write. rewrite (proj2 (Z.eqb_neq _ _) Hne).
  rewrite (proj2 (Z.leb_gt _ _)) by lia. run_St.
  rewrite vs_offset_ok by (by apply slice_ok_wf || lia). unfold with_buf.
  destruct (slice_read_volatile_spec hm b _ Hwf Hb (slice_ok_offset vs addr Hv ltac:(lia))
    (buf_apart_offset b vs addr Hap ltac:(lia))) as (hm' & -> & Hhm). by exists hm'.
Qed.

Lemma vs_read_inside hm vs b addr :
  hostmem_wf hm -> slice_ok vs -> buf_wf b -> buf_apart b vs -> 0 <= addr < vs_size vs -> b_len b <> 0 ->
  let n := Z.min (vs_size vs - addr) (b_len b) in
  exists hm', vs_read vs b addr hm = (Ok n, hm') /\
    forall a, hm' a = host_write hm (b_ptr b) (host_read hm (vs_addr vs + addr) (Z.to_nat n)) a.
Proof.
  intros Hwf Hv Hb Hap Ha Hne n. unfold vs_read. rewrite (proj2 (Z.eqb_neq _ _) Hne).
  rewrite (proj2 (Z.leb_gt _ _)) by lia. run_St.
  rewrite vs_offset_ok by (by apply slice_ok_wf || lia). unfold with_buf.
  destruct (slice_write_volatile_spec hm b _ Hwf Hb (slice_ok_offset vs addr Hv ltac:(lia))
    (buf_apart_offset b vs addr Hap ltac:(lia))) as (hm' & -> & Hhm). by exists hm'.
Qed.

(** The element loop is a copy of all the bytes. *)
Lemma copy_elements_bytes n : forall size dst src hm,
  0 <= size -> dst + Z.of_nat n * size <= src \/ src + Z.of_nat n * size <= dst ->
  forall a, copy_elements n size dst src hm a =
    host_write hm dst (host_read hm src (Z.to_nat (Z.of_nat n * size))) a.
Proof.
  induction n as [|n IH]; intros size dst src hm Hs Hd a.
  - cbn [copy_elements]. symmetry. apply host_write_out. unfold zlen. rewrite length_host_read. lia.
  - cbn [copy_elements]. rewrite IH by lia.
    replace (Z.to_nat (Z.of_nat (S n) * size)) with (Z.to_nat size + Z.to_nat (Z.of_nat n * size))%nat by lia.
    rewrite host_read_add, host_write_app. unfold zlen. rewrite length_host_read, Z2Nat.id by lia.
    rewrite host_read_write_disjoint; [done|]. unfold zlen. rewrite length_host_read. lia.
Qed.

Lemma element_array_ok {E} vs size :
  slice_ok vs -> 1 < size -> vs_size vs < 2 ^ 63 ->
  element_array (E:=E) vs size = Ok {| va_addr := vs_addr vs; va_nelem := vs_size vs / size; va_size := size |}.
Proof.
  intros (Hv1 & Hv2 & Hv3) Hs Hl. unfold element_array, element_count.
  rewrite (proj2 (Z.eqb_neq _ _)) by lia. cbn [mbind out_bind].
  pose proof (Z.mul_div_le (vs_size vs) size ltac:(lia)) as Hm.
  pose proof (Z.div_pos (vs_size vs) size ltac:(lia) ltac:(lia)) as Hp.
  unfold vm_get_array_ref, isize_bytes, checked_slice. cbn [vm_get_slice volatile_slice_memory].
  rewrite (proj2 (Z.ltb_lt _ (2 ^ 63))) by nia. rewrite (proj2 (Z.ltb_lt _ (2 ^ 63))) by nia.
  cbn [ok_or mbind out_bind].
  rewrite vs_subslice_ok by (unfold vs_wf; lia). cbn [mbind out_bind vs_len vs_size vs_addr].
  unfold vs_len. cbn [vs_size]. rewrite Z.eqb_refl. cbn. by rewrite Z.add_0_r.
Qed.

End lemmas.

(** ** Properties *)

(** [copy_from] of a volatile slice, with its fast path for one-byte
    elements and its loop of volatile writes for larger ones, writes the
    elements of the buffer that fit: the bytes of the first
    [min(buf.len(), len / size)] elements, at the start of the slice and
    nothing else. *)
Theorem copy_from_elements {prof : Profile} hm vs size buf n :
  hostmem_wf hm -> slice_ok vs -> vs_size vs < 2 ^ 63 -> 0 < size -> 0 < buf -> 0 <= n ->
  buf + n * size < 2 ^ 64 -> buf_apart {| b_ptr := buf; b_len := n * size |} vs ->
  exists hm', vs_copy_from (E:=unit) vs size buf n hm = (Ok tt, hm') /\
    forall a, hm' a = host_write hm (vs_addr vs)
      (host_read hm buf (Z.to_nat (Z.min n (vs_size vs / size) * size))) a.
Proof.
  intros Hwf Hv Hl Hs Hb Hn Hbl Hap. unfold buf_apart in Hap. cbn [b_ptr b_len] in Hap.
  pose proof Hv as (Hv1 & Hv2 & Hv3).
  pose proof (Z.mul_div_le (vs_size vs) size ltac:(lia)) as Hm.
  pose proof (Z.div_pos (vs_size vs) size ltac:(lia) ltac:(lia)) as Hp.
  unfold vs_copy_from. destruct (Z.eqb_spec size 1) as [->|Hne].
  - rewrite Z.div_1_r, !Z.mul_1_r in *. unfold copy_to_volatile_slice, vs_len, on_memory. run_St.
    destruct (copy_slice_ok (E:=unit) hm (vs_addr vs) buf (Z.min n (vs_size vs))) as (hm' & -> & Hhm);
      [done|lia..|]. exists hm'. split; [done|exact Hhm].
  - run_St. rewrite element_array_ok by (done || lia). unfold va_copy_from. cbn [va_size va_nelem va_addr].
    rewrite (proj2 (Z.eqb_neq _ _) Hne). unfold va_len. cbn [va_nelem]. run_St. eexists. split; [done|].
    intros a. rewrite copy_elements_bytes by nia. rewrite Z2Nat.id by lia. done.
Qed.

Lemma copy_from_elements_witness :
  exists hm', vs_copy_from (prof:=dev_profile) (E:=unit) {| vs_addr := 4096; vs_size := 11 |} 4 64 5
      (fun a => a mod 256) = (Ok tt, hm') /\ hm' 4103 = 71 /\ hm' 4104 = 8.
Proof.
  destruct (copy_from_elements (prof:=dev_profile) (fun a => a mod 256) {| vs_addr := 4096; vs_size := 11 |} 4 64 5)
    as (hm' & He & Hm).
  - intros a. apply Z.mod_pos_bound. lia.
  - unfold slice_ok. cbn. lia.
  - cbn. lia.
  - lia.
  - lia.
  - lia.
  - lia.
  - unfold buf_apart. cbn. lia.
  - exists hm'. split; [exact He|]. rewrite !Hm. split; reflexivity.
Defined.

(** What [write_slice] puts into a volatile slice [read_slice] brings back,
    into a buffer elsewhere; both fail together: past the end with
    [OutOfBounds], across it with [PartialBuffer] after the bytes that fit. *)
Theorem slice_write_read {prof : Profile} hm vs src dst addr :
  hostmem_wf hm -> slice_ok vs -> buf_wf src -> buf_wf dst -> buf_apart src vs -> buf_apart dst vs ->
  b_len src = b_len dst -> 0 < b_len src -> 0 <= addr ->
  (addr + b_len src <= vs_size vs ->
    exists hm1 hm2, vs_write_slice vs src addr hm = (Ok tt, hm1) /\
      vs_read_slice vs dst addr hm1 = (Ok tt, hm2) /\
      host_read hm2 (b_ptr dst) (Z.to_nat (b_len src)) = host_read hm (b_ptr src) (Z.to_nat (b_len src))) /\
  (addr < vs_size vs < addr + b_len src ->
    exists hm1 hm2, vs_write_slice vs src addr hm = (Err (PartialBuffer (b_len src) (vs_size vs - addr)), hm1) /\
      vs_read_slice vs dst addr hm1 = (Err (PartialBuffer (b_len src) (vs_size vs - addr)), hm2) /\
      host_read hm2 (b_ptr dst) (Z.to_nat (vs_size vs - addr))
        = host_read hm (b_ptr src) (Z.to_nat (vs_size vs - addr))) /\
  (vs_size vs <= addr ->
    vs_write_slice vs src addr hm = (Err (OutOfBounds addr), hm) /\
    vs_read_slice vs dst addr hm = (Err (OutOfBounds addr), hm)).
Proof.
  intros Hwf Hv Hs Hd Has Had Hl Hpos Ha.
  assert (addr < vs_size vs -> let n := Z.min (vs_size vs - addr) (b_len src) in
    exists hm1 hm2, vs_write vs src addr hm = (Ok n, hm1) /\ vs_read vs dst addr hm1 = (Ok n, hm2) /\
      host_read hm2 (b_ptr dst) (Z.to_nat n) = host_read hm (b_ptr src) (Z.to_nat n)) as Hin.
  { intros Hlt n. destruct (vs_write_inside hm vs src addr) as (hm1 & Hw & H1); [done|done|done|done|lia|lia|].
    assert (hostmem_wf hm1) as Hwf1.
    { intros a. rewrite H1. apply host_write_wf; [done|]. by apply host_read_bytes. }
    destruct (vs_read_inside hm1 vs dst addr) as (hm2 & Hr & H2); [done|done|done|done|lia|lia|].
    exists hm1, hm2. rewrite <- Hl in Hr, H2. split_and!; [exact Hw|exact Hr|]. fold n in H1, H2.
    rewrite (host_read_ext hm2 _ _ _ (fun a _ => H2 a)).
    rewrite host_read_write_at by (by rewrite length_host_read).
    rewrite (host_read_ext hm1 _ _ _ (fun a _ => H1 a)).
    apply host_read_write_at. by rewrite length_host_read. }
  split_and!; intros Hc.
  - destruct (Hin ltac:(lia)) as (hm1 & hm2 & Hw & Hr & He). rewrite Z.min_r in Hw, Hr, He by lia.
    exists hm1, hm2. unfold vs_write_slice, vs_read_slice. run_St. rewrite Hw, Z.eqb_refl, Hr, Hl, Z.eqb_refl.
    split_and!; [done|done|by rewrite <- Hl].
  - destruct (Hin ltac:(lia)) as (hm1 & hm2 & Hw & Hr & He). rewrite Z.min_l in Hw, Hr, He by lia.
    exists hm1, hm2. unfold vs_write_slice, vs_read_slice. run_St.
    rewrite Hw, Hr, (proj2 (Z.eqb_neq _ (b_len src))), (proj2 (Z.eqb_neq _ (b_len dst))), Hl by lia. done.
  - unfold vs_write_slice, vs_read_slice, vs_write, vs_read. run_St.
    rewrite !(proj2 (Z.eqb_neq _ 0)), (proj2 (Z.leb_le _ _)) by lia. done.
Qed.

Lemma slice_write_read_witness :
  exists hm1 hm2,
    vs_write_slice (prof:=dev_profile) {| vs_addr := 4096; vs_size := 16 |} {| b_ptr := 300; b_len := 5 |} 7
      (fun a => a mod 256) = (Ok tt, hm1) /\
    vs_read_slice (prof:=dev_profile) {| vs_addr := 4096; vs_size := 16 |} {| b_ptr := 9000; b_len := 5 |} 7 hm1
      = (Ok tt, hm2) /\
    host_read hm2 9000 5 = [44; 45; 46; 47; 48].
Proof.
  destruct (slice_write_read (prof:=dev_profile) (fun a => a mod 256) {| vs_addr := 4096; vs_size := 16 |}
    {| b_ptr := 300; b_len := 5 |} {| b_ptr := 9000; b_len := 5 |} 7) as (Hi & _ & _).
  - intros a. apply Z.mod_pos_bound. lia.
  - unfold slice_ok. cbn. lia.
  - unfold buf_wf. cbn. lia.
  - unfold buf_wf. cbn. lia.
  - unfold buf_apart. cbn. lia.
  - unfold buf_apart. cbn. lia.
  - reflexivity.
  - cbn. lia.
  - lia.
  - apply Hi. cbn. lia.
Defined.
