(* ===== verification/Tracked.v ===== *)
(** * Tracked: volatile slices that record what is written,
      [vm-memory/src/volatile_memory.rs] with [bitmap/]

    A volatile slice carries a window of its region's bitmap, and so do the
    references and arrays made from it; every write marks the bytes it wrote.
    The other files leave the bitmap out; here it is kept, for the bitmap of
    pages, and the file shows that the two views agree and that a write marks
    exactly the pages of what it has written. *)

From S2P Require Import Prelude Bytes HostMem Bitmap Regions Mmap VolatileIo VolatileRefs.

(** ** Slices, references and arrays with their bitmap *)

(** A window of the region's bitmap. *)
#[local] Abbreviation Window := (BaseSlice unit).

(* vm-memory/src/volatile_memory.rs:393-398, VolatileSlice *)
Record TrackedSlice : Type := { ts_slice : VolatileSlice; ts_bitmap : Window }.
(* vm-memory/src/volatile_memory.rs:869-875, VolatileRef *)
Record TrackedRef : Type := { tr_ref : VolatileRef; tr_bitmap : Window }.
(* vm-memory/src/volatile_memory.rs:999-1006, VolatileArrayRef *)
Record TrackedArray : Type := { ta_array : VolatileArrayRef; ta_bitmap : Window }.

(* vm-memory/src/volatile_memory.rs:424-436, VolatileSlice::with_bitmap *)
Definition ts_with_bitmap (addr size : Z) (bitmap : Window) : TrackedSlice :=
  {| ts_slice := vs_with_bitmap addr size; ts_bitmap := bitmap |}.
(* vm-memory/src/volatile_memory.rs:909-915, VolatileRef::with_bitmap *)
Definition tr_with_bitmap (addr size : Z) (bitmap : Window) : TrackedRef :=
  {| tr_ref := {| vr_addr := addr; vr_size := size |}; tr_bitmap := bitmap |}.
(* vm-memory/src/volatile_memory.rs:1040-1053, VolatileArrayRef::with_bitmap *)
Definition ta_with_bitmap (addr nelem size : Z) (bitmap : Window) : TrackedArray :=
  {| ta_array := {| va_addr := addr; va_nelem := nelem; va_size := size |}; ta_bitmap := bitmap |}.

(** The pointer of a slice: writes through it are not recorded. *)
(* vm-memory/src/volatile_memory.rs:319-327, PtrGuard *)
Record PtrGuard : Type := { pg_addr : Z; pg_len : Z }.
(* vm-memory/src/volatile_memory.rs:332-351, PtrGuard::new *)
Definition ptr_guard_new (addr len : Z) : PtrGuard := {| pg_addr := addr; pg_len := len |}.
(* vm-memory/src/volatile_memory.rs:353-355, PtrGuard::read *)
Definition ptr_guard_read (addr len : Z) : PtrGuard := ptr_guard_new addr len.
(* vm-memory/src/volatile_memory.rs:374-376, PtrGuardMut::write *)
Definition ptr_guard_write (addr len : Z) : PtrGuard := ptr_guard_new addr len.
(* vm-memory/src/volatile_memory.rs:439-441, VolatileSlice::ptr_guard *)
Definition ts_ptr_guard (t : TrackedSlice) : PtrGuard :=
  ptr_guard_read (vs_addr (ts_slice t)) (vs_len (ts_slice t)).
(* vm-memory/src/volatile_memory.rs:444-446, VolatileSlice::ptr_guard_mut *)
Definition ts_ptr_guard_mut (t : TrackedSlice) : PtrGuard :=
  ptr_guard_write (vs_addr (ts_slice t)) (vs_len (ts_slice t)).
(* vm-memory/src/volatile_memory.rs:918-920, VolatileRef::ptr_guard *)
Definition tr_ptr_guard (r : TrackedRef) : PtrGuard :=
  ptr_guard_read (vr_addr (tr_ref r)) (vr_len (tr_ref r)).
(* vm-memory/src/volatile_memory.rs:923-925, VolatileRef::ptr_guard_mut *)
Definition tr_ptr_guard_mut (r : TrackedRef) : PtrGuard :=
  ptr_guard_write (vr_addr (tr_ref r)) (vr_len (tr_ref r)).
(** The length is the number of elements, not of bytes. *)
(* vm-memory/src/volatile_memory.rs:1099-1101, VolatileArrayRef::ptr_guard *)
Definition ta_ptr_guard (a : TrackedArray) : PtrGuard :=
  ptr_guard_read (va_addr (ta_array a)) (va_len (ta_array a)).
(* vm-memory/src/volatile_memory.rs:1104-1106, VolatileArrayRef::ptr_guard_mut *)
Definition ta_ptr_guard_mut (a : TrackedArray) : PtrGuard :=
  ptr_guard_write (va_addr (ta_array a)) (va_len (ta_array a)).

(** *** Parts *)

(* vm-memory/src/mmap/windows.rs:199-219, MmapRegion::get_slice *)
Definition mmap_tracked_slice (r : MmapRegion) (offset count : Z) :
    out VolatileMemoryError TrackedSlice :=
  end_ ← compute_offset offset count;
  if mmr_size r <? end_ then Err (OutOfBounds end_)
  else Ok (ts_with_bitmap (mmr_addr r + offset) count (atomic_slice_at offset)).

(* vm-memory/src/volatile_memory.rs:494-507, VolatileSlice::subslice *)
Definition ts_subslice (t : TrackedSlice) (offset count : Z) : out VolatileMemoryError TrackedSlice :=
  _ ← compute_end_offset (vs_len (ts_slice t)) offset count;
  Ok (ts_with_bitmap (vs_addr (ts_slice t) + offset) count (base_slice_at (ts_bitmap t) offset)).

(* vm-memory/src/volatile_memory.rs:514-535, VolatileSlice::offset *)
Definition ts_offset (t : TrackedSlice) (count : Z) : out VolatileMemoryError TrackedSlice :=
  let vs := ts_slice t in
  new_addr ← ok_or (checked_add 64 (vs_addr vs) count) (Overflow (vs_addr vs) count);
  new_size ← ok_or (checked_sub (vs_size vs) count) (OutOfBounds new_addr);
  Ok (ts_with_bitmap (vs_addr vs + count) new_size (base_slice_at (ts_bitmap t) count)).

(* vm-memory/src/volatile_memory.rs:480-487, VolatileSlice::split_at *)
Definition ts_split_at (t : TrackedSlice) (mid : Z) :
    out VolatileMemoryError (TrackedSlice * TrackedSlice) :=
  end_ ← ts_offset t mid;
  Ok (ts_with_bitmap (vs_addr (ts_slice t)) mid (ts_bitmap t), end_).

Definition checked_tracked (t : TrackedSlice) (offset count : Z) :
    out VolatileMemoryError TrackedSlice :=
  s ← ts_subslice t offset count;
  if vs_len (ts_slice s) =? count then Ok s else Panic.

(* vm-memory/src/volatile_memory.rs:127-149, VolatileMemory::get_ref *)
Definition ts_get_ref (size : Z) (t : TrackedSlice) (offset : Z) : out VolatileMemoryError TrackedRef :=
  s ← checked_tracked t offset size;
  Ok (tr_with_bitmap (vs_addr (ts_slice s)) size (ts_bitmap s)).

(* vm-memory/src/volatile_memory.rs:152-188, VolatileMemory::get_array_ref *)
Definition ts_get_array_ref (size : Z) (t : TrackedSlice) (offset n : Z) :
    out VolatileMemoryError TrackedArray :=
  nbytes ← ok_or (isize_bytes n size) (TooBig n size);
  s ← checked_tracked t offset nbytes;
  Ok (ta_with_bitmap (vs_addr (ts_slice s)) n size (ts_bitmap s)).

(* vm-memory/src/volatile_memory.rs:971-981, VolatileRef::to_slice *)
Definition tr_to_slice (r : TrackedRef) : TrackedSlice :=
  ts_with_bitmap (vr_addr (tr_ref r)) (vr_size (tr_ref r)) (tr_bitmap r).

Section tracked.
Context {prof : Profile} {E : Type}.

(* vm-memory/src/volatile_memory.rs:1114-1124, VolatileArrayRef::to_slice *)
Definition ta_to_slice (a : TrackedArray) : out E TrackedSlice :=
  n ← umul 64 (va_nelem (ta_array a)) (va_element_size (ta_array a));
  Ok (ts_with_bitmap (va_addr (ta_array a)) n (ta_bitmap a)).

(* vm-memory/src/volatile_memory.rs:1131-1141, VolatileArrayRef::ref_at *)
Definition ta_ref_at (a : TrackedArray) (index : Z) : out E TrackedRef :=
  if index <? va_nelem (ta_array a) then
    byteofs ← umul 64 (va_element_size (ta_array a)) index;
    Ok (tr_with_bitmap (va_addr (ta_array a) + byteofs) (va_size (ta_array a))
          (base_slice_at (ta_bitmap a) byteofs))
  else Panic.

(* vm-memory/src/volatile_memory.rs:1299-1305, VolatileArrayRef::from *)
Definition ta_from_slice (t : TrackedSlice) : TrackedArray :=
  ta_with_bitmap (vs_addr (ts_slice t)) (vs_len (ts_slice t)) 1 (ts_bitmap t).

(** ** Writes *)

(** The memory and the bitmap of the region. *)
#[local] Abbreviation Tr := (M (hostmem * AtomicBitmap) E).

Definition on_mem {A} (m : M hostmem E A) : Tr A := zoom fst (fun hm s => (hm, s.2)) m.
Definition on_map {A} (m : M AtomicBitmap E A) : Tr A := zoom snd (fun b s => (s.1, b)) m.

(** A write, and [mark_dirty] for its bytes. *)
Definition then_mark {A} (write : M hostmem E A) (bitmap : Window) (offset : Z) (count : A -> Z) : Tr A :=
  x ← on_mem write;
  _ ← on_map (mark_dirty bitmap offset (count x));
  mret x.

(* vm-memory/src/volatile_memory.rs:949-955, VolatileRef::store *)
Definition tr_store (r : TrackedRef) (v : list Z) : Tr unit :=
  then_mark (vr_store (tr_ref r) v) (tr_bitmap r) 0 (fun _ => vr_len (tr_ref r)).

(* vm-memory/src/volatile_memory.rs:1149-1153, VolatileArrayRef::store *)
Definition ta_store (a : TrackedArray) (index : Z) (value : list Z) : Tr unit :=
  e ← lift (ta_ref_at a index); tr_store e value.

(* vm-memory/src/volatile_memory.rs:602-612, VolatileSlice::copy_to_volatile_slice *)
Definition ts_copy_to_volatile_slice (vs : VolatileSlice) (slice : TrackedSlice) : Tr unit :=
  then_mark (vs_copy_to_volatile_slice vs (ts_slice slice)) (ts_bitmap slice) 0
    (fun _ => Z.min (vs_size vs) (vs_size (ts_slice slice))).

(** [count] is computed before the copy; its product may overflow. *)
(* vm-memory/src/volatile_memory.rs:1231-1241, VolatileArrayRef::copy_to_volatile_slice *)
Definition ta_copy_to_volatile_slice (r : VolatileArrayRef) (slice : TrackedSlice) : Tr unit :=
  n ← lift (umul 64 (va_len r) (va_element_size r));
  then_mark (va_copy_to_volatile_slice r (ts_slice slice)) (ts_bitmap slice) 0
    (fun _ => Z.min n (vs_size (ts_slice slice))).

(* vm-memory/src/volatile_memory.rs:1427-1438, copy_to_volatile_slice *)
Definition copy_to_tracked (t : TrackedSlice) (src total : Z) : Tr Z :=
  then_mark (on_memory (copy_to_volatile_slice (ts_slice t) src total)) (ts_bitmap t) 0 id.

(** The pointer has moved by an element per turn of the loop. *)
(* vm-memory/src/volatile_memory.rs:1263-1296, VolatileArrayRef::copy_from *)
Definition ta_copy_from (a : TrackedArray) (buf buf_len : Z) : Tr unit :=
  let r := ta_array a in
  if va_size r =? 1 then
    destination ← lift (ta_to_slice a);
    _ ← copy_to_tracked destination buf (Z.min buf_len (vs_len (ts_slice destination)));
    mret tt
  else
    let n := Z.min buf_len (va_len r) in
    then_mark (modify (copy_elements (Z.to_nat n) (va_size r) (va_addr r) buf)) (ta_bitmap a) 0
      (fun _ => Z.of_nat (Z.to_nat n) * va_size r).

Definition tracked_elements (t : TrackedSlice) (size : Z) : out E TrackedArray :=
  count ← element_count (ts_slice t) size;
  unwrap (ts_get_array_ref size t 0 count).

(* vm-memory/src/volatile_memory.rs:637-662, VolatileSlice::copy_from *)
Definition ts_copy_from (t : TrackedSlice) (size buf buf_len : Z) : Tr unit :=
  if size =? 1 then
    _ ← copy_to_tracked t buf (Z.min buf_len (vs_len (ts_slice t)));
    mret tt
  else dest ← lift (tracked_elements t size); ta_copy_from dest buf buf_len.

End tracked.

Section bytes_usize.
Context {prof : Profile}.
#[local] Abbreviation Tr := (M (hostmem * AtomicBitmap) VolatileMemoryError).

(* vm-memory/src/volatile_memory.rs:694-707, VolatileSlice::write *)
Definition ts_write (t : TrackedSlice) (buf : Buf) (addr : Z) : Tr Z :=
  if b_len buf =? 0 then mret 0
  else if vs_size (ts_slice t) <=? addr then throw (OutOfBounds addr)
  else
    s ← lift (ts_offset t addr);
    n ← copy_to_tracked s (b_ptr buf) (Z.min (vs_len (ts_slice s)) (b_len buf));
    _ ← lift (buf_split_at buf n);
    mret n.

(* vm-memory/src/volatile_memory.rs:756-766, VolatileSlice::write_slice *)
Definition ts_write_slice (t : TrackedSlice) (buf : Buf) (addr : Z) : Tr unit :=
  len ← ts_write t buf addr;
  if len =? b_len buf then mret tt else throw (PartialBuffer (b_len buf) len).

(** The atomic is written before the mark; an error marks nothing. *)
(* vm-memory/src/volatile_memory.rs:830-835, VolatileSlice::store *)
Definition ts_store (n : nat) (t : TrackedSlice) (val addr : Z) : Tr unit :=
  then_mark (vs_store n (ts_slice t) val addr) (ts_bitmap t) addr (fun _ => Z.of_nat n).

End bytes_usize.

(** Reading a file or a socket into a slice; an error of the call marks
    nothing.  [X] is the state of the file. *)
Section handles.
Context {X : Type} (ReadFile WSARecv : Z -> Z -> M (hostmem * X) IoError Z).

(* vm-memory/src/io.rs:269-298, read_volatile_raw_handle *)
Definition ts_read_raw_handle (t : TrackedSlice) :
    M (hostmem * X * AtomicBitmap) VolatileMemoryError Z :=
  n ← zoom fst (fun st s => (st, s.2)) (read_volatile_raw_handle ReadFile (ts_slice t));
  _ ← zoom snd (fun b s => (s.1, b)) (mark_dirty (ts_bitmap t) 0 n);
  mret n.

(* vm-memory/src/io.rs:329-362, read_volatile_raw_socket *)
Definition ts_read_raw_socket (t : TrackedSlice) :
    M (hostmem * X * AtomicBitmap) VolatileMemoryError Z :=
  n ← zoom fst (fun st s => (st, s.2)) (read_volatile_raw_socket WSARecv (ts_slice t));
  _ ← zoom snd (fun b s => (s.1, b)) (mark_dirty (ts_bitmap t) 0 n);
  mret n.

(** A call on a file in state [x]. *)
Definition from_source {E A} (x : X) (m : M (hostmem * X * AtomicBitmap) E A) :
    M (hostmem * AtomicBitmap) E A :=
  fun s => let '(o, (hm, _, b)) := m (s.1, x, s.2) in (o, (hm, b)).
Definition from_source_plain {E A} (x : X) (m : M (hostmem * X) E A) : M hostmem E A :=
  fun hm => let '(o, (hm', _)) := m (hm, x) in (o, hm').

End handles.

(** ** Accesses

    The ways to cut a slice down, and the writes to what is left; a value of a
    [ByteValued] type is its bytes. *)

Inductive Cut : Type :=
| CutSubslice (offset count : Z)
| CutOffset (count : Z)
| CutStart (mid : Z)
| CutEnd (mid : Z)
| CutRef (size offset : Z).

Definition apply_cut (t : TrackedSlice) (c : Cut) : out VolatileMemoryError TrackedSlice :=
  match c with
  | CutSubslice offset count => ts_subslice t offset count
  | CutOffset count => ts_offset t count
  | CutStart mid => p ← ts_split_at t mid; Ok p.1
  | CutEnd mid => p ← ts_split_at t mid; Ok p.2
  | CutRef size offset => r ← ts_get_ref size t offset; Ok (tr_to_slice r)
  end.

Fixpoint apply_cuts (t : TrackedSlice) (cs : list Cut) : out VolatileMemoryError TrackedSlice :=
  match cs with [] => Ok t | c :: cs' => t' ← apply_cut t c; apply_cuts t' cs' end.

Inductive Write : Type :=
| WriteRef (offset : Z) (v : list Z)
| WriteElement (offset n index : Z) (v : list Z)
| WriteFromSlice (vs : VolatileSlice)
| WriteFromArray (r : VolatileArrayRef)
| WriteElements (size buf buf_len : Z)
| WriteBytes (buf : Buf) (addr : Z)
| WriteAllBytes (buf : Buf) (addr : Z)
| WriteAtomic (n : nat) (val addr : Z)
| WriteFromFile {X : Type} (x : X) (ReadFile : Z -> Z -> M (hostmem * X) IoError Z)
| WriteFromSocket {X : Type} (x : X) (WSARecv : Z -> Z -> M (hostmem * X) IoError Z).

(** [usize] arguments are not negative; a call that reads into a buffer stores
    as many bytes as it says when it succeeds, and stays in the buffer when it
    fails. *)
Definition reads_buffer {X} (x : X) (read : Z -> Z -> M (hostmem * X) IoError Z) : Prop :=
  forall ptr len hm, 0 <= len ->
    match read ptr len (hm, x) with
    | (Ok n, (hm', _)) => 0 <= n <= len /\ forall a, hm' a <> hm a -> ptr <= a < ptr + n
    | (_, (hm', _)) => forall a, hm' a <> hm a -> ptr <= a < ptr + len
    end.

Definition cut_args (c : Cut) : Prop :=
  match c with
  | CutSubslice offset count => 0 <= offset /\ 0 <= count
  | CutOffset count | CutStart count | CutEnd count => 0 <= count
  | CutRef size offset => 0 <= size /\ 0 <= offset
  end.
Definition write_args (w : Write) : Prop :=
  match w with
  | WriteRef offset _ => 0 <= offset
  | WriteElement offset n index _ => 0 <= offset /\ 0 <= n /\ 0 <= index
  | WriteFromSlice vs => 0 <= vs_size vs
  | WriteFromArray r => 0 <= va_nelem r /\ 0 <= va_size r
  | WriteElements size _ buf_len => 0 <= size /\ 0 <= buf_len
  | WriteBytes buf addr | WriteAllBytes buf addr => 0 <= b_len buf /\ 0 <= addr
  | WriteAtomic _ _ addr => 0 <= addr
  | WriteFromFile x read | WriteFromSocket x read => reads_buffer x read
  end.

Section accesses.
Context {prof : Profile}.

(** With the bitmap, and without. *)
Definition tracked_write (t : TrackedSlice) (w : Write) :
    M (hostmem * AtomicBitmap) VolatileMemoryError unit :=
  match w with
  | WriteRef offset v => r ← lift (ts_get_ref (zlen v) t offset); tr_store r v
  | WriteElement offset n index v =>
      a ← lift (ts_get_array_ref (zlen v) t offset n); ta_store a index v
  | WriteFromSlice vs => ts_copy_to_volatile_slice vs t
  | WriteFromArray r => ta_copy_to_volatile_slice r t
  | WriteElements size buf buf_len => ts_copy_from t size buf buf_len
  | WriteBytes buf addr => _ ← ts_write t buf addr; mret tt
  | WriteAllBytes buf addr => ts_write_slice t buf addr
  | WriteAtomic n val addr => ts_store n t val addr
  | WriteFromFile x ReadFile => _ ← from_source x (ts_read_raw_handle ReadFile t); mret tt
  | WriteFromSocket x WSARecv => _ ← from_source x (ts_read_raw_socket WSARecv t); mret tt
  end.

Definition plain_write (vs : VolatileSlice) (w : Write) : M hostmem VolatileMemoryError unit :=
  match w with
  | WriteRef offset v => r ← lift (vm_get_ref (zlen v) vs offset); vr_store r v
  | WriteElement offset n index v =>
      a ← lift (vm_get_array_ref (zlen v) vs offset n); va_store a index v
  | WriteFromSlice src => vs_copy_to_volatile_slice src vs
  | WriteFromArray r => va_copy_to_volatile_slice r vs
  | WriteElements size buf buf_len => vs_copy_from vs size buf buf_len
  | WriteBytes buf addr => _ ← vs_write vs buf addr; mret tt
  | WriteAllBytes buf addr => vs_write_slice vs buf addr
  | WriteAtomic n val addr => vs_store n vs val addr
  | WriteFromFile x ReadFile =>
      _ ← from_source_plain x (read_volatile_raw_handle ReadFile vs); mret tt
  | WriteFromSocket x WSARecv =>
      _ ← from_source_plain x (read_volatile_raw_socket WSARecv vs); mret tt
  end.

(** The bytes a write is about, from an offset on: the value's, or as many
    elements as fit, or what the call has read. *)
Definition area (vs : VolatileSlice) (hm : hostmem) (w : Write) : Z * Z :=
  let received {X} (x : X) (read : Z -> Z -> M (hostmem * X) IoError Z) :=
    match (read (vs_addr vs) (Z.min (vs_size vs) u32_max) (hm, x)).1 with Ok n => n | _ => 0 end in
  match w with
  | WriteRef offset v => (offset, zlen v)
  | WriteElement offset _ index v => (offset + index * zlen v, zlen v)
  | WriteFromSlice src => (0, Z.min (vs_size src) (vs_size vs))
  | WriteFromArray r => (0, Z.min (wrap 64 (va_nelem r * va_size r)) (vs_size vs))
  | WriteElements size _ buf_len => (0, Z.min buf_len (vs_size vs / size) * size)
  | WriteBytes buf addr | WriteAllBytes buf addr => (addr, Z.min (vs_size vs - addr) (b_len buf))
  | WriteAtomic n _ addr => (addr, Z.of_nat n)
  | WriteFromFile x ReadFile => (0, received x ReadFile)
  | WriteFromSocket x WSARecv => (0, received x WSARecv)
  end.

Definition succeeds {E A} (o : out E A) : bool := match o with Ok _ => true | _ => false end.

(** The bytes written: those of the area when the write succeeds, none when it
    fails.  [write_slice] fails after [write] has succeeded, when not all of
    the buffer has fitted. *)
Definition written (vs : VolatileSlice) (hm : hostmem) (w : Write) : Z * Z :=
  let w' := match w with WriteAllBytes buf addr => WriteBytes buf addr | _ => w end in
  if succeeds (plain_write vs w' hm).1 then area vs hm w else (0, 0).

(** A call that fails may have stored something. *)
Definition failed_read {E A} (w : Write) (o : out E A) : bool :=
  match w with WriteFromFile _ _ | WriteFromSocket _ _ => negb (succeeds o) | _ => false end.

End accesses.

(** ** Lemmas *)

(** *** What the copies write *)

(** The bytes outside [lo, lo + len) are as before. *)
Definition within (lo len : Z) (hm hm' : hostmem) : Prop :=
  forall a, ~ (lo <= a < lo + len) -> hm' a = hm a.

Lemma within_refl lo len hm : within lo len hm hm.
Proof. by intros a _. Qed.

Lemma within_trans lo len hm1 hm2 hm3 :
  within lo len hm1 hm2 -> within lo len hm2 hm3 -> within lo len hm1 hm3.
Proof. intros H1 H2 a Ha. by rewrite H2, H1. Qed.

Lemma within_weaken lo len lo' len' hm hm' :
  lo <= lo' -> lo' + len' <= lo + len -> within lo' len' hm hm' -> within lo len hm hm'.
Proof. intros ?? H a Ha. apply H. lia. Qed.

Lemma within_write lo len p bs hm :
  lo <= p -> p + zlen bs <= lo + len -> within lo len hm (host_write hm p bs).
Proof. intros ?? a Ha. apply host_write_out. lia. Qed.

(** A state of the copy loops whose writes are behind it. *)
Definition copying (lo len : Z) (hm0 : hostmem) (st : Z * Z * Z * hostmem) : Prop :=
  let '(dst, _, left_, hm) := st in
  within lo len hm0 hm /\ 0 <= left_ /\ (left_ <> 0 -> lo <= dst /\ dst + left_ <= lo + len).

Lemma copy_single_within (m : nat) src dst lo len hm :
  lo <= dst -> dst + Z.of_nat m <= lo + len -> within lo len hm (copy_single m src dst hm).
Proof. intros. apply within_write; unfold zlen; rewrite ?length_le_bytes; lia. Qed.

Lemma copy_aligned_loop_copying (m : nat) lo len hm0 fuel : forall dst src left_ hm,
  (1 <= m)%nat -> copying lo len hm0 (dst, src, left_, hm) ->
  copying lo len hm0 (copy_aligned_loop fuel m dst src left_ hm).
Proof.
  induction fuel as [|fuel IH]; intros dst src left_ hm Hm (Hw & Hl & Hd); [by split_and!|].
  cbn [copy_aligned_loop]. destruct (Z.leb_spec (Z.of_nat m) left_); [|by split_and!].
  assert (within lo len hm0 (copy_single m src dst hm)) as Hw'.
  { eapply within_trans; [exact Hw|]. apply copy_single_within; lia. }
  case_Z; [|apply IH; [done|]]; (split_and!; [done|lia..]).
Qed.

Lemma copy_slice_within {prof : Profile} {E} dst src total hm :
  0 <= total ->
  match copy_slice (E:=E) dst src total hm with
  | Ok (n, hm') => n = total /\ within dst total hm hm'
  | _ => True
  end.
Proof.
  intros Ht. assert (forall al m st, (1 <= m)%nat -> copying dst total hm st ->
    copying dst total hm (copy_aligned_slice al m st)) as Hs.
  { intros al m [[[d s] l] h] Hm Hc. unfold copy_aligned_slice. case_match; [done|].
    by apply copy_aligned_loop_copying. }
  unfold copy_slice. destruct (total <=? 8).
  - unfold copy_slice_volatile. destruct (alignment (E:=E) src); [|done..]. cbn [mbind out_bind].
    destruct (alignment (E:=E) dst); [|done..]. cbn [mbind out_bind].
    assert (copying dst total hm (dst, src, total, hm)) as H0
      by (split_and!; [apply within_refl|lia..]).
    apply (Hs (a `min` a0) 8%nat) in H0; [|lia]. apply (Hs (a `min` a0) 4%nat) in H0; [|lia].
    apply (Hs (a `min` a0) 2%nat) in H0; [|lia]. apply (Hs (a `min` a0) 1%nat) in H0; [|lia].
    destruct (copy_aligned_slice _ 1 _) as [[[d s] l] hm']. cbn. split; [done|apply H0].
  - split; [done|]. apply within_write; unfold zlen; rewrite ?length_host_read; lia.
Qed.

Lemma copy_elements_within n size : forall dst src hm,
  0 <= size -> within dst (Z.of_nat n * size) hm (copy_elements n size dst src hm).
Proof.
  induction n as [|n IH]; intros dst src hm Hs; [apply within_refl|]. cbn [copy_elements].
  eapply within_trans; [apply within_write|eapply within_weaken; [| |by apply IH]];
    unfold zlen; rewrite ?length_host_read; nia.
Qed.

(** Every byte that a bitmap covers has a page in it. *)
Lemma page_below b a : bitmap_wf b -> 0 <= a < ab_byte_size b -> a / ab_page_size b < ab_size b.
Proof.
  intros [Hp Hs Hb _ _ _] Ha. rewrite Hs. apply Z.div_lt_upper_bound; [done|].
  destruct (div_ceil_spec (ab_byte_size b) (ab_page_size b)) as [[_ H]|[H _]]; lia.
Qed.

(** *** Tracking *)

Section tracking.
Context {prof : Profile} (base size : Z).
Context (Hbase : 0 <= base) (Hsize : 0 <= size) (Hend : base + size < 2 ^ 64).

(** The page of an address of the region. *)
Definition page_of (b : AtomicBitmap) (a : Z) : Z := (a - base) / ab_page_size b.

(** A bitmap that covers the region. *)
Definition covers (b : AtomicBitmap) : Prop := bitmap_wf b /\ size <= ab_byte_size b.

(** A window that belongs to the [len] bytes from [lo] on. *)
Definition window_at (lo len : Z) (w : BaseSlice unit) : Prop :=
  w = atomic_slice_at (lo - base) /\ base <= lo /\ 0 <= len /\ lo + len <= base + size.

(** What a tracked write promises: the result and the memory of the plain
    one; only bytes of [st] change; and the marks are those that were there and
    the pages of the bytes of [mk]. *)
Record tracks {E A} (st mk : Z * Z) (m : M (hostmem * AtomicBitmap) E A) (plain : M hostmem E A)
    (hm : hostmem) (b : AtomicBitmap) : Prop := {
  tk_plain : plain hm = ((m (hm, b)).1, (m (hm, b)).2.1);
  tk_covers : covers (m (hm, b)).2.2;
  tk_within : within st.1 st.2 hm (m (hm, b)).2.1;
  tk_dirty i : dirty (m (hm, b)).2.2 i = true <->
    dirty b i = true \/ exists a, mk.1 <= a < mk.1 + mk.2 /\ page_of b a = i;
}.

Lemma tracks_lift {E A} st mk (o : out E A) hm b :
  covers b -> mk.2 <= 0 -> tracks st mk (lift o) (lift o) hm b.
Proof using.
  intros Hb Hn. split; cbn; [done|done|apply within_refl|]. intros i. split; [by left|].
  intros [?|(a & ? & _)]; [done|lia].
Qed.

(** What follows a write and does not touch memory. *)
Lemma tracks_then {E A B} st mk m plain (h : A -> out E B) hm b :
  tracks st mk m plain hm b ->
  tracks st mk (m ≫= fun x => lift (h x)) (plain ≫= fun x => lift (h x)) hm b.
Proof using.
  intros [Hp Hc Hw Hd].
  assert ((m ≫= fun x => lift (h x)) (hm, b) = ((m (hm, b)).1 ≫= h, (m (hm, b)).2)) as Em.
  { unfold mbind at 1, M_bind. by destruct (m (hm, b)) as [[x|e| |] s1]. }
  split; rewrite Em; cbn [fst snd]; try done. unfold mbind at 1, M_bind. rewrite Hp.
  by destruct (m (hm, b)).1.
Qed.

(** A write followed by the mark of what it wrote. *)
Lemma tracks_mark {E A} st n (write : M hostmem E A) w offset count lo len hm b :
  window_at lo len w -> 0 <= offset -> covers b ->
  match write hm with
  | (Ok x, hm') => count x = n /\ 0 <= n /\ offset + n <= len /\ within st.1 st.2 hm hm'
  | (_, hm') => n = 0 /\ within st.1 st.2 hm hm'
  end ->
  tracks st (lo + offset, n) (then_mark write w offset count) write hm b.
Proof using prof Hbase Hend.
  intros (-> & Hlo & Hlen & Hhi) Ho [Hb Hcov] Hw.
  assert (then_mark write (atomic_slice_at (lo - base)) offset count (hm, b) =
    match write hm with
    | (Ok x, hm') => (Ok x, (hm', (set_addr_range (E:=E) (lo - base + offset) n b).2))
    | (r, hm') => (r, (hm', b))
    end) as Em.
  { unfold then_mark, on_mem, on_map. run_St. destruct (write hm) as [[x|e| |] hm']; try done.
    destruct Hw as (Hc & Hn & Hoc & _). cbn [fst snd]. rewrite Hc.
    destruct (slice_tracks_window (E:=E) b (lo - base) offset n Hb) as (-> & _ & _); [lia..|].
    destruct (set_reset_spec (E:=E) true (lo - base + offset) n b Hb) as (b' & R & _);
      [lia..|]. unfold set_addr_range. by rewrite R. }
  destruct (write hm) as [r hm'] eqn:Ew.
  destruct r as [x|e| |]; [|destruct Hw as [-> Hw]; split; rewrite ?Em; cbn [fst snd];
    [done|by split|done|]; intros i; split; [by left|intros [?|(a & ? & _)]; [done|lia]]..].
  destruct Hw as (_ & Hc & Hoc & Hwi).
  destruct (set_reset_spec (E:=E) true (lo - base + offset) n b Hb) as (b' & R & Hwf & Hsh & D);
    [lia..|].
  unfold set_addr_range in Em. rewrite R in Em. cbn [snd] in Em. destruct Hsh as (Es & Eby & Ep).
  pose proof (bw_page b Hb) as Hpg.
  split; rewrite ?Em; cbn [fst snd]; [done|split; [done|lia]|done|].
  intros i. rewrite D. pose proof (touches_iff (ab_page_size b) (lo - base + offset) n i Hpg ltac:(lia) Hc) as Ht.
  destruct (touches _ _ _ _).
  - destruct (proj1 Ht eq_refl) as (a & Ha & _ & Hi). split; [intros _; right|intros _].
    + exists (a + base). split; [lia|]. unfold page_of. rewrite <- Hi. f_equal. lia.
    + replace (i <? ab_size b) with true; [done|]. symmetry. apply Z.ltb_lt. rewrite <- Hi.
      apply page_below; [done|lia].
  - split; [by left|]. intros [?|(a & Ha & Hi)]; [done|]. exfalso.
    assert (false = true) as [=]. apply Ht. exists (a - base). split_and!; [lia..|done].
Qed.

(** Writes that store [n] bytes at [lo] when they succeed. *)
Definition tracked {E A} (lo n : Z) (m : M (hostmem * AtomicBitmap) E A) (plain : M hostmem E A) :
    Prop :=
  forall hm b, covers b ->
    let mk := (lo, if succeeds (plain hm).1 then n else 0) in tracks mk mk m plain hm b.

Lemma tracked_lift {E A} lo n (o : out E A) :
  (succeeds o = true -> n <= 0) -> tracked lo n (lift o) (lift o).
Proof using.
  intros Hn hm b Hb mk. apply tracks_lift; [done|]. subst mk. cbn. destruct (succeeds o); [auto|lia].
Qed.

(** Derived parts may be computed in parallel. *)
Lemma tracked_lift_bind {E A A' B} lo n (o : out E A) (er : A -> A') (f : A -> M _ E B) g :
  (forall x, o = Ok x -> tracked lo n (f x) (g (er x))) ->
  tracked lo n (lift o ≫= f) (lift (er <$> o) ≫= g).
Proof using.
  intros Hf. destruct o as [x|e| |]; [by apply Hf|..].
  all: by apply (tracked_lift lo n (_ : out E B)).
Qed.

Lemma tracked_then {E A B} lo n m plain (y : B) :
  tracked (E:=E) (A:=A) lo n m plain ->
  tracked lo n (m ≫= fun _ => mret y) (plain ≫= fun _ => mret y).
Proof using.
  intros Hm hm b Hb. specialize (Hm hm b Hb). cbv zeta in Hm.
  apply (tracks_then _ _ _ _ (fun _ => Ok y)) in Hm.
  replace (succeeds ((plain ≫= fun _ => mret y) hm).1) with (succeeds (plain hm).1); [exact Hm|].
  unfold mbind, M_bind. by destruct (plain hm) as [[]].
Qed.

Lemma tracked_mark {E A} lo n (write : M hostmem E A) w offset count lo' len' :
  window_at lo' len' w -> 0 <= offset -> lo = lo' + offset ->
  (forall hm, match write hm with
     | (Ok x, hm') => count x = n /\ 0 <= n /\ offset + n <= len' /\ within lo n hm hm'
     | (_, hm') => hm' = hm
     end) ->
  tracked lo n (then_mark write w offset count) write.
Proof using prof Hbase Hend.
  intros Hwin Ho -> Hw hm b Hb. specialize (Hw hm). eapply tracks_mark; [done..|].
  destruct (write hm) as [[x|e| |] hm']; cbn [fst succeeds]; [done|..].
  all: subst; split; [done|apply within_refl].
Qed.

(** *** Parts stay within their window *)

Definition slice_window (t : TrackedSlice) : Prop :=
  window_at (vs_addr (ts_slice t)) (vs_size (ts_slice t)) (ts_bitmap t).

Lemma window_part lo len w off len' :
  window_at lo len w -> 0 <= off -> 0 <= len' -> off + len' <= len ->
  window_at (lo + off) len' (base_slice_at w off).
Proof using Hbase Hend.
  intros (-> & Hlo & Hlen & Hhi) ???. split_and!; [|lia..]. unfold base_slice_at, atomic_slice_at,
    base_slice_new. cbn [bs_base_offset bs_inner]. f_equal. unfold wadd.
  rewrite wrap_small by (unfold fits; lia). lia.
Qed.

Lemma window_shorter lo len len' w :
  window_at lo len w -> 0 <= len' <= len -> window_at lo len' w.
Proof using. intros (-> & ? & ? & ?) ?. split_and!; done || lia. Qed.

(** A cut is the plain cut with its window. *)
Lemma ts_subslice_plain t offset count :
  ts_slice <$> ts_subslice t offset count = vs_subslice (ts_slice t) offset count.
Proof using. unfold ts_subslice, vs_subslice. by destruct (compute_end_offset _ _ _). Qed.

Lemma ts_offset_plain t count : ts_slice <$> ts_offset t count = vs_offset (ts_slice t) count.
Proof using.
  unfold ts_offset, vs_offset, ok_or. by destruct (checked_add _ _ _), (checked_sub _ _).
Qed.

Lemma ts_subslice_window t offset count s :
  slice_window t -> 0 <= offset -> 0 <= count -> ts_subslice t offset count = Ok s ->
  slice_window s /\ vs_addr (ts_slice s) = vs_addr (ts_slice t) + offset /\
  vs_size (ts_slice s) = count /\ offset + count <= vs_size (ts_slice t).
Proof using Hbase Hend.
  intros Hw Ho Hc E. unfold ts_subslice, compute_end_offset, compute_offset, checked_add in E.
  destruct (offset + count <? 2 ^ 64); [|done]. cbn [mbind out_bind] in E. unfold vs_len in E.
  destruct (Z.ltb_spec (vs_size (ts_slice t)) (offset + count)); [done|]. injection E as <-.
  split_and!; [|done|done|done]. by apply (window_part _ _ _ _ _ Hw).
Qed.

Lemma ts_offset_window t count s :
  slice_window t -> 0 <= count -> ts_offset t count = Ok s ->
  slice_window s /\ vs_addr (ts_slice s) = vs_addr (ts_slice t) + count /\
  vs_size (ts_slice s) = vs_size (ts_slice t) - count /\ count <= vs_size (ts_slice t).
Proof using Hbase Hend.
  intros Hw Hc E. unfold ts_offset, checked_add, checked_sub, ok_or in E.
  destruct (vs_addr (ts_slice t) + count <? 2 ^ 64); [|done]. cbn [mbind out_bind] in E.
  destruct (Z.leb_spec count (vs_size (ts_slice t))); [|done]. injection E as <-.
  split_and!; [|done|done|done]. apply (window_part _ _ _ _ _ Hw); cbn; lia.
Qed.

Lemma checked_tracked_window t offset count s :
  slice_window t -> 0 <= offset -> 0 <= count -> checked_tracked t offset count = Ok s ->
  slice_window s /\ vs_addr (ts_slice s) = vs_addr (ts_slice t) + offset /\
  vs_size (ts_slice s) = count /\ offset + count <= vs_size (ts_slice t).
Proof using Hbase Hend.
  intros Hw Ho Hc E. unfold checked_tracked in E.
  destruct (ts_subslice t offset count) as [s'|e| |] eqn:Es; [|done..]. cbn [mbind out_bind] in E.
  destruct (vs_len (ts_slice s') =? count); [|done]. injection E as ->.
  by apply ts_subslice_window.
Qed.

(** What is cut out lies in the slice. *)
Definition part_of (t t' : TrackedSlice) : Prop :=
  vs_addr (ts_slice t) <= vs_addr (ts_slice t') /\
  vs_addr (ts_slice t') + vs_size (ts_slice t') <= vs_addr (ts_slice t) + vs_size (ts_slice t).

Lemma apply_cut_window t c t' :
  slice_window t -> cut_args c -> apply_cut t c = Ok t' -> slice_window t' /\ part_of t t'.
Proof using Hbase Hend.
  intros Hw Hc E. unfold part_of. destruct c as [offset count|count|mid|mid|sz offset]; cbn in Hc, E.
  - apply ts_subslice_window in E as (? & ? & ? & ?); [split; [done|lia]|tauto..].
  - apply ts_offset_window in E as (? & ? & ? & ?); [split; [done|lia]|done..].
  - unfold ts_split_at in E. destruct (ts_offset t mid) as [s|e| |] eqn:Es; [|done..].
    cbn in E. injection E as <-. apply ts_offset_window in Es as (_ & _ & _ & Hm); [|done..].
    cbn. split; [by eapply window_shorter|lia].
  - unfold ts_split_at in E. destruct (ts_offset t mid) as [s|e| |] eqn:Es; [|done..].
    cbn in E. injection E as <-. apply ts_offset_window in Es as (? & ? & ? & Hm); [|done..].
    split; [done|lia].
  - unfold ts_get_ref in E. destruct (checked_tracked t offset sz) as [s|e| |] eqn:Es; [|done..].
    cbn in E. injection E as <-.
    apply checked_tracked_window in Es as ((Hb & Hs) & Ha & Hz & Hle); [|tauto..].
    cbn. split; [|lia]. unfold slice_window. cbn. rewrite <- Hz. by split.
Qed.

Lemma apply_cuts_window cs : forall t t',
  slice_window t -> Forall cut_args cs -> apply_cuts t cs = Ok t' -> slice_window t' /\ part_of t t'.
Proof using Hbase Hend.
  induction cs as [|c cs IH]; intros t t' Hw Hcs E.
  - injection E as <-. split; [done|]. split; lia.
  - apply Forall_cons in Hcs as [Hc Hcs]. cbn in E. destruct (apply_cut t c) as [t1|e| |] eqn:E1; [|done..].
    apply apply_cut_window in E1 as [Hw1 Hp1]; [|done..].
    apply IH in E as [Hw' Hp']; [|done..]. split; [done|]. unfold part_of in *. lia.
Qed.

(** *** The writes *)

Lemma tracked_ext {E A} lo n (m m' : M (hostmem * AtomicBitmap) E A) plain plain' :
  (forall s, m' s = m s) -> (forall hm, plain' hm = plain hm) ->
  tracked lo n m plain -> tracked lo n m' plain'.
Proof using.
  intros Em Hp Hm hm b Hb. specialize (Hm hm b Hb). cbv zeta in *. rewrite Hp.
  destruct Hm. split; rewrite ?Em, ?Hp; done.
Qed.

Lemma checked_tracked_plain t offset count :
  ts_slice <$> checked_tracked t offset count = checked_slice (ts_slice t) offset count.
Proof using.
  unfold checked_tracked, checked_slice. cbn [vm_get_slice volatile_slice_memory].
  rewrite <- ts_subslice_plain. destruct (ts_subslice t offset count) as [s|e| |]; try done.
  cbn. by destruct (vs_len _ =? count).
Qed.

Lemma ts_get_ref_plain sz t offset :
  tr_ref <$> ts_get_ref sz t offset = vm_get_ref sz (ts_slice t) offset.
Proof using.
  unfold ts_get_ref, vm_get_ref. rewrite <- checked_tracked_plain.
  by destruct (checked_tracked t offset sz).
Qed.

Lemma ts_get_array_ref_plain sz t offset n :
  ta_array <$> ts_get_array_ref sz t offset n = vm_get_array_ref sz (ts_slice t) offset n.
Proof using.
  unfold ts_get_array_ref, vm_get_array_ref. destruct (isize_bytes n sz) as [nb|]; [|done].
  cbn [ok_or mbind out_bind]. rewrite <- checked_tracked_plain.
  by destruct (checked_tracked t offset nb).
Qed.

Lemma ta_ref_at_plain {E} a index :
  tr_ref <$> ta_ref_at (E:=E) a index = va_ref_at (ta_array a) index.
Proof using.
  unfold ta_ref_at, va_ref_at. destruct (index <? _); [|done]. by destruct (umul 64 _ _).
Qed.

Lemma ta_to_slice_plain {E} a : ts_slice <$> ta_to_slice (E:=E) a = va_to_slice (ta_array a).
Proof using. unfold ta_to_slice, va_to_slice. by destruct (umul 64 _ _). Qed.

Lemma tracked_elements_plain {E} t sz :
  ta_array <$> tracked_elements (E:=E) t sz = element_array (ts_slice t) sz.
Proof using.
  unfold tracked_elements, element_array. destruct (element_count _ _) as [n|e| |]; try done.
  cbn [mbind out_bind]. rewrite <- ts_get_array_ref_plain. by destruct (ts_get_array_ref sz t 0 n).
Qed.

(** An array lies in the slice it was made from. *)
Definition array_window (a : TrackedArray) : Prop :=
  0 <= va_nelem (ta_array a) /\ 0 <= va_size (ta_array a) /\
  window_at (va_addr (ta_array a)) (va_nelem (ta_array a) * va_size (ta_array a)) (ta_bitmap a).

Lemma ts_get_array_ref_window sz t offset n a :
  slice_window t -> 0 <= sz -> 0 <= offset -> 0 <= n -> ts_get_array_ref sz t offset n = Ok a ->
  array_window a /\ va_addr (ta_array a) = vs_addr (ts_slice t) + offset /\
  va_size (ta_array a) = sz /\ va_nelem (ta_array a) = n /\ offset + n * sz <= vs_size (ts_slice t).
Proof using Hbase Hend.
  intros Hw Hs Ho Hn E. unfold ts_get_array_ref, isize_bytes in E.
  destruct (n <? 2 ^ 63); [|done]. destruct (n * sz <? 2 ^ 63); [|done].
  cbn [ok_or mbind out_bind] in E.
  destruct (checked_tracked t offset (n * sz)) as [s|e| |] eqn:Es; [|done..].
  cbn in E. injection E as <-.
  apply checked_tracked_window in Es as (Hws & Ha & Hz & Hle); [|done|done|nia].
  split_and!; [|done|done|done|done]. split_and!; [done|done|]. unfold slice_window in Hws.
  cbn. by rewrite <- Hz.
Qed.

Lemma tracked_elements_window {E} t sz a :
  slice_window t -> 0 <= sz -> tracked_elements (E:=E) t sz = Ok a ->
  array_window a /\ va_addr (ta_array a) = vs_addr (ts_slice t) /\
  va_nelem (ta_array a) = vs_size (ts_slice t) / sz /\ va_size (ta_array a) = sz.
Proof using Hbase Hend.
  intros Hw Hs E0. unfold tracked_elements, element_count in E0. destruct (Z.eqb_spec sz 0); [done|].
  cbn [mbind out_bind] in E0. pose proof Hw as (_ & _ & Hlen & _).
  destruct (ts_get_array_ref sz t 0 (vs_size (ts_slice t) / sz)) as [a'|e| |] eqn:Ea; [|done..].
  injection E0 as ->. apply ts_get_array_ref_window in Ea as (Ha & Hb & -> & -> & Hle);
    [|done|done|lia|apply Z.div_pos; lia].
  split_and!; [done|lia|done|done].
Qed.

Lemma tracked_copy {E} t src total :
  slice_window t -> 0 <= total <= vs_size (ts_slice t) ->
  tracked (E:=E) (vs_addr (ts_slice t)) total (copy_to_tracked t src total)
    (on_memory (copy_to_volatile_slice (ts_slice t) src total)).
Proof using prof Hbase Hend.
  intros Hw Ht. eapply tracked_mark; [exact Hw|lia|lia|]. intros hm.
  unfold on_memory, copy_to_volatile_slice.
  pose proof (copy_slice_within (E:=E) (vs_addr (ts_slice t)) src total hm ltac:(lia)) as Hc.
  destruct (copy_slice _ _ _ _) as [[n hm']|e| |]; [|done..]. destruct Hc as [-> Hc].
  split_and!; [done|lia|lia|exact Hc].
Qed.

Lemma tracked_ref_store {E} r v :
  window_at (vr_addr (tr_ref r)) (vr_size (tr_ref r)) (tr_bitmap r) -> vr_size (tr_ref r) = zlen v ->
  tracked (E:=E) (vr_addr (tr_ref r)) (zlen v) (tr_store r v) (vr_store (tr_ref r) v).
Proof using prof Hbase Hend.
  intros Hw Hv. eapply tracked_mark; [exact Hw|lia|lia|]. intros hm. cbn.
  unfold vr_len. destruct Hw as (_ & _ & Hl & _). split_and!; [done|lia|lia|].
  apply within_write; lia.
Qed.

Lemma tracked_array_store {E} a index v :
  array_window a -> va_size (ta_array a) = zlen v -> 0 <= index ->
  tracked (E:=E) (va_addr (ta_array a) + index * zlen v) (zlen v)
    (ta_store a index v) (va_store (ta_array a) index v).
Proof using prof Hbase Hend.
  intros (Hn & Hs & Hw) Hv Hi. unfold ta_store, va_store. rewrite <- ta_ref_at_plain.
  apply tracked_lift_bind. intros r Er. unfold ta_ref_at in Er.
  destruct (Z.ltb_spec index (va_nelem (ta_array a))) as [Hlt|]; [|done].
  pose proof Hw as (_ & Hlo & Hlen & Hhi). unfold va_element_size in Er.
  rewrite umul_ok in Er by nia. cbn in Er. injection Er as <-.
  replace (index * zlen v) with (va_size (ta_array a) * index) by (rewrite Hv; lia).
  apply (tracked_ref_store (tr_with_bitmap _ _ _)); [|done].
  apply (window_part _ _ _ (va_size (ta_array a) * index) (va_size (ta_array a)) Hw); nia.
Qed.

Lemma tracked_array_copy_from {E} a buf buf_len :
  array_window a -> 0 <= buf_len ->
  tracked (E:=E) (va_addr (ta_array a)) (Z.min buf_len (va_nelem (ta_array a)) * va_size (ta_array a))
    (ta_copy_from a buf buf_len) (va_copy_from (ta_array a) buf buf_len).
Proof using prof Hbase Hend.
  intros (Hn & Hs & Hw) Hb. unfold ta_copy_from, va_copy_from.
  destruct (Z.eqb_spec (va_size (ta_array a)) 1) as [E1|E1].
  - rewrite <- ta_to_slice_plain. apply tracked_lift_bind. intros d Ed.
    unfold ta_to_slice in Ed. pose proof Hw as (_ & Hlo & Hlen & Hhi).
    unfold va_element_size in Ed. rewrite umul_ok in Ed by lia. cbn [mbind out_bind] in Ed.
    rewrite E1, Z.mul_1_r in *. apply tracked_then.
    assert (d = ts_with_bitmap (va_addr (ta_array a)) (va_nelem (ta_array a)) (ta_bitmap a)) as -> by congruence.
    apply (tracked_copy (ts_with_bitmap _ (va_nelem (ta_array a)) _)); [exact Hw|].
    unfold vs_len. cbn [ts_slice ts_with_bitmap vs_with_bitmap vs_size]. lia.
  - eapply tracked_mark; [exact Hw|lia|lia|]. intros hm. cbn. unfold va_len.
    rewrite Z2Nat.id by lia. split_and!; [done|nia| |].
    + apply Z.mul_le_mono_nonneg_r; lia.
    + pose proof (copy_elements_within (Z.to_nat (Z.min buf_len (va_nelem (ta_array a))))
        (va_size (ta_array a)) (va_addr (ta_array a)) buf hm Hs) as Hc.
      by rewrite Z2Nat.id in Hc by lia.
Qed.

Lemma tracked_copy_from {E} t sz buf buf_len :
  slice_window t -> 0 <= sz -> 0 <= buf_len ->
  tracked (E:=E) (vs_addr (ts_slice t)) (Z.min buf_len (vs_size (ts_slice t) / sz) * sz)
    (ts_copy_from t sz buf buf_len) (vs_copy_from (ts_slice t) sz buf buf_len).
Proof using prof Hbase Hend.
  intros Hw Hs Hb. pose proof Hw as (_ & _ & Hlen & _). unfold ts_copy_from, vs_copy_from.
  destruct (Z.eqb_spec sz 1) as [->|].
  - rewrite Z.div_1_r, Z.mul_1_r. apply tracked_then, tracked_copy; [done|]. unfold vs_len. lia.
  - rewrite <- tracked_elements_plain. apply tracked_lift_bind. intros a Ea.
    apply tracked_elements_window in Ea as (Ha & Haddr & Hne & Hsz); [|done|done].
    rewrite <- Haddr, <- Hne. pose proof (tracked_array_copy_from (E:=E) a buf buf_len Ha Hb) as Ht.
    by rewrite Hsz in Ht.
Qed.

Lemma tracked_bytes t buf addr :
  slice_window t -> 0 <= b_len buf -> 0 <= addr ->
  tracked (vs_addr (ts_slice t) + addr) (Z.min (vs_size (ts_slice t) - addr) (b_len buf))
    (ts_write t buf addr) (vs_write (ts_slice t) buf addr).
Proof using prof Hbase Hend.
  intros Hw Hb Ha. unfold ts_write, vs_write.
  destruct (Z.eqb_spec (b_len buf) 0) as [E0|]; [apply (tracked_lift _ _ (Ok 0)); intros _; lia|].
  destruct (vs_size (ts_slice t) <=? addr); [by apply (tracked_lift _ _ (Err _))|].
  rewrite <- ts_offset_plain. apply tracked_lift_bind. intros s Es.
  apply ts_offset_window in Es as (Hws & Has & Hss & Hle); [|done|done]. rewrite <- Has, <- Hss.
  set (total := Z.min (vs_len (ts_slice s)) (b_len buf)).
  change (Z.min (vs_size (ts_slice s)) (b_len buf)) with total.
  pose proof Hws as (_ & _ & Hl & _).
  assert (0 <= total <= vs_size (ts_slice s) /\ total <= b_len buf) as [Ht Htb]
    by (subst total; unfold vs_len; lia).
  eapply tracked_ext; [| |by apply (tracked_copy s (b_ptr buf) total)].
  - intros [hm b]. unfold copy_to_tracked, then_mark, on_mem, on_map, on_memory, copy_to_volatile_slice. run_St.
    pose proof (copy_slice_within (E:=VolatileMemoryError) (vs_addr (ts_slice s)) (b_ptr buf) total hm ltac:(lia)) as Hc.
    destruct (copy_slice _ _ _ _) as [[k hm'']|e| |]; try done. destruct Hc as [-> _]. cbn [fst snd id].
    destruct (mark_dirty _ _ _ b) as [[[]|e| |] b']; try done. unfold buf_split_at.
    by rewrite (proj2 (Z.leb_le _ _)) by done.
  - intros hm. unfold with_buf, slice_read_volatile, slice_transfer, on_memory, copy_to_volatile_slice. run_St.
    pose proof (copy_slice_within (E:=VolatileMemoryError) (vs_addr (ts_slice s)) (b_ptr buf) total hm ltac:(lia)) as Hc.
    destruct (copy_slice _ _ _ _) as [[k hm'']|e| |]; try done. destruct Hc as [-> _]. cbn [fst snd].
    unfold buf_split_at. by rewrite (proj2 (Z.leb_le _ _)) by done.
Qed.

Lemma tracked_atomic n t val addr :
  slice_window t -> 0 <= addr ->
  tracked (vs_addr (ts_slice t) + addr) (Z.of_nat n) (ts_store n t val addr)
    (vs_store n (ts_slice t) val addr).
Proof using prof Hbase Hend.
  intros Hw Ha. eapply tracked_mark; [exact Hw|done|done|]. intros hm.
  unfold vs_store, vm_get_atomic_ref, aligned_pointer. cbn [vm_get_slice volatile_slice_memory].
  run_St. rewrite <- ts_subslice_plain.
  destruct (ts_subslice t addr (Z.of_nat n)) as [s|e| |] eqn:Es; try done.
  apply ts_subslice_window in Es as (Hws & Has & Hss & Hle); [|done|done|lia]. cbn.
  destruct (check_alignment _ _); try done. cbn. destruct (vs_len (ts_slice s) =? Z.of_nat n); [|done].
  split_and!; [done|lia|done|]. rewrite Has. apply within_write; unfold zlen; rewrite ?length_le_bytes; lia.
Qed.

Lemma tracked_array_to_slice r t :
  slice_window t -> 0 <= va_nelem r -> 0 <= va_size r ->
  tracked (E:=VolatileMemoryError) (vs_addr (ts_slice t))
    (Z.min (wrap 64 (va_nelem r * va_size r)) (vs_size (ts_slice t)))
    (ta_copy_to_volatile_slice r t) (va_copy_to_volatile_slice r (ts_slice t)).
Proof using prof Hbase Hend.
  intros Hw Hn Hs. pose proof Hw as (_ & _ & Hlen & _).
  unfold ta_copy_to_volatile_slice, va_copy_to_volatile_slice, va_len, va_element_size.
  assert (forall n, umul (E:=VolatileMemoryError) 64 (va_nelem r) (va_size r) = Ok n ->
    n = wrap 64 (va_nelem r * va_size r)) as Hu.
  { intros n. unfold umul. destruct (Z.ltb_spec (va_nelem r * va_size r) (2 ^ 64)).
    - intros [= <-]. rewrite wrap_small; [done|split; [nia|done]].
    - destruct overflow_checks; [done|]. by intros [= <-]. }
  destruct (umul 64 (va_nelem r) (va_size r)) as [n|e| |] eqn:En; [|by apply tracked_lift..].
  rewrite <- (Hu n eq_refl).
  assert (0 <= n) by (rewrite (Hu n eq_refl); apply wrap_fits; lia).
  eapply tracked_mark; [exact Hw|lia|lia|]. intros hm. cbn. split_and!; [done|lia|lia|].
  apply within_write; unfold zlen; rewrite ?length_host_read; lia.
Qed.

(** What a call on a file promises, with its state behind it. *)
Lemma tracks_read {X} (x : X) (read : Z -> Z -> M (hostmem * X) IoError Z) t
    (m : M (hostmem * AtomicBitmap) VolatileMemoryError Z) plain hm b :
  slice_window t -> reads_buffer x read -> covers b ->
  (forall hm, plain hm = let '(o, (hm', _)) := read (vs_addr (ts_slice t))
     (Z.min (vs_size (ts_slice t)) u32_max) (hm, x) in (map_err IOError o, hm')) ->
  (forall s, m s = then_mark plain (ts_bitmap t) 0 id s) ->
  let n := match (plain hm).1 with Ok n => n | _ => 0 end in
  tracks (vs_addr (ts_slice t), if succeeds (plain hm).1 then n else vs_size (ts_slice t))
    (vs_addr (ts_slice t), n) m plain hm b.
Proof using prof Hbase Hend.
  intros Hw Hr Hb Hp Hm n. subst n. pose proof Hw as (_ & _ & Hlen & _).
  pose proof (Hr (vs_addr (ts_slice t)) (Z.min (vs_size (ts_slice t)) u32_max) hm
    ltac:(unfold u32_max; lia)) as Hread. specialize (Hp hm).
  assert (forall st mk, tracks st mk (then_mark plain (ts_bitmap t) 0 id) plain hm b ->
    tracks st mk m plain hm b) as Hext by (intros st mk []; split; rewrite ?Hm; done).
  apply Hext. rewrite <- (Z.add_0_r (vs_addr (ts_slice t))) at 2.
  eapply tracks_mark; [exact Hw|done|done|]. rewrite Hp.
  destruct (read _ _ (hm, x)) as [[n|e| |] [hm' x']]; cbn [map_err fst succeeds].
  - destruct Hread as [Hn Hin]. split_and!; [done|lia|lia|]. intros a Ha.
    destruct (decide (hm' a = hm a)) as [|Hne]; [done|]. by destruct Ha; apply Hin.
  - split; [done|]. intros a Ha. destruct (decide (hm' a = hm a)) as [|Hne]; [done|].
    destruct Ha. apply Hread in Hne. cbn. lia.
  - split; [done|]. intros a Ha. destruct (decide (hm' a = hm a)) as [|Hne]; [done|].
    destruct Ha. apply Hread in Hne. cbn. lia.
  - split; [done|]. intros a Ha. destruct (decide (hm' a = hm a)) as [|Hne]; [done|].
    destruct Ha. apply Hread in Hne. cbn. lia.
Qed.

(** What a write is about lies in the slice. *)
Lemma written_inside t w hm a :
  slice_window t -> write_args w ->
  let wr := written (ts_slice t) hm w in
  wr.1 <= a < wr.1 + wr.2 -> 0 <= a < vs_size (ts_slice t).
Proof using prof Hbase Hend.
  intros Hw Hargs wr. subst wr. unfold written. pose proof Hw as (_ & _ & Hlen & _).
  destruct (succeeds _) eqn:Hok; [|cbn; lia].
  destruct w as [offset v|offset n index v|src|r|sz buf buf_len|buf addr|buf addr|n val addr
    |X x read|X x read]; cbn [plain_write write_args area fst snd] in *; [..|lia|lia| | |].
  - rewrite <- ts_get_ref_plain in Hok. unfold ts_get_ref in Hok.
    destruct (checked_tracked t offset (zlen v)) as [s|e| |] eqn:Es; [|done..].
    apply checked_tracked_window in Es as (_ & _ & _ & Hle); [lia|done|done|unfold zlen; lia].
  - rewrite <- ts_get_array_ref_plain in Hok.
    destruct (ts_get_array_ref (zlen v) t offset n) as [ar|e| |] eqn:Ea; [|done..].
    apply ts_get_array_ref_window in Ea as (_ & _ & Hs & Hn & Hle);
      [|done|unfold zlen; lia|tauto..].
    cbn in Hok. unfold va_store, va_ref_at in Hok. unfold mbind at 1, M_bind in Hok. cbn in Hok.
    rewrite Hn in Hok.
    destruct (Z.ltb_spec index n); [|done]. unfold zlen in *. nia.
  - lia.
  - lia.
  - destruct Hargs as [Hsz _]. destruct (decide (sz = 0)) as [->|]; [lia|].
    pose proof (Z.mul_div_le (vs_size (ts_slice t)) sz ltac:(lia)). nia.
  - unfold vs_store, vm_get_atomic_ref, aligned_pointer in Hok.
    cbn [vm_get_slice volatile_slice_memory] in Hok. rewrite <- ts_subslice_plain in Hok.
    destruct (ts_subslice t addr (Z.of_nat n)) as [s|e| |] eqn:Es; [|done..].
    apply ts_subslice_window in Es as (_ & _ & _ & Hle); [lia|done|done|lia].
  - pose proof (Hargs (vs_addr (ts_slice t)) (Z.min (vs_size (ts_slice t)) u32_max) hm
      ltac:(unfold u32_max; lia)) as Hr.
    destruct (read _ _ (hm, x)) as [[k|e| |] [hm' x']]; cbn [fst]; lia.
  - pose proof (Hargs (vs_addr (ts_slice t)) (Z.min (vs_size (ts_slice t)) u32_max) hm
      ltac:(unfold u32_max; lia)) as Hr.
    destruct (read _ _ (hm, x)) as [[k|e| |] [hm' x']]; cbn [fst]; lia.
Qed.

(** What a tracked write promises in the terms of [written]. *)
Lemma tracks_empty {E A} st lo lo' n n' (m : M (hostmem * AtomicBitmap) E A) plain hm b :
  n <= 0 -> n' <= 0 -> tracks st (lo, n) m plain hm b -> tracks st (lo', n') m plain hm b.
Proof using.
  intros Hn Hn' [Hp Hc Hw Hd]. split; [done..|]. intros i. rewrite Hd. cbn.
  split; (intros [?|(a & ? & _)]; [by left|lia]).
Qed.

Lemma tracks_stored {E A} lo lo' n n' mk (m : M (hostmem * AtomicBitmap) E A) plain hm b :
  n <= 0 -> tracks (lo, n) mk m plain hm b -> tracks (lo', n') mk m plain hm b.
Proof using.
  intros Hn [Hp Hc Hw Hd]. split; [done..| |done]. intros a _. apply Hw. cbn. lia.
Qed.

Lemma tracked_written {E A} base' off n (m : M (hostmem * AtomicBitmap) E A) plain hm b :
  tracked (base' + off) n m plain -> covers b ->
  let wr := if succeeds (plain hm).1 then (off, n) else (0, 0) in
  tracks (base' + wr.1, wr.2) (base' + wr.1, wr.2) m plain hm b.
Proof using.
  intros Hm Hb. specialize (Hm hm b Hb). cbv zeta in *. destruct (succeeds _); [done|].
  apply (tracks_stored (base' + off) _ 0 _ _ _ _ _ _ ltac:(lia)).
  by apply (tracks_empty _ (base' + off) _ 0 0).
Qed.

Lemma succeeds_ignored {S E A} (m : M S E A) s :
  succeeds ((_ ← m; mret tt) s).1 = succeeds (m s).1.
Proof using. unfold mbind, M_bind. by destruct (m s) as [[]]. Qed.

Lemma tracks_ext {E A} st mk (m m' : M (hostmem * AtomicBitmap) E A) plain plain' hm b :
  (forall s, m' s = m s) -> (forall s, plain' s = plain s) ->
  tracks st mk m plain hm b -> tracks st mk m' plain' hm b.
Proof using. intros Em Ep []. split; by rewrite ?Em, ?Ep. Qed.

Lemma tracked_get_ref_store t offset v :
  slice_window t -> 0 <= offset ->
  tracked (vs_addr (ts_slice t) + offset) (zlen v) (tracked_write t (WriteRef offset v))
    (plain_write (ts_slice t) (WriteRef offset v)).
Proof using prof Hbase Hend.
  intros Hw Ho. cbn [tracked_write plain_write]. rewrite <- ts_get_ref_plain.
  apply tracked_lift_bind. intros r Er. unfold ts_get_ref in Er.
  destruct (checked_tracked t offset (zlen v)) as [s|e| |] eqn:Es; [|done..].
  cbn in Er. injection Er as <-.
  apply checked_tracked_window in Es as (Hws & Has & Hss & _); [|done|done|unfold zlen; lia].
  rewrite <- Has. apply (tracked_ref_store (tr_with_bitmap _ _ _)); [|done].
  unfold slice_window in Hws. by rewrite Hss in Hws.
Qed.

Lemma tracked_get_array_store t offset n index v :
  slice_window t -> 0 <= offset -> 0 <= n -> 0 <= index ->
  tracked (vs_addr (ts_slice t) + (offset + index * zlen v)) (zlen v)
    (tracked_write t (WriteElement offset n index v))
    (plain_write (ts_slice t) (WriteElement offset n index v)).
Proof using prof Hbase Hend.
  intros Hw Ho Hn Hi. cbn [tracked_write plain_write]. rewrite <- ts_get_array_ref_plain.
  apply tracked_lift_bind. intros a Ea.
  apply ts_get_array_ref_window in Ea as (Hwa & Haa & Hsa & _); [|done|unfold zlen; lia|done..].
  rewrite Z.add_assoc, <- Haa. by apply tracked_array_store.
Qed.

Lemma tracked_slice_to_slice src t :
  slice_window t -> 0 <= vs_size src ->
  tracked (E:=VolatileMemoryError) (vs_addr (ts_slice t)) (Z.min (vs_size src) (vs_size (ts_slice t)))
    (ts_copy_to_volatile_slice src t) (vs_copy_to_volatile_slice src (ts_slice t)).
Proof using prof Hbase Hend.
  intros Hw Hs. pose proof Hw as (_ & _ & Hlen & _). eapply tracked_mark; [exact Hw|lia|lia|].
  intros hm. cbn. split_and!; [done|lia|lia|].
  apply within_write; unfold zlen; rewrite ?length_host_read; lia.
Qed.

(** A call that reads into the slice. *)
Lemma tracks_received {X} (x : X) (read : Z -> Z -> M (hostmem * X) IoError Z) t
    (m : M (hostmem * AtomicBitmap) VolatileMemoryError Z)
    (plain : M hostmem VolatileMemoryError Z) hm b :
  slice_window t -> reads_buffer x read -> covers b ->
  (forall hm, plain hm = let '(o, (hm', _)) := read (vs_addr (ts_slice t))
     (Z.min (vs_size (ts_slice t)) u32_max) (hm, x) in (map_err IOError o, hm')) ->
  (forall s, m s = then_mark plain (ts_bitmap t) 0 id s) ->
  let n := match (read (vs_addr (ts_slice t)) (Z.min (vs_size (ts_slice t)) u32_max) (hm, x)).1 with
           | Ok n => n | _ => 0 end in
  let ok := succeeds ((_ ← plain; mret tt) hm).1 in
  let wr := if ok then (0, n) else (0, 0) in
  tracks (if negb ok then (vs_addr (ts_slice t), vs_size (ts_slice t))
          else (vs_addr (ts_slice t) + wr.1, wr.2))
    (vs_addr (ts_slice t) + wr.1, wr.2) (_ ← m; mret tt) (_ ← plain; mret tt) hm b.
Proof using prof Hbase Hend.
  intros Hw Hr Hb Hp Hm n ok wr.
  pose proof (tracks_read x read t m plain hm b Hw Hr Hb Hp Hm) as Ht. cbv zeta in Ht.
  apply (tracks_then _ _ _ _ (fun _ => Ok tt)) in Ht. subst wr ok. rewrite succeeds_ignored.
  assert ((match (plain hm).1 with Ok k => k | _ => 0 end) = n) as En.
  { rewrite Hp. subst n. by destruct (read _ _ (hm, x)) as [[] []]. }
  rewrite En in Ht. destruct (succeeds (plain hm).1) eqn:Hok; cbn [negb fst snd]; rewrite Z.add_0_r.
  - exact Ht.
  - assert (n = 0) as -> by (rewrite <- En; by destruct (plain hm).1). exact Ht.
Qed.

Lemma tracked_writes t w hm b :
  slice_window t -> write_args w -> covers b ->
  let wr := written (ts_slice t) hm w in
  let mk := (vs_addr (ts_slice t) + wr.1, wr.2) in
  tracks (if failed_read w (plain_write (ts_slice t) w hm).1
          then (vs_addr (ts_slice t), vs_size (ts_slice t)) else mk)
    mk (tracked_write t w) (plain_write (ts_slice t) w) hm b.
Proof using prof Hbase Hend.
  intros Hw Ha Hb. unfold written.
  destruct w as [offset v|offset n index v|src|r|sz buf buf_len|buf addr|buf addr|n val addr
    |X x read|X x read]; cbn [failed_read write_args area] in *; cbv zeta.
  - apply tracked_written; [|done]. by apply tracked_get_ref_store.
  - apply tracked_written; [|done]. apply tracked_get_array_store; tauto.
  - apply tracked_written; [|done]. rewrite Z.add_0_r. by apply tracked_slice_to_slice.
  - apply tracked_written; [|done]. rewrite Z.add_0_r. apply tracked_array_to_slice; tauto.
  - apply tracked_written; [|done]. rewrite Z.add_0_r. apply tracked_copy_from; tauto.
  - apply tracked_written; [|done]. apply tracked_then. apply tracked_bytes; tauto.
  - cbn [plain_write]. rewrite succeeds_ignored.
    pose proof (tracked_written _ _ _ _ _ hm b (tracked_bytes t buf addr Hw (proj1 Ha) (proj2 Ha)) Hb) as Ht.
    apply (tracks_then _ _ _ _ (fun n => if n =? b_len buf then Ok tt
      else Err (PartialBuffer (b_len buf) n))) in Ht.
    eapply tracks_ext; [| |exact Ht]; intros s; cbn [tracked_write plain_write];
      unfold ts_write_slice, vs_write_slice, mbind, M_bind.
    + destruct (ts_write t buf addr s) as [[k|e| |] s']; [|done..]. by destruct (k =? _).
    + destruct (vs_write (ts_slice t) buf addr s) as [[k|e| |] s']; [|done..]. by destruct (k =? _).
  - apply tracked_written; [|done]. by apply tracked_atomic.
  - apply (tracks_received x read t); [done..| |].
    + intros hm0. unfold from_source_plain, read_volatile_raw_handle. run_St.
      by destruct (read _ _ (hm0, x)) as [[] []].
    + intros [hm0 b0]. unfold from_source, from_source_plain, ts_read_raw_handle, then_mark, on_mem, on_map,
        read_volatile_raw_handle. run_St.
      destruct (read _ _ (hm0, x)) as [[] []]; try done. cbn.
      by destruct (set_addr_range _ _ b0) as [[] ?].
  - apply (tracks_received x read t); [done..| |].
    + intros hm0. unfold from_source_plain, read_volatile_raw_socket. run_St.
      by destruct (read _ _ (hm0, x)) as [[] []].
    + intros [hm0 b0]. unfold from_source, from_source_plain, ts_read_raw_socket, then_mark, on_mem, on_map,
        read_volatile_raw_socket. run_St.
      destruct (read _ _ (hm0, x)) as [[] []]; try done. cbn.
      by destruct (set_addr_range _ _ b0) as [[] ?].
Qed.

End tracking.

(** ** Marks are exact *)

(** The slice of a region's mapping has the region's window. *)
Lemma region_slice_window r offset count t :
  0 <= offset -> 0 <= count -> mmap_tracked_slice r offset count = Ok t ->
  slice_window (mmr_addr r) (mmr_size r) t.
Proof.
  intros Ho Hc E. unfold mmap_tracked_slice, compute_offset, checked_add in E.
  destruct (offset + count <? 2 ^ 64); [|done]. cbn [mbind out_bind] in E.
  destruct (Z.ltb_spec (mmr_size r) (offset + count)); [done|]. injection E as <-.
  split_and!; cbn; try lia. f_equal. lia.
Qed.

(** C24: a write through a slice of a region marks exactly the pages of the
    bytes it is about.  However the slice was cut out of the region, and
    whether the bytes come from a value, an array element, another slice, a
    buffer, an atomic store, a file or a socket, the write has the result and
    the effect on memory that it has without the bitmap.  The bytes [written]
    (all that the call has accepted, none when it fails) lie in the slice; a
    page is dirty afterwards exactly when it was dirty before or holds one of
    them.  No other byte changes, with one exception: a read from a file or a
    socket that fails may have stored bytes of the slice that it does not
    mark. *)
Theorem writes_are_tracked {prof : Profile} r offset count cuts w t0 t hm b :
  0 <= mmr_addr r -> 0 <= mmr_size r -> mmr_addr r + mmr_size r < 2 ^ 64 ->
  bitmap_wf b -> ab_byte_size b = mmr_size r ->
  0 <= offset -> 0 <= count -> Forall cut_args cuts -> write_args w ->
  mmap_tracked_slice r offset count = Ok t0 -> apply_cuts t0 cuts = Ok t ->
  let '(res, (hm', b')) := tracked_write t w (hm, b) in
  let off := (written (ts_slice t) hm w).1 in
  let len := (written (ts_slice t) hm w).2 in
  let page a := (a - mmr_addr r) / ab_page_size b in
  let stored a := vs_addr (ts_slice t) + off <= a < vs_addr (ts_slice t) + off + len in
  let inside a := vs_addr (ts_slice t) <= a < vs_addr (ts_slice t) + vs_size (ts_slice t) in
  plain_write (ts_slice t) w hm = (res, hm') /\ bitmap_wf b' /\
  (forall a, stored a -> inside a) /\
  (forall a, hm' a <> hm a -> stored a \/ failed_read w res = true /\ inside a) /\
  (forall i, dirty b' i = true <-> dirty b i = true \/ exists a, stored a /\ page a = i).
Proof.
  intros Hb0 Hs0 He Hwf Hby Ho Hc Hcuts Hw Et0 Et.
  pose proof (region_slice_window r offset count t0 Ho Hc Et0) as Hw0.
  destruct (apply_cuts_window (mmr_addr r) (mmr_size r) Hb0 He cuts t0 t Hw0 Hcuts Et) as [Hwt _].
  pose proof (tracked_writes (mmr_addr r) (mmr_size r) Hb0 He t w hm b Hwt Hw) as Htk.
  pose proof (fun a => written_inside (mmr_addr r) (mmr_size r) Hb0 He t w hm a Hwt Hw) as Hin.
  cbv zeta in *. destruct (written (ts_slice t) hm w) as [off len]. cbn [fst snd] in *.
  destruct Htk as [Hp [Hwf' _] Hst Hd]; [split; [done|lia]|]. rewrite Hp in Hst.
  destruct (tracked_write t w (hm, b)) as [res [hm' b']]. cbn [fst snd] in *.
  split_and!; [done|done| | |exact Hd].
  - intros a Ha. pose proof (Hin (a - vs_addr (ts_slice t))). lia.
  - intros a Ha. destruct (failed_read w res);
      (match type of Hst with within ?lo ?n _ _ => destruct (decide (lo <= a < lo + n)) end;
       [|by rewrite Hst in Ha]); [by right|by left].
Qed.

(** A read from a file that fails after it has stored some bytes (a message
    longer than the buffer, for one) leaves them unmarked: the mark is made for
    the count of a successful call only. *)
Theorem failed_read_is_not_tracked {X} ReadFile t (hm hm' : hostmem) (x x' : X) b e :
  ReadFile (vs_addr (ts_slice t)) (Z.min (vs_len (ts_slice t)) u32_max) (hm, x) =
    (Err e, (hm', x')) ->
  ts_read_raw_handle ReadFile t (hm, x, b) = (Err (IOError e), (hm', x', b)).
Proof. intros E. unfold ts_read_raw_handle, read_volatile_raw_handle. run_St. by rewrite E. Qed.

(** *** Witnesses *)

(** A region of three pages of 128 bytes; the slice of its bytes from 100 on is
    cut at 20, and four bytes are stored across the first page's end. *)
Definition tracked_region : MmapRegion :=
  {| mmr_addr := 4096; mmr_size := 384; mmr_file_offset := None |}.
Definition tracked_example : TrackedSlice := ts_with_bitmap 4216 180 (atomic_slice_at 120).

Lemma writes_are_tracked_witness :
  let '(res, (hm', b')) := tracked_write (prof:=dev_profile) tracked_example
    (WriteRef 6 [1; 2; 3; 4]) (fun _ => 0, bitmap_new 384 128) in
  let page a := (a - 4096) / 128 in
  let stored a := 4222 <= a < 4226 in
  let inside a := 4216 <= a < 4216 + 180 in
  plain_write (prof:=dev_profile) (ts_slice tracked_example) (WriteRef 6 [1; 2; 3; 4]) (fun _ => 0)
    = (res, hm') /\ bitmap_wf b' /\
  (forall a, stored a -> inside a) /\
  (forall a, hm' a <> 0 -> stored a \/ false = true /\ inside a) /\
  (forall i, dirty b' i = true <->
     dirty (bitmap_new 384 128) i = true \/ exists a, stored a /\ page a = i).
Proof.
  apply (writes_are_tracked (prof:=dev_profile) tracked_region 100 200 [CutEnd 20]
           (WriteRef 6 [1; 2; 3; 4]) (ts_with_bitmap 4196 200 (atomic_slice_at 100)) tracked_example
           (fun _ => 0) (bitmap_new 384 128)); try (cbn; lia); try reflexivity.
  - apply bitmap_new_spec; [unfold fits; lia|lia].
  - repeat constructor; cbn; lia.
Defined.

(** The write of the witness marks the first two pages. *)
Example tracked_pages :
  let b' := (tracked_write (prof:=dev_profile) tracked_example (WriteRef 6 [1; 2; 3; 4])
               (fun _ => 0, bitmap_new 384 128)).2.2 in
  (dirty b' 0, dirty b' 1, dirty b' 2) = (true, true, false).
Proof. vm_compute. reflexivity. Qed.
