(* ===== verification/Atomics.v ===== *)
(** * Atomics: the atomic integers, [vm-memory/src/atomic_integer.rs] and
      [src/memory/memory.rs]

    The trait over the standard library's atomic integers, its ten instances,
    and the two traits by which guest memory is read and written as one of
    them.  A cell is the two's complement pattern of its value; the order of an
    access is a matter of the files that interleave threads. *)

From S2P Require Import Prelude Bytes HostMem GuestMem VolatileIo VolatileRefs.

(** ** The types *)

(* vm-memory/src/atomic_integer.rs:56-81, impl_atomic_integer_ops! *)
Inductive IntType : Type :=
| I8 | I16 | I32 | I64 | U8 | U16 | U32 | U64 | Isize | Usize.

Definition int_bytes (t : IntType) : nat :=
  match t with
  | I8 | U8 => 1 | I16 | U16 => 2 | I32 | U32 => 4 | I64 | U64 | Isize | Usize => 8
  end.
Definition int_bits (t : IntType) : Z := 8 * Z.of_nat (int_bytes t).
Definition int_signed (t : IntType) : bool :=
  match t with I8 | I16 | I32 | I64 | Isize => true | _ => false end.

(** The values of a type, its patterns, and the way between them. *)
Definition int_range (t : IntType) (v : Z) : Prop :=
  if int_signed t then - 2 ^ (int_bits t - 1) <= v < 2 ^ (int_bits t - 1) else fits (int_bits t) v.
Definition to_pattern (t : IntType) (v : Z) : Z := wrap (int_bits t) v.
Definition of_pattern (t : IntType) (n : Z) : Z :=
  if int_signed t && (2 ^ (int_bits t - 1) <=? n) then n - 2 ^ int_bits t else n.

(** ** [AtomicInteger] *)

(** A cell of the type, as the state of its methods on [&self]. *)
(* vm-memory/src/atomic_integer.rs:12-24, AtomicInteger *)
Class AtomicInteger (C : Type) : Type := {
  ai_new : Z -> C;
  ai_load : C -> Z;
  ai_store : Z -> C -> C;
}.

Record Cell (t : IntType) : Type := { cell_pattern : Z }.
Arguments cell_pattern {t}.
Arguments Build_Cell {t}.

(* vm-memory/src/atomic_integer.rs:26-47, impl_atomic_integer_ops! *)
#[export] Instance cell_atomic (t : IntType) : AtomicInteger (Cell t) := {
  ai_new v := Build_Cell (to_pattern t v);
  ai_load c := of_pattern t (cell_pattern c);
  ai_store v _ := Build_Cell (to_pattern t v);
}.

(** ** Guest memory as atomics *)

(* src/memory/memory.rs:563-580, AtomicStore *)
Definition atomic_store (t : IntType) (ptr v : Z) (hm : hostmem) : hostmem :=
  host_write hm ptr (le_bytes (int_bytes t) (to_pattern t v)).
(* src/memory/memory.rs:568-588, AtomicLoad *)
Definition atomic_load (t : IntType) (ptr : Z) (hm : hostmem) : Z :=
  of_pattern t (le_val (host_read hm ptr (int_bytes t))).

Section manager.
Context {prof : Profile}.

(** [MemoryManager::store] and [load] at a type. *)
(* src/memory/memory.rs:505-524, MemoryManager::store *)
Definition mm_store_as (t : IntType) (mm : MemoryManager) (v addr : Z) : M hostmem string unit :=
  p ← lift (mm_cell mm addr PERM_WRITE "Memory is read-only");
  modify (atomic_store t p v).
(* src/memory/memory.rs:543-558, MemoryManager::load *)
Definition mm_load_as (t : IntType) (mm : MemoryManager) (hm : hostmem) (addr : Z) : out string Z :=
  p ← mm_cell mm addr PERM_READ "Memory is not readable";
  Ok (atomic_load t p hm).

End manager.

(** ** Lemmas *)

Lemma int_bits_pos t : 0 < int_bits t.
Proof. by destruct t. Qed.

Lemma pattern_roundtrip t v : int_range t v -> of_pattern t (to_pattern t v) = v.
Proof.
  intros H. unfold int_range, of_pattern, to_pattern in *. destruct (int_signed t); cbn [andb];
    [|by apply wrap_small].
  pose proof (int_bits_pos t) as Hb. assert (2 ^ int_bits t = 2 * 2 ^ (int_bits t - 1)) as E
    by (rewrite <- Z.pow_succ_r by lia; f_equal; lia).
  assert (0 < 2 ^ (int_bits t - 1)) by (apply Z.pow_pos_nonneg; lia).
  destruct (Z.ltb_spec v 0).
  - assert (wrap (int_bits t) v = v + 2 ^ int_bits t) as ->.
    { unfold wrap. rewrite <- (Z.mod_add v 1) by lia. rewrite Z.mul_1_l. apply Z.mod_small. lia. }
    rewrite (proj2 (Z.leb_le _ _)) by lia. lia.
  - rewrite wrap_small by (unfold fits; lia). by rewrite (proj2 (Z.leb_gt _ _)) by lia.
Qed.

(** A cell holds what was last stored, of every type. *)
Lemma cell_holds t v (c : Cell t) :
  int_range t v -> ai_load (ai_new (C:=Cell t) v) = v /\ ai_load (ai_store v c) = v.
Proof. intros H. by split; cbn; apply pattern_roundtrip. Qed.

(** So does guest memory; and the bytes around it are untouched. *)
Theorem atomic_store_load t ptr v hm :
  int_range t v ->
  atomic_load t ptr (atomic_store t ptr v hm) = v /\
  forall a, a < ptr \/ ptr + Z.of_nat (int_bytes t) <= a -> atomic_store t ptr v hm a = hm a.
Proof.
  intros H. split.
  - unfold atomic_load, atomic_store. rewrite host_read_write_at by (by rewrite length_le_bytes).
    rewrite le_val_le_bytes_fits; [by apply pattern_roundtrip|].
    apply wrap_fits. pose proof (int_bits_pos t). unfold int_bits in *. lia.
  - intros a Ha. apply host_write_out. unfold zlen. rewrite length_le_bytes. lia.
Qed.

(** The accessors of guest memory used elsewhere are those of the unsigned
    types. *)
Lemma mm_store_unsigned {prof : Profile} t mm v addr hm :
  int_signed t = false -> fits (int_bits t) v ->
  mm_store_as t mm v addr hm = mm_store mm (int_bytes t) v addr hm.
Proof.
  intros _ Hv. unfold mm_store_as, mm_store, atomic_store, to_pattern. by rewrite wrap_small.
Qed.

Lemma mm_load_unsigned {prof : Profile} t mm hm addr :
  int_signed t = false -> mm_load_as t mm hm addr = mm_load mm (int_bytes t) hm addr.
Proof. intros Ht. unfold mm_load_as, mm_load, atomic_load, of_pattern. by rewrite Ht. Qed.
