(* ===== verification/GuestAccess.v ===== *)
(** * GuestAccess: access to guest memory across regions,
      [vm-memory/src/guest_memory.rs] and [region.rs]

    The iterator over the slices of a guest range, the accessors of [Bytes]
    that walk over it, [try_access], and the accessors of one region.  The file
    shows that an access transfers the longest mapped prefix of its range, byte
    by byte, whatever regions it crosses. *)

From S2P Require Import Prelude Bytes HostMem FileTraits Regions Mmap VolatileIo VolatileRefs.

(** ** The iterator *)

(* vm-memory/src/guest_memory.rs:489-497, GuestMemorySliceIterator *)
Record GuestMemorySliceIterator : Type := { it_addr : Z; it_count : Z }.

Section iterator.
Context {prof : Profile} {R : Type} `{!GuestMemoryRegion R} (mem : GuestRegionCollection R).
#[local] Abbreviation It := GuestMemorySliceIterator.

(* vm-memory/src/guest_memory.rs:473-483, GuestMemory::get_slices *)
Definition get_slices (addr count : Z) : It := {| it_addr := addr; it_count := count |}.

(** [Some(Err(e))] is the outcome [Err e]; the state stays. *)
(* vm-memory/src/guest_memory.rs:513-538, GuestMemorySliceIterator::do_next *)
Definition do_next : M It GuestMemoryError (option VolatileSlice) :=
  it ← gets id;
  if it_count it =? 0 then mret None
  else
    o ← lift (gm_to_region_addr mem (it_addr it));
    match o with
    | None => throw (InvalidGuestAddress (it_addr it))
    | Some (region, start) =>
        cap ← lift (usub 64 (rg_len region) start);
        let len := Z.min cap (it_count it) in
        n ← lift (usub 64 (it_count it) len);
        _ ← modify (fun it => {| it_addr := it_addr it; it_count := n |});
        let '(x, overflow) := ga_overflowing_add (it_addr it) len in
        if (x =? 0) || negb overflow then
          _ ← modify (fun it => {| it_addr := x; it_count := it_count it |});
          s ← lift (rg_get_slice region start len);
          if vs_len s =? len then mret (Some s) else lift Panic
        else throw GuestAddressOverflow
    end.

(* vm-memory/src/guest_memory.rs:555-566, GuestMemorySliceIterator::next *)
Definition it_next : M It GuestMemoryError (option VolatileSlice) := fun it =>
  match do_next it with
  | (Ok (Some slice), it') => (Ok (Some slice), it')
  | (other, it') => (other, {| it_addr := it_addr it'; it_count := 0 |})
  end.

(** [.all(|r| r.is_ok())] *)
Fixpoint all_ok {E} (fuel : nat) (it : It) : out E bool :=
  match fuel with
  | O => NoFuel
  | S fuel' =>
      match it_next it with
      | (Ok None, _) => Ok true
      | (Ok (Some _), it') => all_ok fuel' it'
      | (Err _, _) => Ok false
      | (Panic, _) => Panic
      | (NoFuel, _) => NoFuel
      end
  end.

(* vm-memory/src/guest_memory.rs:357-361, GuestMemory::check_range *)
Definition check_range {E} (fuel : nat) (base len : Z) : out E bool :=
  all_ok fuel (get_slices base len).

(** A [try_fold] over the slices that are left, [filter_map(Result::ok)]
    skipping the errors. *)
Section fold.
Context {St : Type} (f : Z -> VolatileSlice -> M St GuestMemoryError Z).

Fixpoint fold_slices (fuel : nat) (it : It) (acc : Z) : M St GuestMemoryError Z :=
  match fuel with
  | O => lift NoFuel
  | S fuel' =>
      match it_next it with
      | (Ok None, _) => mret acc
      | (Ok (Some s), it') => acc' ← f acc s; fold_slices fuel' it' acc'
      | (Err _, it') => fold_slices fuel' it' acc
      | (Panic, _) => lift Panic
      | (NoFuel, _) => lift NoFuel
      end
  end.

(** The first item is looked at: an error there is the result. *)
(* vm-memory/src/guest_memory.rs:543-549, GuestMemorySliceIterator::stop_on_error *)
Definition stop_on_error_fold (fuel : nat) (it : It) : M St GuestMemoryError Z :=
  match it_next it with
  | (Err e, _) => throw e
  | _ => fold_slices fuel it 0
  end.

End fold.

(** ** [try_access] *)
Section try_access.
Context {St : Type} (f : Z -> Z -> Z -> R -> M St GuestMemoryError Z).

(* vm-memory/src/guest_memory.rs:388-410, GuestMemory::try_access *)
Fixpoint try_access_loop (fuel : nat) (count cur total : Z) : M St GuestMemoryError (option Z) :=
  match fuel with
  | O => lift NoFuel
  | S fuel' =>
      o ← lift (grc_find_region mem cur);
      match o with
      | None => mret (if total =? 0 then None else Some total)
      | Some region =>
          start ← lift (unwrap_opt (rg_to_region_addr region cur));
          cap ← lift (usub 64 (rg_len region) start);
          left_ ← lift (usub 64 count total);
          let len := Z.min cap left_ in
          n ← f total len start region;
          if n =? 0 then mret (Some total)
          else
            match checked_add 64 total n with
            | Some x =>
                if x <? count then
                  let '(a, overflow) := ga_overflowing_add cur n in
                  if (a =? 0) || negb overflow then try_access_loop fuel' count a x
                  else throw GuestAddressOverflow
                else if x =? count then mret (Some x)
                else throw CallbackOutOfRange
            | None => throw CallbackOutOfRange
            end
      end
  end.

(* vm-memory/src/guest_memory.rs:382-416, GuestMemory::try_access *)
Definition try_access (fuel : nat) (count addr : Z) : M St GuestMemoryError Z :=
  o ← try_access_loop fuel count addr 0;
  match o with
  | None => throw (InvalidGuestAddress addr)
  | Some total => mret total
  end.

End try_access.

(** ** [Bytes<GuestAddress>] *)

(** [&buf[acc..]] *)
(* vm-memory/src/guest_memory.rs:581-581, Bytes::write *)
Definition on_slice (buf : Buf) (op : VolatileSlice -> Buf -> Z -> M hostmem VolatileMemoryError Z)
    (acc : Z) (slice : VolatileSlice) : M hostmem GuestMemoryError Z :=
  b ← lift (buf_split_at buf acc);
  n ← Mmap_err gm_error_from (op slice b 0);
  lift (uadd 64 acc n).

(* vm-memory/src/guest_memory.rs:578-582, Bytes::write *)
Definition gm_write (fuel : nat) (buf : Buf) (addr : Z) : M hostmem GuestMemoryError Z :=
  stop_on_error_fold (on_slice buf vs_write) fuel (get_slices addr (b_len buf)).
(* vm-memory/src/guest_memory.rs:584-588, Bytes::read *)
Definition gm_read (fuel : nat) (buf : Buf) (addr : Z) : M hostmem GuestMemoryError Z :=
  stop_on_error_fold (on_slice buf vs_read) fuel (get_slices addr (b_len buf)).

(** The accessors that want everything. *)
Definition all_or_partial {St} (expected : Z) (m : M St GuestMemoryError Z) : M St GuestMemoryError unit :=
  res ← m;
  if res =? expected then mret tt else throw (GmPartialBuffer expected res).

(* vm-memory/src/guest_memory.rs:607-616, Bytes::write_slice *)
Definition gm_write_slice (fuel : nat) (buf : Buf) (addr : Z) : M hostmem GuestMemoryError unit :=
  all_or_partial (b_len buf) (gm_write fuel buf addr).
(* vm-memory/src/guest_memory.rs:636-645, Bytes::read_slice *)
Definition gm_read_slice (fuel : nat) (buf : Buf) (addr : Z) : M hostmem GuestMemoryError unit :=
  all_or_partial (b_len buf) (gm_read fuel buf addr).

(** [src] and [dst] are the methods of a stream. *)
Section streams.
Context {St : Type}.
Variable read_volatile : VolatileSlice -> M St VolatileMemoryError Z.
Variable write_all_volatile : VolatileSlice -> M St VolatileMemoryError unit.

(* vm-memory/src/guest_memory.rs:647-656, Bytes::read_volatile_from *)
Definition gm_read_volatile_from (fuel retries : nat) (addr count : Z) : M St GuestMemoryError Z :=
  stop_on_error_fold (fun acc slice =>
    n ← Mmap_err gm_error_from (vs_read_volatile_from read_volatile retries slice 0 (vs_len slice));
    lift (uadd 64 acc n)) fuel (get_slices addr count).
(* vm-memory/src/guest_memory.rs:658-675, Bytes::read_exact_volatile_from *)
Definition gm_read_exact_volatile_from (fuel retries : nat) (addr count : Z) : M St GuestMemoryError unit :=
  all_or_partial count (gm_read_volatile_from fuel retries addr count).
(* vm-memory/src/guest_memory.rs:677-689, Bytes::write_volatile_to *)
Definition gm_write_volatile_to (fuel : nat) (addr count : Z) : M St GuestMemoryError Z :=
  stop_on_error_fold (fun acc slice =>
    _ ← Mmap_err gm_error_from (vs_write_all_volatile_to write_all_volatile slice 0 (vs_len slice));
    lift (uadd 64 acc (vs_len slice))) fuel (get_slices addr count).
(* vm-memory/src/guest_memory.rs:691-703, Bytes::write_all_volatile_to *)
Definition gm_write_all_volatile_to (fuel : nat) (addr count : Z) : M St GuestMemoryError unit :=
  all_or_partial count (gm_write_volatile_to fuel addr count).

End streams.

(** [.next().unwrap()?] *)
Definition first_slice (addr count : Z) : out GuestMemoryError VolatileSlice :=
  o ← (it_next (get_slices addr count)).1;
  unwrap_opt o.

(* vm-memory/src/guest_memory.rs:705-713, Bytes::store *)
Definition gm_store (n : nat) (val addr : Z) : M hostmem GuestMemoryError unit :=
  s ← lift (first_slice addr (Z.of_nat n));
  Mmap_err gm_error_from (vs_store n s val 0).
(* vm-memory/src/guest_memory.rs:715-723, Bytes::load *)
Definition gm_load (n : nat) (addr : Z) : M hostmem GuestMemoryError Z :=
  s ← lift (first_slice addr (Z.of_nat n));
  Mmap_err gm_error_from (vs_load n s 0).

End iterator.

(** ** [Bytes<MemoryRegionAddress>] of one region *)
Section region_bytes.
Context {prof : Profile} {R : Type} `{!GuestMemoryRegion R} (r : R).

(** The accessors go through the slice of the whole region. *)
Definition through_slice {St A} (m : VolatileSlice -> M St VolatileMemoryError A) :
    M St GuestMemoryError A :=
  s ← lift (rg_as_volatile_slice r);
  Mmap_err gm_error_from (m s).

(* vm-memory/src/region.rs:353-358, Bytes::write *)
Definition rg_write (buf : Buf) (addr : Z) : M hostmem GuestMemoryError Z :=
  through_slice (fun s => vs_write s buf addr).
(* vm-memory/src/region.rs:380-385, Bytes::read *)
Definition rg_read (buf : Buf) (addr : Z) : M hostmem GuestMemoryError Z :=
  through_slice (fun s => vs_read s buf addr).
(* vm-memory/src/region.rs:387-392, Bytes::write_slice *)
Definition rg_write_slice (buf : Buf) (addr : Z) : M hostmem GuestMemoryError unit :=
  through_slice (fun s => vs_write_slice s buf addr).
(* vm-memory/src/region.rs:394-399, Bytes::read_slice *)
Definition rg_read_slice (buf : Buf) (addr : Z) : M hostmem GuestMemoryError unit :=
  through_slice (fun s => vs_read_slice s buf addr).
(* vm-memory/src/region.rs:457-467, Bytes::store *)
Definition rg_store (n : nat) (val addr : Z) : M hostmem GuestMemoryError unit :=
  through_slice (fun s => vs_store n s val addr).
(* vm-memory/src/region.rs:469-472, Bytes::load *)
Definition rg_load (n : nat) (addr : Z) : M hostmem GuestMemoryError Z :=
  through_slice (fun s => vs_load n s addr).

Section streams.
Context {St : Type}.
Variable op : VolatileSlice -> M St VolatileMemoryError Z.
Variables (read_exact_volatile write_all_volatile : VolatileSlice -> M St VolatileMemoryError unit).

(* vm-memory/src/region.rs:401-413, Bytes::read_volatile_from *)
Definition rg_read_volatile_from (retries : nat) (addr count : Z) : M St GuestMemoryError Z :=
  through_slice (fun s => vs_read_volatile_from op retries s addr count).
(* vm-memory/src/region.rs:415-427, Bytes::read_exact_volatile_from *)
Definition rg_read_exact_volatile_from (addr count : Z) : M St GuestMemoryError unit :=
  through_slice (fun s => vs_read_exact_volatile_from read_exact_volatile s addr count).
(* vm-memory/src/region.rs:429-441, Bytes::write_volatile_to *)
Definition rg_write_volatile_to (retries : nat) (addr count : Z) : M St GuestMemoryError Z :=
  through_slice (fun s => vs_write_volatile_to op retries s addr count).
(* vm-memory/src/region.rs:443-455, Bytes::write_all_volatile_to *)
Definition rg_write_all_volatile_to (addr count : Z) : M St GuestMemoryError unit :=
  through_slice (fun s => vs_write_all_volatile_to write_all_volatile s addr count).

End streams.
End region_bytes.

(** ** Guest ranges as host addresses

    [base] gives the host address of the first byte of a region of ordinary
    memory; a guest range is seen as the host addresses of its bytes, up to the
    first unmapped one.  Guest addresses wrap. *)
Section ram.
Context {prof : Profile} {R : Type} `{!GuestMemoryRegion R}.
Context (mem : GuestRegionCollection R) (base : R -> Z).
Implicit Types (r : R) (a : Z) (hm : hostmem).
#[local] Abbreviation rs := (grc_regions mem).

Record ram_region r : Prop := {
  rr_slice off n : 0 <= off -> 0 <= n -> off + n <= rg_len r ->
    rg_get_slice r off n = Ok {| vs_addr := base r + off; vs_size := n |};
  rr_base : 0 < base r;
  rr_end : base r + rg_len r < 2 ^ 64;
}.

Definition host_of a : option Z :=
  match region_at rs a with
  | Some r => Some (base r + (a - rg_start_addr r))
  | None => None
  end.

Fixpoint guest_stream (n : nat) a : list Z :=
  match n with
  | O => []
  | S n' => match host_of a with Some p => p :: guest_stream n' (wadd 64 a 1) | None => [] end
  end.

Hypothesis wf : collection_wf mem.
Hypothesis ram : Forall ram_region rs.

Lemma region_at_in a r :
  region_at rs a = Some r ->
  r ∈ rs /\ rg_start_addr r <= a < rg_start_addr r + rg_len r /\ region_ok r /\ ram_region r.
Proof.
  intros Hr. apply region_at_is_Some in Hr as [Hin Ho]. split; [done|]. apply owns_spec in Ho.
  destruct wf as [Hok _]. pose proof ram as Hram. rewrite Forall_forall in Hok, Hram. auto.
Qed.

(** One step of the iterator. *)
Lemma it_next_spec a count :
  fits 64 count -> 0 < count ->
  it_next mem {| it_addr := a; it_count := count |} =
    match region_at rs a with
    | None => (Err (InvalidGuestAddress a), {| it_addr := a; it_count := 0 |})
    | Some r =>
        let len := Z.min (rg_start_addr r + rg_len r - a) count in
        (Ok (Some {| vs_addr := base r + (a - rg_start_addr r); vs_size := len |}),
         {| it_addr := wadd 64 a len; it_count := count - len |})
    end.
Proof.
  intros Hf Hc. unfold it_next, do_next. run_St. cbn [it_addr it_count].
  rewrite (proj2 (Z.eqb_neq count 0)) by lia. unfold gm_to_region_addr.
  rewrite grc_find_region_eq by done. cbn [mbind out_bind].
  destruct (region_at rs a) as [r|] eqn:Er; [|done].
  destruct (region_at_in a r Er) as (_ & Ha & (Hs & Hl & He) & Hram).
  unfold rg_to_region_addr, ga_checked_offset_from, checked_sub.
  rewrite (proj2 (Z.leb_le _ a)) by lia. cbn [mbind option_bind].
  unfold rg_check_address, rg_address_in_range. rewrite (proj2 (Z.ltb_lt _ (rg_len r))) by lia.
  cbn [unwrap_opt mbind out_bind]. unfold usub.
  rewrite (proj2 (Z.leb_le _ (rg_len r))) by lia. rewrite (proj2 (Z.leb_le _ count)) by lia.
  replace (rg_len r - (a - rg_start_addr r)) with (rg_start_addr r + rg_len r - a) by lia.
  set (len := Z.min _ count). unfold ga_overflowing_add. cbn [it_addr it_count].
  assert ((wadd 64 a len =? 0) || negb (2 ^ 64 <=? a + len) = true) as Hx.
  { destruct (Z.leb_spec (2 ^ 64) (a + len)) as [Ho|Ho]; [|by rewrite orb_true_r].
    assert (a + len = 2 ^ 64) as Heq by lia. unfold wadd, wrap. rewrite Heq, Z_mod_same_full. done. }
  rewrite Hx. destruct Hram as [Hsl _ _]. rewrite Hsl by lia. cbn [vs_len vs_size].
  unfold vs_len. cbn [vs_size]. by rewrite Z.eqb_refl.
Qed.

Lemma it_next_end a : it_next mem {| it_addr := a; it_count := 0 |}
  = (Ok None, {| it_addr := a; it_count := 0 |}).
Proof. done. Qed.

(** The range splits where a slice ends. *)
Lemma guest_stream_split k : forall n a r,
  region_at rs a = Some r -> (k <= n)%nat -> Z.of_nat k <= rg_start_addr r + rg_len r - a ->
  guest_stream n a =
    seqZ (base r + (a - rg_start_addr r)) (Z.of_nat k) ++ guest_stream (n - k) (wadd 64 a (Z.of_nat k)).
Proof.
  induction k as [|k IH]; intros n a r Hr Hk Hlen;
    destruct (region_at_in a r Hr) as (Hin & Ha & (Hs & Hl & He) & _).
  - cbn. rewrite Nat.sub_0_r. f_equal. unfold wadd. rewrite Z.add_0_r, wrap_small; [done|].
    unfold fits. lia.
  - destruct n as [|n]; [lia|]. cbn [guest_stream]. unfold host_of. rewrite Hr.
    rewrite seqZ_cons by lia. cbn [app]. f_equal.
    replace (Z.pred (Z.of_nat (S k))) with (Z.of_nat k) by lia.
    assert (wadd 64 a (Z.of_nat (S k)) = wadd 64 (wadd 64 a 1) (Z.of_nat k)) as ->.
    { unfold wadd. rewrite wrap_add_l. f_equal. lia. }
    destruct k as [|k].
    + cbn [Nat.sub seqZ]. rewrite Nat.sub_0_r. cbn. f_equal. unfold wadd. by rewrite Z.add_0_r, wrap_idemp.
    + assert (wadd 64 a 1 = a + 1) as Ew by (unfold wadd; apply wrap_small; unfold fits; lia).
      rewrite Ew. rewrite (IH n (a + 1) r); [|apply region_at_unique; [apply wf|done|apply owns_spec; lia]|lia|lia].
      f_equal. f_equal. lia.
Qed.

Lemma guest_stream_none n a : region_at rs a = None -> guest_stream n a = [].
Proof. intros Hn. destruct n; [done|]. cbn. unfold host_of. by rewrite Hn. Qed.

Lemma length_guest_stream n a : (length (guest_stream n a) <= n)%nat.
Proof. revert a. induction n as [|n IH]; intros a; [done|]. cbn. destruct (host_of a); cbn; [|lia]. specialize (IH (wadd 64 a 1)). lia. Qed.

(** Every address of a range lies in the host memory of some region. *)
Lemma guest_stream_in n a p :
  p ∈ guest_stream n a -> exists r, r ∈ rs /\ base r <= p < base r + rg_len r.
Proof.
  revert a. induction n as [|n IH]; intros a Hp; [by apply not_elem_of_nil in Hp|].
  cbn in Hp. unfold host_of in Hp. destruct (region_at rs a) as [r|] eqn:Er; [|by apply not_elem_of_nil in Hp].
  apply elem_of_cons in Hp as [->|Hp]; [|by eapply IH].
  destruct (region_at_in a r Er) as (Hin & Ha & _). exists r. split; [done|]. lia.
Qed.

(** *** The folds of [write] and [read] *)

(** The buffer lies outside the host memory of the regions. *)
Definition buf_outside (b : Buf) : Prop :=
  Forall (fun r => b_ptr b + b_len b <= base r \/ base r + rg_len r <= b_ptr b) rs.

Context (buf : Buf).
Hypothesis Hbuf : buf_wf buf.
Hypothesis Hout : buf_outside buf.

Lemma stream_outside n a p :
  p ∈ guest_stream n a -> ~ (b_ptr buf <= p < b_ptr buf + b_len buf).
Proof.
  intros Hp. destruct (guest_stream_in n a p Hp) as (r & Hin & Hr).
  pose proof Hout as Ho. unfold buf_outside in Ho. rewrite Forall_forall in Ho. specialize (Ho r Hin). lia.
Qed.

(** One slice of the range and the rest of the buffer that goes with it. *)
Lemma slice_step a r acc :
  region_at rs a = Some r -> 0 <= acc < b_len buf ->
  let len := Z.min (rg_start_addr r + rg_len r - a) (b_len buf - acc) in
  let s := {| vs_addr := base r + (a - rg_start_addr r); vs_size := len |} in
  let b := {| b_ptr := b_ptr buf + acc; b_len := b_len buf - acc |} in
  0 < len <= b_len buf - acc /\ len <= rg_start_addr r + rg_len r - a /\
  slice_ok s /\ buf_wf b /\ buf_apart b s /\
  buf_split_at (E:=GuestMemoryError) buf acc = Ok b.
Proof.
  intros Hr Hacc len s b. destruct (region_at_in a r Hr) as (Hin & Ha & (Hs & Hl & He) & [_ Hb0 Hb1]).
  pose proof Hout as Ho. unfold buf_outside in Ho. rewrite Forall_forall in Ho. specialize (Ho r Hin).
  destruct Hbuf as (Hp1 & Hp2 & Hp3). subst len s b.
  unfold slice_ok, buf_wf, buf_apart, buf_split_at. cbn [vs_addr vs_size b_ptr b_len].
  rewrite (proj2 (Z.leb_le acc _)) by lia. split_and!; try lia; done.
Qed.

Lemma on_slice_ok op acc s b n hm hm' :
  buf_split_at (E:=GuestMemoryError) buf acc = Ok b -> op s b 0 hm = (Ok n, hm') ->
  0 <= acc -> 0 <= n -> acc + n <= b_len buf ->
  on_slice buf op acc s hm = (Ok (acc + n), hm').
Proof.
  intros Hsp Hop Hacc Hn Hle. unfold on_slice. run_St. rewrite Hsp. unfold Mmap. rewrite Hop. cbn [map_err].
  destruct Hbuf as (?&?&?). by rewrite uadd_ok by lia.
Qed.

(** A fold of transfers: [post acc hm l hm'] says what transferring the host
    addresses [l] from buffer position [acc] on does to the memory.  It has to
    hold for nothing, and to be carried over one slice in front. *)
Section fold_rule.
Context (op : VolatileSlice -> Buf -> Z -> M hostmem VolatileMemoryError Z).
Context (post : Z -> hostmem -> list Z -> hostmem -> Prop).
Hypothesis post_nil : forall acc hm, post acc hm [] hm.
Hypothesis post_step : forall acc len s b hm l,
  0 <= acc -> 0 < len <= b_len buf - acc -> vs_size s = len ->
  b = {| b_ptr := b_ptr buf + acc; b_len := b_len buf - acc |} ->
  slice_ok s -> buf_wf b -> buf_apart b s -> hostmem_wf hm ->
  (forall p, p ∈ l -> ~ (b_ptr buf <= p < b_ptr buf + b_len buf)) -> zlen l <= b_len buf - acc - len ->
  exists hm1, op s b 0 hm = (Ok len, hm1) /\ hostmem_wf hm1 /\
    forall hm2, post (acc + len) hm1 l hm2 -> post acc hm (slice_stream s ++ l) hm2.

Lemma fold_slices_spec fuel : forall a acc hm,
  fits 64 a -> 0 <= acc <= b_len buf -> b_len buf - acc < Z.of_nat fuel -> hostmem_wf hm ->
  let l := guest_stream (Z.to_nat (b_len buf - acc)) a in
  exists hm', fold_slices mem (on_slice buf op) fuel {| it_addr := a; it_count := b_len buf - acc |} acc hm
      = (Ok (acc + zlen l), hm') /\ post acc hm l hm'.
Proof.
  induction fuel as [|fuel IH]; intros a acc hm Hf Hacc Hfuel Hwf l; [lia|].
  assert (acc + zlen (@nil Z) = acc) as Hnil by (unfold zlen; cbn; lia).
  cbn [fold_slices]. destruct (decide (b_len buf - acc = 0)) as [Hz|Hz].
  { exists hm. subst l. rewrite Hz, it_next_end. change (Z.to_nat 0) with 0%nat. cbn [guest_stream]. by rewrite Hnil. }
  rewrite it_next_spec; [|destruct Hbuf; unfold fits; lia|lia].
  destruct (region_at rs a) as [r|] eqn:Er.
  2:{ destruct fuel; [lia|]. cbn [fold_slices]. rewrite it_next_end. exists hm.
      subst l. rewrite guest_stream_none by done. by rewrite Hnil. }
  pose proof (slice_step a r acc Er ltac:(lia)) as (Hlen & Hle & Hs & Hb & Hap & Hsp).
  cbv zeta in Hlen, Hle, Hs, Hb, Hap, Hsp |- *. set (len := Z.min _ _) in *. set (s := {| vs_addr := _; vs_size := len |}) in *.
  set (b := {| b_ptr := _; b_len := b_len buf - acc |}) in *.
  set (l2 := guest_stream (Z.to_nat (b_len buf - (acc + len))) (wadd 64 a len)).
  assert (l = slice_stream s ++ l2) as El.
  { subst l l2. rewrite (guest_stream_split (Z.to_nat len) _ a r Er) by lia.
    rewrite Z2Nat.id by lia. do 2 f_equal. lia. }
  destruct (post_step acc len s b hm l2) as (hm1 & Hop & Hwf1 & Hpost); [lia|lia|done|done|done|done|done|done| | |].
  { intros p. apply stream_outside. }
  { unfold zlen, l2. pose proof (length_guest_stream (Z.to_nat (b_len buf - (acc + len))) (wadd 64 a len)). lia. }
  run_St. rewrite (on_slice_ok _ _ _ _ _ _ _ Hsp Hop) by lia.
  replace (b_len buf - acc - len) with (b_len buf - (acc + len)) by lia.
  destruct (IH (wadd 64 a len) (acc + len) hm1) as (hm2 & Hfold & Hm2); [by apply wrap_fits|lia|lia|done|].
  fold l2 in Hfold, Hm2. rewrite Hfold. exists hm2. rewrite El. split; [|by apply Hpost].
  assert (zlen (slice_stream s) = len) as Hsl by (apply (length_slice_stream s); subst s; cbn [vs_size]; lia).
  rewrite zlen_app, Hsl. do 2 f_equal. lia.
Qed.

End fold_rule.

Lemma write_fold fuel a hm :
  fits 64 a -> b_len buf < Z.of_nat fuel -> hostmem_wf hm ->
  let l := guest_stream (Z.to_nat (b_len buf)) a in
  exists hm', fold_slices mem (on_slice buf vs_write) fuel {| it_addr := a; it_count := b_len buf |} 0 hm
      = (Ok (zlen l), hm') /\
    forall x, hm' x = stream_write hm l (host_read hm (b_ptr buf) (length l)) x.
Proof.
  intros Hf Hfuel Hwf. pose proof Hbuf as (_ & Hb0 & _).
  pose proof (fold_slices_spec vs_write (fun acc hm l hm' =>
    forall x, hm' x = stream_write hm l (host_read hm (b_ptr buf + acc) (length l)) x)) as Hs.
  destruct (Hs ltac:(done)) with (fuel := fuel) (a := a) (acc := 0) (hm := hm) as (hm' & Hr & Hp); try done; try lia.
  2:{ rewrite !Z.sub_0_r, Z.add_0_l in *. rewrite Z.add_0_r in Hp. eauto. }
  clear Hs Hwf hm. intros acc len s b hm l Hacc Hlen Hsz -> Hs Hb Hap Hwf Hl Hzl.
  destruct (vs_write_inside hm s _ 0 Hwf Hs Hb Hap) as (hm1 & Hw & Hm1); [lia|cbn; lia|].
  cbn [b_len b_ptr] in Hw, Hm1. rewrite Z.min_l in Hw, Hm1 by lia. rewrite Z.sub_0_r, Hsz in Hw, Hm1.
  rewrite Z.add_0_r in Hm1. exists hm1. split; [exact Hw|]. split.
  { intros x. rewrite Hm1. apply host_write_wf; [done|]. by apply host_read_bytes. }
  intros hm2 Hm2 x. rewrite Hm2, length_app. unfold slice_stream at 2. rewrite length_seqZ, Hsz, host_read_add.
  rewrite stream_write_app by (unfold slice_stream; by rewrite length_seqZ, length_host_read, Hsz).
  rewrite Z2Nat.id by lia.
  rewrite (host_read_ext hm1 hm (b_ptr buf + (acc + len))).
  - rewrite Z.add_assoc. apply stream_write_ext. intros y. rewrite Hm1, host_write_stream.
    unfold zlen, slice_stream. by rewrite length_host_read, Z2Nat.id, Hsz by lia.
  - intros y Hy. rewrite Hm1. apply host_write_out. unfold zlen in *. rewrite length_host_read.
    unfold buf_apart in Hap. cbn [b_ptr b_len] in Hap. lia.
Qed.

Lemma read_fold fuel a hm :
  fits 64 a -> b_len buf < Z.of_nat fuel -> hostmem_wf hm ->
  let l := guest_stream (Z.to_nat (b_len buf)) a in
  exists hm', fold_slices mem (on_slice buf vs_read) fuel {| it_addr := a; it_count := b_len buf |} 0 hm
      = (Ok (zlen l), hm') /\
    forall x, hm' x = host_write hm (b_ptr buf) (stream_read hm l) x.
Proof.
  intros Hf Hfuel Hwf. pose proof Hbuf as (_ & Hb0 & _).
  pose proof (fold_slices_spec vs_read (fun acc hm l hm' =>
    forall x, hm' x = host_write hm (b_ptr buf + acc) (stream_read hm l) x)) as Hs.
  destruct (Hs ltac:(intros acc hm0 x; symmetry; apply host_write_out; unfold zlen; cbn; lia))
    with (fuel := fuel) (a := a) (acc := 0) (hm := hm) as (hm' & Hr & Hp); try done; try lia.
  2:{ rewrite !Z.sub_0_r, Z.add_0_l in *. rewrite Z.add_0_r in Hp. eauto. }
  clear Hs Hwf hm. intros acc len s b hm l Hacc Hlen Hsz -> Hs Hb Hap Hwf Hl Hzl.
  destruct (vs_read_inside hm s _ 0 Hwf Hs Hb Hap) as (hm1 & Hw & Hm1); [lia|cbn; lia|].
  cbn [b_len b_ptr] in Hw, Hm1. rewrite Z.min_l in Hw, Hm1 by lia. rewrite Z.sub_0_r, Hsz in Hw, Hm1.
  rewrite Z.add_0_r in Hm1. exists hm1. split; [exact Hw|]. split.
  { intros x. rewrite Hm1. apply host_write_wf; [done|]. by apply host_read_bytes. }
  intros hm2 Hm2 x. rewrite Hm2. unfold stream_read at 2. rewrite map_app. fold (stream_read hm l).
  fold (stream_read hm (slice_stream s)). rewrite host_write_app.
  assert (stream_read hm (slice_stream s) = host_read hm (vs_addr s) (Z.to_nat len)) as ->.
  { rewrite <- Hsz, (host_read_stream hm s (vs_size s)) by lia.
    rewrite take_ge; [done|]. unfold slice_stream. rewrite length_seqZ. lia. }
  assert (stream_read hm1 l = stream_read hm l) as ->.
  { unfold stream_read. apply map_ext_in. intros y Hy%list_elem_of_In. rewrite Hm1. apply host_write_out.
    apply Hl in Hy. unfold zlen. rewrite length_host_read. lia. }
  unfold zlen. rewrite length_host_read, Z2Nat.id, Z.add_assoc by lia. by apply host_write_ext.
Qed.

(** The whole accessors. *)
Lemma stop_on_error_spec op fuel a hm :
  fits 64 a ->
  let l := guest_stream (Z.to_nat (b_len buf)) a in
  stop_on_error_fold mem (on_slice buf op) fuel (get_slices a (b_len buf)) hm =
    if (0 <? b_len buf) && (zlen l =? 0) then (Err (InvalidGuestAddress a), hm)
    else fold_slices mem (on_slice buf op) fuel {| it_addr := a; it_count := b_len buf |} 0 hm.
Proof.
  intros Hf l. unfold stop_on_error_fold, get_slices. pose proof Hbuf as (Hb1 & Hb2 & Hb3).
  destruct (Z.ltb_spec 0 (b_len buf)) as [Hb|Hb]; cbn [andb].
  2:{ replace (b_len buf) with 0 by lia. by rewrite it_next_end. }
  rewrite it_next_spec by (unfold fits; lia). destruct (region_at rs a) as [r|] eqn:Er.
  - destruct (Z.eqb_spec (zlen l) 0) as [Hz|]; [|done]. exfalso. subst l.
    destruct (Z.to_nat (b_len buf)) as [|n] eqn:En; [lia|]. unfold zlen, host_of in Hz. cbn in Hz.
    unfold host_of in Hz. rewrite Er in Hz. cbn in Hz. lia.
  - subst l. by rewrite guest_stream_none.
Qed.

End ram.

Section access.
Context {prof : Profile} {R : Type} `{!GuestMemoryRegion R}.
Context (mem : GuestRegionCollection R) (base : R -> Z).
#[local] Abbreviation rs := (grc_regions mem).
Hypothesis wf : collection_wf mem.
Hypothesis ram : Forall (ram_region base) rs.

Lemma guest_stream_lookup n : forall a i p,
  guest_stream mem base n a !! i = Some p -> (i < n)%nat /\ host_of mem base (wadd 64 a (Z.of_nat i)) = Some p.
Proof.
  induction n as [|n IH]; intros a i p Hp; [done|]. cbn [guest_stream] in Hp.
  destruct (host_of mem base a) as [q|] eqn:Eq; [|done]. destruct i as [|i].
  - cbn in Hp. injection Hp as ->. split; [lia|].
    unfold host_of in *. destruct (region_at rs a) as [r|] eqn:Er; [|done].
    destruct (region_at_in mem base wf ram a r Er) as (_ & Ha & (Hs & Hl & He) & _).
    unfold wadd. rewrite Z.add_0_r, wrap_small by (unfold fits; lia). by rewrite Er.
  - cbn in Hp. apply IH in Hp as [Hi Hh]. split; [lia|].
    unfold wadd in *. rewrite wrap_add_l in Hh. rewrite <- Hh. do 2 f_equal. lia.
Qed.

(** Regions with separate host memory give every byte of a range an address of
    its own. *)
Definition host_apart : Prop := forall r1 r2 p, r1 ∈ rs -> r2 ∈ rs ->
  base r1 <= p < base r1 + rg_len r1 -> base r2 <= p < base r2 + rg_len r2 -> r1 = r2.

Lemma guest_stream_NoDup n a :
  host_apart -> fits 64 a -> Z.of_nat n <= 2 ^ 64 -> NoDup (guest_stream mem base n a).
Proof.
  intros Hap Ha Hn. apply NoDup_alt. intros i j p Hi Hj.
  apply guest_stream_lookup in Hi as [Hin Hi], Hj as [Hjn Hj]. unfold host_of in Hi, Hj.
  destruct (region_at rs (wadd 64 a (Z.of_nat i))) as [r1|] eqn:E1; [|done].
  destruct (region_at rs (wadd 64 a (Z.of_nat j))) as [r2|] eqn:E2; [|done].
  destruct (region_at_in mem base wf ram _ _ E1) as (H1 & Ha1 & _).
  destruct (region_at_in mem base wf ram _ _ E2) as (H2 & Ha2 & _).
  injection Hi as Hi. injection Hj as Hj. assert (r1 = r2) as -> by (apply (Hap r1 r2 p); [done|done|lia|lia]).
  assert (wadd 64 a (Z.of_nat i) = wadd 64 a (Z.of_nat j)) as Hw by lia.
  unfold wadd, wrap in Hw. apply Nat2Z.inj. pose proof (Z.mod_pos_bound (a + Z.of_nat i) (2 ^ 64)).
  pose proof (Z.div_mod (a + Z.of_nat i) (2 ^ 64)). pose proof (Z.div_mod (a + Z.of_nat j) (2 ^ 64)). nia.
Qed.

(** [check_range] tells whether the whole range is mapped. *)
Lemma check_range_spec {E} fuel : forall a count,
  fits 64 a -> fits 64 count -> count < Z.of_nat fuel ->
  check_range (E:=E) mem fuel a count = Ok (zlen (guest_stream mem base (Z.to_nat count) a) =? count).
Proof.
  unfold check_range, get_slices.
  induction fuel as [|fuel IH]; intros a count Ha Hc Hf; [unfold fits in Hc; lia|]. cbn [all_ok].
  destruct (decide (count = 0)) as [->|Hne]; [done|]. unfold fits in Hc.
  rewrite (it_next_spec mem base wf ram) by (unfold fits; lia). cbv zeta.
  destruct (region_at rs a) as [r|] eqn:Er.
  - set (len := Z.min _ _). destruct (region_at_in mem base wf ram a r Er) as (_ & Har & _).
    rewrite IH by (try apply wrap_fits; unfold fits; lia).
    rewrite (guest_stream_split mem base wf ram (Z.to_nat len) (Z.to_nat count) a r Er) by lia.
    rewrite zlen_app, Z2Nat.id by lia. rewrite <- Z2Nat.inj_sub by lia.
    unfold zlen at 2. rewrite length_seqZ, Z2Nat.id by lia. f_equal.
    destruct (Z.eqb_spec (zlen (guest_stream mem base (Z.to_nat (count - len)) (wadd 64 a len))) (count - len)),
      (Z.eqb_spec (len + zlen (guest_stream mem base (Z.to_nat (count - len)) (wadd 64 a len))) count);
      done || lia.
  - rewrite guest_stream_none by done. by destruct count.
Qed.

End access.

(** ** Properties *)

(** C7: an access to a guest range transfers the longest mapped prefix of it,
    whatever regions it crosses.  [write] puts the bytes of the buffer, in
    order, at the host addresses of the prefix and returns its length; [read]
    brings them into the buffer; nothing else changes.  An access to a range
    whose first byte is unmapped fails and changes nothing, and an empty one
    always succeeds. *)
Theorem guest_access_transfers_prefix {prof : Profile} {R : Type} `{!GuestMemoryRegion R}
    (mem : GuestRegionCollection R) base buf fuel addr hm :
  collection_wf mem -> Forall (ram_region base) (grc_regions mem) ->
  buf_wf buf -> buf_outside mem base buf -> fits 64 addr -> b_len buf < Z.of_nat fuel -> hostmem_wf hm ->
  let l := guest_stream mem base (Z.to_nat (b_len buf)) addr in
  if (0 <? b_len buf) && (zlen l =? 0) then
    gm_write mem fuel buf addr hm = (Err (InvalidGuestAddress addr), hm) /\
    gm_read mem fuel buf addr hm = (Err (InvalidGuestAddress addr), hm)
  else
    (exists hm', gm_write mem fuel buf addr hm = (Ok (zlen l), hm') /\
      forall x, hm' x = stream_write hm l (host_read hm (b_ptr buf) (length l)) x) /\
    (exists hm', gm_read mem fuel buf addr hm = (Ok (zlen l), hm') /\
      forall x, hm' x = host_write hm (b_ptr buf) (stream_read hm l) x).
Proof.
  intros Hwf Hram Hbuf Hout Ha Hf Hhm l. unfold gm_write, gm_read.
  rewrite !(stop_on_error_spec mem base Hwf Hram buf Hbuf) by done. fold l.
  destruct ((0 <? b_len buf) && (zlen l =? 0)); [done|]. split.
  - by apply (write_fold mem base Hwf Hram buf Hbuf Hout).
  - by apply (read_fold mem base Hwf Hram buf Hbuf Hout).
Qed.

(** [check_range] decides whether a range can be accessed.  When it says
    yes, [write_slice] and [read_slice] succeed and a read after a write brings
    back the bytes written, whatever regions the range crosses; when it says
    no, both fail, with the invalid address when nothing is mapped and with the
    number of bytes transferred otherwise. *)
Theorem guest_write_read {prof : Profile} {R : Type} `{!GuestMemoryRegion R}
    (mem : GuestRegionCollection R) base src dst fuel addr hm :
  collection_wf mem -> Forall (ram_region base) (grc_regions mem) -> host_apart mem base ->
  buf_wf src -> buf_wf dst -> buf_outside mem base src -> buf_outside mem base dst ->
  b_len src = b_len dst -> fits 64 addr -> b_len src < Z.of_nat fuel -> hostmem_wf hm ->
  match check_range (E:=GuestMemoryError) mem fuel addr (b_len src) with
  | Ok true => exists hm1 hm2,
      gm_write_slice mem fuel src addr hm = (Ok tt, hm1) /\
      gm_read_slice mem fuel dst addr hm1 = (Ok tt, hm2) /\
      host_read hm2 (b_ptr dst) (Z.to_nat (b_len src)) = host_read hm (b_ptr src) (Z.to_nat (b_len src))
  | Ok false => exists e, (gm_write_slice mem fuel src addr hm).1 = Err e /\
      (gm_read_slice mem fuel dst addr hm).1 = Err e /\
      (e = InvalidGuestAddress addr \/ exists n, 0 < n < b_len src /\ e = GmPartialBuffer (b_len src) n)
  | _ => False
  end.
Proof.
  intros Hwf Hram Hap Hs Hd Hso Hdo Hl Ha Hf Hhm. pose proof Hs as (Hs1 & Hs2 & Hs3).
  rewrite (check_range_spec mem base Hwf Hram) by (unfold fits; lia || done).
  pose proof (stop_on_error_spec mem base Hwf Hram src Hs vs_write fuel addr hm Ha) as Hw0.
  pose proof (stop_on_error_spec mem base Hwf Hram dst Hd vs_read fuel addr hm Ha) as Hr0.
  cbv zeta in Hw0, Hr0. set (l := guest_stream mem base (Z.to_nat (b_len src)) addr) in *.
  rewrite <- Hl in Hr0. fold l in Hr0.
  destruct (write_fold mem base Hwf Hram src Hs Hso fuel addr hm) as (hm1 & Hw & Hm1); [done|done|done|].
  destruct (read_fold mem base Hwf Hram dst Hd Hdo fuel addr hm) as (hm2 & Hr & Hm2); [done|lia|done|].
  cbv zeta in Hw, Hm1, Hr, Hm2. rewrite <- Hl in Hr, Hm2. fold l in Hw, Hm1, Hr, Hm2.
  assert (length l <= Z.to_nat (b_len src))%nat as Hlen by apply length_guest_stream.
  unfold gm_write_slice, gm_read_slice, all_or_partial, gm_write, gm_read.
  destruct (Z.eqb_spec (zlen l) (b_len src)) as [Hz|Hz].
  - assert (length l = Z.to_nat (b_len src)) as El by (unfold zlen in Hz; lia).
    assert ((0 <? b_len src) && (zlen l =? 0) = false) as Hg by lia. rewrite Hg in Hw0.
    exists hm1. assert (hostmem_wf hm1) as Hwf1.
    { intros x. rewrite Hm1. apply stream_write_wf; [done|]. by apply host_read_bytes. }
    destruct (read_fold mem base Hwf Hram dst Hd Hdo fuel addr hm1) as (hm3 & Hr3 & Hm3); [done|lia|done|].
    pose proof (stop_on_error_spec mem base Hwf Hram dst Hd vs_read fuel addr hm1 Ha) as Hr1.
    cbv zeta in Hr1, Hr3, Hm3. rewrite <- Hl in Hr1, Hr3, Hm3. fold l in Hr1, Hr3, Hm3. rewrite Hg in Hr1.
    exists hm3. rewrite <- Hl. run_St. rewrite Hw0, Hw, Hz, Z.eqb_refl, Hr1, Hr3, Hz, Z.eqb_refl.
    split_and!; [done|done|]. rewrite (host_read_ext hm3 _ _ _ (fun a _ => Hm3 a)).
    rewrite host_read_write_at by (unfold stream_read; by rewrite length_map).
    transitivity (stream_read (stream_write hm l (host_read hm (b_ptr src) (length l))) l).
    { unfold stream_read. apply map_ext. exact Hm1. }
    rewrite stream_read_write; [by rewrite El| |by rewrite length_host_read].
    apply guest_stream_NoDup; [done|done|done|done|lia].
  - rewrite <- Hl. run_St. rewrite Hw0, Hr0.
    destruct ((0 <? b_len src) && (zlen l =? 0)) eqn:Eg.
    + exists (InvalidGuestAddress addr). split_and!; [done|done|by left].
    + rewrite Hw, Hr, !(proj2 (Z.eqb_neq (zlen l) _) Hz). exists (GmPartialBuffer (b_len src) (zlen l)).
      split_and!; [done|done|]. right. exists (zlen l). split; [|done]. unfold zlen in *. lia.
Qed.

(** Regions of allocated memory are ordinary memory. *)
Lemma grm_ram r :
  region_ok r -> 0 < grm_host r -> grm_host r + grm_size r < 2 ^ 64 -> ram_region grm_host r.
Proof.
  unfold region_ok, grm_host, grm_size. cbn. intros (Hs & Hl & He) Hh Hhe. split; [|done|exact Hhe].
  intros off n Ho Hn Hle. cbn in *. unfold mmap_get_slice, compute_offset, checked_add.
  rewrite (proj2 (Z.ltb_lt _ _)) by lia. cbn [mbind out_bind].
  rewrite (proj2 (Z.ltb_ge _ _)) by lia. done.
Qed.

(** *** A short read in the middle *)

(** Two adjacent regions of four bytes, at host addresses 100 and 200. *)
Definition region_of (host start size : Z) : GuestRegionMmap :=
  {| grm_mapping := {| mmr_addr := host; mmr_size := size; mmr_file_offset := None |};
     grm_guest_base := start |}.
Definition two_regions : GuestRegionCollection GuestRegionMmap :=
  {| grc_regions := [region_of 100 0 4; region_of 200 4 4] |}.

(** A source that delivers one chunk of bytes per call. *)
Definition chunk_read (s : VolatileSlice) : M (hostmem * list (list Z)) VolatileMemoryError Z := fun st =>
  match st.2 with
  | [] => (Ok 0, st)
  | c :: cs => (Ok (zlen c), (host_write st.1 (vs_addr s) c, cs))
  end.

(** [read_volatile_from] goes on to the next slice after a short read: of five
    bytes that arrive as one and four, the first lands at guest address 0, the
    other four at 4 to 7; it reports five bytes from address 0 on, of which
    addresses 1 to 3 were never written. *)
Theorem short_read_leaves_hole {prof : Profile} (hm : hostmem) :
  let r := gm_read_volatile_from two_regions chunk_read 9 1 0 8 (hm, [[1]; [2; 3; 4; 5]]) in
  r.1 = Ok 5 /\ host_read r.2.1 100 4 = [1; hm 101; hm 102; hm 103] /\
  host_read r.2.1 200 4 = [2; 3; 4; 5].
Proof. destruct prof; by vm_compute. Qed.

(** *** Witnesses *)

Lemma two_regions_ok :
  collection_wf two_regions /\ Forall (ram_region grm_host) (grc_regions two_regions) /\
  host_apart two_regions grm_host.
Proof.
  split; [split; repeat constructor; cbn; lia|]. split.
  - repeat constructor; apply grm_ram; try (unfold region_ok; cbn; lia); cbn; lia.
  - intros r1 r2 p H1 H2. cbn in H1, H2.
    repeat (apply elem_of_cons in H1 as [->|H1]); [..|by apply not_elem_of_nil in H1];
      (repeat (apply elem_of_cons in H2 as [->|H2]); [..|by apply not_elem_of_nil in H2]);
      cbn; try done; lia.
Qed.

Lemma guest_access_transfers_prefix_witness :
  exists hm', gm_write (prof:=dev_profile) two_regions 9 {| b_ptr := 1000; b_len := 8 |} 2 (fun a => a mod 256)
    = (Ok 6, hm') /\ hm' 103 = 233 /\ hm' 200 = 234.
Proof.
  destruct two_regions_ok as (Hwf & Hram & _).
  pose proof (guest_access_transfers_prefix (prof:=dev_profile) two_regions grm_host
    {| b_ptr := 1000; b_len := 8 |} 9 2 (fun a => a mod 256) Hwf Hram) as Hp.
  destruct Hp as [Hw _].
  - unfold buf_wf. cbn. lia.
  - repeat constructor; cbn; lia.
  - unfold fits. lia.
  - cbn. lia.
  - intros a. apply Z.mod_pos_bound. lia.
  - destruct Hw as (hm' & Hw & Hm). exists hm'. split; [exact Hw|]. rewrite !Hm. split; reflexivity.
Defined.

Lemma guest_write_read_witness :
  exists hm1 hm2,
    gm_write_slice (prof:=dev_profile) two_regions 7 {| b_ptr := 1000; b_len := 6 |} 2 (fun a => a mod 256)
      = (Ok tt, hm1) /\
    gm_read_slice (prof:=dev_profile) two_regions 7 {| b_ptr := 2000; b_len := 6 |} 2 hm1 = (Ok tt, hm2) /\
    host_read hm2 2000 6 = [232; 233; 234; 235; 236; 237].
Proof.
  destruct two_regions_ok as (Hwf & Hram & Hap).
  pose proof (guest_write_read (prof:=dev_profile) two_regions grm_host {| b_ptr := 1000; b_len := 6 |}
    {| b_ptr := 2000; b_len := 6 |} 7 2 (fun a => a mod 256) Hwf Hram Hap) as Hp.
  apply Hp.
  - unfold buf_wf. cbn. lia.
  - unfold buf_wf. cbn. lia.
  - repeat constructor; cbn; lia.
  - repeat constructor; cbn; lia.
  - reflexivity.
  - unfold fits. lia.
  - cbn. lia.
  - intros a. apply Z.mod_pos_bound. lia.
Defined.
