(* ===== verification/DescUtils.v ===== *)
(** * DescUtils: readers and writers over descriptor chains,
      [src/devices/virtio/descriptor_utils.rs]

    A [DescriptorChainConsumer] holds the guest buffers of a chain that are
    still to be used.  Its specification is the address stream of file
    [FileTraits]: reading and writing consume a prefix of the stream. *)

From S2P Require Import Prelude Bytes HostMem GuestMem Queue FileTraits.

(* src/devices/virtio/descriptor_utils.rs:25-34, Error *)
Inductive DescError : Type :=
| DeDescriptorChainOverflow
| DeFindMemoryRegion
| DeGuestMemoryError (e : GuestMemoryError)
| DeInvalidChain
| DeIoError (e : IoError)
| DeSplitOutOfBounds (off : Z)
| DeVolatileMemoryError (e : VolatileMemoryError).

(* src/devices/virtio/descriptor_utils.rs:59-63, DescriptorChainConsumer *)
Record Consumer : Type := { c_buffers : list VolatileSlice; c_bytes_consumed : Z }.

Section consumer.
Context {prof : Profile}.

(* src/devices/virtio/descriptor_utils.rs:66-73, DescriptorChainConsumer::available_bytes *)
Definition consumer_available_bytes {E} (c : Consumer) : out E Z :=
  foldl (fun count vs => n ← count; uadd 64 n (vs_len vs)) (Ok 0) (c_buffers c).

(* src/devices/virtio/descriptor_utils.rs:75-77, DescriptorChainConsumer::bytes_consumed *)
Definition consumer_bytes_consumed (c : Consumer) : Z := c_bytes_consumed c.

(** The first loop of [consume]: the buffers handed to the closure. *)
(* src/devices/virtio/descriptor_utils.rs:92-107, DescriptorChainConsumer::consume *)
Fixpoint consume_select (buffers : list VolatileSlice) (count buflen : Z) :
    list VolatileSlice :=
  match buffers with
  | [] => []
  | vs :: buffers' =>
      if count <=? buflen then []
      else
        let rem := count - buflen in
        let buflen' := if rem <? vs_len vs then buflen + rem else buflen + vs_len vs in
        vs :: consume_select buffers' count buflen'
  end.

(** The second loop: [rem] bytes are dropped from the front. *)
(* src/devices/virtio/descriptor_utils.rs:124-136, DescriptorChainConsumer::consume *)
Fixpoint consume_drop {E} (buffers : list VolatileSlice) (rem : Z) :
    out E (list VolatileSlice) :=
  match buffers with
  | [] => Ok []
  | vs :: buffers' =>
      if rem <? vs_len vs then
        vs' ← unwrap (vs_offset vs rem);
        Ok (vs' :: buffers')
      else consume_drop buffers' (rem - vs_len vs)
  end.

(** [f] acts on the rest of the state, which holds host memory. *)
(* src/devices/virtio/descriptor_utils.rs:79-141, DescriptorChainConsumer::consume *)
Definition consume {St : Type} (count : Z) (f : list VolatileSlice -> M St IoError Z) :
    M (Consumer * St) IoError Z :=
  c ← gets fst;
  let bufs := consume_select (c_buffers c) count 0 in
  match bufs with
  | [] => mret 0
  | _ =>
      bytes_consumed ← zoom snd (fun s p => (p.1, s)) (f bufs);
      total ← lift (ok_or (checked_add 64 (c_bytes_consumed c) bytes_consumed) IoInvalidData);
      rest ← lift (consume_drop (c_buffers c) bytes_consumed);
      _ ← modify (fun p => ({| c_buffers := rest; c_bytes_consumed := total |}, p.2));
      mret bytes_consumed
  end.

(** The [position] closure subtracts the lengths it passes from [rem]. *)
(* src/devices/virtio/descriptor_utils.rs:144-152, DescriptorChainConsumer::split_at *)
Fixpoint split_position (buffers : list VolatileSlice) (rem : Z) : option nat * Z :=
  match buffers with
  | [] => (None, rem)
  | vs :: buffers' =>
      if rem <? vs_len vs then (Some O, rem)
      else let '(pos, rem') := split_position buffers' (rem - vs_len vs) in (S <$> pos, rem')
  end.

(** Both halves are given [front.offset(rem)]. *)
(* src/devices/virtio/descriptor_utils.rs:143-178, DescriptorChainConsumer::split_at *)
Definition consumer_split_at (offset : Z) : M Consumer DescError Consumer :=
  c ← gets id;
  match split_position (c_buffers c) offset with
  | (Some at_, rem) =>
      let other := drop at_ (c_buffers c) in
      _ ← modify (fun c => {| c_buffers := take at_ (c_buffers c);
                              c_bytes_consumed := c_bytes_consumed c |});
      if 0 <? rem then
        match other with
        | [] => lift Panic
        | front :: other' =>
            f1 ← lift (map_err DeVolatileMemoryError (vs_offset front rem));
            _ ← modify (fun c => {| c_buffers := c_buffers c ++ [f1];
                                    c_bytes_consumed := c_bytes_consumed c |});
            f2 ← lift (map_err DeVolatileMemoryError (vs_offset front rem));
            mret {| c_buffers := f2 :: other'; c_bytes_consumed := 0 |}
        end
      else mret {| c_buffers := other; c_bytes_consumed := 0 |}
  | (None, rem) =>
      if rem =? 0 then mret {| c_buffers := []; c_bytes_consumed := 0 |}
      else throw (DeSplitOutOfBounds offset)
  end.

(** ** Construction *)

(** The closure mapped over the descriptors: the running total and the slice. *)
(* src/devices/virtio/descriptor_utils.rs:200-216, Reader::new *)
Definition chain_slice (mm : MemoryManager) (desc : DescriptorChain) (total_len : Z) :
    out DescError (Z * VolatileSlice) :=
  total_len ← ok_or (checked_add 64 total_len (dc_len desc)) DeDescriptorChainOverflow;
  region ← mm_find_region mm (dc_addr desc);
  region ← ok_or region DeFindMemoryRegion;
  offset ← unwrap_opt (addr_checked_sub (dc_addr desc) (mr_gpa region));
  vs ← map_err DeGuestMemoryError (region_get_slice region offset (dc_len desc));
  Ok (total_len, vs).

(** [collect::<Result<VecDeque<_>>>()?] stops at the first error. *)
Fixpoint chain_slices (mm : MemoryManager) (descs : list DescriptorChain) (total_len : Z) :
    out DescError (list VolatileSlice) :=
  match descs with
  | [] => Ok []
  | d :: descs' =>
      '(total_len, vs) ← chain_slice mm d total_len;
      rest ← chain_slices mm descs' total_len;
      Ok (vs :: rest)
  end.

(* src/devices/virtio/descriptor_utils.rs:194-224, Reader::new *)
Definition reader_new (mm : MemoryManager) (hm : hostmem) (chain : DescriptorChain) :
    out DescError Consumer :=
  descs ← chain_into_iter mm hm chain;
  buffers ← chain_slices mm (chain_readable descs) 0;
  Ok {| c_buffers := buffers; c_bytes_consumed := 0 |}.

(* src/devices/virtio/descriptor_utils.rs:345-377, Writer::new *)
Definition writer_new (mm : MemoryManager) (hm : hostmem) (chain : DescriptorChain) :
    out DescError Consumer :=
  descs ← chain_into_iter mm hm chain;
  buffers ← chain_slices mm (chain_writable descs) 0;
  Ok {| c_buffers := buffers; c_bytes_consumed := 0 |}.

(* src/devices/virtio/descriptor_utils.rs:294-296, Reader::available_bytes *)
Definition reader_available_bytes {E} (c : Consumer) : out E Z := consumer_available_bytes c.
(* src/devices/virtio/descriptor_utils.rs:386-388, Writer::available_bytes *)
Definition writer_available_bytes {E} (c : Consumer) : out E Z := consumer_available_bytes c.
(* src/devices/virtio/descriptor_utils.rs:299-301, Reader::bytes_read *)
Definition reader_bytes_read (c : Consumer) : Z := consumer_bytes_consumed c.
(* src/devices/virtio/descriptor_utils.rs:440-442, Writer::bytes_written *)
Definition writer_bytes_written (c : Consumer) : Z := consumer_bytes_consumed c.
(* src/devices/virtio/descriptor_utils.rs:307-309, Reader::split_at *)
Definition reader_split_at (offset : Z) : M Consumer DescError Consumer := consumer_split_at offset.
(* src/devices/virtio/descriptor_utils.rs:448-450, Writer::split_at *)
Definition writer_split_at (offset : Z) : M Consumer DescError Consumer := consumer_split_at offset.

(** ** Reading *)

(** The loop of [Read::read]: the filled buffer and the total. *)
Fixpoint gather (hm : hostmem) (bufs : list VolatileSlice) (rem : list Z) : list Z * Z :=
  match bufs with
  | [] => (rem, 0)
  | vs :: bufs' =>
      let copy_len := Z.min (zlen rem) (vs_len vs) in
      let n := Z.to_nat copy_len in
      let '(rest, total) := gather hm bufs' (drop n rem) in
      (host_read hm (vs_addr vs) n ++ rest, copy_len + total)
  end.

(** The buffer is part of the closure's state. *)
(* src/devices/virtio/descriptor_utils.rs:312-330, Reader::read *)
Definition reader_read (buf : list Z) : M (Consumer * hostmem) IoError (Z * list Z) :=
  fun '(c, hm) =>
    let '(o, (c', (hm', buf'))) :=
      consume (zlen buf)
        (fun bufs '(hm, buf) =>
           let '(buf', total) := gather hm bufs buf in (Ok total, (hm, buf')))
        (c, (hm, buf)) in
    (n ← o; Ok (n, buf'), (c', hm')).

(** [io::Read::read_exact] of the standard library. *)
Fixpoint reader_read_exact_loop (fuel : nat) (buf : list Z) :
    M (Consumer * hostmem) IoError (list Z) :=
  match buf with
  | [] => mret []
  | _ =>
      match fuel with
      | O => lift NoFuel
      | S fuel' =>
          r ← Mtry (reader_read buf);
          match r with
          | inl (n, buf') =>
              if n =? 0 then throw IoUnexpectedEof
              else
                rest ← reader_read_exact_loop fuel' (drop (Z.to_nat n) buf');
                mret (take (Z.to_nat n) buf' ++ rest)
          | inr e =>
              if is_interrupted e then reader_read_exact_loop fuel' buf else throw e
          end
      end
  end.

Definition reader_read_exact (buf : list Z) : M (Consumer * hostmem) IoError (list Z) :=
  reader_read_exact_loop (S (length buf)) buf.

(* src/devices/virtio/descriptor_utils.rs:226-241, Reader::read_obj *)
Definition reader_read_obj {T} `{Pod T} : M (Consumer * hostmem) IoError T :=
  buf ← reader_read_exact (replicate (pod_size T) 0);
  mret (pod_of buf).

(* src/devices/virtio/descriptor_utils.rs:243-254, Reader::read_to *)
Definition reader_read_to {St} (write_vectored : list VolatileSlice -> M St IoError Z)
    (count : Z) : M (Consumer * St) IoError Z :=
  consume count write_vectored.

(* src/devices/virtio/descriptor_utils.rs:256-268, Reader::read_to_at *)
Definition reader_read_to_at {St}
    (write_vectored_at : list VolatileSlice -> Z -> M St IoError Z) (count off : Z) :
    M (Consumer * St) IoError Z :=
  consume count (fun bufs => write_vectored_at bufs off).

(** The loop of [read_exact_to] and [write_all_from]. *)
Fixpoint transfer_loop {St} (fuel : nat) (zero : IoError)
    (transfer : Z -> M (Consumer * St) IoError Z) (count : Z) : M (Consumer * St) IoError unit :=
  match fuel with
  | O => lift NoFuel
  | S fuel' =>
      if 0 <? count then
        r ← Mtry (transfer count);
        match r with
        | inl n =>
            if n =? 0 then throw zero
            else
              count' ← lift (usub 64 count n);
              transfer_loop fuel' zero transfer count'
        | inr e =>
            if is_interrupted e then transfer_loop fuel' zero transfer count else throw e
        end
      else mret tt
  end.

(* src/devices/virtio/descriptor_utils.rs:270-290, Reader::read_exact_to *)
Definition reader_read_exact_to {St} (fuel : nat)
    (write_vectored : list VolatileSlice -> M St IoError Z) (count : Z) :
    M (Consumer * St) IoError unit :=
  transfer_loop fuel IoUnexpectedEof (reader_read_to write_vectored) count.

(** ** Writing *)

(** The loop of [Write::write]. *)
Fixpoint scatter (hm : hostmem) (bufs : list VolatileSlice) (rem : list Z) : hostmem * Z :=
  match bufs with
  | [] => (hm, 0)
  | vs :: bufs' =>
      let copy_len := Z.min (zlen rem) (vs_len vs) in
      let n := Z.to_nat copy_len in
      let '(hm', total) := scatter (host_write hm (vs_addr vs) (take n rem)) bufs' (drop n rem) in
      (hm', copy_len + total)
  end.

(* src/devices/virtio/descriptor_utils.rs:453-470, Writer::write *)
Definition writer_write (buf : list Z) : M (Consumer * hostmem) IoError Z :=
  consume (zlen buf) (fun bufs hm => let '(hm', total) := scatter hm bufs buf in (Ok total, hm')).

(* src/devices/virtio/descriptor_utils.rs:472-475, Writer::flush *)
Definition writer_flush : M (Consumer * hostmem) IoError unit := mret tt.

(** [io::Write::write_all] of the standard library. *)
Fixpoint writer_write_all_loop (fuel : nat) (buf : list Z) : M (Consumer * hostmem) IoError unit :=
  match buf with
  | [] => mret tt
  | _ =>
      match fuel with
      | O => lift NoFuel
      | S fuel' =>
          r ← Mtry (writer_write buf);
          match r with
          | inl n =>
              if n =? 0 then throw IoWriteZero
              else writer_write_all_loop fuel' (drop (Z.to_nat n) buf)
          | inr e => if is_interrupted e then writer_write_all_loop fuel' buf else throw e
          end
      end
  end.

Definition writer_write_all (buf : list Z) : M (Consumer * hostmem) IoError unit :=
  writer_write_all_loop (S (length buf)) buf.

(* src/devices/virtio/descriptor_utils.rs:379-382, Writer::write_obj *)
Definition writer_write_obj {T} `{Pod T} (val : T) : M (Consumer * hostmem) IoError unit :=
  writer_write_all (pod_to val).

(* src/devices/virtio/descriptor_utils.rs:390-401, Writer::write_from *)
Definition writer_write_from {St} (read_vectored : list VolatileSlice -> M St IoError Z)
    (count : Z) : M (Consumer * St) IoError Z :=
  consume count read_vectored.

(* src/devices/virtio/descriptor_utils.rs:403-415, Writer::write_from_at *)
Definition writer_write_from_at {St}
    (read_vectored_at : list VolatileSlice -> Z -> M St IoError Z) (count off : Z) :
    M (Consumer * St) IoError Z :=
  consume count (fun bufs => read_vectored_at bufs off).

(* src/devices/virtio/descriptor_utils.rs:417-437, Writer::write_all_from *)
Definition writer_write_all_from {St} (fuel : nat)
    (read_vectored : list VolatileSlice -> M St IoError Z) (count : Z) :
    M (Consumer * St) IoError unit :=
  transfer_loop fuel IoWriteZero (writer_write_from read_vectored) count.

(** ** [create_descriptor_chain] *)

(* src/devices/virtio/descriptor_utils.rs:481-485, DescriptorType *)
Inductive DescriptorType : Type := DtReadable | DtWritable.

(** [virtq_desc] has the layout of [Descriptor]. *)
Fixpoint create_descriptors (mm : MemoryManager) (descriptor_array_addr buffers_start_addr : Z)
    (descriptors : list (DescriptorType * Z)) (index n spaces : Z) : M hostmem DescError unit :=
  match descriptors with
  | [] => mret tt
  | (type_, size) :: rest =>
      let flags := match type_ with DtWritable => VIRTQ_DESC_F_WRITE | DtReadable => 0 end in
      let flags := if index + 1 <? n then Z.lor flags VIRTQ_DESC_F_NEXT else flags in
      let index16 := wrap 16 index in
      next ← lift (uadd 16 index16 1);
      let desc := {| d_addr := buffers_start_addr; d_len := size; d_flags := flags;
                     d_next := next |} in
      offset ← lift (uadd 32 size spaces);
      buffers_start_addr ←
        lift (ok_or (addr_checked_add buffers_start_addr offset) DeInvalidChain);
      a ← lift (ok_or (addr_checked_add descriptor_array_addr (index16 * 16)) DeInvalidChain);
      _ ← Mtry (write_obj mm desc a);
      create_descriptors mm descriptor_array_addr buffers_start_addr rest (index + 1) n spaces
  end.

(* src/devices/virtio/descriptor_utils.rs:499-539, create_descriptor_chain *)
Definition create_descriptor_chain (mm : MemoryManager)
    (descriptor_array_addr buffers_start_addr : Z) (descriptors : list (DescriptorType * Z))
    (spaces_between_regions : Z) : M hostmem DescError DescriptorChain :=
  _ ← create_descriptors mm descriptor_array_addr buffers_start_addr descriptors 0
        (zlen descriptors) spaces_between_regions;
  hm ← gets id;
  c ← lift (chain_checked_new mm hm descriptor_array_addr 256 0);
  lift (ok_or c DeInvalidChain).

End consumer.

(** ** Lemmas: the consumer as an address stream *)

Definition bufs_wf (bufs : list VolatileSlice) : Prop := Forall slice_wf bufs.
Definition consumer_stream (c : Consumer) : list Z := stream (c_buffers c).

Record consumer_wf (c : Consumer) : Prop := {
  cwf_bufs : bufs_wf (c_buffers c);
  cwf_consumed : 0 <= c_bytes_consumed c;
  cwf_total : zlen (consumer_stream c) + c_bytes_consumed c < 2 ^ 64;
}.

Lemma stream_cons vs bufs : stream (vs :: bufs) = slice_stream vs ++ stream bufs.
Proof. done. Qed.

Lemma zlen_stream_cons vs bufs :
  slice_wf vs -> zlen (stream (vs :: bufs)) = vs_size vs + zlen (stream bufs).
Proof. intros (?&?&?). by rewrite stream_cons, zlen_app, length_slice_stream by done. Qed.

Lemma zlen_take {A} (n : Z) (l : list A) : 0 <= n <= zlen l -> zlen (take (Z.to_nat n) l) = n.
Proof. unfold zlen. intros. rewrite length_take. lia. Qed.

Lemma zlen_drop {A} (n : Z) (l : list A) :
  0 <= n <= zlen l -> zlen (drop (Z.to_nat n) l) = zlen l - n.
Proof. unfold zlen. intros. rewrite length_drop. lia. Qed.

Lemma take_drop_app_split {A} (a b : list A) (n : Z) :
  0 <= n ->
  take (Z.to_nat n) (a ++ b) =
    take (Z.to_nat (Z.min n (zlen a))) a ++ take (Z.to_nat (n - Z.min n (zlen a))) b /\
  drop (Z.to_nat n) (a ++ b) =
    drop (Z.to_nat (Z.min n (zlen a))) a ++ drop (Z.to_nat (n - Z.min n (zlen a))) b.
Proof.
  intros Hn. unfold zlen. rewrite take_app, drop_app. split; f_equal.
  - destruct (decide (n <= Z.of_nat (length a))); [f_equal; lia|].
    rewrite !take_ge by lia. done.
  - f_equal. lia.
  - destruct (decide (n <= Z.of_nat (length a))); [f_equal; lia|].
    rewrite !drop_ge by lia. done.
  - f_equal. lia.
Qed.

Lemma vs_offset_split vs n :
  slice_wf vs -> 0 <= n <= vs_size vs ->
  vs_offset vs n = Ok (vs_with_bitmap (vs_addr vs + n) (vs_size vs - n)).
Proof.
  intros (?&?&?) Hn. unfold vs_offset.
  rewrite (proj2 (checked_add_Some 64 (vs_addr vs) n _)) by (split; [done|lia]).
  rewrite (proj2 (checked_sub_Some (vs_size vs) n _)) by (split; [done|lia]). done.
Qed.

Section consumer_lemmas.
Context {prof : Profile}.

Lemma available_bytes_stream {E} c :
  consumer_wf c -> consumer_available_bytes (E:=E) c = Ok (zlen (consumer_stream c)).
Proof.
  intros [Hb H0 Ht]. unfold consumer_available_bytes, consumer_stream in *.
  assert (forall bufs n, bufs_wf bufs -> 0 <= n -> n + zlen (stream bufs) < 2 ^ 64 ->
    foldl (fun count vs => m ← count; uadd 64 m (vs_len vs)) (Ok n) bufs
      = Ok (E:=E) (n + zlen (stream bufs))) as Hgen.
  { intros bufs. induction bufs as [|vs bufs IH]; intros n Hbs Hn Hs; cbn [foldl].
    - unfold stream, zlen. cbn. f_equal. lia.
    - apply Forall_cons in Hbs as [Hvs Hbs]. rewrite zlen_stream_cons in * by done.
      destruct Hvs as (?&?&?). pose proof (zlen_nonneg (stream bufs)).
      run_M. unfold vs_len. rewrite uadd_ok by lia. rewrite IH by (done || lia). f_equal. lia. }
  rewrite Hgen by (done || lia). f_equal.
Qed.

Lemma consume_drop_stream {E} bufs rem :
  bufs_wf bufs -> 0 <= rem <= zlen (stream bufs) ->
  exists rest, consume_drop (E:=E) bufs rem = Ok rest /\ bufs_wf rest /\
    stream rest = drop (Z.to_nat rem) (stream bufs).
Proof.
  intros Hbs. revert rem. induction bufs as [|vs bufs IH]; intros rem Hr.
  - exists []. split_and!; [done|constructor|]. unfold stream. cbn. by rewrite drop_nil.
  - apply Forall_cons in Hbs as [Hvs Hbs]. rewrite zlen_stream_cons in Hr by done.
    cbn [consume_drop]. unfold vs_len. pose proof Hvs as (?&?&?).
    rewrite stream_cons. rewrite (proj2 (take_drop_app_split _ _ rem ltac:(lia))).
    rewrite length_slice_stream by done.
    destruct (Z.ltb_spec rem (vs_size vs)).
    + rewrite vs_offset_split by (done || lia). run_M. eexists. split; [done|]. split.
      * constructor; [|done]. unfold slice_wf; cbn. lia.
      * rewrite stream_cons. rewrite Z.min_l by lia.
        rewrite drop_slice_stream by lia. rewrite Z.sub_diag. cbn. done.
    + destruct (IH Hbs (rem - vs_size vs)) as (rest & -> & Hw & Hs); [lia|].
      exists rest. split_and!; [done|done|]. rewrite Hs, Z.min_r by lia.
      rewrite (drop_ge (slice_stream vs)); [done|].
      pose proof (length_slice_stream vs ltac:(done)) as E0. unfold zlen in E0. lia.
Qed.

(** The selected slices are a prefix that covers [count], or all there is. *)
Lemma consume_select_prefix bufs count buflen :
  bufs_wf bufs -> 0 <= buflen ->
  exists k, consume_select bufs count buflen = take k bufs /\
    Z.min (count - buflen) (zlen (stream bufs)) <= zlen (stream (take k bufs)).
Proof.
  intros Hbs. revert buflen. induction bufs as [|vs bufs IH]; intros buflen Hb; cbn [consume_select].
  - exists 0%nat. split; [done|]. cbn. lia.
  - apply Forall_cons in Hbs as [Hvs Hbs]. pose proof Hvs as (?&?&?).
    rewrite zlen_stream_cons by done. destruct (Z.leb_spec count buflen).
    + exists 0%nat. split; [done|]. cbn. unfold zlen; cbn; lia.
    + unfold vs_len. destruct (Z.ltb_spec (count - buflen) (vs_size vs)).
      * destruct (IH Hbs (buflen + (count - buflen)) ltac:(lia)) as (k & -> & Hk).
        exists (S k). split; [done|]. cbn [take]. rewrite zlen_stream_cons by done.
        pose proof (zlen_nonneg (stream (take k bufs))). lia.
      * destruct (IH Hbs (buflen + vs_size vs) ltac:(lia)) as (k & -> & Hk).
        exists (S k). split; [done|]. cbn [take]. rewrite zlen_stream_cons by done. lia.
Qed.

Lemma stream_take_prefix bufs k :
  stream bufs = stream (take k bufs) ++ stream (drop k bufs).
Proof. by rewrite <- stream_app, take_drop. Qed.

(** The effect of [consume] when the closure reports [n] of its bytes. *)
Lemma consume_ok {St} count (f : list VolatileSlice -> M St IoError Z) c s n s' :
  consumer_wf c ->
  f (consume_select (c_buffers c) count 0) s = (Ok n, s') ->
  0 <= n <= zlen (consumer_stream c) ->
  consume_select (c_buffers c) count 0 <> [] ->
  exists c', consume count f (c, s) = (Ok n, (c', s')) /\ consumer_wf c' /\
    consumer_stream c' = drop (Z.to_nat n) (consumer_stream c) /\
    c_bytes_consumed c' = c_bytes_consumed c + n.
Proof.
  intros [Hb H0 Ht] Hf Hn Hne. unfold consume. run_St.
  destruct (consume_select (c_buffers c) count 0) as [|b bs] eqn:Es; [done|].
  run_St. rewrite Hf. run_St. unfold consumer_stream in *.
  rewrite (proj2 (checked_add_Some 64 (c_bytes_consumed c) n _)) by (split; [done|lia]). run_St.
  destruct (consume_drop_stream (E:=IoError) (c_buffers c) n Hb Hn) as (rest & Hd & Hw & Hs).
  rewrite Hd. run_St. eexists. split; [done|]. cbn [c_buffers c_bytes_consumed].
  split; [|done]. split; unfold consumer_stream; cbn [c_buffers c_bytes_consumed];
    [done|lia|].
  rewrite Hs, zlen_drop by lia. lia.
Qed.

Lemma gather_stream hm bufs rem :
  bufs_wf bufs ->
  let n := Z.min (zlen rem) (zlen (stream bufs)) in
  gather hm bufs rem =
    (stream_read hm (take (Z.to_nat n) (stream bufs)) ++ drop (Z.to_nat n) rem, n).
Proof.
  intros Hbs. revert rem. induction bufs as [|vs bufs IH]; intros rem.
  - cbn. rewrite Z.min_r by apply zlen_nonneg. done.
  - apply Forall_cons in Hbs as [Hvs Hbs]. pose proof Hvs as (?&?&?).
    cbv zeta. rewrite zlen_stream_cons by done. cbn [gather]. unfold vs_len.
    pose proof (zlen_nonneg rem). pose proof (zlen_nonneg (stream bufs)).
    rewrite (IH Hbs). rewrite zlen_drop by lia. rewrite host_read_stream by lia.
    set (m := Z.min (zlen rem) (vs_size vs)).
    replace (Z.min (zlen rem - m) (zlen (stream bufs)))
      with (Z.min (zlen rem) (vs_size vs + zlen (stream bufs)) - m) by lia.
    set (n := Z.min (zlen rem) (vs_size vs + zlen (stream bufs))).
    rewrite drop_drop. f_equal; [|lia].
    rewrite stream_cons.
    rewrite (proj1 (take_drop_app_split _ _ n ltac:(lia))).
    rewrite length_slice_stream by done. unfold stream_read. rewrite map_app, <- app_assoc.
    replace (Z.min n (vs_size vs)) with m by lia.
    do 2 f_equal; f_equal; lia.
Qed.

Lemma scatter_stream hm bufs rem :
  bufs_wf bufs ->
  let n := Z.min (zlen rem) (zlen (stream bufs)) in
  exists hm', scatter hm bufs rem = (hm', n) /\
    forall x, hm' x =
      stream_write hm (take (Z.to_nat n) (stream bufs)) (take (Z.to_nat n) rem) x.
Proof.
  intros Hbs. revert hm rem. induction bufs as [|vs bufs IH]; intros hm rem.
  - exists hm. cbn. rewrite Z.min_r by apply zlen_nonneg. done.
  - apply Forall_cons in Hbs as [Hvs Hbs]. pose proof Hvs as (?&?&?).
    cbv zeta. rewrite zlen_stream_cons by done. cbn [scatter]. unfold vs_len.
    pose proof (zlen_nonneg rem). pose proof (zlen_nonneg (stream bufs)).
    set (m := Z.min (zlen rem) (vs_size vs)).
    destruct (IH Hbs (host_write hm (vs_addr vs) (take (Z.to_nat m) rem)) (drop (Z.to_nat m) rem))
      as (hm' & -> & Hhm).
    rewrite zlen_drop in * by lia.
    replace (Z.min (zlen rem - m) (zlen (stream bufs)))
      with (Z.min (zlen rem) (vs_size vs + zlen (stream bufs)) - m) in * by lia.
    set (n := Z.min (zlen rem) (vs_size vs + zlen (stream bufs))) in *.
    exists hm'. split; [f_equal; lia|]. intros x. rewrite Hhm.
    rewrite stream_cons.
    rewrite (proj1 (take_drop_app_split _ _ n ltac:(lia))).
    rewrite length_slice_stream by done.
    replace (Z.min n (vs_size vs)) with m by lia.
    rewrite <- (take_drop (Z.to_nat m) rem) at 3.
    rewrite (proj1 (take_drop_app_split _ _ n ltac:(lia))).
    rewrite zlen_take by lia. rewrite (Z.min_r n m) by lia.
    rewrite (take_ge (take (Z.to_nat m) rem)) by (rewrite length_take; lia).
    rewrite stream_write_app.
    + apply stream_write_ext. intros y. rewrite host_write_stream, zlen_take by lia.
      by rewrite take_slice_stream by lia.
    + pose proof (length_slice_stream vs ltac:(done)) as E0. unfold zlen in *.
      rewrite !length_take. lia.
Qed.

End consumer_lemmas.

Section stream_io.
Context {prof : Profile}.

(** The bytes one call moves: what fits in the buffer and in the stream. *)
Lemma select_enough c count :
  consumer_wf c -> 0 <= count ->
  let sel := consume_select (c_buffers c) count 0 in
  bufs_wf sel /\
  Z.min count (zlen (stream sel)) = Z.min count (zlen (consumer_stream c)) /\
  (forall n, 0 <= n <= zlen (stream sel) ->
     take (Z.to_nat n) (stream sel) = take (Z.to_nat n) (consumer_stream c)).
Proof.
  intros [Hb _ _] Hc sel.
  destruct (consume_select_prefix (c_buffers c) count 0 Hb ltac:(lia)) as (k & Hsel & Hk).
  fold sel in Hsel. unfold consumer_stream. rewrite Hsel, Z.sub_0_r in *.
  assert (zlen (stream (c_buffers c)) =
          zlen (stream (take k (c_buffers c))) + zlen (stream (drop k (c_buffers c)))) as Hl
    by (rewrite <- zlen_app, <- stream_take_prefix; done).
  pose proof (zlen_nonneg (stream (drop k (c_buffers c)))).
  split_and!.
  - by apply Forall_take.
  - lia.
  - intros n Hn. rewrite (stream_take_prefix (c_buffers c) k).
    rewrite take_app_le; [done|]. unfold zlen in Hn. lia.
Qed.

Lemma select_nil c count :
  consumer_wf c -> 0 <= count -> consume_select (c_buffers c) count 0 = [] ->
  Z.min count (zlen (consumer_stream c)) = 0.
Proof.
  intros Hc H0 E. destruct (select_enough c count Hc H0) as (_ & H & _).
  rewrite E in H. unfold zlen at 1 in H. cbn in H. lia.
Qed.

Lemma reader_read_stream c hm buf :
  consumer_wf c ->
  let n := Z.min (zlen buf) (zlen (consumer_stream c)) in
  exists c', reader_read buf (c, hm) =
      (Ok (n, stream_read hm (take (Z.to_nat n) (consumer_stream c)) ++ drop (Z.to_nat n) buf),
       (c', hm)) /\
    consumer_wf c' /\ consumer_stream c' = drop (Z.to_nat n) (consumer_stream c) /\
    c_bytes_consumed c' = c_bytes_consumed c + n.
Proof.
  intros Hc n. pose proof (zlen_nonneg buf) as Hl. unfold reader_read.
  destruct (select_enough c (zlen buf) Hc Hl) as (Hw & Hmin & Htk).
  pose proof (zlen_nonneg (consumer_stream c)).
  destruct (decide (consume_select (c_buffers c) (zlen buf) 0 = [])) as [E|E].
  - pose proof (select_nil c _ Hc Hl E) as E0. fold n in E0.
    unfold consume. run_St. rewrite E. run_St. exists c. rewrite E0. cbn. by rewrite Z.add_0_r.
  - set (f := fun bufs '(hm, buf) => let '(buf', total) := gather hm bufs buf in
                (Ok (E:=IoError) total, (hm, buf'))).
    pose proof (gather_stream hm _ buf Hw) as Hg. cbv zeta in Hg. rewrite Hmin in Hg. fold n in Hg.
    destruct (consume_ok (zlen buf) f c (hm, buf) n
      (hm, stream_read hm (take (Z.to_nat n) (consumer_stream c)) ++ drop (Z.to_nat n) buf))
      as (c' & -> & Hc' & Hs & Hn); try done.
    + unfold f. rewrite Hg. rewrite Htk by lia. done.
    + lia.
    + exists c'. done.
Qed.

(** Reading all that is there. *)
Lemma read_available rd hm :
  consumer_wf rd ->
  (reader_read (replicate (Z.to_nat (zlen (consumer_stream rd))) 0) (rd, hm)).1 =
    Ok (zlen (consumer_stream rd), stream_read hm (consumer_stream rd)).
Proof.
  intros Hwf. set (n := zlen (consumer_stream rd)).
  destruct (reader_read_stream rd hm (replicate (Z.to_nat n) 0) Hwf) as (c' & -> & _).
  assert (zlen (replicate (Z.to_nat n) 0) = n) as ->
    by (unfold n, zlen; rewrite length_replicate; lia).
  fold n. rewrite Z.min_id. cbn [fst]. do 2 f_equal. unfold n, zlen. rewrite Nat2Z.id.
  rewrite take_ge, drop_ge by (rewrite ?length_replicate; lia). by rewrite app_nil_r.
Qed.

Lemma writer_write_stream c hm buf :
  consumer_wf c ->
  let n := Z.min (zlen buf) (zlen (consumer_stream c)) in
  exists c' hm', writer_write buf (c, hm) = (Ok n, (c', hm')) /\
    consumer_wf c' /\ consumer_stream c' = drop (Z.to_nat n) (consumer_stream c) /\
    c_bytes_consumed c' = c_bytes_consumed c + n /\
    forall x, hm' x = stream_write hm (take (Z.to_nat n) (consumer_stream c))
                        (take (Z.to_nat n) buf) x.
Proof.
  intros Hc n. pose proof (zlen_nonneg buf) as Hl. unfold writer_write.
  destruct (select_enough c (zlen buf) Hc Hl) as (Hw & Hmin & Htk).
  pose proof (zlen_nonneg (consumer_stream c)).
  destruct (decide (consume_select (c_buffers c) (zlen buf) 0 = [])) as [E|E].
  - pose proof (select_nil c _ Hc Hl E) as E0. fold n in E0.
    unfold consume. run_St. rewrite E. run_St. exists c, hm. rewrite E0. cbn.
    by rewrite Z.add_0_r.
  - set (f := fun bufs hm => let '(hm', total) := scatter hm bufs buf in
                (Ok (E:=IoError) total, hm')).
    destruct (scatter_stream hm _ buf Hw) as (hm' & Hg & Hhm). rewrite Hmin in *. fold n in Hg, Hhm.
    destruct (consume_ok (zlen buf) f c hm n hm') as (c' & -> & Hc' & Hs & Hn); try done.
    + unfold f. by rewrite Hg.
    + lia.
    + exists c', hm'. split_and!; try done. intros x. rewrite Hhm. rewrite Htk by lia. done.
Qed.

Lemma reader_read_exact_stream c hm buf :
  consumer_wf c ->
  exists c', consumer_wf c' /\
    (if zlen buf <=? zlen (consumer_stream c)
     then reader_read_exact buf (c, hm) =
            (Ok (stream_read hm (take (length buf) (consumer_stream c))), (c', hm)) /\
          consumer_stream c' = drop (length buf) (consumer_stream c) /\
          c_bytes_consumed c' = c_bytes_consumed c + zlen buf
     else reader_read_exact buf (c, hm) = (Err IoUnexpectedEof, (c', hm)) /\
          consumer_stream c' = [] /\
          c_bytes_consumed c' = c_bytes_consumed c + zlen (consumer_stream c)).
Proof.
  intros Hc. unfold reader_read_exact. destruct buf as [|b buf'] eqn:Eb.
  - exists c. cbn [zlen length Z.of_nat]. rewrite (proj2 (Z.leb_le _ _)) by apply zlen_nonneg.
    split_and!; [done|done|done|]. unfold zlen; cbn. lia.
  - rewrite <- Eb. assert (0 < zlen buf) as Hpos by (subst; unfold zlen; cbn; lia).
    pose proof (zlen_nonneg (consumer_stream c)).
    destruct (reader_read_stream c hm buf Hc) as (c1 & Hr & Hc1 & Hs1 & Hn1).
    set (n := Z.min (zlen buf) (zlen (consumer_stream c))) in *.
    assert (reader_read_exact_loop (S (length buf)) buf (c, hm) =
      (if n =? 0 then (Err IoUnexpectedEof, (c1, hm))
       else Mmap (fun o => rest ← o; Ok (stream_read hm (take (Z.to_nat n) (consumer_stream c)) ++ rest))
              (reader_read_exact_loop (length buf) (drop (Z.to_nat n) buf)) (c1, hm))) as ->.
    { rewrite Eb at 2. cbn [reader_read_exact_loop]. rewrite <- Eb.
      assert (length (stream_read hm (take (Z.to_nat n) (consumer_stream c))) = Z.to_nat n) as Hln
        by (unfold stream_read; rewrite length_map, length_take; unfold zlen in *; lia).
      run_St. rewrite Hr. run_St. destruct (n =? 0); [done|]. run_St.
      rewrite drop_app_length', take_app_length' by done.
      destruct (reader_read_exact_loop _ _ _) as [[]?]; done. }
    destruct (Z.leb_spec (zlen buf) (zlen (consumer_stream c))).
    + assert (n = zlen buf) as En by lia. rewrite (proj2 (Z.eqb_neq n 0)) by lia.
      rewrite En. unfold zlen at 2. rewrite Nat2Z.id, drop_all.
      assert (reader_read_exact_loop (length buf) [] (c1, hm) = (Ok [], (c1, hm))) as E1
        by (destruct (length buf); done).
      unfold Mmap. rewrite E1. run_M. exists c1. split; [done|].
      rewrite Hs1, Hn1, En, app_nil_r. unfold zlen. by rewrite Nat2Z.id.
    + assert (n = zlen (consumer_stream c)) as En by lia.
      destruct (Z.eqb_spec n 0) as [E0|E0].
      * exists c1. split_and!; [done|done| |lia].
        rewrite Hs1, En. unfold zlen. by rewrite Nat2Z.id, drop_all.
      * assert (consumer_stream c1 = []) as Hs0
          by (rewrite Hs1, En; unfold zlen; by rewrite Nat2Z.id, drop_all).
        destruct (reader_read_stream c1 hm (drop (Z.to_nat n) buf) Hc1) as (c2 & Hr2 & Hc2 & Hs2 & Hn2).
        rewrite Hs0 in Hr2, Hs2, Hn2.
        replace (Z.min (zlen (drop (Z.to_nat n) buf)) (zlen (@nil Z))) with 0 in *
          by (pose proof (zlen_nonneg (drop (Z.to_nat n) buf)); unfold zlen at 2; cbn; lia).
        exists c2. split; [done|].
        assert (reader_read_exact_loop (length buf) (drop (Z.to_nat n) buf) (c1, hm) =
          (Err IoUnexpectedEof, (c2, hm))) as E2.
        { destruct (drop (Z.to_nat n) buf) as [|x rest] eqn:Ed.
          - apply (f_equal length) in Ed. rewrite length_drop in Ed. unfold zlen in *. cbn in Ed. lia.
          - rewrite Eb. cbn [length reader_read_exact_loop]. run_St. by rewrite Hr2. }
        unfold Mmap. rewrite E2. run_M. split_and!; [done|by rewrite Hs2|lia].
Qed.

Lemma writer_write_all_stream c hm buf :
  consumer_wf c ->
  let n := Z.min (zlen buf) (zlen (consumer_stream c)) in
  exists c' hm', consumer_wf c' /\
    writer_write_all buf (c, hm) =
      ((if zlen buf <=? zlen (consumer_stream c) then Ok tt else Err IoWriteZero), (c', hm')) /\
    consumer_stream c' = drop (Z.to_nat n) (consumer_stream c) /\
    c_bytes_consumed c' = c_bytes_consumed c + n /\
    forall x, hm' x = stream_write hm (take (Z.to_nat n) (consumer_stream c))
                        (take (Z.to_nat n) buf) x.
Proof.
  intros Hc. cbv zeta. unfold writer_write_all. destruct buf as [|b buf'] eqn:Eb.
  - exists c, hm. pose proof (zlen_nonneg (consumer_stream c)).
    change (zlen (@nil Z)) with 0. rewrite (proj2 (Z.leb_le _ _)) by lia.
    rewrite Z.min_l by lia. split_and!; [done|done|done|lia|done].
  - rewrite <- Eb. assert (0 < zlen buf) as Hpos by (subst buf; unfold zlen; cbn; lia).
    pose proof (zlen_nonneg (consumer_stream c)).
    destruct (writer_write_stream c hm buf Hc) as (c1 & hm1 & Hr & Hc1 & Hs1 & Hn1 & Hw).
    set (n := Z.min (zlen buf) (zlen (consumer_stream c))) in *.
    assert (writer_write_all_loop (S (length buf)) buf (c, hm) =
      (if n =? 0 then (Err IoWriteZero, (c1, hm1))
       else writer_write_all_loop (length buf) (drop (Z.to_nat n) buf) (c1, hm1))) as ->.
    { rewrite Eb at 2. cbn [writer_write_all_loop]. rewrite <- Eb.
      run_St. rewrite Hr. run_St. by destruct (n =? 0). }
    destruct (Z.leb_spec (zlen buf) (zlen (consumer_stream c))).
    + rewrite (proj2 (Z.eqb_neq n 0)) by lia.
      replace (drop (Z.to_nat n) buf) with (@nil Z)
        by (symmetry; apply nil_length_inv; rewrite length_drop; unfold zlen in *; lia).
      exists c1, hm1. split_and!; try done. destruct (length buf); done.
    + destruct (Z.eqb_spec n 0) as [E0|E0]; [by exists c1, hm1|].
      assert (consumer_stream c1 = []) as Hs0
        by (rewrite Hs1; apply nil_length_inv; rewrite length_drop; unfold zlen in *; lia).
      destruct (writer_write_stream c1 hm1 (drop (Z.to_nat n) buf) Hc1)
        as (c2 & hm2 & Hr2 & Hc2 & Hs2 & Hn2 & Hw2).
      rewrite Hs0 in Hr2, Hs2, Hn2, Hw2.
      replace (Z.min (zlen (drop (Z.to_nat n) buf)) (zlen (@nil Z))) with 0 in *
        by (pose proof (zlen_nonneg (drop (Z.to_nat n) buf)); unfold zlen at 2; cbn; lia).
      exists c2, hm2. split_and!; [done| |by rewrite Hs2, Hs1 in *; rewrite Hs0|lia|].
      * destruct (drop (Z.to_nat n) buf) as [|x rest] eqn:Ed.
        -- apply (f_equal length) in Ed. rewrite length_drop in Ed. unfold zlen in *. cbn in Ed. lia.
        -- rewrite Eb. cbn [length writer_write_all_loop]. run_St. by rewrite Hr2.
      * intros x. rewrite Hw2. cbn. apply Hw.
Qed.

End stream_io.

(** *** Construction *)

(** The slice of a descriptor: its guest range inside one region, as the host
    range behind it. *)
Definition slice_of_desc (mm : MemoryManager) (d : DescriptorChain) (vs : VolatileSlice) : Prop :=
  exists r h, region_at mm (dc_addr d) = Some r /\ mr_hpa r = Some h /\
    vs = vs_with_bitmap (h + (dc_addr d - mr_gpa r)) (dc_len d) /\
    dc_addr d + dc_len d <= mr_gpa r + mr_size r.

Section construction.
Context {prof : Profile} (mm : MemoryManager).

Lemma chain_slices_ok descs total bufs :
  regions_wf mm ->
  chain_slices mm descs total = Ok bufs -> Forall2 (slice_of_desc mm) descs bufs.
Proof.
  intros Hwf. revert total bufs. induction descs as [|d descs IH]; intros total bufs.
  - cbn. intros [= <-]. constructor.
  - cbn [chain_slices]. unfold chain_slice.
    destruct (checked_add 64 total (dc_len d)) as [t|]; [|done]. run_M.
    rewrite find_region_wf by done. run_M.
    destruct (region_at mm (dc_addr d)) as [r|] eqn:Er; [|done]. run_M.
    unfold addr_checked_sub. destruct (checked_sub (dc_addr d) (mr_gpa r)) as [off|] eqn:Eo; [|done].
    run_M. apply checked_sub_Some in Eo as [-> _]. unfold region_get_slice.
    destruct (checked_add 64 (dc_addr d - mr_gpa r) (dc_len d)) as [e|] eqn:Ee; [|done]. run_M.
    apply checked_add_Some in Ee as [-> _].
    destruct (Z.ltb_spec (mr_size r) (dc_addr d - mr_gpa r + dc_len d)); [done|].
    destruct (mr_hpa r) as [h|] eqn:Eh; [|done]. run_M.
    destruct (chain_slices mm descs t) as [rest| | |] eqn:Es; try done. run_M. intros [= <-].
    constructor; [|by eapply IH]. exists r, h. split_and!; try done. lia.
Qed.

End construction.

(** ** Properties *)

(** C5: scatter and gather round trip.  Bytes written through a writer whose
    buffers do not overlap are read back by a reader over the same buffers,
    however the chain cuts them into descriptors; both are left at the same
    place, and host memory outside the written prefix of the buffers is
    unchanged. *)
Theorem write_all_read_exact c hm bs buf :
  consumer_wf c -> NoDup (consumer_stream c) -> length buf = length bs ->
  zlen bs <= zlen (consumer_stream c) ->
  exists c1 c2 hm',
    writer_write_all bs (c, hm) = (Ok tt, (c1, hm')) /\
    reader_read_exact buf (c, hm') = (Ok bs, (c2, hm')) /\
    consumer_stream c1 = consumer_stream c2 /\ c_bytes_consumed c1 = c_bytes_consumed c2 /\
    forall x, x ∉ take (length bs) (consumer_stream c) -> hm' x = hm x.
Proof.
  intros Hc Hnd Hlen Hle.
  destruct (writer_write_all_stream c hm bs Hc) as (c1 & hm' & _ & Hw & Hs1 & Hn1 & Hhm).
  rewrite (proj2 (Z.leb_le _ _)) in Hw by done. rewrite Z.min_l in * by done.
  assert (Z.to_nat (zlen bs) = length bs) as El by (unfold zlen; lia). rewrite El in *.
  rewrite (take_ge bs) in Hhm by lia.
  destruct (reader_read_exact_stream c hm' buf Hc) as (c2 & _ & Hr).
  assert (zlen buf = zlen bs) as Eb by (unfold zlen; lia).
  rewrite Eb, (proj2 (Z.leb_le _ _)) in Hr by done. destruct Hr as (Hr & Hs2 & Hn2).
  exists c1, c2, hm'. split_and!; [done| |by rewrite Hs1, Hs2, Hlen|lia|].
  - rewrite Hr, Hlen. do 2 f_equal. unfold stream_read.
    rewrite (map_ext _ (stream_write hm (take (length bs) (consumer_stream c)) bs)) by done.
    apply stream_read_write.
    + rewrite <- (take_drop (length bs) (consumer_stream c)) in Hnd.
      by apply NoDup_app in Hnd as [? _].
    + rewrite length_take. unfold zlen in *. lia.
  - intros x Hx. rewrite Hhm. by apply stream_write_notin.
Qed.

(** Three buffers of 3, 0 and 5 bytes at scattered addresses. *)
Definition example_consumer : Consumer :=
  {| c_buffers := [vs_with_bitmap 5000 3; vs_with_bitmap 7000 0; vs_with_bitmap 6000 5];
     c_bytes_consumed := 0 |}.

Lemma example_consumer_wf : consumer_wf example_consumer.
Proof.
  split.
  - repeat constructor; cbn; lia.
  - cbn. lia.
  - vm_compute. reflexivity.
Qed.

Lemma write_all_read_exact_witness :
  exists c1 c2 hm',
    writer_write_all [10; 20; 30; 40; 50] (example_consumer, fun _ => 0)
      = (Ok tt, (c1, hm')) /\
    reader_read_exact (replicate 5 0) (example_consumer, hm')
      = (Ok [10; 20; 30; 40; 50], (c2, hm')) /\
    consumer_stream c1 = consumer_stream c2 /\ c_bytes_consumed c1 = c_bytes_consumed c2 /\
    forall x, x ∉ take 5 (consumer_stream example_consumer) -> hm' x = 0.
Proof.
  apply (write_all_read_exact example_consumer (fun _ => 0)
           [10; 20; 30; 40; 50] (replicate 5 0)).
  - apply example_consumer_wf.
  - apply (bool_decide_unpack _). vm_compute. exact I.
  - reflexivity.
  - vm_compute. discriminate.
Defined.

(** [consume] keeps the books.  Whatever the closure does, if it reports
    [n] bytes of the buffers it leaves the stream without its first [n] bytes,
    and bytes consumed and bytes available keep their sum; the slices it hands
    to the closure are the shortest prefix of the buffers that covers [count]
    bytes (or all of them), whole, so their total can exceed [count]. *)
Theorem consume_accounts_bytes {prof : Profile} {St} count
    (f : list VolatileSlice -> M St IoError Z) c s n s' :
  consumer_wf c -> 0 < count -> c_buffers c <> [] ->
  let sel := consume_select (c_buffers c) count 0 in
  f sel s = (Ok n, s') -> 0 <= n <= zlen (consumer_stream c) ->
  sel `prefix_of` c_buffers c /\
  Z.min count (zlen (consumer_stream c)) <= zlen (stream sel) /\
  exists c', consume count f (c, s) = (Ok n, (c', s')) /\
    consumer_stream c' = drop (Z.to_nat n) (consumer_stream c) /\
    consumer_available_bytes (E:=IoError) c' = Ok (zlen (consumer_stream c) - n) /\
    consumer_bytes_consumed c' = consumer_bytes_consumed c + n.
Proof.
  intros Hc Hcount Hne sel Hf Hn.
  destruct (consume_select_prefix (c_buffers c) count 0) as (k & Hsel & Hk);
    [apply Hc|lia|]. fold sel in Hsel. rewrite Z.sub_0_r, <- Hsel in Hk.
  split_and!; [|done|].
  - rewrite Hsel. exists (drop k (c_buffers c)). by rewrite take_drop.
  - destruct (consume_ok count f c s n s' Hc Hf Hn) as (c' & -> & Hc' & Hs & Hb).
    { destruct (c_buffers c); [done|]. cbn. by rewrite (proj2 (Z.leb_gt _ _)) by lia. }
    exists c'. split_and!; [done|done| |done].
    rewrite available_bytes_stream, Hs, zlen_drop by done. done.
Qed.

(** A closure that reports the whole 8 bytes it was handed for a count of 4. *)
Definition greedy_closure (bufs : list VolatileSlice) : M unit IoError Z :=
  fun s => (Ok (zlen (stream bufs)), s).

Lemma consume_accounts_bytes_witness :
  let sel := consume_select (c_buffers example_consumer) 4 0 in
  sel `prefix_of` c_buffers example_consumer /\
  Z.min 4 (zlen (consumer_stream example_consumer)) <= zlen (stream sel) /\
  exists c', consume 4 greedy_closure (example_consumer, tt) = (Ok 8, (c', tt)) /\
    consumer_stream c' = drop (Z.to_nat 8) (consumer_stream example_consumer) /\
    consumer_available_bytes (prof:=dev_profile) (E:=IoError) c'
      = Ok (zlen (consumer_stream example_consumer) - 8) /\
    consumer_bytes_consumed c' = consumer_bytes_consumed example_consumer + 8.
Proof.
  apply (consume_accounts_bytes (prof:=dev_profile) 4 greedy_closure example_consumer tt 8 tt).
  - apply example_consumer_wf.
  - lia.
  - discriminate.
  - vm_compute. reflexivity.
  - split; [lia|]. vm_compute. discriminate.
Defined.

(** [split_at] at the boundary of two buffers splits the stream; inside a
    buffer it does not.  The first half gets the end of the split buffer
    instead of its beginning: the [rem] bytes before the split point are in
    neither half and the bytes after it are in both. *)
Theorem split_at_inside_buffer pre vs post n rem :
  bufs_wf (pre ++ vs :: post) -> 0 <= rem < vs_size vs ->
  let c := {| c_buffers := pre ++ vs :: post; c_bytes_consumed := n |} in
  exists c1 c2,
    consumer_split_at (zlen (stream pre) + rem) c = (Ok c2, c1) /\
    consumer_stream c1 = stream pre ++
      (if rem =? 0 then [] else drop (Z.to_nat rem) (slice_stream vs)) /\
    consumer_stream c2 = drop (Z.to_nat rem) (slice_stream vs) ++ stream post.
Proof.
  intros Hb Hrem c. apply Forall_app in Hb as [Hpre Hb]. apply Forall_cons in Hb as [Hvs Hpost].
  assert (split_position (pre ++ vs :: post) (zlen (stream pre) + rem)
          = (Some (length pre), rem)) as Hpos.
  { clear c. induction pre as [|p pre IH]; cbn [app split_position length].
    - unfold vs_len, zlen. cbn. rewrite (proj2 (Z.ltb_lt _ _)) by lia. done.
    - apply Forall_cons in Hpre as [Hp Hpre]. rewrite zlen_stream_cons by done.
      pose proof (zlen_nonneg (stream pre)). unfold vs_len at 1 2.
      rewrite (proj2 (Z.ltb_ge _ _)) by lia.
      replace (vs_size p + zlen (stream pre) + rem - vs_size p) with (zlen (stream pre) + rem) by lia.
      by rewrite (IH Hpre). }
  unfold consumer_split_at. run_St. unfold c. cbn [c_buffers]. rewrite Hpos.
  run_St. cbn [c_buffers c_bytes_consumed].
  rewrite take_app_length, drop_app_length. run_St.
  pose proof Hvs as (?&?&?).
  destruct (Z.ltb_spec 0 rem).
  - rewrite vs_offset_split by (done || lia). run_St. cbn [c_buffers c_bytes_consumed].
    do 2 eexists. split; [done|]. unfold consumer_stream. cbn [c_buffers].
    rewrite (proj2 (Z.eqb_neq rem 0)) by lia. rewrite drop_slice_stream by lia.
    rewrite stream_app. unfold stream at 2 3. cbn. by rewrite app_nil_r.
  - replace rem with 0 by lia. do 2 eexists. split; [done|]. unfold consumer_stream.
    cbn [c_buffers]. rewrite app_nil_r. cbn. done.
Qed.

Lemma split_at_inside_buffer_witness :
  let c := {| c_buffers := [vs_with_bitmap 5000 3; vs_with_bitmap 6000 5]; c_bytes_consumed := 0 |} in
  exists c1 c2,
    consumer_split_at (3 + 2) c = (Ok c2, c1) /\
    consumer_stream c1 = [5000; 5001; 5002; 6002; 6003; 6004] /\
    consumer_stream c2 = [6002; 6003; 6004].
Proof.
  apply (split_at_inside_buffer [vs_with_bitmap 5000 3] (vs_with_bitmap 6000 5)
           [] 0 2).
  - repeat constructor; cbn; lia.
  - cbn; lia.
Defined.

(** C33: the buffers of a reader and of a writer are guest memory.  When the
    construction succeeds, each buffer is the host range of one descriptor's
    guest range, inside a single region, so the devices can only touch host
    memory that belongs to the guest, whatever addresses and lengths the
    driver put in the descriptors. *)
Theorem reader_writer_within_guest {prof : Profile} mm hm chain cr cw :
  regions_wf mm ->
  reader_new mm hm chain = Ok cr -> writer_new mm hm chain = Ok cw ->
  (exists descs, chain_into_iter (E:=DescError) mm hm chain = Ok descs /\
     Forall2 (slice_of_desc mm) (chain_readable descs) (c_buffers cr) /\
     Forall2 (slice_of_desc mm) (chain_writable descs) (c_buffers cw)) /\
  forall a, a ∈ consumer_stream cr \/ a ∈ consumer_stream cw ->
    exists r h, r ∈ mm_regions mm /\ mr_hpa r = Some h /\ h <= a < h + mr_size r.
Proof.
  intros Hwf. unfold reader_new, writer_new.
  destruct (chain_into_iter mm hm chain) as [descs| | |]; try done. run_M.
  destruct (chain_slices mm (chain_readable descs) 0) as [br| | |] eqn:Er; try done.
  destruct (chain_slices mm (chain_writable descs) 0) as [bw| | |] eqn:Ew; try done.
  run_M. intros [= <-] [= <-]. cbn [c_buffers].
  apply chain_slices_ok in Er, Ew; [|done..]. split; [by exists descs|].
  assert (forall ds bufs, Forall2 (slice_of_desc mm) ds bufs -> forall a, a ∈ stream bufs ->
    exists r h, r ∈ mm_regions mm /\ mr_hpa r = Some h /\ h <= a < h + mr_size r) as Hin.
  { induction 1 as [|d vs ds bufs (r & h & Hr & Hh & -> & Hl) _ IH]; intros a Ha.
    - by apply not_elem_of_nil in Ha.
    - rewrite stream_cons in Ha. apply elem_of_app in Ha as [Ha|Ha]; [|by apply IH].
      unfold slice_stream in Ha. apply elem_of_seqZ in Ha. cbn in Ha.
      apply region_at_Some in Hr as [Hri Hc]. unfold region_contains in Hc.
      exists r, h. split_and!; [done|done|lia|lia]. }
  intros a [Ha|Ha]; [by eapply (Hin _ _ Er)|by eapply (Hin _ _ Ew)].
Qed.

Lemma reader_writer_within_guest_witness :
  let chain := table_chain example_queue example_hm 1048576 2 in
  let cr := {| c_buffers := [vs_with_bitmap 1064960 512; vs_with_bitmap 1060864 64];
               c_bytes_consumed := 0 |} in
  let cw := {| c_buffers := []; c_bytes_consumed := 0 |} in
  (exists descs, chain_into_iter (prof:=dev_profile) (E:=DescError) example_mm example_hm chain
                   = Ok descs /\
     Forall2 (slice_of_desc example_mm) (chain_readable descs) (c_buffers cr) /\
     Forall2 (slice_of_desc example_mm) (chain_writable descs) (c_buffers cw)) /\
  forall a, a ∈ consumer_stream cr \/ a ∈ consumer_stream cw ->
    exists r h, r ∈ mm_regions example_mm /\ mr_hpa r = Some h /\ h <= a < h + mr_size r.
Proof.
  apply (reader_writer_within_guest (prof:=dev_profile) example_mm example_hm
           (table_chain example_queue example_hm 1048576 2)).
  - apply (mm_wf_regions _ example_mm_wf).
  - vm_compute. reflexivity.
  - vm_compute. reflexivity.
Defined.
