(* ===== verification/Irqchip.v ===== *)
(** * Irqchip: interrupt controllers, [src/devices/event.rs] and
      [src/devices/legacy]

    Events, the interface [IrqChipT] through which the virtio transport raises
    and lowers its line, and the two implementations: the software IOAPIC and
    the placeholder chip.  Every [WHvRequestInterrupt] the IOAPIC makes is
    appended to a log in its state. *)

From S2P Require Import Prelude Bytes.

(** ** Events

    [SetEvent] and [WaitForSingleObject] act on a Windows handle: [Ev] is the
    kernel object behind it. *)
Class WinEvent (Ev : Type) : Type := {
  CreateEventW : out Z Ev;
  SetEvent : Ev -> out Z Ev;
  (** the wait code and the object after the wait *)
  WaitForSingleObject : Ev -> Z -> Z * Ev;
}.

Section event.
Context {Ev : Type} `{!WinEvent Ev}.

(** The handle [CreateEventW] returns is valid: the check after it repeats the
    one of the [windows] crate. *)
(* src/devices/event.rs:17-30, WindowsEvent::new *)
Definition event_new : out Z Ev := CreateEventW.

(* src/devices/event.rs:32-34, WindowsEvent::signal *)
Definition event_signal (e : Ev) : out Z Ev := SetEvent e.

Definition WAIT_OBJECT_0 : Z := 0.

(* src/devices/event.rs:36-39, WindowsEvent::wait *)
Definition event_wait (e : Ev) (timeout_ms : Z) : bool * Ev :=
  let '(res, e') := WaitForSingleObject e timeout_ms in (res =? WAIT_OBJECT_0, e').

End event.

(** ** The interface *)

(* src/devices/legacy/irqchip.rs:49-64, IrqChipT *)
Class IrqChipT (C Ev : Type) : Type := {
  get_mmio_addr : C -> Z;
  get_mmio_size : C -> Z;
  (** the event is returned as [set_irq] leaves it *)
  set_irq : option Z -> option Ev -> M C string (option Ev);
  clear_irq : option Z -> M C string unit;
}.

(** ** [SimpleIrqChip] *)

(* src/devices/legacy/simple_irqchip.rs:10-17, SimpleIrqChip *)
Record SimpleIrqChip : Type := {
  sc_mmio_addr : Z;
  sc_mmio_size : Z;
  sc_irq_line : option Z;
}.

(* src/devices/legacy/simple_irqchip.rs:21-31, SimpleIrqChip::new *)
Definition simple_irqchip_new (mmio_addr mmio_size : Z) : SimpleIrqChip :=
  {| sc_mmio_addr := mmio_addr; sc_mmio_size := mmio_size; sc_irq_line := None |}.

(** The error message holds the OS error, which is not kept. *)
(* src/devices/legacy/simple_irqchip.rs:52-65, SimpleIrqChip::set_irq *)
Definition simple_set_irq {Ev} `{!WinEvent Ev} (irq_line : option Z) (evt : option Ev) :
    M SimpleIrqChip string (option Ev) :=
  _ ← modify (fun s => {| sc_mmio_addr := sc_mmio_addr s; sc_mmio_size := sc_mmio_size s;
                          sc_irq_line := irq_line |});
  match evt with
  | Some e =>
      e' ← lift (map_err (fun _ => "Failed to signal interrupt event"%string) (event_signal e));
      mret (Some e')
  | None => mret None
  end.

(* src/devices/legacy/simple_irqchip.rs:43-71, IrqChipT for SimpleIrqChip *)
Instance simple_irqchip_chip {Ev} `{!WinEvent Ev} : IrqChipT SimpleIrqChip Ev :=
  {| get_mmio_addr := sc_mmio_addr; get_mmio_size := sc_mmio_size;
     set_irq := simple_set_irq; clear_irq _ := mret tt |}.

(** ** The IOAPIC *)

(* src/devices/legacy/ioapic.rs:16-16, IOAPIC_NUM_PINS *)
Definition IOAPIC_NUM_PINS : nat := 24.
(* src/devices/legacy/ioapic.rs:18-19, IO_REG_SEL *)
Definition IO_REG_SEL : Z := 0.
(* src/devices/legacy/ioapic.rs:20-20, IO_WIN *)
Definition IO_WIN : Z := 16.
(* src/devices/legacy/ioapic.rs:21-21, IO_EOI *)
Definition IO_EOI : Z := 64.
(* src/devices/legacy/ioapic.rs:23-24, IO_APIC_ID *)
Definition IO_APIC_ID : Z := 0.
(* src/devices/legacy/ioapic.rs:25-25, IO_APIC_VER *)
Definition IO_APIC_VER : Z := 1.
(* src/devices/legacy/ioapic.rs:26-26, IO_APIC_ARB *)
Definition IO_APIC_ARB : Z := 2.

(* src/devices/legacy/ioapic.rs:28-29, IOAPIC_LVT_DELIV_MODE_SHIFT *)
Definition IOAPIC_LVT_DELIV_MODE_SHIFT : Z := 8.
(* src/devices/legacy/ioapic.rs:30-30, IOAPIC_LVT_DEST_MODE_SHIFT *)
Definition IOAPIC_LVT_DEST_MODE_SHIFT : Z := 11.
(* src/devices/legacy/ioapic.rs:31-31, IOAPIC_LVT_DELIV_STATUS_SHIFT *)
Definition IOAPIC_LVT_DELIV_STATUS_SHIFT : Z := 12.
(* src/devices/legacy/ioapic.rs:32-32, IOAPIC_LVT_REMOTE_IRR_SHIFT *)
Definition IOAPIC_LVT_REMOTE_IRR_SHIFT : Z := 14.
(* src/devices/legacy/ioapic.rs:33-33, IOAPIC_LVT_TRIGGER_MODE_SHIFT *)
Definition IOAPIC_LVT_TRIGGER_MODE_SHIFT : Z := 15.
(* src/devices/legacy/ioapic.rs:34-34, IOAPIC_LVT_MASKED_SHIFT *)
Definition IOAPIC_LVT_MASKED_SHIFT : Z := 16.
(* src/devices/legacy/ioapic.rs:35-35, IOAPIC_LVT_DEST_IDX_SHIFT *)
Definition IOAPIC_LVT_DEST_IDX_SHIFT : Z := 56.
(* src/devices/legacy/ioapic.rs:37-37, IOAPIC_VER_ENTRIES_SHIFT *)
Definition IOAPIC_VER_ENTRIES_SHIFT : Z := 16.
(* src/devices/legacy/ioapic.rs:38-38, IOAPIC_ID_SHIFT *)
Definition IOAPIC_ID_SHIFT : Z := 24.

(* src/devices/legacy/ioapic.rs:40-41, IOAPIC_LVT_REMOTE_IRR *)
Definition IOAPIC_LVT_REMOTE_IRR : Z := Z.shiftl 1 IOAPIC_LVT_REMOTE_IRR_SHIFT.
(* src/devices/legacy/ioapic.rs:42-42, IOAPIC_LVT_TRIGGER_MODE *)
Definition IOAPIC_LVT_TRIGGER_MODE : Z := Z.shiftl 1 IOAPIC_LVT_TRIGGER_MODE_SHIFT.
(* src/devices/legacy/ioapic.rs:43-43, IOAPIC_LVT_DELIV_STATUS *)
Definition IOAPIC_LVT_DELIV_STATUS : Z := Z.shiftl 1 IOAPIC_LVT_DELIV_STATUS_SHIFT.
(* src/devices/legacy/ioapic.rs:45-45, IOAPIC_RO_BITS *)
Definition IOAPIC_RO_BITS : Z := Z.lor IOAPIC_LVT_REMOTE_IRR IOAPIC_LVT_DELIV_STATUS.
(* src/devices/legacy/ioapic.rs:46-46, IOAPIC_RW_BITS *)
Definition IOAPIC_RW_BITS : Z := wnot 64 IOAPIC_RO_BITS.
(* src/devices/legacy/ioapic.rs:48-48, IOAPIC_DM_MASK *)
Definition IOAPIC_DM_MASK : Z := 7.
(* src/devices/legacy/ioapic.rs:49-49, IOAPIC_ID_MASK *)
Definition IOAPIC_ID_MASK : Z := 15.
(* src/devices/legacy/ioapic.rs:50-50, IOAPIC_VECTOR_MASK *)
Definition IOAPIC_VECTOR_MASK : Z := 255.

(* src/devices/legacy/ioapic.rs:52-57, IOAPIC_DM_FIXED *)
Definition IOAPIC_DM_FIXED : Z := 0.
Definition IOAPIC_DM_LOWEST_PRIORITY : Z := 1.
Definition IOAPIC_DM_NMI : Z := 4.
Definition IOAPIC_DM_INIT : Z := 5.
Definition IOAPIC_DM_EXTINT : Z := 7.

(* src/devices/legacy/ioapic.rs:59-59, IOAPIC_REG_REDTBL_BASE *)
Definition IOAPIC_REG_REDTBL_BASE : Z := 16.
(* src/devices/legacy/ioapic.rs:60-60, IOAPIC_TRIGGER_EDGE *)
Definition IOAPIC_TRIGGER_EDGE : Z := 0.
(* src/devices/legacy/ioapic.rs:68-70, WHV_IC_TYPE_SHIFT *)
Definition WHV_IC_TYPE_SHIFT : Z := 0.
Definition WHV_IC_DEST_MODE_SHIFT : Z := 8.
Definition WHV_IC_TRIGGER_MODE_SHIFT : Z := 12.

(** The [WHV_INTERRUPT_TYPE] constants of the [windows] crate. *)
Class WhvInterruptTypes : Type := {
  WHvX64InterruptTypeFixed : Z;
  WHvX64InterruptTypeLowestPriority : Z;
  WHvX64InterruptTypeNmi : Z;
  WHvX64InterruptTypeInit : Z;
}.

(* src/devices/legacy/ioapic.rs:72-81, IoApicEntryInfo *)
Record IoApicEntryInfo : Type := {
  ei_masked : bool;
  ei_trig_mode : Z;
  ei_dest_idx : Z;
  ei_dest_mode : Z;
  ei_delivery_mode : Z;
  ei_vector : Z;
}.

(** [WHV_INTERRUPT_CONTROL] as built here. *)
Record InterruptControl : Type := {
  ic_bitfield : Z;
  ic_destination : Z;
  ic_vector : Z;
}.

(** The state behind the mutex, and the log of requests. *)
(* src/devices/legacy/ioapic.rs:95-113, IoApicInner *)
Record IoApic : Type := {
  ia_id : Z;
  ia_ioregsel : Z;
  ia_irr : Z;
  ia_ioredtbl : list Z;
  ia_version : Z;
  ia_irq_eoi : list Z;
  ia_requests : list InterruptControl;
}.

Definition ia_set_regsel (v : Z) (s : IoApic) : IoApic :=
  {| ia_id := ia_id s; ia_ioregsel := v; ia_irr := ia_irr s; ia_ioredtbl := ia_ioredtbl s;
     ia_version := ia_version s; ia_irq_eoi := ia_irq_eoi s; ia_requests := ia_requests s |}.
Definition ia_set_id (v : Z) (s : IoApic) : IoApic :=
  {| ia_id := v; ia_ioregsel := ia_ioregsel s; ia_irr := ia_irr s; ia_ioredtbl := ia_ioredtbl s;
     ia_version := ia_version s; ia_irq_eoi := ia_irq_eoi s; ia_requests := ia_requests s |}.
Definition ia_set_irr (v : Z) (s : IoApic) : IoApic :=
  {| ia_id := ia_id s; ia_ioregsel := ia_ioregsel s; ia_irr := v; ia_ioredtbl := ia_ioredtbl s;
     ia_version := ia_version s; ia_irq_eoi := ia_irq_eoi s; ia_requests := ia_requests s |}.
Definition ia_set_redtbl (i : nat) (v : Z) (s : IoApic) : IoApic :=
  {| ia_id := ia_id s; ia_ioregsel := ia_ioregsel s; ia_irr := ia_irr s;
     ia_ioredtbl := <[i := v]> (ia_ioredtbl s);
     ia_version := ia_version s; ia_irq_eoi := ia_irq_eoi s; ia_requests := ia_requests s |}.
Definition ia_set_eoi (i : nat) (v : Z) (s : IoApic) : IoApic :=
  {| ia_id := ia_id s; ia_ioregsel := ia_ioregsel s; ia_irr := ia_irr s;
     ia_ioredtbl := ia_ioredtbl s; ia_version := ia_version s;
     ia_irq_eoi := <[i := v]> (ia_irq_eoi s); ia_requests := ia_requests s |}.
Definition ia_request (ic : InterruptControl) (s : IoApic) : IoApic :=
  {| ia_id := ia_id s; ia_ioregsel := ia_ioregsel s; ia_irr := ia_irr s;
     ia_ioredtbl := ia_ioredtbl s; ia_version := ia_version s;
     ia_irq_eoi := ia_irq_eoi s; ia_requests := ia_requests s ++ [ic] |}.

(** Entry [i] of the 24-entry array; indices are always below 24 where the
    code indexes. *)
Definition ia_entry (s : IoApic) (i : nat) : Z := nth i (ia_ioredtbl s) 0.

(* src/devices/legacy/ioapic.rs:120-133, IoApic::new *)
Definition ioapic_new : IoApic :=
  {| ia_id := 0; ia_ioregsel := 0; ia_irr := 0;
     ia_ioredtbl := replicate IOAPIC_NUM_PINS (Z.shiftl 1 IOAPIC_LVT_MASKED_SHIFT);
     ia_version := 32; ia_irq_eoi := replicate IOAPIC_NUM_PINS 0; ia_requests := [] |}.

(* src/devices/legacy/ioapic.rs:135-145, IoApic::parse_entry *)
Definition ioapic_parse_entry (entry : Z) : IoApicEntryInfo :=
  {| ei_vector := wrap 8 (Z.land entry IOAPIC_VECTOR_MASK);
     ei_delivery_mode :=
       wrap 8 (Z.land (Z.shiftr entry IOAPIC_LVT_DELIV_MODE_SHIFT) IOAPIC_DM_MASK);
     ei_dest_mode := wrap 8 (Z.land (Z.shiftr entry IOAPIC_LVT_DEST_MODE_SHIFT) 1);
     ei_trig_mode := wrap 8 (Z.land (Z.shiftr entry IOAPIC_LVT_TRIGGER_MODE_SHIFT) 1);
     ei_masked := negb (Z.land (Z.shiftr entry IOAPIC_LVT_MASKED_SHIFT) 1 =? 0);
     ei_dest_idx := wrap 8 (Z.land (Z.shiftr entry IOAPIC_LVT_DEST_IDX_SHIFT) 255) |}.

Section ioapic.
Context {prof : Profile} `{!WhvInterruptTypes}.

(** The argument of the request; its result is only logged. *)
(* src/devices/legacy/ioapic.rs:147-198, IoApic::inject_interrupt *)
Definition ioapic_inject_interrupt (info : IoApicEntryInfo) : InterruptControl :=
  let dm := ei_delivery_mode info in
  let interrupt_type :=
    if dm =? IOAPIC_DM_FIXED then WHvX64InterruptTypeFixed
    else if dm =? IOAPIC_DM_LOWEST_PRIORITY then WHvX64InterruptTypeLowestPriority
    else if dm =? IOAPIC_DM_NMI then WHvX64InterruptTypeNmi
    else if dm =? IOAPIC_DM_INIT then WHvX64InterruptTypeInit
    else if dm =? IOAPIC_DM_EXTINT then WHvX64InterruptTypeFixed
    else WHvX64InterruptTypeFixed in
  {| ic_bitfield :=
       Z.lor (Z.lor (wrap 64 (Z.shiftl (wrap 64 interrupt_type) WHV_IC_TYPE_SHIFT))
                    (Z.shiftl (ei_dest_mode info) WHV_IC_DEST_MODE_SHIFT))
             (Z.shiftl (ei_trig_mode info) WHV_IC_TRIGGER_MODE_SHIFT);
     ic_destination := ei_dest_idx info;
     ic_vector := ei_vector info |}.

(* src/devices/legacy/ioapic.rs:200-205, IoApic::fix_edge_remote_irr *)
Definition ioapic_fix_edge_remote_irr (index : nat) (s : IoApic) : IoApic :=
  if Z.land (ia_entry s index) IOAPIC_LVT_TRIGGER_MODE =? IOAPIC_TRIGGER_EDGE
  then ia_set_redtbl index (Z.land (ia_entry s index) (wnot 64 IOAPIC_LVT_REMOTE_IRR)) s
  else s.

(** The body of the loop over the pins. *)
(* src/devices/legacy/ioapic.rs:209-236, IoApic::service *)
Definition ioapic_service_pin (i : nat) (s : IoApic) : IoApic :=
  let mask := Z.shiftl 1 (Z.of_nat i) in
  if negb (Z.land (ia_irr s) mask =? 0) then
    let entry := ia_entry s i in
    let info := ioapic_parse_entry entry in
    if negb (ei_masked info) then
      if ei_trig_mode info =? IOAPIC_TRIGGER_EDGE then
        ia_request (ioapic_inject_interrupt info)
          (ia_set_irr (Z.land (ia_irr s) (wnot 32 mask)) s)
      else
        let coalesce := negb (Z.land (ia_entry s i) IOAPIC_LVT_REMOTE_IRR =? 0) in
        let s := ia_set_redtbl i (Z.lor (ia_entry s i) IOAPIC_LVT_REMOTE_IRR) s in
        if coalesce then s else ia_request (ioapic_inject_interrupt info) s
    else s
  else s.

(* src/devices/legacy/ioapic.rs:207-237, IoApic::service *)
Definition ioapic_service (s : IoApic) : IoApic :=
  foldl (fun s i => ioapic_service_pin i s) s (seq 0 IOAPIC_NUM_PINS).

(* src/devices/legacy/ioapic.rs:249-264, IoApic::set_irq *)
Definition ioapic_set_irq {Ev} (irq_line : option Z) (interrupt_evt : option Ev) :
    M IoApic string (option Ev) :=
  match irq_line with
  | Some irq =>
      if irq <? Z.of_nat IOAPIC_NUM_PINS then
        _ ← modify (fun s => ioapic_service (ia_set_irr (Z.lor (ia_irr s) (Z.shiftl 1 irq)) s));
        mret interrupt_evt
      else mret interrupt_evt
  | None => mret interrupt_evt
  end.

(* src/devices/legacy/ioapic.rs:266-274, IoApic::clear_irq *)
Definition ioapic_clear_irq (irq_line : option Z) : M IoApic string unit :=
  match irq_line with
  | Some irq =>
      if irq <? Z.of_nat IOAPIC_NUM_PINS then
        modify (fun s => ia_set_irr (Z.land (ia_irr s) (wnot 32 (Z.shiftl 1 irq))) s)
      else mret tt
  | None => mret tt
  end.

(* src/devices/legacy/ioapic.rs:240-247, IoApic::get_mmio_addr *)
Definition ioapic_get_mmio_addr (s : IoApic) : Z := 0xfec00000.
Definition ioapic_get_mmio_size (s : IoApic) : Z := 0x1000.

(** The register value of a read; [None] when the handler returns early.  The
    index subtraction is plain: below register 0x10 it overflows. *)
(* src/devices/legacy/ioapic.rs:278-332, IoApic::read *)
Definition ioapic_read_val {E} (s : IoApic) (offset : Z) (len : nat) : out E (option Z) :=
  if offset =? IO_REG_SEL then Ok (Some (ia_ioregsel s))
  else if offset =? IO_WIN then
    if negb (len =? 4)%nat then Ok None
    else if (ia_ioregsel s =? IO_APIC_ID) || (ia_ioregsel s =? IO_APIC_ARB) then
      Ok (Some (wrap 32 (wrap 64 (Z.shiftl (ia_id s) IOAPIC_ID_SHIFT))))
    else if ia_ioregsel s =? IO_APIC_VER then
      Ok (Some (Z.lor (ia_version s)
                  (Z.shiftl (Z.of_nat IOAPIC_NUM_PINS - 1) IOAPIC_VER_ENTRIES_SHIFT)))
    else
      d ← usub 64 (ia_ioregsel s) IOAPIC_REG_REDTBL_BASE;
      let index := Z.shiftr d 1 in
      if index <? Z.of_nat IOAPIC_NUM_PINS then
        let entry := ia_entry s (Z.to_nat index) in
        Ok (Some (if 0 <? Z.land (ia_ioregsel s) 1
                  then wrap 32 (Z.shiftr entry 32)
                  else wrap 32 (Z.land entry 0xffffffff)))
      else Ok (Some 0)
  else Ok (Some 0).

(** [to_ne_bytes] is little-endian on x86; the buffer's first four bytes at
    most are overwritten. *)
(* src/devices/legacy/ioapic.rs:334-338, IoApic::read *)
Definition ioapic_read {E} (offset : Z) (data : list Z) : M IoApic E (list Z) :=
  s ← gets id;
  v ← lift (ioapic_read_val s offset (length data));
  match v with
  | Some val => mret (zip_write data (le_bytes 4 val))
  | None => mret data
  end.

(** The write of one half of a redirection entry. *)
(* src/devices/legacy/ioapic.rs:386-409, IoApic::write *)
Definition ioapic_write_redtbl (index : nat) (high : bool) (val : Z) (s : IoApic) : IoApic :=
  let ro_bits := Z.land (ia_entry s index) IOAPIC_RO_BITS in
  let s :=
    if high then
      let s := ia_set_redtbl index (Z.land (ia_entry s index) 0xffffffff) s in
      ia_set_redtbl index (Z.lor (ia_entry s index) (wrap 64 (Z.shiftl val 32))) s
    else
      let s := ia_set_redtbl index (Z.land (ia_entry s index) (wnot 64 0xffffffff)) s in
      ia_set_redtbl index (Z.lor (ia_entry s index) val) s in
  let s := ia_set_redtbl index (Z.land (ia_entry s index) IOAPIC_RW_BITS) s in
  let s := ia_set_redtbl index (Z.lor (ia_entry s index) ro_bits) s in
  let s := ia_set_eoi index 0 s in
  ioapic_service (ioapic_fix_edge_remote_irr index s).

(** One pin of the EOI scan. *)
(* src/devices/legacy/ioapic.rs:419-431, IoApic::write *)
Definition ioapic_eoi_pin (vector : Z) (i : nat) (s : IoApic) : IoApic :=
  let entry := ia_entry s i in
  let entry_vector := wrap 8 (Z.land entry IOAPIC_VECTOR_MASK) in
  if (entry_vector =? vector) && negb (Z.land entry IOAPIC_LVT_REMOTE_IRR =? 0) then
    let s := ia_set_redtbl i (Z.land (ia_entry s i) (wnot 64 IOAPIC_LVT_REMOTE_IRR)) s in
    if negb (Z.land (ia_irr s) (Z.shiftl 1 (Z.of_nat i)) =? 0) then ioapic_service s else s
  else s.

(* src/devices/legacy/ioapic.rs:413-432, IoApic::write *)
Definition ioapic_eoi (vector : Z) (s : IoApic) : IoApic :=
  foldl (fun s i => ioapic_eoi_pin vector i s) s (seq 0 IOAPIC_NUM_PINS).

(* src/devices/legacy/ioapic.rs:340-438, IoApic::write *)
Definition ioapic_write {E} (offset : Z) (data : list Z) : M IoApic E unit :=
  if negb (length data =? 4)%nat then mret tt
  else
    let val := le_val data in
    if offset =? IO_REG_SEL then modify (ia_set_regsel (wrap 8 val))
    else if offset =? IO_WIN then
      s ← gets id;
      if ia_ioregsel s =? IO_APIC_ID then
        modify (ia_set_id (wrap 8 (Z.land (Z.shiftr val IOAPIC_ID_SHIFT) IOAPIC_ID_MASK)))
      else if (ia_ioregsel s =? IO_APIC_VER) || (ia_ioregsel s =? IO_APIC_ARB) then mret tt
      else if ia_ioregsel s <? wrap 8 IO_WIN then mret tt
      else
        d ← lift (usub 64 (ia_ioregsel s) IOAPIC_REG_REDTBL_BASE);
        let index := Z.shiftr d 1 in
        if Z.of_nat IOAPIC_NUM_PINS <=? index then mret tt
        else modify (ioapic_write_redtbl (Z.to_nat index) (0 <? Z.land (ia_ioregsel s) 1) val)
    else if offset =? IO_EOI then modify (ioapic_eoi (wrap 8 val))
    else mret tt.

End ioapic.

#[export] Instance ioapic_chip {Ev} `{!WhvInterruptTypes} : IrqChipT IoApic Ev :=
  {| get_mmio_addr := ioapic_get_mmio_addr; get_mmio_size := ioapic_get_mmio_size;
     set_irq := ioapic_set_irq; clear_irq := ioapic_clear_irq |}.

(** ** Lemmas *)

Record ioapic_wf (s : IoApic) : Prop := {
  iwf_len : length (ia_ioredtbl s) = IOAPIC_NUM_PINS;
  iwf_entries : Forall (fits 64) (ia_ioredtbl s);
  iwf_irr : fits 32 (ia_irr s);
  iwf_regsel : fits 8 (ia_ioregsel s);
  iwf_id : fits 8 (ia_id s);
}.

Lemma low_bit_zero e n :
  0 <= n -> (wrap 8 (Z.land (Z.shiftr e n) 1) =? 0) = negb (Z.testbit e n).
Proof.
  intros Hn. rewrite wrap_small.
  - change 1 with (bit 0). rewrite land_bit by lia. by rewrite Z.shiftr_spec, Z.add_0_l by lia.
  - change 1 with (Z.ones 1). rewrite Z.land_ones by lia.
    pose proof (Z.mod_pos_bound (Z.shiftr e n) (2 ^ 1) ltac:(lia)). unfold fits. lia.
Qed.

Lemma parse_edge e :
  (ei_trig_mode (ioapic_parse_entry e) =? IOAPIC_TRIGGER_EDGE) = negb (Z.testbit e 15).
Proof. apply low_bit_zero. unfold IOAPIC_LVT_TRIGGER_MODE_SHIFT. lia. Qed.

Lemma parse_masked e : ei_masked (ioapic_parse_entry e) = Z.testbit e 16.
Proof.
  cbn [ei_masked ioapic_parse_entry]. change 1 with (bit 0). rewrite land_bit by lia.
  rewrite Z.shiftr_spec, negb_involutive by lia. done.
Qed.

Lemma entry_fits s i : ioapic_wf s -> fits 64 (ia_entry s i).
Proof.
  intros Hs. unfold ia_entry. destruct (nth_lookup_or_length (ia_ioredtbl s) i 0) as [H|H].
  - eapply Forall_lookup_1 in H; [done|apply Hs].
  - rewrite nth_overflow by done. unfold fits. lia.
Qed.

Lemma entry_set_eq s i v : (i < length (ia_ioredtbl s))%nat -> ia_entry (ia_set_redtbl i v s) i = v.
Proof.
  intros. unfold ia_entry. cbn. apply nth_lookup_Some. by apply list_lookup_insert_eq.
Qed.

Lemma entry_set_ne s i j v : i <> j -> ia_entry (ia_set_redtbl i v s) j = ia_entry s j.
Proof.
  intros. unfold ia_entry. cbn. rewrite !nth_lookup. by rewrite list_lookup_insert_ne.
Qed.

Lemma wf_set_redtbl s i v : ioapic_wf s -> fits 64 v -> ioapic_wf (ia_set_redtbl i v s).
Proof.
  intros [] Hv. split; cbn; try done.
  - by rewrite length_insert.
  - by apply Forall_insert.
Qed.

Lemma wf_set_irr s v : ioapic_wf s -> fits 32 v -> ioapic_wf (ia_set_irr v s).
Proof. intros [] Hv. by split. Qed.

Lemma wf_set_eoi s i v : ioapic_wf s -> ioapic_wf (ia_set_eoi i v s).
Proof. intros []. by split. Qed.

Lemma wf_request s r : ioapic_wf s -> ioapic_wf (ia_request r s).
Proof. intros []. by split. Qed.

Lemma rirr_bit : IOAPIC_LVT_REMOTE_IRR = bit 14.
Proof. done. Qed.

Lemma fits_rirr : fits 64 IOAPIC_LVT_REMOTE_IRR.
Proof. rewrite rirr_bit. apply fits_bit. lia. Qed.

Section service.
Context `{!WhvInterruptTypes}.

(** A pending pin that is not masked, and one that fires now. *)
Definition pin_active (s : IoApic) (i : nat) : bool :=
  Z.testbit (ia_irr s) (Z.of_nat i) && negb (Z.testbit (ia_entry s i) 16).
Definition pin_level (s : IoApic) (i : nat) : bool := Z.testbit (ia_entry s i) 15.
Definition pin_fires (s : IoApic) (i : nat) : bool :=
  pin_active s i && (negb (pin_level s i) || negb (Z.testbit (ia_entry s i) 14)).

Definition pin_request (s : IoApic) (i : nat) : list InterruptControl :=
  if pin_fires s i then [ioapic_inject_interrupt (ioapic_parse_entry (ia_entry s i))] else [].

(** The registers that a service pass has nothing to do with. *)
Definition ia_registers (s : IoApic) : Z * Z * Z * list Z :=
  (ia_id s, ia_ioregsel s, ia_version s, ia_irq_eoi s).

Lemma ia_registers_eq s s' :
  ia_registers s' = ia_registers s ->
  ia_id s' = ia_id s /\ ia_ioregsel s' = ia_ioregsel s /\ ia_version s' = ia_version s /\
  ia_irq_eoi s' = ia_irq_eoi s.
Proof. by intros [= -> -> -> ->]. Qed.

(** [s'] is [s] after the pins below [k] were serviced. *)
Record serviced (k : nat) (s s' : IoApic) : Prop := {
  sv_wf : ioapic_wf s';
  sv_irr j : 0 <= j -> Z.testbit (ia_irr s') j =
    Z.testbit (ia_irr s) j &&
      negb ((j <? Z.of_nat k) && pin_active s (Z.to_nat j) && negb (pin_level s (Z.to_nat j)));
  sv_entry i : ia_entry s' i =
    if (i <? k)%nat && pin_active s i && pin_level s i
    then Z.lor (ia_entry s i) IOAPIC_LVT_REMOTE_IRR else ia_entry s i;
  sv_requests : ia_requests s' = ia_requests s ++ concat (map (pin_request s) (seq 0 k));
  sv_regs : ia_registers s' = ia_registers s;
}.

Lemma ltb_S_ne i k : i <> k -> (i <? S k)%nat = (i <? k)%nat.
Proof. intros. destruct (Nat.ltb_spec i (S k)), (Nat.ltb_spec i k); try done; lia. Qed.

Lemma Zltb_S_ne j k : j <> Z.of_nat k -> (j <? Z.of_nat (S k)) = (j <? Z.of_nat k).
Proof.
  intros. destruct (Z.ltb_spec j (Z.of_nat (S k))), (Z.ltb_spec j (Z.of_nat k)); try done; lia.
Qed.

Lemma requests_S s k :
  concat (map (pin_request s) (seq 0 (S k))) =
    concat (map (pin_request s) (seq 0 k)) ++ pin_request s k.
Proof. rewrite seq_S, map_app, concat_app. cbn. by rewrite app_nil_r. Qed.

(** What the pass reads of pin [k] is still as it was at its start. *)
Lemma serviced_unread k s s' :
  serviced k s s' -> ia_entry s' k = ia_entry s k /\
  Z.testbit (ia_irr s') (Z.of_nat k) = Z.testbit (ia_irr s) (Z.of_nat k).
Proof.
  intros [_ Hirr Hent _ _]. split; [by rewrite Hent, Nat.ltb_irrefl|].
  rewrite Hirr, Z.ltb_irrefl by lia. cbn. by rewrite andb_true_r.
Qed.

(** Pin [k] adds its entry and its requests; its pending bit stays unless it is
    an active edge. *)
Lemma serviced_next k s s' s'' :
  serviced k s s' -> ioapic_wf s'' ->
  pin_active s k = false \/ pin_level s k = true -> ia_irr s'' = ia_irr s' ->
  (forall i, ia_entry s'' i =
     if (i =? k)%nat && pin_active s k && pin_level s k
     then Z.lor (ia_entry s k) IOAPIC_LVT_REMOTE_IRR else ia_entry s' i) ->
  ia_requests s'' = ia_requests s' ++ pin_request s k ->
  ia_registers s'' = ia_registers s' ->
  serviced (S k) s s''.
Proof.
  intros [_ Hirr Hent Hreq ?] Hwf Hor Ei Ee Er ?. split; [done| | | |congruence].
  - intros j Hj. rewrite Ei, Hirr by done. f_equal. f_equal.
    destruct (decide (j = Z.of_nat k)) as [->|]; [|by rewrite Zltb_S_ne].
    rewrite Nat2Z.id. destruct Hor as [-> | ->]; by rewrite ?andb_false_r.
  - intros i. rewrite Ee. destruct (Nat.eqb_spec i k) as [->|Hi].
    + rewrite (proj2 (Nat.ltb_lt k (S k))) by lia. cbn [andb]. case_match; [done|].
      by rewrite Hent, Nat.ltb_irrefl.
    + cbn [andb]. by rewrite Hent, ltb_S_ne.
  - by rewrite Er, Hreq, requests_S, app_assoc.
Qed.

Lemma service_level_pin k s s' :
  (k < IOAPIC_NUM_PINS)%nat -> ioapic_wf s -> serviced k s s' ->
  pin_active s k = true -> pin_level s k = true ->
  let marked := ia_set_redtbl k (Z.lor (ia_entry s k) IOAPIC_LVT_REMOTE_IRR) s' in
  serviced (S k) s
    (if Z.testbit (ia_entry s k) 14 then marked
     else ia_request (ioapic_inject_interrupt (ioapic_parse_entry (ia_entry s k))) marked).
Proof.
  intros Hk Hwf Hs Hact Hlev marked. unfold IOAPIC_NUM_PINS in Hk.
  assert (length (ia_ioredtbl s') = 24%nat) as Hlen by apply Hs.
  assert (ioapic_wf marked) as Hw.
  { apply wf_set_redtbl; [apply Hs|]. apply fits_lor; [lia|by apply entry_fits|apply fits_rirr]. }
  assert (forall i, ia_entry marked i = if (i =? k)%nat && pin_active s k && pin_level s k
    then Z.lor (ia_entry s k) IOAPIC_LVT_REMOTE_IRR else ia_entry s' i) as He.
  { intros i. rewrite Hact, Hlev. subst marked. destruct (Nat.eqb_spec i k) as [->|Hi]; cbn [andb].
    - by rewrite entry_set_eq by lia.
    - by rewrite entry_set_ne. }
  assert (pin_request s k = if Z.testbit (ia_entry s k) 14 then []
    else [ioapic_inject_interrupt (ioapic_parse_entry (ia_entry s k))]) as Hr.
  { unfold pin_request, pin_fires. rewrite Hact, Hlev. by destruct (Z.testbit _ 14). }
  destruct (Z.testbit (ia_entry s k) 14);
    (eapply serviced_next; [exact Hs|try apply wf_request; exact Hw|by right|done|exact He| |done]);
    rewrite Hr; [by rewrite app_nil_r|done].
Qed.

Lemma service_edge_pin k s s' :
  (k < IOAPIC_NUM_PINS)%nat -> serviced k s s' -> pin_active s k = true -> pin_level s k = false ->
  serviced (S k) s
    (ia_request (ioapic_inject_interrupt (ioapic_parse_entry (ia_entry s k)))
       (ia_set_irr (Z.land (ia_irr s') (wnot 32 (bit (Z.of_nat k)))) s')).
Proof.
  unfold IOAPIC_NUM_PINS. intros Hk [Hwf' Hirr Hent Hreq Hregs] Hact Hlev. split; [| | | |done].
  - apply wf_request, wf_set_irr; [done|].
    apply fits_land_l; [lia|apply Hwf'|]. apply fits_wnot, fits_bit. lia.
  - intros j Hj. cbn [ia_irr ia_request ia_set_irr].
    rewrite land_not_bit; [|apply Hwf'|lia]. rewrite Hirr by done.
    destruct (Z.eqb_spec j (Z.of_nat k)) as [->|]; [|by rewrite Zltb_S_ne, andb_true_r].
    rewrite Nat2Z.id, Hact, Hlev, (proj2 (Z.ltb_lt (Z.of_nat k) (Z.of_nat (S k)))) by lia.
    cbn. by rewrite !andb_false_r.
  - intros i. change (ia_entry (ia_request _ _) i) with (ia_entry s' i). rewrite Hent.
    destruct (decide (i = k)) as [->|Hi]; [by rewrite Hlev, !andb_false_r|by rewrite ltb_S_ne].
  - cbn [ia_requests ia_request ia_set_irr]. rewrite Hreq, requests_S.
    unfold pin_request at 3, pin_fires. rewrite Hact, Hlev. by rewrite <- app_assoc.
Qed.

Lemma service_pin_serviced k s s' :
  (k < IOAPIC_NUM_PINS)%nat ->
  ioapic_wf s -> serviced k s s' -> serviced (S k) s (ioapic_service_pin k s').
Proof.
  intros Hk Hwf Hs. destruct (serviced_unread k s s' Hs) as [Ek Eb].
  assert (pin_active s k = false -> serviced (S k) s s') as Hidle.
  { intros Hact. eapply serviced_next; [exact Hs|apply Hs|by left|done| | |done].
    - intros i. by rewrite Hact, andb_false_r.
    - unfold pin_request, pin_fires. rewrite Hact. by rewrite app_nil_r. }
  pose proof (service_level_pin k s s' Hk Hwf Hs) as Hlevel.
  pose proof (service_edge_pin k s s' Hk Hs) as Hedge.
  unfold pin_active, pin_level in *. unfold ioapic_service_pin.
  change (Z.shiftl 1 (Z.of_nat k)) with (bit (Z.of_nat k)).
  rewrite land_bit, negb_involutive, Eb, Ek, parse_masked, parse_edge by lia.
  change (Z.land (ia_entry s k) IOAPIC_LVT_REMOTE_IRR) with (Z.land (ia_entry s k) (bit 14)).
  rewrite land_bit, negb_involutive by lia.
  destruct (Z.testbit (ia_irr s) (Z.of_nat k)); [|by apply Hidle].
  destruct (Z.testbit (ia_entry s k) 16); cbn [negb andb] in *; [by apply Hidle|].
  destruct (Z.testbit (ia_entry s k) 15); cbn [negb]; [by apply Hlevel|by apply Hedge].
Qed.

Lemma service_serviced s : ioapic_wf s -> serviced IOAPIC_NUM_PINS s (ioapic_service s).
Proof.
  intros Hwf. unfold ioapic_service.
  assert (forall k, (k <= IOAPIC_NUM_PINS)%nat ->
    serviced k s (foldl (fun s i => ioapic_service_pin i s) s (seq 0 k))) as Hgen.
  { induction k as [|k IH]; intros Hk.
    - split; [done| | |cbn; by rewrite app_nil_r|done].
      + intros j Hj. destruct (Z.ltb_spec j (Z.of_nat 0)); [lia|]. cbn. by rewrite andb_true_r.
      + intros i. by destruct (Nat.ltb_spec i 0); [lia|].
    - rewrite seq_S, foldl_app. cbn [foldl]. apply service_pin_serviced; [lia|done|].
      apply IH. lia. }
  by apply Hgen.
Qed.

End service.

Section line.
Context `{!WhvInterruptTypes}.

(** A level-triggered, unmasked entry without its Remote IRR bit. *)
Definition level_entry (e : Z) : Prop :=
  fits 64 e /\ Z.testbit e 15 = true /\ Z.testbit e 16 = false /\ Z.testbit e 14 = false.

(** The line [p] alone may be pending, and its interrupt is in service. *)
Record in_service (p : nat) (e : Z) (rs : list InterruptControl) (s : IoApic) : Prop := {
  is_wf : ioapic_wf s;
  is_entry : ia_entry s p = Z.lor e IOAPIC_LVT_REMOTE_IRR;
  is_irr j : 0 <= j -> j <> Z.of_nat p -> Z.testbit (ia_irr s) j = false;
  is_requests : ia_requests s = rs;
}.

Lemma only_pin_request (s : IoApic) (p k : nat) :
  (forall j, 0 <= j -> j <> Z.of_nat p -> Z.testbit (ia_irr s) j = false) -> (p < k)%nat ->
  concat (map (pin_request s) (seq 0 k)) = pin_request s p.
Proof.
  intros Hj Hp.
  assert (forall l, p ∉ l -> concat (map (pin_request s) l) = []) as Hnil.
  { induction l as [|i l IH]; intros Hl; [done|]. apply not_elem_of_cons in Hl as [Hi Hl].
    cbn. rewrite IH by done. unfold pin_request, pin_fires, pin_active.
    by rewrite (Hj (Z.of_nat i)) by lia. }
  replace k with (p + S (k - p - 1))%nat by lia. rewrite seq_app, map_app, concat_app. cbn.
  rewrite !Hnil; [by rewrite app_nil_r| |]; rewrite elem_of_seq; lia.
Qed.

Lemma fires_in_service s p e :
  ia_entry s p = Z.lor e IOAPIC_LVT_REMOTE_IRR -> level_entry e -> pin_request s p = [].
Proof.
  intros He (_&H15&H16&_). unfold pin_request, pin_fires, pin_level. rewrite He, rirr_bit.
  rewrite !lor_bit by lia. rewrite H15. cbn. by rewrite orb_true_r, andb_false_r.
Qed.

Lemma service_in_service p e rs s :
  (p < IOAPIC_NUM_PINS)%nat -> level_entry e -> in_service p e rs s ->
  in_service p e rs (ioapic_service s).
Proof.
  intros Hp He [Hwf Hent Hirr Hreq]. destruct (service_serviced s Hwf) as [Hwf' Hirr' Hent' Hreq' _].
  split.
  - done.
  - rewrite Hent', Hent. case_match; [|done]. rewrite <- Z.lor_assoc. by rewrite Z.lor_diag.
  - intros j Hj Hjp. rewrite Hirr', Hirr by done. done.
  - rewrite Hreq', (only_pin_request s p) by done.
    rewrite (fires_in_service s p e) by done. by rewrite app_nil_r.
Qed.

Lemma in_service_irr p e rs s v :
  in_service p e rs s -> fits 32 v ->
  (forall j, 0 <= j -> j <> Z.of_nat p -> Z.testbit v j = false) ->
  in_service p e rs (ia_set_irr v s).
Proof. intros [Hwf Hent Hirr Hreq] Hv Hj. split; try done. by apply wf_set_irr. Qed.

(** The device asserts ([true]) and de-asserts ([false]) its line. *)
Definition line_op (p : nat) (s : IoApic) (assert_ : bool) : IoApic :=
  if assert_ then (ioapic_set_irq (Ev:=unit) (Some (Z.of_nat p)) None s).2
  else (ioapic_clear_irq (Some (Z.of_nat p)) s).2.
Definition line_ops (p : nat) (ops : list bool) (s : IoApic) : IoApic :=
  foldl (line_op p) s ops.

Lemma line_op_set p s :
  (p < IOAPIC_NUM_PINS)%nat ->
  line_op p s true = ioapic_service (ia_set_irr (Z.lor (ia_irr s) (bit (Z.of_nat p))) s).
Proof.
  intros Hp. cbn [line_op]. unfold ioapic_set_irq.
  by rewrite (proj2 (Z.ltb_lt (Z.of_nat p) (Z.of_nat IOAPIC_NUM_PINS))) by lia.
Qed.

Lemma line_op_clear p s :
  (p < IOAPIC_NUM_PINS)%nat ->
  line_op p s false = ia_set_irr (Z.land (ia_irr s) (wnot 32 (bit (Z.of_nat p)))) s.
Proof.
  intros Hp. cbn [line_op]. unfold ioapic_clear_irq.
  by rewrite (proj2 (Z.ltb_lt (Z.of_nat p) (Z.of_nat IOAPIC_NUM_PINS))) by lia.
Qed.

Lemma line_op_in_service p e rs s b :
  (p < IOAPIC_NUM_PINS)%nat -> level_entry e -> in_service p e rs s ->
  in_service p e rs (line_op p s b).
Proof.
  unfold IOAPIC_NUM_PINS. intros Hp He Hs. destruct b.
  - rewrite line_op_set by done. apply service_in_service; [done|done|].
    apply in_service_irr; [done| |].
    + apply fits_lor; [lia|apply Hs|apply fits_bit; lia].
    + intros j Hj Hjp. rewrite lor_bit, (is_irr _ _ _ _ Hs) by lia.
      by rewrite (proj2 (Z.eqb_neq _ _)).
  - rewrite line_op_clear by done. apply in_service_irr; [done| |].
    + apply fits_land_l; [lia|apply Hs|apply fits_wnot, fits_bit; lia].
    + intros j Hj Hjp. rewrite land_not_bit by (apply Hs || lia).
      by rewrite (is_irr _ _ _ _ Hs).
Qed.

Lemma line_ops_in_service p e rs ops s :
  (p < IOAPIC_NUM_PINS)%nat -> level_entry e -> in_service p e rs s ->
  in_service p e rs (line_ops p ops s).
Proof.
  intros Hp He. revert s. induction ops as [|b ops IH]; intros s Hs; [done|].
  cbn. apply IH. by apply line_op_in_service.
Qed.

(** The pins other than [p] in an EOI scan, when [p] alone may be pending. *)
Lemma eoi_other_pin v p i s :
  i <> p -> ioapic_wf s -> (i < IOAPIC_NUM_PINS)%nat ->
  (forall j, 0 <= j -> j <> Z.of_nat p -> Z.testbit (ia_irr s) j = false) ->
  exists s', ioapic_eoi_pin v i s = s' /\ ioapic_wf s' /\ ia_irr s' = ia_irr s /\
    ia_entry s' p = ia_entry s p /\ ia_requests s' = ia_requests s.
Proof.
  unfold IOAPIC_NUM_PINS. intros Hip Hwf Hi Hirr. eexists. split; [done|].
  unfold ioapic_eoi_pin. case_match; [|done]. cbn [ia_irr ia_set_redtbl].
  change (Z.shiftl 1 (Z.of_nat i)) with (bit (Z.of_nat i)).
  rewrite land_bit, Hirr by lia. cbn [negb]. split_and!; try done.
  - apply wf_set_redtbl; [done|]. apply fits_land_l; [lia|by apply entry_fits|].
    apply fits_wnot, fits_rirr.
  - by apply entry_set_ne.
Qed.

Lemma eoi_other_pins v p l s :
  p ∉ l -> Forall (fun i => (i < IOAPIC_NUM_PINS)%nat) l -> ioapic_wf s ->
  (forall j, 0 <= j -> j <> Z.of_nat p -> Z.testbit (ia_irr s) j = false) ->
  exists s', foldl (fun s i => ioapic_eoi_pin v i s) s l = s' /\ ioapic_wf s' /\
    ia_irr s' = ia_irr s /\ ia_entry s' p = ia_entry s p /\ ia_requests s' = ia_requests s.
Proof.
  revert s. induction l as [|i l IH]; intros s Hp Hl Hwf Hirr; [by exists s|].
  apply not_elem_of_cons in Hp as [Hpi Hp]. apply Forall_cons in Hl as [Hi Hl]. cbn.
  destruct (eoi_other_pin v p i s) as (s1 & -> & Hwf1 & Ei & Ee & Er); try done.
  destruct (IH s1) as (s2 & -> & Hwf2 & Ei2 & Ee2 & Er2); try done.
  - intros j Hj Hjp. rewrite Ei. by apply Hirr.
  - exists s2. split_and!; congruence.
Qed.

Lemma vector_fits e : fits 8 (Z.land e 255).
Proof. change 255 with (Z.ones 8). rewrite Z.land_ones by lia. apply wrap_fits. lia. Qed.

(** The first assertion of an idle level-triggered line injects once. *)
Lemma first_assert_in_service p e s :
  (p < IOAPIC_NUM_PINS)%nat -> ioapic_wf s -> ia_irr s = 0 -> ia_entry s p = e ->
  level_entry e ->
  in_service p e (ia_requests s ++ [ioapic_inject_interrupt (ioapic_parse_entry e)])
    (line_op p s true).
Proof.
  unfold IOAPIC_NUM_PINS. intros Hp Hwf Hirr0 He (Hfe & H15 & H16 & H14).
  rewrite line_op_set by done.
  set (raised := ia_set_irr (Z.lor (ia_irr s) (bit (Z.of_nat p))) s).
  assert (ioapic_wf raised) as Hwr
    by (apply wf_set_irr; [done|]; apply fits_lor; [lia|apply Hwf|apply fits_bit; lia]).
  assert (forall j, 0 <= j -> Z.testbit (ia_irr raised) j = (j =? Z.of_nat p)) as Hjr.
  { intros j Hj. cbn [ia_irr raised ia_set_irr]. by rewrite lor_bit, Hirr0, Z.bits_0 by lia. }
  assert (ia_entry raised p = e) as Her by done.
  assert (pin_active raised p = true) as Hact
    by (unfold pin_active; by rewrite Hjr, Her, H16, Z.eqb_refl by lia).
  destruct (service_serviced raised Hwr) as [Hwf' Hirr' Hent' Hreq' _]. split.
  - done.
  - rewrite Hent', Hact. unfold pin_level. rewrite Her, H15.
    by replace (p <? IOAPIC_NUM_PINS)%nat with true
      by (symmetry; apply Nat.ltb_lt; unfold IOAPIC_NUM_PINS; lia).
  - intros j Hj Hjp. rewrite Hirr', Hjr by done. by rewrite (proj2 (Z.eqb_neq _ _)).
  - rewrite Hreq', (only_pin_request raised p); [| |unfold IOAPIC_NUM_PINS; lia].
    + unfold pin_request, pin_fires. rewrite Hact, Her, H14. cbn. by rewrite orb_true_r.
    + intros j Hj Hjp. rewrite Hjr by done. by apply Z.eqb_neq.
Qed.

(** Ending the service of the line's vector: the interrupt is injected again
    when the line is still asserted. *)
Lemma eoi_own_pin p e rs s :
  (p < IOAPIC_NUM_PINS)%nat -> level_entry e -> in_service p e rs s ->
  let s' := ioapic_eoi_pin (Z.land e 255) p s in
  ioapic_wf s' /\
  (forall j, 0 <= j -> Z.testbit (ia_irr s') j = Z.testbit (ia_irr s) j) /\
  ia_requests s' = rs ++
    (if Z.testbit (ia_irr s) (Z.of_nat p)
     then [ioapic_inject_interrupt (ioapic_parse_entry e)] else []) /\
  ia_entry s' p = if Z.testbit (ia_irr s) (Z.of_nat p) then Z.lor e IOAPIC_LVT_REMOTE_IRR else e.
Proof.
  unfold IOAPIC_NUM_PINS. intros Hp (Hfe & H15 & H16 & H14) [Hw He Hj Hr]. cbv zeta.
  unfold ioapic_eoi_pin. rewrite He. change IOAPIC_LVT_REMOTE_IRR with (bit 14).
  change IOAPIC_VECTOR_MASK with 255.
  assert (Z.land (Z.lor e (bit 14)) 255 = Z.land e 255) as ->.
  { rewrite Z.land_lor_distr_l. change (Z.land (bit 14) 255) with 0. apply Z.lor_0_r. }
  rewrite (wrap_small 8), Z.eqb_refl by apply vector_fits. cbn [andb].
  rewrite land_bit, lor_bit, Z.eqb_refl, orb_true_r by lia. cbn [negb].
  assert (fits 64 (Z.lor e (bit 14))) as Hfl by (apply fits_lor; [lia|done|apply fits_bit; lia]).
  assert (Z.land (Z.lor e (bit 14)) (wnot 64 (bit 14)) = e) as ->.
  { word_bits 64; [|done|].
    - apply fits_land_l; [lia|done|]. apply fits_wnot, fits_bit. lia.
    - rewrite land_not_bit by (done || lia).
      rewrite lor_bit by lia. destruct (Z.eqb_spec n 14) as [->|].
      + by rewrite H14, andb_false_r.
      + by rewrite orb_false_r, andb_true_r. }
  set (sc := ia_set_redtbl p e s).
  assert (ioapic_wf sc) as Hwc by (by apply wf_set_redtbl).
  change (Z.shiftl 1 (Z.of_nat p)) with (bit (Z.of_nat p)).
  change (ia_irr sc) with (ia_irr s). rewrite land_bit, negb_involutive by lia.
  assert (ia_entry sc p = e) as Esc by (apply entry_set_eq; rewrite (iwf_len _ Hw); done).
  destruct (Z.testbit (ia_irr s) (Z.of_nat p)) eqn:Eb; [|by rewrite app_nil_r].
  assert (pin_active sc p = true) as Hact.
  { unfold pin_active. change (ia_irr sc) with (ia_irr s). by rewrite Eb, Esc, H16. }
  destruct (service_serviced sc Hwc) as [Hwf' Hirr' Hent' Hreq' _]. split_and!; [done| | |].
  - intros j Hj0. rewrite Hirr' by done. change (ia_irr sc) with (ia_irr s).
    destruct (decide (j = Z.of_nat p)) as [->|Hjp]; [|by rewrite Hj].
    unfold pin_level. rewrite Nat2Z.id, Esc, H15, andb_false_r. by rewrite andb_true_r.
  - rewrite Hreq', (only_pin_request sc p); [|by intros j; apply Hj|unfold IOAPIC_NUM_PINS; lia].
    unfold pin_request, pin_fires, pin_level. rewrite Hact, Esc, H15, H14. cbn [negb andb orb].
    change (ia_requests sc) with (ia_requests s). by rewrite Hr.
  - rewrite Hent', Hact. unfold pin_level. rewrite Esc, H15.
    by replace (p <? IOAPIC_NUM_PINS)%nat with true
      by (symmetry; apply Nat.ltb_lt; unfold IOAPIC_NUM_PINS; lia).
Qed.

(** The line is not asserted, no interrupt of it is in service, and the other
    lines are idle. *)
Record idle_line (p : nat) (e : Z) (rs : list InterruptControl) (s : IoApic) : Prop := {
  il_wf : ioapic_wf s;
  il_entry : ia_entry s p = e;
  il_irr : ia_irr s = 0;
  il_requests : ia_requests s = rs;
}.

(** An assertion, of an idle line and of one in service; a line taken down. *)
Lemma asserted_bit p s :
  (p < IOAPIC_NUM_PINS)%nat -> ioapic_wf s -> Z.testbit (ia_entry s p) 15 = true ->
  Z.testbit (ia_irr (line_op p s true)) (Z.of_nat p) = true.
Proof.
  unfold IOAPIC_NUM_PINS. intros Hp Hwf H15. rewrite line_op_set by done.
  set (raised := ia_set_irr (Z.lor (ia_irr s) (bit (Z.of_nat p))) s).
  assert (ioapic_wf raised) as Hwr
    by (apply wf_set_irr; [done|]; apply fits_lor; [lia|apply Hwf|apply fits_bit; lia]).
  rewrite (sv_irr _ _ _ (service_serviced raised Hwr)) by lia.
  cbn [ia_irr raised ia_set_irr]. rewrite lor_bit, Z.eqb_refl, orb_true_r by lia.
  unfold pin_level. rewrite Nat2Z.id. change (ia_entry raised p) with (ia_entry s p).
  by rewrite H15, andb_false_r.
Qed.

Lemma asserted_in_service p e rs s :
  (p < IOAPIC_NUM_PINS)%nat -> level_entry e -> in_service p e rs s ->
  in_service p e rs (line_op p s true) /\ Z.testbit (ia_irr (line_op p s true)) (Z.of_nat p) = true.
Proof.
  intros Hp Hlev Hin. split; [by apply line_op_in_service|].
  apply asserted_bit; [done|apply Hin|]. rewrite (is_entry _ _ _ _ Hin). change IOAPIC_LVT_REMOTE_IRR with (bit 14).
  rewrite lor_bit by lia. destruct Hlev as (_ & -> & _). done.
Qed.

Lemma first_assert_line p e s :
  (p < IOAPIC_NUM_PINS)%nat -> ioapic_wf s -> ia_irr s = 0 -> ia_entry s p = e -> level_entry e ->
  in_service p e (ia_requests s ++ [ioapic_inject_interrupt (ioapic_parse_entry e)]) (line_op p s true) /\
  Z.testbit (ia_irr (line_op p s true)) (Z.of_nat p) = true.
Proof.
  intros Hp Hwf Hi He Hlev. split; [by apply first_assert_in_service|].
  apply asserted_bit; [done..|]. rewrite He. apply Hlev.
Qed.

Lemma cleared_line p s :
  (p < IOAPIC_NUM_PINS)%nat -> ioapic_wf s ->
  Z.testbit (ia_irr (line_op p s false)) (Z.of_nat p) = false.
Proof.
  unfold IOAPIC_NUM_PINS. intros Hp Hwf. rewrite line_op_clear by done. cbn [ia_irr ia_set_irr].
  rewrite land_not_bit by (apply Hwf || lia). by rewrite Z.eqb_refl, andb_false_r.
Qed.

(** A line in service is up when the last operation on it was an assertion. *)
Lemma line_ops_bit p e rs ops s b :
  (p < IOAPIC_NUM_PINS)%nat -> level_entry e -> in_service p e rs s ->
  Z.testbit (ia_irr s) (Z.of_nat p) = b ->
  Z.testbit (ia_irr (line_ops p ops s)) (Z.of_nat p) = default b (last ops).
Proof.
  intros Hp He. revert s b. induction ops as [|o ops IH]; intros s b Hs Hb; [done|].
  cbn [line_ops foldl]. fold (line_ops p ops (line_op p s o)).
  rewrite (IH _ o); [rewrite last_cons; by destruct (last ops)|by apply line_op_in_service|].
  destruct o; [by eapply asserted_in_service|by eapply cleared_line, is_wf].
Qed.

Lemma idle_cleared p e rs s :
  (p < IOAPIC_NUM_PINS)%nat -> idle_line p e rs s -> idle_line p e rs (line_op p s false).
Proof.
  intros Hp [Hwf He Hi Hr]. rewrite line_op_clear by done. rewrite Hi, Z.land_0_l.
  split; try done. apply wf_set_irr; [done|]. unfold fits. lia.
Qed.

(** The scan of an EOI splits at the pin. *)
Lemma eoi_split v p s :
  (p < IOAPIC_NUM_PINS)%nat ->
  ioapic_eoi v s =
    foldl (fun s i => ioapic_eoi_pin v i s)
      (ioapic_eoi_pin v p (foldl (fun s i => ioapic_eoi_pin v i s) s (seq 0 p)))
      (seq (S p) (24 - p - 1)).
Proof.
  unfold ioapic_eoi, IOAPIC_NUM_PINS. intros Hp.
  replace 24%nat with (p + S (24 - p - 1))%nat at 1 by lia. by rewrite seq_app, foldl_app.
Qed.

(** An EOI for the line's vector: an asserted line stays in service and
    interrupts again, a line that is down is idle. *)
Lemma eoi_line p e rs s :
  (p < IOAPIC_NUM_PINS)%nat -> level_entry e -> in_service p e rs s ->
  let s' := ioapic_eoi (Z.land e 255) s in
  if Z.testbit (ia_irr s) (Z.of_nat p)
  then in_service p e (rs ++ [ioapic_inject_interrupt (ioapic_parse_entry e)]) s' /\
       Z.testbit (ia_irr s') (Z.of_nat p) = true
  else idle_line p e rs s'.
Proof.
  intros Hp Hlev Hin s'. subst s'. rewrite (eoi_split _ p) by done. pose proof Hin as [Hw1 He1 Hj1 Hr1].
  unfold IOAPIC_NUM_PINS in Hp.
  destruct (eoi_other_pins (Z.land e 255) p (seq 0 p) s) as (sa & -> & Hwa & Hia & Hea & Hra);
    try done.
  { rewrite elem_of_seq. lia. }
  { apply Forall_forall. intros i Hi%elem_of_seq. unfold IOAPIC_NUM_PINS. lia. }
  assert (in_service p e rs sa) as Hina by (split; [done|congruence|by rewrite Hia|congruence]).
  destruct (eoi_own_pin p e _ sa Hp Hlev Hina) as (Hwb & Hjb & Hrb & Heb). rewrite Hia in Hjb, Hrb, Heb.
  destruct (eoi_other_pins (Z.land e 255) p (seq (S p) (24 - p - 1))
              (ioapic_eoi_pin (Z.land e 255) p sa)) as (sc & -> & Hwc & Hic & Hec & Hrc); try done.
  - rewrite elem_of_seq. lia.
  - apply Forall_forall. intros i Hi%elem_of_seq. unfold IOAPIC_NUM_PINS. lia.
  - intros j Hj Hjp. by rewrite Hjb, Hj1.
  - destruct (Z.testbit (ia_irr s) (Z.of_nat p)) eqn:Eb.
    + split; [split|].
      * done.
      * by rewrite Hec.
      * intros j Hj Hjp. by rewrite Hic, Hjb, Hj1.
      * by rewrite Hrc.
      * by rewrite Hic, Hjb by lia.
    + split; [done|by rewrite Hec| |by rewrite Hrc, Hrb, app_nil_r].
      apply Z.bits_inj_0. intros j. destruct (decide (0 <= j)); [|by apply Z.testbit_neg_r; lia].
      rewrite Hic, Hjb by done. destruct (decide (j = Z.of_nat p)) as [->|]; [done|by apply Hj1].
Qed.

(** An EOI does nothing to an idle line. *)
Lemma eoi_idle v p e rs s :
  (p < IOAPIC_NUM_PINS)%nat -> level_entry e -> idle_line p e rs s ->
  idle_line p e rs (ioapic_eoi v s).
Proof.
  intros Hp (_ & _ & _ & H14) [Hw He Hi Hr]. rewrite (eoi_split _ p) by done. unfold IOAPIC_NUM_PINS in Hp.
  assert (forall j, 0 <= j -> j <> Z.of_nat p -> Z.testbit (ia_irr s) j = false) as Hj
    by (intros; rewrite Hi; apply Z.bits_0).
  destruct (eoi_other_pins v p (seq 0 p) s) as (sa & -> & Hwa & Hia & Hea & Hra); try done.
  { rewrite elem_of_seq. lia. }
  { apply Forall_forall. intros i Hi'%elem_of_seq. unfold IOAPIC_NUM_PINS. lia. }
  assert (ioapic_eoi_pin v p sa = sa) as ->.
  { unfold ioapic_eoi_pin. rewrite Hea, He. change IOAPIC_LVT_REMOTE_IRR with (bit 14).
    rewrite land_bit, H14 by lia. cbn [negb]. by rewrite andb_false_r. }
  destruct (eoi_other_pins v p (seq (S p) (24 - p - 1)) sa) as (sc & -> & Hwc & Hic & Hec & Hrc); try done.
  - rewrite elem_of_seq. lia.
  - apply Forall_forall. intros i Hi'%elem_of_seq. unfold IOAPIC_NUM_PINS. lia.
  - intros j Hj0 Hjp. rewrite Hia. by apply Hj.
  - split; [done|congruence|congruence|congruence].
Qed.

(** The guest's write to the EOI register. *)
Lemma write_eoi {prof : Profile} {E} v s :
  fits 8 v -> ioapic_write (E:=E) IO_EOI (le_bytes 4 v) s = (Ok tt, ioapic_eoi v s).
Proof.
  intros Hv. unfold ioapic_write. rewrite length_le_bytes. cbn [negb Nat.eqb].
  rewrite le_val_le_bytes_fits by (eapply fits_mono; [|done]; lia).
  cbn [Z.eqb IO_EOI IO_REG_SEL IO_WIN Pos.eqb]. by rewrite wrap_small.
Qed.

End line.

(** *** Writes to the redirection table *)

Section redtbl.
Context `{!WhvInterruptTypes}.

(** The entry after the guest wrote one half of it. *)
Definition entry_update (old : Z) (high : bool) (val : Z) : Z :=
  let e := if high then Z.lor (Z.land old 0xffffffff) (wrap 64 (Z.shiftl val 32))
           else Z.lor (Z.land old (wnot 64 0xffffffff)) val in
  Z.lor (Z.land e IOAPIC_RW_BITS) (Z.land old IOAPIC_RO_BITS).

Lemma ro_bits_spec n : 0 <= n -> Z.testbit IOAPIC_RO_BITS n = (n =? 14) || (n =? 12).
Proof.
  intros Hn. change IOAPIC_RO_BITS with (Z.lor (bit 14) (bit 12)).
  by rewrite Z.lor_spec, !bit_spec by lia.
Qed.

Lemma fits_ro_bits : fits 64 IOAPIC_RO_BITS.
Proof. unfold fits. split; vm_compute; congruence. Qed.

Lemma entry_update_bits old high val n :
  fits 64 old -> fits 32 val -> 0 <= n < 64 ->
  Z.testbit (entry_update old high val) n =
    if (n =? 14) || (n =? 12) then Z.testbit old n
    else if high then if n <? 32 then Z.testbit old n else Z.testbit val (n - 32)
    else if n <? 32 then Z.testbit val n else Z.testbit old n.
Proof.
  intros Ho Hv Hn. unfold entry_update, IOAPIC_RW_BITS.
  rewrite Z.lor_spec, !Z.land_spec, wnot_spec by (apply fits_ro_bits || lia).
  rewrite ro_bits_spec by lia. change 0xffffffff with (Z.ones 32).
  destruct ((n =? 14) || (n =? 12)); cbn [negb]; rewrite ?andb_false_r, ?andb_true_r, ?orb_false_r;
    [done|].
  destruct high; rewrite Z.lor_spec, Z.land_spec.
  - rewrite testbit_ones, testbit_wrap, Z.shiftl_spec by lia.
    rewrite (proj2 (Z.ltb_lt n 64)) by lia. destruct (Z.ltb_spec n 32); cbn [andb].
    + rewrite (Z.testbit_neg_r val) by lia. by rewrite andb_true_r, orb_false_r.
    + by rewrite andb_false_r.
  - rewrite wnot_spec by (try lia; unfold fits; split; vm_compute; congruence).
    rewrite testbit_ones by lia. destruct (Z.ltb_spec n 32); cbn [negb].
    + by rewrite andb_false_r.
    + rewrite (testbit_high 32 val) by (done || lia). by rewrite andb_true_r, orb_false_r.
Qed.

Lemma entry_update_fits old high val : fits 64 old -> fits 32 val -> fits 64 (entry_update old high val).
Proof.
  intros Ho Hv. unfold entry_update.
  assert (0 <= IOAPIC_RW_BITS) by (vm_compute; congruence).
  assert (0 <= IOAPIC_RO_BITS) by (vm_compute; congruence).
  apply fits_lor; [lia| |by apply fits_land_l].
  apply fits_land_l; [lia| |done]. destruct high.
  - apply fits_lor; [lia|by apply fits_land_l|apply wrap_fits; lia].
  - apply fits_lor; [lia| |by eapply (fits_mono 32)].
    apply fits_land_l; [lia|done|vm_compute; congruence].
Qed.

(** The state serviced after a write, up to the in-service bits. *)
Lemma write_redtbl_serviced i high val s :
  ioapic_wf s -> (i < IOAPIC_NUM_PINS)%nat -> fits 32 val ->
  exists s1, ioapic_wf s1 /\ ioapic_write_redtbl i high val s = ioapic_service s1 /\
    ia_ioregsel s1 = ia_ioregsel s /\ ia_requests s1 = ia_requests s /\
    (forall j, j <> i -> ia_entry s1 j = ia_entry s j) /\
    ia_entry s1 i = (if Z.testbit (entry_update (ia_entry s i) high val) 15
      then entry_update (ia_entry s i) high val
      else Z.land (entry_update (ia_entry s i) high val) (wnot 64 IOAPIC_LVT_REMOTE_IRR)).
Proof.
  intros Hwf Hi Hv. pose proof (entry_fits s i Hwf) as Hold.
  pose proof (entry_update_fits (ia_entry s i) high val Hold Hv) as Hnew.
  set (new := entry_update (ia_entry s i) high val) in *.
  assert (exists s0, ioapic_wf s0 /\ ia_entry s0 i = new /\ ia_ioregsel s0 = ia_ioregsel s /\
    ia_requests s0 = ia_requests s /\ (forall j, j <> i -> ia_entry s0 j = ia_entry s j) /\
    ioapic_write_redtbl i high val s = ioapic_service (ioapic_fix_edge_remote_irr i s0))
    as (s0 & Hwf0 & He0 & Hr0 & Hq0 & Hj0 & ->).
  { eexists. split; [|split; [|split; [|split; [|split; [|reflexivity]]]]].
    - apply wf_set_eoi. destruct high; repeat (rewrite ?entry_set_eq;
        [|cbn [ia_ioredtbl ia_set_redtbl]; rewrite ?length_insert, (iwf_len _ Hwf); done..]).
      all: destruct Hwf as [Hl Hf ???]; split; try done; cbn;
        rewrite ?length_insert; try done; rewrite !list_insert_insert_eq.
      all: by apply Forall_insert.
    - assert (i < length (ia_ioredtbl s))%nat by (rewrite (iwf_len _ Hwf); done).
      destruct high; unfold ia_entry at 1; cbn [ia_ioredtbl ia_set_eoi];
        change (nth i (ia_ioredtbl ?x) 0) with (ia_entry x i);
        repeat (rewrite entry_set_eq by (cbn; rewrite ?length_insert; done)); done.
    - by destruct high.
    - by destruct high.
    - intros j Hj. destruct high; unfold ia_entry at 1; cbn [ia_ioredtbl ia_set_eoi];
        change (nth j (ia_ioredtbl ?x) 0) with (ia_entry x j);
        repeat (rewrite (entry_set_ne _ i j) by done); done. }
  eexists. split; [|split; [reflexivity|]]; unfold ioapic_fix_edge_remote_irr, IOAPIC_TRIGGER_EDGE;
    change IOAPIC_LVT_TRIGGER_MODE with (bit 15); rewrite land_bit, He0 by lia;
    destruct (Z.testbit new 15); cbn [negb].
  - done.
  - apply wf_set_redtbl; [done|]. apply fits_land_l; [lia|done|apply fits_wnot, fits_rirr].
  - done.
  - split_and!; [done|done| |].
    + intros j Hj. by rewrite entry_set_ne, Hj0.
    + apply entry_set_eq. by rewrite (iwf_len _ Hwf0).
Qed.

End redtbl.

(** ** Properties *)

(** C18: raising a line services every pin exactly as the redirection table
    says, whatever the state: a pin that is pending and not masked is injected
    once with the control word of its entry, in pin order, unless it is
    level-triggered and still in service; an edge-triggered pin stops being
    pending, a level-triggered one stays pending and is marked in service;
    masked pins stay pending, and no other register changes. *)
Theorem ioapic_set_irq_services_pins `{!WhvInterruptTypes} {Ev} (evt : option Ev) s p :
  ioapic_wf s -> 0 <= p < Z.of_nat IOAPIC_NUM_PINS ->
  let raised := ia_set_irr (Z.lor (ia_irr s) (bit p)) s in
  exists s', ioapic_set_irq (Some p) evt s = (Ok evt, s') /\ ioapic_wf s' /\
    ia_requests s' =
      ia_requests s ++ concat (map (pin_request raised) (seq 0 IOAPIC_NUM_PINS)) /\
    (forall j, 0 <= j -> Z.testbit (ia_irr s') j =
       Z.testbit (ia_irr raised) j &&
       negb ((j <? 24) && pin_active raised (Z.to_nat j) && negb (pin_level raised (Z.to_nat j)))) /\
    (forall i, ia_entry s' i =
       if (i <? 24)%nat && pin_active raised i && pin_level raised i
       then Z.lor (ia_entry s i) IOAPIC_LVT_REMOTE_IRR else ia_entry s i) /\
    ia_id s' = ia_id s /\ ia_ioregsel s' = ia_ioregsel s /\ ia_version s' = ia_version s /\
    ia_irq_eoi s' = ia_irq_eoi s.
Proof.
  intros Hwf Hp raised. exists (ioapic_service raised).
  assert (ioapic_wf raised) as Hr.
  { apply wf_set_irr; [done|]. unfold IOAPIC_NUM_PINS in Hp.
    apply fits_lor; [lia|apply Hwf|apply fits_bit; lia]. }
  destruct (service_serviced raised Hr) as [Hwf' Hirr Hent Hreq Hregs%ia_registers_eq].
  split; [unfold ioapic_set_irq; by rewrite (proj2 (Z.ltb_lt _ _)) by lia|].
  split; [exact Hwf'|]. split; [exact Hreq|]. split; [exact Hirr|]. split; [exact Hent|exact Hregs].
Qed.

#[export] Instance example_whv : WhvInterruptTypes :=
  {| WHvX64InterruptTypeFixed := 0; WHvX64InterruptTypeLowestPriority := 1;
     WHvX64InterruptTypeNmi := 4; WHvX64InterruptTypeInit := 5 |}.

(** Pin 5 routed level-triggered to vector 0x31 of processor 2. *)
Definition example_entry : Z := 0x0200000000008031.
Definition example_ioapic : IoApic := ia_set_redtbl 5 example_entry ioapic_new.

Lemma example_ioapic_wf : ioapic_wf example_ioapic.
Proof.
  apply wf_set_redtbl; [|unfold example_entry, fits; lia].
  split; try (unfold fits; cbn; lia); [done|].
  apply Forall_replicate. split; vm_compute; congruence.
Qed.

Lemma ioapic_set_irq_services_pins_witness :
  let raised := ia_set_irr (Z.lor 0 (bit 5)) example_ioapic in
  exists s', ioapic_set_irq (Some 5) (None : option unit) example_ioapic = (Ok None, s') /\
    ioapic_wf s' /\
    ia_requests s' = [] ++ concat (map (pin_request raised) (seq 0 IOAPIC_NUM_PINS)) /\
    (forall j, 0 <= j -> Z.testbit (ia_irr s') j =
       Z.testbit (ia_irr raised) j &&
       negb ((j <? 24) && pin_active raised (Z.to_nat j) && negb (pin_level raised (Z.to_nat j)))) /\
    (forall i, ia_entry s' i =
       if (i <? 24)%nat && pin_active raised i && pin_level raised i
       then Z.lor (ia_entry example_ioapic i) IOAPIC_LVT_REMOTE_IRR else ia_entry example_ioapic i) /\
    ia_id s' = 0 /\ ia_ioregsel s' = 0 /\ ia_version s' = 32 /\ ia_irq_eoi s' = replicate 24 0.
Proof.
  apply (ioapic_set_irq_services_pins (None : option unit) example_ioapic 5).
  - apply example_ioapic_wf.
  - unfold IOAPIC_NUM_PINS. lia.
Defined.

(** C29: a level-triggered line interrupts once per service.  With the other
    lines idle, the first assertion injects exactly one interrupt; however
    often the device then asserts and de-asserts the line no further one is
    injected until the guest's EOI for the vector, which injects exactly one
    more if the device's last operation on the line was to assert it, and none
    if it was to de-assert it. *)
Theorem level_line_injects_once_per_eoi {prof : Profile} `{!WhvInterruptTypes} s p e ops :
  ioapic_wf s -> (p < IOAPIC_NUM_PINS)%nat -> ia_irr s = 0 ->
  ia_entry s p = e -> level_entry e ->
  let req := ioapic_inject_interrupt (ioapic_parse_entry e) in
  let s1 := line_ops p ops (line_op p s true) in
  ia_requests s1 = ia_requests s ++ [req] /\
  exists s2, ioapic_write (E:=string) IO_EOI (le_bytes 4 (Z.land e 255)) s1 = (Ok tt, s2) /\
    ia_requests s2 = ia_requests s ++ [req] ++
      (if default true (last ops) then [req] else []).
Proof.
  intros Hwf Hp Hirr0 He Hlev req s1. unfold IOAPIC_NUM_PINS in Hp.
  destruct (first_assert_line p e s Hp Hwf Hirr0 He Hlev) as [Hin Hb]. fold req in Hin.
  pose proof (line_ops_bit p e _ ops _ true Hp Hlev Hin Hb) as Hbit. fold s1 in Hbit.
  apply (line_ops_in_service p e _ ops) in Hin; [|done|done]. fold s1 in Hin.
  pose proof Hin as [Hw1 He1 Hj1 Hr1]. split; [done|].
  exists (ioapic_eoi (Z.land e 255) s1). split; [apply write_eoi, vector_fits|].
  pose proof (eoi_line p e _ s1 Hp Hlev Hin) as Heoi. cbv zeta in Heoi. rewrite Hbit in Heoi.
  destruct (default true (last ops)).
  - destruct Heoi as [[_ _ _ ->] _]. by rewrite <- app_assoc.
  - destruct Heoi as [_ _ _ ->]. done.
Qed.

Lemma level_line_injects_once_per_eoi_witness :
  let req := ioapic_inject_interrupt (ioapic_parse_entry example_entry) in
  let s1 := line_ops 5 [true; false; true] (line_op 5 example_ioapic true) in
  ia_requests s1 = [] ++ [req] /\
  exists s2, ioapic_write (prof:=dev_profile) (E:=string) IO_EOI (le_bytes 4 (Z.land example_entry 255)) s1
               = (Ok tt, s2) /\
    ia_requests s2 = [] ++ [req] ++ [req].
Proof.
  apply (level_line_injects_once_per_eoi (prof:=dev_profile) example_ioapic 5 example_entry [true; false; true]).
  - apply example_ioapic_wf.
  - unfold IOAPIC_NUM_PINS. lia.
  - reflexivity.
  - reflexivity.
  - unfold level_entry, fits, example_entry. repeat split; try reflexivity; lia.
Defined.

(** *** The registers of the redirection table *)

Definition redtbl_reg (i : nat) (high : bool) : Z := 16 + 2 * Z.of_nat i + (if high then 1 else 0).

Lemma redtbl_reg_range i high : (i < IOAPIC_NUM_PINS)%nat -> 16 <= redtbl_reg i high < 64.
Proof. unfold IOAPIC_NUM_PINS, redtbl_reg. intros. destruct high; lia. Qed.

Lemma redtbl_reg_index i high : Z.shiftr (redtbl_reg i high - 16) 1 = Z.of_nat i.
Proof.
  unfold redtbl_reg. rewrite Z.shiftr_div_pow2 by lia. change (2 ^ 1) with 2.
  replace (16 + 2 * Z.of_nat i + (if high then 1 else 0) - 16)
    with ((if high then 1 else 0) + Z.of_nat i * 2) by lia.
  rewrite Z.div_add by lia. by destruct high.
Qed.

Lemma redtbl_reg_high i high : (0 <? Z.land (redtbl_reg i high) 1) = high.
Proof.
  change 1 with (Z.ones 1) at 1. rewrite Z.land_ones by lia. change (2 ^ 1) with 2. unfold redtbl_reg.
  replace (16 + 2 * Z.of_nat i + (if high then 1 else 0))
    with ((if high then 1 else 0) + (8 + Z.of_nat i) * 2) by lia.
  rewrite Z.mod_add by lia. by destruct high.
Qed.

Section window.
Context {prof : Profile} `{!WhvInterruptTypes}.

Lemma select_register {E} reg s :
  fits 8 reg -> ioapic_write (E:=E) IO_REG_SEL (le_bytes 4 reg) s = (Ok tt, ia_set_regsel reg s).
Proof.
  intros Hr. unfold ioapic_write. rewrite length_le_bytes. cbn [Nat.eqb negb].
  change (IO_REG_SEL =? IO_REG_SEL) with true. cbv iota.
  rewrite le_val_le_bytes_fits by (eapply fits_mono; [|done]; lia). by rewrite wrap_small.
Qed.

(** The tests that come before the index. *)
Ltac window_tests i high Hi :=
  pose proof (redtbl_reg_range i high Hi);
  change (IO_WIN =? IO_REG_SEL) with false; change (IO_WIN =? IO_WIN) with true;
  cbn [length Nat.eqb negb]; run_St;
  unfold IO_APIC_ID, IO_APIC_VER, IO_APIC_ARB, IOAPIC_REG_REDTBL_BASE, IOAPIC_NUM_PINS in *;
  match goal with Hs : ia_ioregsel _ = _ |- _ => rewrite ?Hs end;
  rewrite !(proj2 (Z.eqb_neq (redtbl_reg i high) _)) by lia; cbn [orb];
  rewrite ?(proj2 (Z.ltb_ge (redtbl_reg i high) (wrap 8 IO_WIN))) by (change (wrap 8 IO_WIN) with 16; lia);
  rewrite usub_ok, redtbl_reg_index by lia; run_St.

Lemma write_window {E} i high val s :
  (i < IOAPIC_NUM_PINS)%nat -> fits 32 val -> ia_ioregsel s = redtbl_reg i high ->
  ioapic_write (E:=E) IO_WIN (le_bytes 4 val) s = (Ok tt, ioapic_write_redtbl i high val s).
Proof.
  intros Hi Hv Hs. unfold ioapic_write. rewrite length_le_bytes, le_val_le_bytes_fits by done.
  window_tests i high Hi. rewrite (proj2 (Z.leb_gt (Z.of_nat 24) (Z.of_nat i))) by lia.
  by rewrite Nat2Z.id, redtbl_reg_high.
Qed.

Lemma read_window {E} i high s :
  (i < IOAPIC_NUM_PINS)%nat -> ia_ioregsel s = redtbl_reg i high ->
  ioapic_read (E:=E) IO_WIN [0; 0; 0; 0] s =
    (Ok (le_bytes 4 (wrap 32 (if high then Z.shiftr (ia_entry s i) 32
                              else Z.land (ia_entry s i) 0xffffffff))), s).
Proof.
  intros Hi Hs. unfold ioapic_read, ioapic_read_val. window_tests i high Hi.
  rewrite (proj2 (Z.ltb_lt (Z.of_nat i) (Z.of_nat 24))) by lia.
  rewrite Nat2Z.id, redtbl_reg_high. by destruct high.
Qed.

End window.

(** A guest write to half of a redirection entry, by the register selection
    and the window, followed by a read of that half, returns what was written,
    except for the two read-only bits (12, delivery status, and 14, in
    service), which the guest cannot set; the other half of the entry and all
    other entries keep their bits, up to the in-service bits of the pins that
    the write's service pass marks. *)
Theorem redirection_entry_roundtrip {prof : Profile} `{!WhvInterruptTypes} s i (high : bool) val :
  ioapic_wf s -> (i < IOAPIC_NUM_PINS)%nat -> fits 32 val ->
  let reg := 16 + 2 * Z.of_nat i + (if high then 1 else 0) in
  exists s1 s2 v,
    ioapic_write (E:=string) IO_REG_SEL (le_bytes 4 reg) s = (Ok tt, s1) /\
    ioapic_write (E:=string) IO_WIN (le_bytes 4 val) s1 = (Ok tt, s2) /\
    ioapic_read (E:=string) IO_WIN [0; 0; 0; 0] s2 = (Ok (le_bytes 4 v), s2) /\
    (forall n, 0 <= n < 32 -> high = true \/ (n <> 12 /\ n <> 14) ->
       Z.testbit v n = Z.testbit val n) /\
    (high = false -> Z.testbit v 12 = Z.testbit (ia_entry s i) 12) /\
    (forall n, 0 <= n < 64 -> n <> 14 -> (n <? 32) = high ->
       Z.testbit (ia_entry s2 i) n = Z.testbit (ia_entry s i) n) /\
    (forall j n, 0 <= n -> n <> 14 -> j <> i ->
       Z.testbit (ia_entry s2 j) n = Z.testbit (ia_entry s j) n).
Proof.
  intros Hwf Hi Hv reg. change reg with (redtbl_reg i high). clear reg.
  pose proof (redtbl_reg_range i high Hi) as Hrange.
  assert (fits 8 (redtbl_reg i high)) as Hreg by (unfold fits; lia).
  set (s1 := ia_set_regsel (redtbl_reg i high) s).
  assert (ioapic_wf s1) as Hwf1 by (destruct Hwf; by split).
  destruct (write_redtbl_serviced i high val s1 Hwf1 Hi Hv) as (s0 & Hwf0 & Hs0 & Hsel & _ & Hj0 & He0).
  destruct (service_serviced s0 Hwf0) as [Hwf2 _ Hent2 _ (_ & Hsel2 & _)%ia_registers_eq].
  set (s2 := ioapic_service s0) in *.
  pose proof (entry_fits s i Hwf) as Hold. change (ia_entry s1 i) with (ia_entry s i) in He0.
  assert (forall n, 0 <= n -> n <> 14 -> forall j, Z.testbit (ia_entry s2 j) n =
    Z.testbit (ia_entry s0 j) n) as Hb2.
  { intros n Hn H14 j. rewrite Hent2. destruct (_ && pin_active s0 j && pin_level s0 j); [|done].
    rewrite rirr_bit, lor_bit by lia. by rewrite (proj2 (Z.eqb_neq n 14)), orb_false_r. }
  assert (forall n, 0 <= n < 64 -> n <> 14 -> Z.testbit (ia_entry s2 i) n =
    Z.testbit (entry_update (ia_entry s i) high val) n) as Hbi.
  { intros n Hn H14. rewrite Hb2, He0 by lia. case_match; [done|].
    rewrite rirr_bit, land_not_bit by (try apply entry_update_fits; try done; lia).
    by rewrite (proj2 (Z.eqb_neq n 14)), andb_true_r. }
  eexists s1, s2, _. split; [by apply select_register|].
  split; [rewrite (write_window i high) by done; by rewrite Hs0|].
  split; [apply (read_window i high); [done|by rewrite Hsel2, Hsel]|]. split_and!.
  - intros n Hn Hor. rewrite testbit_wrap, (proj2 (Z.ltb_lt n 32)) by lia. cbn [andb].
    destruct high.
    + rewrite Z.shiftr_spec, Hbi, entry_update_bits by (done || lia).
      rewrite !(proj2 (Z.eqb_neq _ _)), (proj2 (Z.ltb_ge _ _)) by lia. cbn [orb]. f_equal. lia.
    + destruct Hor as [|[??]]; [done|]. rewrite Z.land_spec. change 0xffffffff with (Z.ones 32).
      rewrite testbit_ones, Hbi, entry_update_bits by (done || lia).
      rewrite !(proj2 (Z.eqb_neq _ _)), (proj2 (Z.ltb_lt _ _)) by lia. by rewrite andb_true_r.
  - intros ->. rewrite testbit_wrap, Z.land_spec by lia. change 0xffffffff with (Z.ones 32).
    rewrite testbit_ones, Hbi, entry_update_bits by (done || lia). cbn. by rewrite andb_true_r.
  - intros n Hn H14 Hhalf. rewrite Hbi, entry_update_bits by (done || lia).
    destruct ((n =? 14) || (n =? 12)); [done|]. by rewrite Hhalf; destruct high.
  - intros j n Hn H14 Hj. by rewrite Hb2, Hj0.
Qed.

Lemma redirection_entry_roundtrip_witness :
  exists s1 s2 v,
    ioapic_write (prof:=dev_profile) (E:=string) IO_REG_SEL (le_bytes 4 (16 + 2 * Z.of_nat 5 + 0))
      example_ioapic = (Ok tt, s1) /\
    ioapic_write (prof:=dev_profile) (E:=string) IO_WIN (le_bytes 4 0x1f0ff) s1 = (Ok tt, s2) /\
    ioapic_read (prof:=dev_profile) (E:=string) IO_WIN [0; 0; 0; 0] s2 = (Ok (le_bytes 4 v), s2) /\
    (forall n, 0 <= n < 32 -> false = true \/ (n <> 12 /\ n <> 14) ->
       Z.testbit v n = Z.testbit 0x1f0ff n) /\
    (false = false -> Z.testbit v 12 = Z.testbit (ia_entry example_ioapic 5) 12) /\
    (forall n, 0 <= n < 64 -> n <> 14 -> (n <? 32) = false ->
       Z.testbit (ia_entry s2 5) n = Z.testbit (ia_entry example_ioapic 5) n) /\
    (forall j n, 0 <= n -> n <> 14 -> j <> 5%nat ->
       Z.testbit (ia_entry s2 j) n = Z.testbit (ia_entry example_ioapic j) n).
Proof.
  apply (redirection_entry_roundtrip (prof:=dev_profile) example_ioapic 5 false 0x1f0ff).
  - apply example_ioapic_wf.
  - unfold IOAPIC_NUM_PINS. lia.
  - unfold fits. lia.
Defined.

(** Reading the window with a register between 3 and 15 selected computes
    the redirection index by a plain subtraction that is below zero: a build
    with overflow checks panics, and one without them returns 0.  The write
    handler tests for these registers and ignores them. *)
Theorem ioapic_reserved_register_read `{!WhvInterruptTypes} {prof : Profile} s data :
  3 <= ia_ioregsel s < 16 -> length data = 4%nat ->
  ioapic_read (E:=string) IO_WIN data s =
    ((if overflow_checks then Panic else Ok [0; 0; 0; 0]), s) /\
  ioapic_write (E:=string) IO_WIN data s = (Ok tt, s).
Proof.
  intros Hreg Hlen. split.
  - unfold ioapic_read, ioapic_read_val. run_St. rewrite Hlen.
    change (IO_WIN =? IO_REG_SEL) with false. change (IO_WIN =? IO_WIN) with true.
    cbn [Nat.eqb negb]. unfold IO_APIC_ID, IO_APIC_VER, IO_APIC_ARB, IOAPIC_REG_REDTBL_BASE, usub.
    rewrite !(proj2 (Z.eqb_neq (ia_ioregsel s) _)) by lia. cbn [orb].
    rewrite (proj2 (Z.leb_gt 16 (ia_ioregsel s))) by lia.
    destruct overflow_checks; [done|]. run_St.
    assert (Z.of_nat IOAPIC_NUM_PINS <= Z.shiftr (wrap 64 (ia_ioregsel s - 16)) 1) as Hbig.
    { unfold wrap. rewrite <- (Z.mod_unique_pos (ia_ioregsel s - 16) (2 ^ 64) (-1)
        (2 ^ 64 + ia_ioregsel s - 16)) by lia.
      rewrite Z.shiftr_div_pow2 by lia. change (2 ^ 1) with 2. unfold IOAPIC_NUM_PINS.
      Z.to_euclidean_division_equations. lia. }
    rewrite (proj2 (Z.ltb_ge _ _) Hbig). run_St. destruct data as [|a [|b [|c [|d [|]]]]]; done.
  - unfold ioapic_write. rewrite Hlen. cbn [Nat.eqb negb]. change (IO_WIN =? IO_REG_SEL) with false.
    change (IO_WIN =? IO_WIN) with true. cbv iota. run_St.
    unfold IO_APIC_ID, IO_APIC_VER, IO_APIC_ARB.
    rewrite !(proj2 (Z.eqb_neq (ia_ioregsel s) _)) by lia. cbn [orb].
    change (wrap 8 IO_WIN) with 16. by rewrite (proj2 (Z.ltb_lt (ia_ioregsel s) 16)) by lia.
Qed.

Lemma ioapic_reserved_register_read_witness :
  ioapic_read (prof:=dev_profile) (E:=string) IO_WIN [9; 9; 9; 9] (ia_set_regsel 3 ioapic_new)
    = (Panic, ia_set_regsel 3 ioapic_new) /\
  ioapic_write (prof:=dev_profile) (E:=string) IO_WIN [9; 9; 9; 9] (ia_set_regsel 3 ioapic_new)
    = (Ok tt, ia_set_regsel 3 ioapic_new).
Proof.
  apply (ioapic_reserved_register_read (prof:=dev_profile) (ia_set_regsel 3 ioapic_new)
           [9; 9; 9; 9]).
  - cbn. lia.
  - reflexivity.
Defined.
