(* ===== verification/Bus.v ===== *)
(** * Bus: routing of addresses to devices, [src/devices/bus.rs]

    A bus is a [BTreeMap] from address ranges to devices, ordered (and keyed)
    by the start of the range: a list sorted by start. *)

From S2P Require Import Prelude.
From Stdlib Require Import Sorting.Sorted.

(** A device of type [D] handles an access at an offset into its range. *)
(* src/devices/bus.rs:20-34, BusDevice *)
Class BusDevice (D : Type) : Type := {
  bd_read : Z -> Z -> list Z -> M D string (list Z);
  bd_write : Z -> Z -> list Z -> M D string unit;
}.

(* src/devices/bus.rs:36-40, Error *)
Inductive BusError : Type := BusOverlap.

(* src/devices/bus.rs:54-55, BusRange *)
Record BusRange : Type := { br_start : Z; br_len : Z }.

(* src/devices/bus.rs:65-69, BusRange::cmp *)
Definition range_cmp (a b : BusRange) : comparison := Z.compare (br_start a) (br_start b).

(* src/devices/bus.rs:59-63, BusRange::eq *)
Definition range_eq (a b : BusRange) : bool := br_start a =? br_start b.

Section bus.
Context {prof : Profile} {D : Type}.

(* src/devices/bus.rs:81-84, Bus *)
Definition Bus : Type := list (BusRange * D).

(* src/devices/bus.rs:88-92, Bus::new *)
Definition bus_new : Bus := [].

(** The scan in descending order of the starts. *)
Fixpoint first_before_in (l : list (BusRange * D)) (addr : Z) : option (BusRange * D) :=
  match l with
  | [] => None
  | (range, dev) :: l' =>
      if br_start range <=? addr then Some (range, dev) else first_before_in l' addr
  end.

(* src/devices/bus.rs:94-102, Bus::first_before *)
Definition bus_first_before (b : Bus) (addr : Z) : option (BusRange * D) :=
  first_before_in (rev b) addr.

(* src/devices/bus.rs:104-112, Bus::get_device *)
Definition bus_get_device (b : Bus) (addr : Z) : option (Z * D) :=
  match bus_first_before b addr with
  | Some (r, dev) =>
      let offset := addr - br_start r in
      if offset <? br_len r then Some (offset, dev) else None
  | None => None
  end.

(** [BTreeMap::insert]: an equal key keeps the old key and replaces the value,
    which is returned. *)
Fixpoint btree_insert (r : BusRange) (d : D) (b : Bus) : Bus * option D :=
  match b with
  | [] => ([(r, d)], None)
  | (r', d') :: b' =>
      match range_cmp r r' with
      | Lt => ((r, d) :: b, None)
      | Eq => ((r', d) :: b', Some d')
      | Gt => let '(b'', old) := btree_insert r d b' in ((r', d') :: b'', old)
      end
  end.

(* src/devices/bus.rs:114-142, Bus::insert *)
Definition bus_insert (device : D) (base len : Z) : M Bus BusError unit :=
  b ← gets id;
  if len =? 0 then throw BusOverlap
  else if bool_decide (is_Some (bus_get_device b base)) then throw BusOverlap
  else
    e1 ← lift (uadd 64 base len);
    e ← lift (usub 64 e1 1);
    let conflict :=
      match bus_first_before b e with
      | Some (r, _) => base <=? br_start r
      | None => false
      end in
    if conflict then throw BusOverlap
    else
      let '(b', old) := btree_insert {| br_start := base; br_len := len |} device b in
      _ ← modify (fun _ => b');
      match old with Some _ => throw BusOverlap | None => mret tt end.

(** The devices are shared objects: the bus finds the handle and the access
    runs on the device behind it, in the state [St]. *)
Section access.
Context {St : Type}.
Variable dev_read : D -> Z -> Z -> list Z -> M St string (list Z).
Variable dev_write : D -> Z -> Z -> list Z -> M St string unit.

(* src/devices/bus.rs:144-157, Bus::read *)
Definition bus_read (b : Bus) (vcpuid addr : Z) (data : list Z) : M St string (list Z * bool) :=
  match bus_get_device b addr with
  | Some (offset, dev) => data' ← dev_read dev vcpuid offset data; mret (data', true)
  | None => mret (data, false)
  end.

(* src/devices/bus.rs:159-172, Bus::write *)
Definition bus_write (b : Bus) (vcpuid addr : Z) (data : list Z) : M St string bool :=
  match bus_get_device b addr with
  | Some (offset, dev) => _ ← dev_write dev vcpuid offset data; mret true
  | None => mret false
  end.
End access.

(** ** Well-formed buses *)

Definition range_contains (r : BusRange) (a : Z) : Prop :=
  br_start r <= a < br_start r + br_len r.

Definition ranges_overlap (r r' : BusRange) : Prop :=
  br_start r < br_start r' + br_len r' /\ br_start r' < br_start r + br_len r.

Definition before (x y : BusRange * D) : Prop := br_start (fst x) + br_len (fst x) <= br_start (fst y).

(** Sorted by start, every range non-empty and ending before the next. *)
Record bus_wf (b : Bus) : Prop := {
  bwf_sorted : StronglySorted before b;
  bwf_ranges : Forall (fun x => 0 <= br_start (fst x) /\ 0 < br_len (fst x)) b;
}.

(** The abstract bus: which device answers at which offset. *)
Definition bus_view (b : Bus) (a o : Z) (d : D) : Prop :=
  exists r, (r, d) ∈ b /\ range_contains r a /\ o = a - br_start r.

Lemma sorted_app (l l' : Bus) :
  StronglySorted before (l ++ l') <->
  StronglySorted before l /\ StronglySorted before l' /\
  forall x y, x ∈ l -> y ∈ l' -> before x y.
Proof.
  induction l as [|x l IH]; cbn.
  - split; [|by intros (?&?&?)]. intros; split_and!; [constructor|done|].
    intros x y Hx. by apply not_elem_of_nil in Hx.
  - split.
    + intros H. apply StronglySorted_inv in H as [H Hx]. apply IH in H as (H1 & H2 & H3).
      rewrite Forall_app in Hx. destruct Hx as [Hx1 Hx2]. split_and!; [by constructor|done|].
      intros a c [-> | Ha]%elem_of_cons Hc; [|by apply H3].
      by apply (proj1 (Forall_forall _ _) Hx2).
    + intros (H1 & H2 & H3). apply StronglySorted_inv in H1 as [H1 Hx]. constructor.
      * apply IH. split_and!; [done..|]. intros; apply H3; [by right|done].
      * apply Forall_app. split; [done|]. apply Forall_forall. intros y Hy.
        apply H3; [by left|done].
Qed.

(** The scan finds the last range that starts at or before the address. *)
Lemma first_before_spec b addr :
  bus_wf b ->
  match bus_first_before b addr with
  | Some (r, d) => exists l l', b = l ++ (r, d) :: l' /\ br_start r <= addr /\
      Forall (fun x => addr < br_start (fst x)) l'
  | None => Forall (fun x => addr < br_start (fst x)) b
  end.
Proof.
  intros _. unfold bus_first_before. induction b as [|[r d] b IH] using rev_ind; [constructor|].
  rewrite rev_app_distr. cbn. destruct (Z.leb_spec (br_start r) addr).
  - exists b, []. split_and!; [done|done|constructor].
  - destruct (first_before_in (rev b) addr) as [[r' d']|].
    + destruct IH as (l & l' & -> & Hr & Hl). exists l, (l' ++ [(r, d)]).
      split_and!; [by rewrite <- app_assoc|done|]. apply Forall_app. split; [done|].
      by repeat constructor.
    + apply Forall_app. split; [done|]. by repeat constructor.
Qed.

Lemma sorted_unique b r d r' d' a :
  bus_wf b -> (r, d) ∈ b -> (r', d') ∈ b -> range_contains r a -> range_contains r' a ->
  r = r' /\ d = d'.
Proof.
  intros [Hs _]. induction Hs as [|x b Hs IH Hx]; intros H1 H2 Ha Ha'.
  - by apply not_elem_of_nil in H1.
  - unfold range_contains in *. rewrite Forall_forall in Hx.
    apply elem_of_cons in H1 as [<-|H1], H2 as [H2|H2].
    + by simplify_eq.
    + specialize (Hx _ H2). unfold before in Hx. cbn in Hx. lia.
    + subst x. specialize (Hx _ H1). unfold before in Hx. cbn in Hx. lia.
    + by apply IH.
Qed.

Lemma get_device_view b a o d :
  bus_wf b -> bus_get_device b a = Some (o, d) <-> bus_view b a o d.
Proof.
  intros Hwf. unfold bus_get_device. pose proof (first_before_spec b a Hwf) as Hf.
  destruct (bus_first_before b a) as [[r d0]|].
  - destruct Hf as (l & l' & -> & Hr & Hl). split.
    + destruct (Z.ltb_spec (a - br_start r) (br_len r)); [|done]. intros [= <- <-].
      exists r. unfold range_contains. split_and!; [|lia|lia|done].
      apply elem_of_app. right. by left.
    + intros (r' & Hin & Hc & ->). unfold range_contains in Hc.
      apply elem_of_app in Hin as [Hin|[Hin|Hin]%elem_of_cons].
      * destruct Hwf as [Hs Hp]. apply sorted_app in Hs as (_ & _ & Hs).
        specialize (Hs _ (r, d0) Hin ltac:(by left)). unfold before in Hs. cbn in Hs. lia.
      * simplify_eq. by rewrite (proj2 (Z.ltb_lt _ _)) by lia.
      * rewrite Forall_forall in Hl. specialize (Hl _ Hin). cbn in Hl. lia.
  - split; [done|]. intros (r' & Hin & Hc & ->). unfold range_contains in Hc.
    rewrite Forall_forall in Hf. specialize (Hf _ Hin). cbn in Hf. lia.
Qed.

(** Insertion at the place of the key. *)
Lemma btree_insert_split l l' r d :
  Forall (fun x => br_start (fst x) < br_start r) l ->
  Forall (fun x => br_start r < br_start (fst x)) l' ->
  btree_insert r d (l ++ l') = (l ++ (r, d) :: l', None).
Proof.
  induction 1 as [|[r' d'] l Hx Hl IH]; intros Hl'; cbn [app btree_insert].
  - destruct Hl' as [|[r' d'] l' Hx Hl']; [done|]. cbn [btree_insert range_cmp].
    unfold range_cmp. cbn in Hx. by rewrite (proj2 (Z.compare_lt_iff _ _)).
  - unfold range_cmp. cbn in Hx. rewrite (proj2 (Z.compare_gt_iff _ _)) by done.
    by rewrite (IH Hl').
Qed.

(** Nothing starts inside or covers a range that the two checks let pass. *)
Lemma free_place b base len :
  bus_wf b -> 0 < len -> bus_get_device b base = None ->
  (match bus_first_before b (base + len - 1) with
   | Some (r, _) => base <=? br_start r | None => false end) = false ->
  exists l l', b = l ++ l' /\
    Forall (fun x => br_start (fst x) + br_len (fst x) <= base) l /\
    Forall (fun x => base + len <= br_start (fst x)) l'.
Proof.
  intros Hwf Hlen Eg Ec. pose proof Hwf as [Hs Hp]. rewrite Forall_forall in Hp.
  pose proof (first_before_spec b (base + len - 1) Hwf) as Hf.
  assert (Hnb : forall x, x ∈ b -> ~ range_contains (fst x) base).
  { intros [r0 d0] Hin Hc. assert (bus_get_device b base = Some (base - br_start r0, d0)) as E
      by (apply get_device_view; [done|]; by exists r0). congruence. }
  destruct (bus_first_before b (base + len - 1)) as [[r0 d0]|].
  - destruct Hf as (l & l' & -> & Hr0 & Hl'). apply Z.leb_gt in Ec.
    exists (l ++ [(r0, d0)]), l'. split_and!.
    + by rewrite <- app_assoc.
    + apply Forall_forall. intros x Hx.
      assert (Hin : x ∈ l ++ (r0, d0) :: l').
      { apply elem_of_app in Hx as [Hx|Hx%list_elem_of_singleton];
          apply elem_of_app; [by left|subst; right; by left]. }
      specialize (Hnb _ Hin). specialize (Hp _ Hin). unfold range_contains in Hnb.
      assert (br_start (fst x) < base); [|lia].
      apply elem_of_app in Hx as [Hx|Hx%list_elem_of_singleton]; [|by subst].
      apply sorted_app in Hs as (_ & _ & Hs).
      specialize (Hs x (r0, d0) Hx ltac:(by left)). unfold before in Hs. cbn in Hs. lia.
    + eapply Forall_impl; [exact Hl'|]. cbn. intros. lia.
  - exists [], b. split_and!; [done|constructor|].
    eapply Forall_impl; [exact Hf|]. cbn. intros. lia.
Qed.

Lemma insert_between l l' r dev :
  bus_wf (l ++ l') -> 0 <= br_start r -> 0 < br_len r ->
  Forall (fun x => br_start (fst x) + br_len (fst x) <= br_start r) l ->
  Forall (fun x => br_start r + br_len r <= br_start (fst x)) l' ->
  btree_insert r dev (l ++ l') = (l ++ (r, dev) :: l', None) /\ bus_wf (l ++ (r, dev) :: l').
Proof.
  intros [Hs Hp] H0 Hlen Hl Hl'. rewrite Forall_forall in Hp, Hl, Hl'. split.
  - apply btree_insert_split; apply Forall_forall.
    + intros x Hx. specialize (Hp x ltac:(apply elem_of_app; by left)). specialize (Hl _ Hx). lia.
    + intros x Hx. specialize (Hl' _ Hx). lia.
  - split.
    + apply sorted_app in Hs as (H1 & H2 & H3). apply sorted_app. split_and!.
      * done.
      * constructor; [done|]. apply Forall_forall. intros x Hx. unfold before. cbn.
        specialize (Hl' _ Hx). lia.
      * intros x y Hx [->|Hy]%elem_of_cons; [|by apply H3].
        specialize (Hl _ Hx). unfold before. cbn. lia.
    + apply Forall_forall. intros x [Hx|[->|Hx]%elem_of_cons]%elem_of_app.
      * apply Hp. apply elem_of_app. by left.
      * cbn. lia.
      * apply Hp. apply elem_of_app. by right.
Qed.

Lemma view_between l l' r dev a o d :
  bus_view (l ++ (r, dev) :: l') a o d <->
  bus_view (l ++ l') a o d \/ (range_contains r a /\ o = a - br_start r /\ d = dev).
Proof.
  unfold bus_view. split.
  - intros (r' & Hin & Hc & ->). apply elem_of_app in Hin as [Hin|[Hin|Hin]%elem_of_cons].
    + left. exists r'. split_and!; [apply elem_of_app; by left|done|done].
    + simplify_eq. by right.
    + left. exists r'. split_and!; [apply elem_of_app; by right|done|done].
  - intros [(r' & Hin & Hc & ->)|(Hc & -> & ->)].
    + exists r'. split_and!; [|done|done].
      apply elem_of_app in Hin as [Hin|Hin]; apply elem_of_app; [by left|right; by right].
    + exists r. split_and!; [apply elem_of_app; right; by left|done|done].
Qed.

End bus.
Arguments Bus : clear implicits.

(** ** Properties *)

(** The bus keeps its ranges disjoint and routes by them.  On a
    well-formed bus [insert] of a non-empty range succeeds exactly when the
    range overlaps no range of the bus; then the result is well-formed and
    answers as before, with the new device on its range; otherwise the bus is
    unchanged. *)
Theorem bus_insert_iff_disjoint {prof : Profile} {D} (b : Bus D) dev base len :
  bus_wf b -> 0 <= base -> 0 < len -> base + len < 2 ^ 64 ->
  let r := {| br_start := base; br_len := len |} in
  let free := forall x, x ∈ b -> ~ ranges_overlap r (fst x) in
  (free -> exists b', bus_insert dev base len b = (Ok tt, b') /\ bus_wf b' /\
     forall a o d, bus_get_device b' a = Some (o, d) <->
       bus_get_device b a = Some (o, d) \/ (range_contains r a /\ o = a - base /\ d = dev)) /\
  (~ free -> bus_insert dev base len b = (Err BusOverlap, b)).
Proof.
  intros Hwf Hbase Hlen Hend r free. pose proof Hwf as [Hs Hp].
  assert (Hrun : bus_insert dev base len b =
    if bool_decide (is_Some (bus_get_device b base)) then (Err BusOverlap, b)
    else if (match bus_first_before b (base + len - 1) with
             | Some (r, _) => base <=? br_start r | None => false end)
    then (Err BusOverlap, b)
    else let '(b', old) := btree_insert r dev b in
         ((match old with Some _ => Err BusOverlap | None => Ok tt end), b')).
  { unfold bus_insert. run_St. rewrite (proj2 (Z.eqb_neq len 0)) by lia.
    case_bool_decide; [done|]. run_St. rewrite uadd_ok, usub_ok by lia. run_St.
    destruct (bus_first_before b (base + len - 1)) as [[r0 d0]|];
      [destruct (base <=? br_start r0); [done|]|]; fold r;
      by destruct (btree_insert r dev b) as [? []]. }
  rewrite Hrun. clear Hrun. rewrite Forall_forall in Hp.
  destruct (bus_get_device b base) as [[o0 d0]|] eqn:Eg.
  { rewrite bool_decide_eq_true_2 by eauto. split; [|done]. intros Hfree.
    apply get_device_view in Eg as (r0 & Hin & Hc & _); [|done].
    destruct (Hfree _ Hin). unfold ranges_overlap, range_contains in *. cbn. lia. }
  rewrite bool_decide_eq_false_2 by (by intros []).
  destruct (match bus_first_before b (base + len - 1) with
           | Some (r, _) => base <=? br_start r | None => false end) eqn:Ec.
  - split; [|done]. intros Hfree. pose proof (first_before_spec b (base + len - 1) Hwf) as Hf.
    destruct (bus_first_before b (base + len - 1)) as [[r0 d0]|]; [|done].
    destruct Hf as (l & l' & -> & Hr0 & _). apply Z.leb_le in Ec.
    assert (Hin : (r0, d0) ∈ l ++ (r0, d0) :: l') by (apply elem_of_app; right; by left).
    specialize (Hp _ Hin). destruct (Hfree _ Hin). unfold ranges_overlap. cbn in *. lia.
  - destruct (free_place b base len Hwf Hlen Eg Ec) as (l & l' & -> & Hl & Hl').
    destruct (insert_between l l' r dev Hwf) as [-> Hwf']; [done..|]. split.
    + intros _. eexists. split; [done|]. split; [done|]. intros a o d.
      rewrite !get_device_view by done. apply view_between.
    + intros Hnf. destruct Hnf. rewrite Forall_forall in Hl, Hl'.
      intros x [Hx|Hx]%elem_of_app; unfold ranges_overlap; cbn.
      * specialize (Hl _ Hx). lia.
      * specialize (Hl' _ Hx). lia.
Qed.

Lemma bus_insert_iff_disjoint_witness :
  let b := [({| br_start := 16; br_len := 16 |}, 1%nat)] in
  let r := {| br_start := 32; br_len := 8 |} in
  let free := forall x, x ∈ b -> ~ ranges_overlap r (fst x) in
  (free -> exists b', bus_insert (prof:=dev_profile) 2%nat 32 8 b = (Ok tt, b') /\ bus_wf b' /\
     forall a o d, bus_get_device b' a = Some (o, d) <->
       bus_get_device b a = Some (o, d) \/ (range_contains r a /\ o = a - 32 /\ d = 2%nat)) /\
  (~ free -> bus_insert (prof:=dev_profile) 2%nat 32 8 b = (Err BusOverlap, b)).
Proof.
  apply (bus_insert_iff_disjoint (prof:=dev_profile) [({| br_start := 16; br_len := 16 |}, 1%nat)]
           2%nat 32 8).
  - split; [repeat constructor|repeat constructor; cbn; lia].
  - lia.
  - lia.
  - lia.
Defined.
