(* ===== verification/VirtioDev.v ===== *)
(** * VirtioDev: the virtio device interface and the devices,
      [src/devices/virtio/device.rs], [mod.rs] and the [device.rs] of block,
      net, console and rng

    The interface that the MMIO transport drives, with the laws it relies on,
    and the four implementations.  A device here is what the transport sees:
    its features, its configuration space and whether it is activated; the
    worker that serves the queues after activation is modelled in the files of
    the workers.  The constants of the [virtio_bindings] crate are a class. *)

From S2P Require Import Prelude Bytes HostMem GuestMem Queue.

(** ** Constants *)

(* src/devices/virtio/mod.rs:32-32, INIT *)
Definition INIT : Z := 0.
(* src/devices/virtio/mod.rs:33-33, ACKNOWLEDGE *)
Definition ACKNOWLEDGE : Z := 1.
(* src/devices/virtio/mod.rs:34-34, DRIVER *)
Definition DRIVER : Z := 2.
(* src/devices/virtio/mod.rs:35-35, FAILED *)
Definition FAILED : Z := 128.
(* src/devices/virtio/mod.rs:36-36, FEATURES_OK *)
Definition FEATURES_OK : Z := 8.
(* src/devices/virtio/mod.rs:37-37, DRIVER_OK *)
Definition DRIVER_OK : Z := 4.
(* src/devices/virtio/mod.rs:40-42, TYPE_NET *)
Definition TYPE_NET : Z := 1.
(* src/devices/virtio/mod.rs:43-43, TYPE_BLOCK *)
Definition TYPE_BLOCK : Z := 2.
(* src/devices/virtio/mod.rs:44-44, TYPE_CONSOLE *)
Definition TYPE_CONSOLE : Z := 3.
(* src/devices/virtio/mod.rs:45-45, TYPE_RNG *)
Definition TYPE_RNG : Z := 4.
(* src/devices/virtio/mod.rs:47-49, VIRTIO_MMIO_INT_VRING *)
Definition VIRTIO_MMIO_INT_VRING : Z := 1.
(* src/devices/virtio/mod.rs:50-50, VIRTIO_MMIO_INT_CONFIG *)
Definition VIRTIO_MMIO_INT_CONFIG : Z := 2.
(* src/devices/virtio/mod.rs:52-54, NOTIFY_REG_OFFSET *)
Definition NOTIFY_REG_OFFSET : Z := 80.

(* src/devices/virtio/mod.rs:56-60, ActivateError *)
Inductive ActivateError : Type :=
| EpollCtl (code : Z)
| BadActivate.

(** The bits and codes that the virtio specification fixes. *)
Class VirtioConsts : Type := {
  VIRTIO_F_VERSION_1 : Z;
  VIRTIO_RING_F_EVENT_IDX : Z;
  VIRTIO_NET_F_MAC : Z;
  VIRTIO_BLK_F_SEG_MAX : Z;
  VIRTIO_BLK_F_RO : Z;
  VIRTIO_BLK_F_FLUSH : Z;
  VIRTIO_BLK_F_DISCARD : Z;
  VIRTIO_BLK_F_WRITE_ZEROES : Z;
  VIRTIO_BLK_ID_BYTES : Z;
  VIRTIO_BLK_T_IN : Z;
  VIRTIO_BLK_T_OUT : Z;
  VIRTIO_BLK_T_FLUSH : Z;
  VIRTIO_BLK_T_GET_ID : Z;
  VIRTIO_BLK_T_DISCARD : Z;
  VIRTIO_BLK_T_WRITE_ZEROES : Z;
  VIRTIO_BLK_WRITE_ZEROES_FLAG_UNMAP : Z;
  VIRTIO_BLK_S_OK : Z;
  VIRTIO_BLK_S_IOERR : Z;
}.

(** ** The interface *)

(** An event is the index of its handle in the transport's list: the [Arc] is
    shared between the transport and the device. *)
(* src/devices/virtio/device.rs:35-46, DeviceQueue *)
Record DeviceQueue : Type := { dq_queue : Queue; dq_event : nat }.

(* src/devices/virtio/device.rs:42-46, DeviceQueue::new *)
Definition device_queue_new (queue : Queue) (event : nat) : DeviceQueue :=
  {| dq_queue := queue; dq_event := event |}.

(* src/devices/virtio/device.rs:20-27, QueueConfig *)
Record QueueConfig : Type := { qc_size : Z }.

(* src/devices/virtio/device.rs:29-33, QueueConfig::new *)
Definition queue_config_new (size : Z) : QueueConfig := {| qc_size := size |}.

(** The interrupt handle of an activated device is the transport's own. *)
(* src/devices/virtio/device.rs:48-53, DeviceState *)
Inductive DeviceState : Type :=
| Inactive
| Activated (mem : MemoryManager).

(* src/devices/virtio/device.rs:66-70, DeviceState::is_activated *)
Definition device_state_is_activated (s : DeviceState) : bool :=
  match s with Activated _ => true | Inactive => false end.

(* src/devices/virtio/device.rs:55-64, DeviceState::signal_used_queue *)
Definition device_state_signal_used_queue {I} (signal : M I string unit) (s : DeviceState) :
    M I string unit :=
  match s with Inactive => mret tt | Activated _ => signal end.

(* src/devices/virtio/device.rs:72-77, VirtioShmRegion *)
Record VirtioShmRegion : Type := { shm_host_addr : Z; shm_guest_addr : Z; shm_size : Z }.

(* src/devices/virtio/device.rs:79-172, VirtioDevice *)
Class VirtioDevice (D : Type) : Type := {
  vd_avail_features : D -> Z;
  vd_acked_features : D -> Z;
  vd_set_acked_features : Z -> D -> D;
  vd_device_type : D -> Z;
  vd_device_name : D -> string;
  vd_queue_config : D -> list QueueConfig;
  vd_read_config : D -> Z -> list Z -> list Z;
  vd_write_config : Z -> list Z -> D -> D;
  vd_activate : MemoryManager -> list DeviceQueue -> M D ActivateError unit;
  vd_is_activated : D -> bool;
  vd_reset : D -> bool * D;
  vd_shm_region : D -> option VirtioShmRegion;
}.

Section defaults.
Context {D : Type} `{!VirtioDevice D}.

(* src/devices/virtio/device.rs:107-120, VirtioDevice::avail_features_by_page *)
Definition avail_features_by_page (d : D) (page : Z) : Z :=
  let avail_features := vd_avail_features d in
  if page =? 0 then wrap 32 avail_features
  else if page =? 1 then wrap 32 (Z.shiftr avail_features 32)
  else 0.

(* src/devices/virtio/device.rs:122-142, VirtioDevice::ack_features_by_page *)
Definition ack_features_by_page (page value : Z) (d : D) : D :=
  let v :=
    if page =? 0 then value
    else if page =? 1 then wrap 64 (Z.shiftl value 32)
    else 0 in
  let avail_features := vd_avail_features d in
  let unrequested_features := Z.land v (wnot 64 avail_features) in
  let v := if negb (unrequested_features =? 0) then Z.land v (wnot 64 unrequested_features) else v in
  vd_set_acked_features (Z.lor (vd_acked_features d) v) d.

(* src/devices/virtio/device.rs:162-166, VirtioDevice::reset *)
Definition reset_default (d : D) : bool * D := (false, d).

(* src/devices/virtio/device.rs:168-171, VirtioDevice::shm_region *)
Definition shm_region_default (d : D) : option VirtioShmRegion := None.

End defaults.

(** What the devices promise the transport: the accessors are independent,
    activation and reset toggle [is_activated], and neither of them touches
    the features. *)
Class VirtioDeviceLaws (D : Type) `{!VirtioDevice D} : Prop := {
  vl_set_get d v : vd_acked_features (vd_set_acked_features v d) = v;
  vl_set_avail d v : vd_avail_features (vd_set_acked_features v d) = vd_avail_features d;
  vl_set_config d v : vd_queue_config (vd_set_acked_features v d) = vd_queue_config d;
  vl_set_activated d v : vd_is_activated (vd_set_acked_features v d) = vd_is_activated d;
  vl_write_activated o bs d : vd_is_activated (vd_write_config o bs d) = vd_is_activated d;
  vl_write_avail o bs d : vd_avail_features (vd_write_config o bs d) = vd_avail_features d;
  vl_write_acked o bs d : vd_acked_features (vd_write_config o bs d) = vd_acked_features d;
  vl_write_config o bs d : vd_queue_config (vd_write_config o bs d) = vd_queue_config d;
  vl_activate mm qs d d' : vd_activate mm qs d = (Ok tt, d') -> vd_is_activated d' = true;
  vl_activate_acked mm qs d : vd_acked_features (vd_activate mm qs d).2 = vd_acked_features d;
  vl_activate_avail mm qs d : vd_avail_features (vd_activate mm qs d).2 = vd_avail_features d;
  vl_activate_config mm qs d : vd_queue_config (vd_activate mm qs d).2 = vd_queue_config d;
  vl_reset d d' : vd_reset d = (true, d') -> vd_is_activated d' = false;
  vl_reset_avail d : vd_avail_features (vd_reset d).2 = vd_avail_features d;
  vl_reset_acked d : vd_acked_features (vd_reset d).2 = vd_acked_features d;
  vl_reset_config d : vd_queue_config (vd_reset d).2 = vd_queue_config d;
  vl_read_length d o bs : length (vd_read_config d o bs) = length bs;
}.

(** ** The configuration space *)

(** [read_config] of block, net and console: [Write for &mut [u8]] copies into
    the front of the buffer. *)
(* src/devices/virtio/block/device.rs:365-377, Block::read_config *)
Definition config_read (config_slice : list Z) (offset : Z) (data : list Z) : list Z :=
  let config_len := zlen config_slice in
  if config_len <=? offset then data
  else
    match checked_add 64 offset (zlen data) with
    | Some end_ =>
        zip_write data (slice (Z.to_nat offset) (Z.to_nat (Z.min end_ config_len - offset))
                          config_slice)
    | None => data
    end.

(** ** The state common to the devices

    [vc_worker] holds the queues of the running worker thread. *)
Record VirtioCore : Type := {
  vc_avail_features : Z;
  vc_acked_features : Z;
  vc_device_state : DeviceState;
  vc_worker : option (list DeviceQueue);
}.

Definition core_set_acked (v : Z) (c : VirtioCore) : VirtioCore :=
  {| vc_avail_features := vc_avail_features c; vc_acked_features := v;
     vc_device_state := vc_device_state c; vc_worker := vc_worker c |}.

Definition core_set_state (s : DeviceState) (w : option (list DeviceQueue)) (c : VirtioCore) :
    VirtioCore :=
  {| vc_avail_features := vc_avail_features c; vc_acked_features := vc_acked_features c;
     vc_device_state := s; vc_worker := w |}.

(** The common part of [activate]: the worker must not exist, the number of
    queues must be the expected one. *)
(* src/devices/virtio/rng/device.rs:65-86, Rng::activate *)
Definition core_activate (num_queues : nat) (mem : MemoryManager) (queues : list DeviceQueue) :
    M VirtioCore ActivateError unit :=
  c ← gets id;
  match vc_worker c with
  | Some _ => lift Panic
  | None =>
      if (length queues =? num_queues)%nat
      then modify (core_set_state (Activated mem) (Some queues))
      else throw BadActivate
  end.

(** Joining the worker drops its queues. *)
(* src/devices/virtio/rng/device.rs:88-97, Rng::reset *)
Definition core_reset (c : VirtioCore) : bool * VirtioCore := (true, core_set_state Inactive None c).

(** Dropping a device with a running worker stops the worker. *)
Definition core_drop (c : VirtioCore) : VirtioCore :=
  match vc_worker c with Some _ => (core_reset c).2 | None => c end.

(** ** Block *)

(* src/devices/virtio/block/mod.rs:17-17, SECTOR_SHIFT *)
Definition SECTOR_SHIFT : Z := 9.
(* src/devices/virtio/block/mod.rs:18-18, SECTOR_SIZE *)
Definition SECTOR_SIZE : Z := Z.shiftl 1 SECTOR_SHIFT.
(* src/devices/virtio/block/mod.rs:20-20, NUM_QUEUES *)
Definition BLOCK_NUM_QUEUES : nat := 1.
(* src/devices/virtio/block/mod.rs:19-21, QUEUE_CONFIG *)
Definition BLOCK_QUEUE_CONFIG : list QueueConfig := [queue_config_new 256].

(* src/devices/virtio/block/mod.rs:41-47, ImageType *)
Inductive ImageType : Type := ImgRaw | ImgQcow2 | ImgVmdk.

(* src/devices/virtio/block/mod.rs:49-63, ImageType::try_from *)
Definition image_type_try_from (disk_format : Z) : option ImageType :=
  if disk_format =? 0 then Some ImgRaw
  else if disk_format =? 1 then Some ImgQcow2
  else if disk_format =? 2 then Some ImgVmdk
  else None.

(* src/devices/virtio/block/mod.rs:65-71, SyncMode *)
Inductive SyncMode : Type := SyncNone | SyncRelaxed | SyncFull.
#[export] Instance sync_mode_eq_dec : EqDecision SyncMode.
Proof. solve_decision. Defined.

(* src/devices/virtio/block/mod.rs:73-87, SyncMode::try_from *)
Definition sync_mode_try_from (sync_mode : Z) : option SyncMode :=
  if sync_mode =? 0 then Some SyncNone
  else if sync_mode =? 1 then Some SyncRelaxed
  else if sync_mode =? 2 then Some SyncFull
  else None.

(* src/devices/virtio/block/device.rs:40-51, CacheType *)
Inductive CacheType : Type := CacheUnsafe | CacheWriteback.

(* src/devices/virtio/block/device.rs:53-63, CacheType::auto *)
Definition cache_type_auto (path : string) : CacheType := CacheWriteback.

(** The disk image itself is shared and lives in the worker's state. *)
(* src/devices/virtio/block/device.rs:65-71, DiskProperties *)
Record DiskProperties : Type := {
  dp_cache_type : CacheType;
  dp_nsectors : Z;
  dp_image_id : list Z;
}.

(* src/devices/virtio/block/device.rs:73-96, DiskProperties::new *)
Definition disk_properties_new (disk_size : Z) (disk_image_id : list Z) (cache_type : CacheType) :
    DiskProperties :=
  {| dp_cache_type := cache_type; dp_nsectors := Z.shiftr disk_size SECTOR_SHIFT;
     dp_image_id := disk_image_id |}.

(** [device_id] is the formatted file id, when the host gives one. *)
(* src/devices/virtio/block/device.rs:117-132, DiskProperties::build_disk_image_id *)
Definition build_disk_image_id `{!VirtioConsts} (device_id : option (list Z)) : list Z :=
  let default_id := replicate (Z.to_nat VIRTIO_BLK_ID_BYTES) 0 in
  match device_id with
  | None => default_id
  | Some disk_id =>
      let bytes_to_copy := Nat.min (length disk_id) (Z.to_nat VIRTIO_BLK_ID_BYTES) in
      splice 0 (take bytes_to_copy disk_id) default_id
  end.

(** The nested structures are flattened in the order of their bytes. *)
(* src/devices/virtio/block/device.rs:159-194, VirtioBlkConfig *)
Record VirtioBlkConfig : Type := {
  bc_capacity : Z;
  bc_size_max : Z;
  bc_seg_max : Z;
  bc_cylinders : Z;
  bc_heads : Z;
  bc_sectors : Z;
  bc_blk_size : Z;
  bc_physical_block_exp : Z;
  bc_alignment_offset : Z;
  bc_min_io_size : Z;
  bc_opt_io_size : Z;
  bc_writeback : Z;
  bc_unused0 : Z;
  bc_num_queues : Z;
  bc_max_discard_sectors : Z;
  bc_max_discard_seg : Z;
  bc_discard_sector_alignment : Z;
  bc_max_write_zeroes_sectors : Z;
  bc_max_write_zeroes_seg : Z;
  bc_write_zeroes_may_unmap : Z;
}.

Definition blk_config_bytes (c : VirtioBlkConfig) : list Z :=
  le_bytes 8 (bc_capacity c) ++ le_bytes 4 (bc_size_max c) ++ le_bytes 4 (bc_seg_max c) ++
  le_bytes 2 (bc_cylinders c) ++ le_bytes 1 (bc_heads c) ++ le_bytes 1 (bc_sectors c) ++
  le_bytes 4 (bc_blk_size c) ++ le_bytes 1 (bc_physical_block_exp c) ++
  le_bytes 1 (bc_alignment_offset c) ++ le_bytes 2 (bc_min_io_size c) ++
  le_bytes 4 (bc_opt_io_size c) ++ le_bytes 1 (bc_writeback c) ++ le_bytes 1 (bc_unused0 c) ++
  le_bytes 2 (bc_num_queues c) ++ le_bytes 4 (bc_max_discard_sectors c) ++
  le_bytes 4 (bc_max_discard_seg c) ++ le_bytes 4 (bc_discard_sector_alignment c) ++
  le_bytes 4 (bc_max_write_zeroes_sectors c) ++ le_bytes 4 (bc_max_write_zeroes_seg c) ++
  le_bytes 1 (bc_write_zeroes_may_unmap c).

(** [blk_disk] is taken by the first activation; later ones build it again
    from the size of the image. *)
(* src/devices/virtio/block/device.rs:199-220, Block *)
Record Block : Type := {
  blk_core : VirtioCore;
  blk_disk : option DiskProperties;
  blk_cache_type : CacheType;
  blk_disk_size : Z;
  blk_disk_image_id : list Z;
  blk_config : VirtioBlkConfig;
  blk_id : string;
  blk_partuuid : option string;
}.

(** Opening the image is the [imago] crate's: the arguments are the size it
    reports, the discard alignment of the file and the device id. *)
(* src/devices/virtio/block/device.rs:227-322, Block::new *)
Definition block_new `{!VirtioConsts} (id : string) (partuuid : option string)
    (cache_type : CacheType) (is_disk_read_only : bool) (sync_mode : SyncMode)
    (disk_size discard_alignment : Z) (device_id : option (list Z)) : Block :=
  let disk_image_id := build_disk_image_id device_id in
  let disk_properties := disk_properties_new disk_size disk_image_id cache_type in
  let avail_features :=
    Z.lor (Z.lor (Z.lor (Z.lor (Z.shiftl 1 VIRTIO_F_VERSION_1) (Z.shiftl 1 VIRTIO_BLK_F_SEG_MAX))
      (Z.shiftl 1 VIRTIO_BLK_F_DISCARD)) (Z.shiftl 1 VIRTIO_BLK_F_WRITE_ZEROES))
      (Z.shiftl 1 VIRTIO_RING_F_EVENT_IDX) in
  let avail_features :=
    if bool_decide (sync_mode <> SyncNone)
    then Z.lor avail_features (Z.shiftl 1 VIRTIO_BLK_F_FLUSH) else avail_features in
  let avail_features :=
    if is_disk_read_only
    then Z.lor avail_features (Z.shiftl 1 VIRTIO_BLK_F_RO) else avail_features in
  {| blk_core := {| vc_avail_features := avail_features; vc_acked_features := 0;
                    vc_device_state := Inactive; vc_worker := None |};
     blk_disk := Some disk_properties;
     blk_cache_type := cache_type;
     blk_disk_size := disk_size;
     blk_disk_image_id := disk_image_id;
     blk_config :=
       {| bc_capacity := dp_nsectors disk_properties; bc_size_max := 0; bc_seg_max := 254;
          bc_cylinders := 0; bc_heads := 0; bc_sectors := 0; bc_blk_size := 0;
          bc_physical_block_exp := 0; bc_alignment_offset := 0; bc_min_io_size := 0;
          bc_opt_io_size := 0; bc_writeback := 0; bc_unused0 := 0; bc_num_queues := 0;
          bc_max_discard_sectors := 2 ^ 32 - 1; bc_max_discard_seg := 1;
          bc_discard_sector_alignment := wrap 32 discard_alignment / 512;
          bc_max_write_zeroes_sectors := 2 ^ 32 - 1; bc_max_write_zeroes_seg := 1;
          bc_write_zeroes_may_unmap := 1 |};
     blk_id := id;
     blk_partuuid := partuuid |}.

(* src/devices/virtio/block/device.rs:334-337, Block::is_read_only *)
Definition block_is_read_only `{!VirtioConsts} (d : Block) : bool :=
  negb (Z.land (vc_avail_features (blk_core d)) (Z.shiftl 1 VIRTIO_BLK_F_RO) =? 0).

Definition blk_set_core (d : Block) (c : VirtioCore) : Block :=
  {| blk_core := c; blk_disk := blk_disk d; blk_cache_type := blk_cache_type d;
     blk_disk_size := blk_disk_size d; blk_disk_image_id := blk_disk_image_id d;
     blk_config := blk_config d; blk_id := blk_id d; blk_partuuid := blk_partuuid d |}.

Definition blk_take_disk (d : Block) : Block :=
  {| blk_core := blk_core d; blk_disk := None; blk_cache_type := blk_cache_type d;
     blk_disk_size := blk_disk_size d; blk_disk_image_id := blk_disk_image_id d;
     blk_config := blk_config d; blk_id := blk_id d; blk_partuuid := blk_partuuid d |}.

(** The disk the worker gets. *)
(* src/devices/virtio/block/device.rs:402-410, Block::activate *)
Definition block_activate_disk (d : Block) : DiskProperties :=
  match blk_disk d with
  | Some p => p
  | None => disk_properties_new (blk_disk_size d) (blk_disk_image_id d) (blk_cache_type d)
  end.

(* src/devices/virtio/block/device.rs:387-423, Block::activate *)
Definition block_activate (mem : MemoryManager) (queues : list DeviceQueue) :
    M Block ActivateError unit :=
  _ ← zoom blk_core (fun c d => blk_set_core d c) (core_activate BLOCK_NUM_QUEUES mem queues);
  modify blk_take_disk.

(* src/devices/virtio/block/device.rs:340-435, VirtioDevice for Block *)
Instance block_device : VirtioDevice Block := {
  vd_avail_features d := vc_avail_features (blk_core d);
  vd_acked_features d := vc_acked_features (blk_core d);
  vd_set_acked_features v d := blk_set_core d (core_set_acked v (blk_core d));
  vd_device_type _ := TYPE_BLOCK;
  vd_device_name _ := "block"%string;
  vd_queue_config _ := BLOCK_QUEUE_CONFIG;
  vd_read_config d := config_read (blk_config_bytes (blk_config d));
  vd_write_config _ _ d := d;
  vd_activate := block_activate;
  vd_is_activated d := device_state_is_activated (vc_device_state (blk_core d));
  vd_reset d := let '(b, c) := core_reset (blk_core d) in (b, blk_set_core d c);
  vd_shm_region := shm_region_default;
}.

(** ** Rng *)

(* src/devices/virtio/rng/mod.rs:8-9, NUM_QUEUES *)
Definition RNG_NUM_QUEUES : nat := 1.
(* src/devices/virtio/rng/mod.rs:8-10, QUEUE_CONFIG *)
Definition RNG_QUEUE_CONFIG : list QueueConfig := [queue_config_new 256].

(* src/devices/virtio/rng/device.rs:8-14, Rng *)
Record Rng : Type := { rng_core : VirtioCore }.

(* src/devices/virtio/rng/device.rs:16-25, Rng::new *)
Definition rng_new `{!VirtioConsts} : Rng :=
  {| rng_core := {| vc_avail_features := Z.shiftl 1 VIRTIO_F_VERSION_1; vc_acked_features := 0;
                    vc_device_state := Inactive; vc_worker := None |} |}.

(* src/devices/virtio/rng/device.rs:100-106, Rng::drop *)
Definition rng_drop (d : Rng) : Rng := {| rng_core := core_drop (rng_core d) |}.

(* src/devices/virtio/rng/device.rs:28-63, VirtioDevice for Rng *)
Instance rng_device : VirtioDevice Rng := {
  vd_avail_features d := vc_avail_features (rng_core d);
  vd_acked_features d := vc_acked_features (rng_core d);
  vd_set_acked_features v d := {| rng_core := core_set_acked v (rng_core d) |};
  vd_device_type _ := TYPE_RNG;
  vd_device_name _ := "virtio_rng"%string;
  vd_queue_config _ := RNG_QUEUE_CONFIG;
  vd_read_config _ _ data := data;
  vd_write_config _ _ d := d;
  vd_activate mem qs :=
    zoom rng_core (fun c _ => {| rng_core := c |}) (core_activate RNG_NUM_QUEUES mem qs);
  vd_is_activated d := device_state_is_activated (vc_device_state (rng_core d));
  vd_reset d := let '(b, c) := core_reset (rng_core d) in (b, {| rng_core := c |});
  vd_shm_region := shm_region_default;
}.

(** ** Console *)

(* src/devices/virtio/console/mod.rs:8-10, NUM_QUEUES *)
Definition CONSOLE_NUM_QUEUES : nat := 2.
(* src/devices/virtio/console/mod.rs:11-14, QUEUE_CONFIG *)
Definition CONSOLE_QUEUE_CONFIG : list QueueConfig := [queue_config_new 256; queue_config_new 256].
(* src/devices/virtio/console/device.rs:19-19, VIRTIO_CONSOLE_F_SIZE *)
Definition VIRTIO_CONSOLE_F_SIZE : Z := 0.

(* src/devices/virtio/console/device.rs:33-40, ConsoleConfig *)
Record ConsoleConfig : Type := {
  cc_cols : Z; cc_rows : Z; cc_max_nr_ports : Z; cc_emerg_wr : Z }.

(** [ByteValued::as_slice] of the packed structure. *)
Definition console_config_bytes (c : ConsoleConfig) : list Z :=
  le_bytes 2 (cc_cols c) ++ le_bytes 2 (cc_rows c) ++
  le_bytes 4 (cc_max_nr_ports c) ++ le_bytes 4 (cc_emerg_wr c).

(** The output of [eprint!] is kept, most recent last. *)
(* src/devices/virtio/console/device.rs:45-54, Console *)
Record Console : Type := {
  con_core : VirtioCore; con_config : ConsoleConfig; con_emergency : list Z }.

(* src/devices/virtio/console/device.rs:57-76, Console::new *)
Definition console_new `{!VirtioConsts} (cols rows : Z) : Console :=
  {| con_core := {| vc_avail_features := Z.lor (Z.shiftl 1 VIRTIO_F_VERSION_1)
                                               (Z.shiftl 1 VIRTIO_CONSOLE_F_SIZE);
                    vc_acked_features := 0; vc_device_state := Inactive; vc_worker := None |};
     con_config := {| cc_cols := cols; cc_rows := rows; cc_max_nr_ports := 0; cc_emerg_wr := 0 |};
     con_emergency := [] |}.

Definition con_set_core (d : Console) (c : VirtioCore) : Console :=
  {| con_core := c; con_config := con_config d; con_emergency := con_emergency d |}.

(* src/devices/virtio/console/device.rs:178-184, Console::drop *)
Definition console_device_drop (d : Console) : Console := con_set_core d (core_drop (con_core d)).

(* src/devices/virtio/console/device.rs:118-131, Console::write_config *)
Definition console_write_config (offset : Z) (data : list Z) (d : Console) : Console :=
  match data with
  | ch :: _ =>
      if offset =? 8 then
        {| con_core := con_core d; con_config := con_config d;
           con_emergency := con_emergency d ++ [ch] |}
      else d
  | [] => d
  end.

(* src/devices/virtio/console/device.rs:79-176, VirtioDevice for Console *)
Instance console_device : VirtioDevice Console := {
  vd_avail_features d := vc_avail_features (con_core d);
  vd_acked_features d := vc_acked_features (con_core d);
  vd_set_acked_features v d := con_set_core d (core_set_acked v (con_core d));
  vd_device_type _ := TYPE_CONSOLE;
  vd_device_name _ := "console"%string;
  vd_queue_config _ := CONSOLE_QUEUE_CONFIG;
  vd_read_config d := config_read (console_config_bytes (con_config d));
  vd_write_config := console_write_config;
  vd_activate mem qs :=
    zoom con_core (fun c d => con_set_core d c) (core_activate CONSOLE_NUM_QUEUES mem qs);
  vd_is_activated d := device_state_is_activated (vc_device_state (con_core d));
  vd_reset d := let '(b, c) := core_reset (con_core d) in (b, con_set_core d c);
  vd_shm_region := shm_region_default;
}.

(** ** Net *)

(* src/devices/virtio/net/mod.rs:7-9, NUM_QUEUES *)
Definition NET_NUM_QUEUES : nat := 2.
(* src/devices/virtio/net/mod.rs:7-13, QUEUE_CONFIG *)
Definition NET_QUEUE_CONFIG : list QueueConfig := [queue_config_new 1024; queue_config_new 1024].

(* src/devices/virtio/net/device.rs:28-34, NetConfig *)
Record NetConfig : Type := {
  nc_mac : list Z; nc_status : Z; nc_max_virtqueue_pairs : Z }.

Definition net_config_bytes (c : NetConfig) : list Z :=
  nc_mac c ++ le_bytes 2 (nc_status c) ++ le_bytes 2 (nc_max_virtqueue_pairs c).

(** [net_gvproxy] is whether spawning the proxy process succeeds. *)
(* src/devices/virtio/net/device.rs:39-46, Net *)
Record Net : Type := { net_core : VirtioCore; net_config : NetConfig; net_gvproxy : bool }.

(* src/devices/virtio/net/device.rs:53-68, Net::new *)
Definition net_new `{!VirtioConsts} (mac : list Z) (gvproxy : bool) : Net :=
  {| net_core := {| vc_avail_features := Z.lor (Z.shiftl 1 VIRTIO_F_VERSION_1)
                                               (Z.shiftl 1 VIRTIO_NET_F_MAC);
                    vc_acked_features := 0; vc_device_state := Inactive; vc_worker := None |};
     net_config := {| nc_mac := mac; nc_status := 0; nc_max_virtqueue_pairs := 1 |};
     net_gvproxy := gvproxy |}.

Definition net_set_core (d : Net) (c : VirtioCore) : Net :=
  {| net_core := c; net_config := net_config d; net_gvproxy := net_gvproxy d |}.

(** The proxy is dropped with the fields, after this ([Gvproxy]). *)
(* src/devices/virtio/net/device.rs:167-173, Net::drop *)
Definition net_drop (d : Net) : Net := net_set_core d (core_drop (net_core d)).

(** The proxy is spawned before the queues are counted. *)
(* src/devices/virtio/net/device.rs:122-153, Net::activate *)
Definition net_activate (mem : MemoryManager) (queues : list DeviceQueue) :
    M Net ActivateError unit :=
  d ← gets id;
  match vc_worker (net_core d) with
  | Some _ => lift Panic
  | None =>
      if net_gvproxy d
      then zoom net_core (fun c d => net_set_core d c) (core_activate NET_NUM_QUEUES mem queues)
      else throw BadActivate
  end.

(* src/devices/virtio/net/device.rs:71-165, VirtioDevice for Net *)
Instance net_device : VirtioDevice Net := {
  vd_avail_features d := vc_avail_features (net_core d);
  vd_acked_features d := vc_acked_features (net_core d);
  vd_set_acked_features v d := net_set_core d (core_set_acked v (net_core d));
  vd_device_type _ := TYPE_NET;
  vd_device_name _ := "net"%string;
  vd_queue_config _ := NET_QUEUE_CONFIG;
  vd_read_config d := config_read (net_config_bytes (net_config d));
  vd_write_config _ _ d := d;
  vd_activate := net_activate;
  vd_is_activated d := device_state_is_activated (vc_device_state (net_core d));
  vd_reset d := let '(b, c) := core_reset (net_core d) in (b, net_set_core d c);
  vd_shm_region := shm_region_default;
}.

(** ** The devices meet the interface *)

Lemma length_config_read cfg o data : length (config_read cfg o data) = length data.
Proof.
  unfold config_read. destruct (zlen cfg <=? o); [done|].
  destruct (checked_add 64 o (zlen data)); [|done]. apply length_zip_write.
Qed.

(** What [core_activate] keeps, and what it establishes. *)
Lemma core_activate_spec n mm qs c :
  exists o c', core_activate n mm qs c = (o, c') /\
    vc_acked_features c' = vc_acked_features c /\ vc_avail_features c' = vc_avail_features c /\
    (forall u, o = Ok u -> vc_device_state c' = Activated mm).
Proof.
  unfold core_activate. run_St. destruct (vc_worker c); [by do 2 eexists|].
  destruct (length qs =? n)%nat; do 2 eexists; (split; [reflexivity|]); done.
Qed.

Ltac device_laws :=
  split; try (intros; reflexivity); try (intros; apply length_config_read);
  try (intros ???; cbn; unfold console_write_config; repeat case_match; done);
  try (intros ??; cbn; intros [= <-]; reflexivity).

(** The laws of activation, from those of [core_activate]. *)
Ltac activate_law :=
  unfold zoom; run_St;
  match goal with |- context [core_activate ?n ?mm ?qs ?c] =>
    let o := fresh "o" in let c' := fresh "c'" in let Ho := fresh "Ho" in
    destruct (core_activate_spec n mm qs c) as (o & c' & -> & ? & ? & Ho);
    destruct o; cbn; try done; first [intros ? [= _ <-] | intros ? [= <-] | idtac]; cbn; try (by erewrite Ho) end.

#[export] Instance rng_laws : VirtioDeviceLaws Rng.
Proof. device_laws; intros mm qs d; cbn; activate_law. Qed.

#[export] Instance console_laws : VirtioDeviceLaws Console.
Proof. device_laws; intros mm qs d; cbn; activate_law. Qed.

#[export] Instance net_laws : VirtioDeviceLaws Net.
Proof.
  device_laws; intros mm qs d; cbn; unfold net_activate; run_St;
    (destruct (vc_worker (net_core d)); [done|]); (destruct (net_gvproxy d); [|done]); activate_law.
Qed.

#[export] Instance block_laws : VirtioDeviceLaws Block.
Proof. device_laws; intros mm qs d; cbn; unfold block_activate; activate_law. Qed.

(** A dropped device has no worker left: its queues are given up, and a device
    that had a worker is inactive. *)
Lemma core_drop_stops c :
  vc_worker (core_drop c) = None /\
  (vc_worker c <> None -> device_state_is_activated (vc_device_state (core_drop c)) = false).
Proof. unfold core_drop. destruct (vc_worker c) eqn:E; [by split|]. by rewrite E. Qed.

Lemma devices_drop_stop d e f :
  vc_worker (rng_core (rng_drop d)) = None /\ vc_worker (con_core (console_device_drop e)) = None /\
  vc_worker (net_core (net_drop f)) = None.
Proof. split_and!; cbn; apply core_drop_stops. Qed.
