(* ===== verification/Mmio.v ===== *)
(** * Mmio: the virtio MMIO transport, [src/devices/virtio/mmio.rs]

    The register file through which the guest driver negotiates features, sets
    up the queues, notifies the device and acknowledges interrupts, over any
    device ([VirtioDevice]) and any interrupt controller ([IrqChipT]). *)

From S2P Require Import Prelude Bytes HostMem GuestMem Queue Irqchip VirtioDev.

(* src/devices/virtio/mmio.rs:28-29, VENDOR_ID *)
Definition VENDOR_ID : Z := 0.
(* src/devices/virtio/mmio.rs:31-32, MMIO_MAGIC_VALUE *)
Definition MMIO_MAGIC_VALUE : Z := 0x74726976.
(* src/devices/virtio/mmio.rs:34-35, MMIO_VERSION *)
Definition MMIO_VERSION : Z := 2.

(* src/devices/virtio/mmio.rs:96-102, InterruptTransportInner *)
Record InterruptTransport (C Ev : Type) : Type := {
  it_status : Z;
  it_event : Ev;
  it_intc : C;
  it_irq_line : option Z;
}.
Arguments it_status {C Ev}.
Arguments it_event {C Ev}.
Arguments it_intc {C Ev}.
Arguments it_irq_line {C Ev}.
Arguments Build_InterruptTransport {C Ev}.

(* src/devices/virtio/mmio.rs:74-94, MmioTransport *)
Record MmioTransport (D C Ev : Type) : Type := {
  mt_device : D;
  mt_features_select : Z;
  mt_acked_features_select : Z;
  mt_queue_select : Z;
  mt_device_status : Z;
  mt_config_generation : Z;
  mt_mem : MemoryManager;
  mt_queues : option (list Queue);
  mt_queue_evts : list Ev;
  mt_queue_config : list QueueConfig;
  mt_shm_region_select : Z;
  mt_interrupt : InterruptTransport C Ev;
}.
Arguments mt_device {D C Ev}.
Arguments mt_features_select {D C Ev}.
Arguments mt_acked_features_select {D C Ev}.
Arguments mt_queue_select {D C Ev}.
Arguments mt_device_status {D C Ev}.
Arguments mt_config_generation {D C Ev}.
Arguments mt_mem {D C Ev}.
Arguments mt_queues {D C Ev}.
Arguments mt_queue_evts {D C Ev}.
Arguments mt_queue_config {D C Ev}.
Arguments mt_shm_region_select {D C Ev}.
Arguments mt_interrupt {D C Ev}.
Arguments Build_MmioTransport {D C Ev}.

Section mmio.
Context {D C Ev : Type} `{!VirtioDevice D} `{!IrqChipT C Ev} `{!WinEvent Ev} `{!VirtioConsts}.

#[local] Abbreviation T := (MmioTransport D C Ev).

(** Field updates. *)
Definition set_device (d : D) (t : T) : T :=
  {| mt_device := d; mt_features_select := mt_features_select t;
     mt_acked_features_select := mt_acked_features_select t; mt_queue_select := mt_queue_select t;
     mt_device_status := mt_device_status t; mt_config_generation := mt_config_generation t;
     mt_mem := mt_mem t; mt_queues := mt_queues t; mt_queue_evts := mt_queue_evts t;
     mt_queue_config := mt_queue_config t; mt_shm_region_select := mt_shm_region_select t;
     mt_interrupt := mt_interrupt t |}.
Definition set_selects (fs afs qs shm : Z) (t : T) : T :=
  {| mt_device := mt_device t; mt_features_select := fs;
     mt_acked_features_select := afs; mt_queue_select := qs;
     mt_device_status := mt_device_status t; mt_config_generation := mt_config_generation t;
     mt_mem := mt_mem t; mt_queues := mt_queues t; mt_queue_evts := mt_queue_evts t;
     mt_queue_config := mt_queue_config t; mt_shm_region_select := shm;
     mt_interrupt := mt_interrupt t |}.
Definition set_status (s : Z) (t : T) : T :=
  {| mt_device := mt_device t; mt_features_select := mt_features_select t;
     mt_acked_features_select := mt_acked_features_select t; mt_queue_select := mt_queue_select t;
     mt_device_status := s; mt_config_generation := mt_config_generation t;
     mt_mem := mt_mem t; mt_queues := mt_queues t; mt_queue_evts := mt_queue_evts t;
     mt_queue_config := mt_queue_config t; mt_shm_region_select := mt_shm_region_select t;
     mt_interrupt := mt_interrupt t |}.
Definition set_queues (qs : option (list Queue)) (t : T) : T :=
  {| mt_device := mt_device t; mt_features_select := mt_features_select t;
     mt_acked_features_select := mt_acked_features_select t; mt_queue_select := mt_queue_select t;
     mt_device_status := mt_device_status t; mt_config_generation := mt_config_generation t;
     mt_mem := mt_mem t; mt_queues := qs; mt_queue_evts := mt_queue_evts t;
     mt_queue_config := mt_queue_config t; mt_shm_region_select := mt_shm_region_select t;
     mt_interrupt := mt_interrupt t |}.
Definition set_queue_evts (es : list Ev) (t : T) : T :=
  {| mt_device := mt_device t; mt_features_select := mt_features_select t;
     mt_acked_features_select := mt_acked_features_select t; mt_queue_select := mt_queue_select t;
     mt_device_status := mt_device_status t; mt_config_generation := mt_config_generation t;
     mt_mem := mt_mem t; mt_queues := mt_queues t; mt_queue_evts := es;
     mt_queue_config := mt_queue_config t; mt_shm_region_select := mt_shm_region_select t;
     mt_interrupt := mt_interrupt t |}.
Definition set_interrupt (i : InterruptTransport C Ev) (t : T) : T :=
  {| mt_device := mt_device t; mt_features_select := mt_features_select t;
     mt_acked_features_select := mt_acked_features_select t; mt_queue_select := mt_queue_select t;
     mt_device_status := mt_device_status t; mt_config_generation := mt_config_generation t;
     mt_mem := mt_mem t; mt_queues := mt_queues t; mt_queue_evts := mt_queue_evts t;
     mt_queue_config := mt_queue_config t; mt_shm_region_select := mt_shm_region_select t;
     mt_interrupt := i |}.

Definition it_set_status (s : Z) (i : InterruptTransport C Ev) : InterruptTransport C Ev :=
  {| it_status := s; it_event := it_event i; it_intc := it_intc i; it_irq_line := it_irq_line i |}.
Definition it_set_intc (c : C) (i : InterruptTransport C Ev) : InterruptTransport C Ev :=
  {| it_status := it_status i; it_event := it_event i; it_intc := c; it_irq_line := it_irq_line i |}.
Definition it_set_event (e : Ev) (i : InterruptTransport C Ev) : InterruptTransport C Ev :=
  {| it_status := it_status i; it_event := e; it_intc := it_intc i; it_irq_line := it_irq_line i |}.

(** ** [InterruptTransport] *)

Definition IM (A : Type) : Type := M (InterruptTransport C Ev) string A.

(* src/devices/virtio/mmio.rs:108-116, InterruptTransport::new *)
Definition it_new (intc : C) : out Z (InterruptTransport C Ev) :=
  e ← event_new;
  Ok {| it_status := 0; it_event := e; it_intc := intc; it_irq_line := None |}.

(** [Arc::get_mut] succeeds while the device holds no clone of the handle,
    that is, while it is not activated. *)
(* src/devices/virtio/mmio.rs:134-144, InterruptTransport::set_irq_line *)
Definition it_set_irq_line (shared : bool) (irq_line : Z) (i : InterruptTransport C Ev) :
    InterruptTransport C Ev :=
  if shared then i
  else {| it_status := it_status i; it_event := it_event i; it_intc := it_intc i;
          it_irq_line := Some irq_line |}.

(* src/devices/virtio/mmio.rs:146-153, InterruptTransport::try_signal *)
Definition it_try_signal (status : Z) : IM unit :=
  _ ← modify (fun i => it_set_status (Z.lor (it_status i) status) i);
  i ← gets id;
  evt ← zoom it_intc it_set_intc (set_irq (it_irq_line i) (Some (it_event i)));
  match evt with
  | Some e => modify (it_set_event e)
  | None => mret tt
  end.

(* src/devices/virtio/mmio.rs:155-158, InterruptTransport::try_signal_used_queue *)
Definition it_try_signal_used_queue : IM unit := it_try_signal VIRTIO_MMIO_INT_VRING.
(* src/devices/virtio/mmio.rs:160-163, InterruptTransport::try_signal_config_change *)
Definition it_try_signal_config_change : IM unit := it_try_signal VIRTIO_MMIO_INT_CONFIG.

(** An error is only logged. *)
(* src/devices/virtio/mmio.rs:165-176, InterruptTransport::try_clear_irq *)
Definition it_try_clear_irq : IM unit :=
  i ← gets id;
  _ ← Mtry (zoom it_intc it_set_intc (clear_irq (it_irq_line i)));
  mret tt.

(* src/devices/virtio/mmio.rs:178-182, InterruptTransport::signal_used_queue *)
Definition it_signal_used_queue : IM unit := _ ← Mtry it_try_signal_used_queue; mret tt.
(* src/devices/virtio/mmio.rs:184-188, InterruptTransport::signal_config_change *)
Definition it_signal_config_change : IM unit := _ ← Mtry it_try_signal_config_change; mret tt.

(** ** Construction *)

(* src/devices/virtio/mmio.rs:225-228, MmioTransport::create_queues *)
Definition create_queues (queue_config : list QueueConfig) : list Queue :=
  map (fun c => q_new (qc_size c)) queue_config.

(* src/devices/virtio/mmio.rs:230-240, MmioTransport::create_queue_evts *)
Fixpoint create_queue_evts (count : nat) : out Z (list Ev) :=
  match count with
  | O => Ok []
  | S count' => e ← event_new; es ← create_queue_evts count'; Ok (e :: es)
  end.

(* src/devices/virtio/mmio.rs:193-223, MmioTransport::new *)
Definition mmio_new (mem : MemoryManager) (intc : C) (device : D) : out Z T :=
  let queue_config := vd_queue_config device in
  let queues := create_queues queue_config in
  queue_evts ← create_queue_evts (length queue_config);
  interrupt ← it_new intc;
  Ok {| mt_device := device; mt_features_select := 0; mt_acked_features_select := 0;
        mt_queue_select := 0; mt_device_status := INIT; mt_config_generation := 0;
        mt_mem := mem; mt_queues := Some queues; mt_queue_evts := queue_evts;
        mt_queue_config := queue_config; mt_shm_region_select := 0;
        mt_interrupt := interrupt |}.

(* src/devices/virtio/mmio.rs:242-246, MmioTransport::set_irq_line *)
Definition mmio_set_irq_line (irq_line : Z) (t : T) : T :=
  set_interrupt (it_set_irq_line (vd_is_activated (mt_device t)) irq_line (mt_interrupt t)) t.

(** ** Queues and status *)

(* src/devices/virtio/mmio.rs:267-269, MmioTransport::check_device_status *)
Definition check_device_status (t : T) (set clr : Z) : bool :=
  Z.land (mt_device_status t) (Z.lor set clr) =? set.

(* src/devices/virtio/mmio.rs:271-282, MmioTransport::with_queue *)
Definition with_queue {U} (t : T) (d : U) (f : Queue -> U) : U :=
  match mt_queues t with
  | Some queues =>
      match queues !! Z.to_nat (mt_queue_select t) with
      | Some queue => f queue
      | None => d
      end
  | None => d
  end.

(* src/devices/virtio/mmio.rs:284-296, MmioTransport::with_queue_mut *)
Definition with_queue_mut (f : Queue -> Queue) (t : T) : T * bool :=
  match mt_queues t with
  | Some queues =>
      match queues !! Z.to_nat (mt_queue_select t) with
      | Some queue =>
          (set_queues (Some (<[Z.to_nat (mt_queue_select t) := f queue]> queues)) t, true)
      | None => (t, false)
      end
  | None => (t, false)
  end.

(* src/devices/virtio/mmio.rs:298-308, MmioTransport::update_queue_field *)
Definition update_queue_field (f : Queue -> Queue) (t : T) : T :=
  if check_device_status t FEATURES_OK FAILED then (with_queue_mut f t).1 else t.

(* src/devices/virtio/mmio.rs:310-325, MmioTransport::reset *)
Definition mmio_reset (t : T) : T :=
  let t := set_selects 0 0 0 (mt_shm_region_select t) t in
  let t := set_interrupt (it_set_status 0 (mt_interrupt t)) t in
  let t := set_status INIT t in
  set_queues (Some (create_queues (mt_queue_config t))) t.

(** The queues the device is given: each with the index of its event. *)
(* src/devices/virtio/mmio.rs:332-342, MmioTransport::activate *)
Definition device_queues (event_idx_enabled : bool) (queues : list Queue) (evts : list Ev) :
    list DeviceQueue :=
  map (fun p => device_queue_new (q_set_event_idx event_idx_enabled p.1) p.2)
      (zip queues (seq 0 (length evts))).

(* src/devices/virtio/mmio.rs:327-347, MmioTransport::activate *)
Definition mmio_activate : M T string unit :=
  t ← gets id;
  match mt_queues t with
  | None => mret tt
  | Some queues =>
      _ ← modify (set_queues None);
      let event_idx_enabled :=
        negb (Z.land (vd_acked_features (mt_device t)) (Z.shiftl 1 VIRTIO_RING_F_EVENT_IDX) =? 0) in
      Munwrap (zoom mt_device set_device
        (vd_activate (mt_mem t) (device_queues event_idx_enabled queues (mt_queue_evts t))))
  end.

(* src/devices/virtio/mmio.rs:349-399, MmioTransport::set_device_status *)
Definition set_device_status (status : Z) : M T string unit :=
  t ← gets id;
  let ds := mt_device_status t in
  let changed := Z.land (wnot 32 ds) status in
  if (changed =? ACKNOWLEDGE) && (ds =? INIT) then modify (set_status status)
  else if (changed =? DRIVER) && (ds =? ACKNOWLEDGE) then modify (set_status status)
  else if (changed =? FEATURES_OK) && (ds =? Z.lor ACKNOWLEDGE DRIVER) then
    modify (set_status status)
  else if (changed =? DRIVER_OK) && (ds =? Z.lor (Z.lor ACKNOWLEDGE DRIVER) FEATURES_OK) then
    _ ← modify (set_status status);
    if negb (vd_is_activated (mt_device t)) then mmio_activate else mret tt
  else if negb (Z.land status FAILED =? 0) then modify (set_status (Z.lor ds FAILED))
  else if status =? 0 then
    _ ← (if vd_is_activated (mt_device t) then
           let '(ok, d) := vd_reset (mt_device t) in
           _ ← modify (set_device d);
           if negb ok then modify (set_status (Z.lor ds FAILED)) else mret tt
         else mret tt);
    t ← gets id;
    if Z.land (mt_device_status t) FAILED =? 0 then modify mmio_reset else mret tt
  else mret tt.

(** ** The register file *)

(* src/devices/virtio/mmio.rs:425-445, MmioTransport::read *)
Definition shm_register (t : T) (offset : Z) : Z :=
  let '(shm_base, shm_len) :=
    if 1 <? mt_shm_region_select t then (0, 2 ^ 64 - 1)
    else match vd_shm_region (mt_device t) with
         | Some region => (shm_guest_addr region, shm_size region)
         | None => (0, 2 ^ 64 - 1)
         end in
  if offset =? 0xb0 then wrap 32 shm_len
  else if offset =? 0xb4 then wrap 32 (Z.shiftr shm_len 32)
  else if offset =? 0xb8 then wrap 32 shm_base
  else if offset =? 0xbc then wrap 32 (Z.shiftr shm_base 32)
  else 0.

(** The value of a register, [None] for an unknown one. *)
(* src/devices/virtio/mmio.rs:406-450, MmioTransport::read *)
Definition mmio_register (t : T) (offset : Z) : option Z :=
  if offset =? 0x0 then Some MMIO_MAGIC_VALUE
  else if offset =? 0x04 then Some MMIO_VERSION
  else if offset =? 0x08 then Some (vd_device_type (mt_device t))
  else if offset =? 0x0c then Some VENDOR_ID
  else if offset =? 0x10 then
    let features := avail_features_by_page (mt_device t) (mt_features_select t) in
    Some (if mt_features_select t =? 1 then Z.lor features 1 else features)
  else if offset =? 0x34 then Some (with_queue t 0 q_get_max_size)
  else if offset =? 0x44 then Some (with_queue t 0 (fun q => if q_ready q then 1 else 0))
  else if offset =? 0x60 then Some (wrap 32 (it_status (mt_interrupt t)))
  else if offset =? 0x70 then Some (mt_device_status t)
  else if offset =? 0xfc then Some (mt_config_generation t)
  else if (0xb0 <=? offset) && (offset <=? 0xbc) then Some (shm_register t offset)
  else None.

(** A read changes the caller's buffer only. *)
(* src/devices/virtio/mmio.rs:403-462, MmioTransport::read *)
Definition mmio_read (t : T) (offset : Z) (data : list Z) : list Z :=
  if (offset <=? 0xff) && (length data =? 4)%nat then
    match mmio_register t offset with
    | Some v => write_le_u32 data v
    | None => data
    end
  else if (0x100 <=? offset) && (offset <=? 0xfff) then
    vd_read_config (mt_device t) (offset - 0x100) data
  else data.

(* src/devices/virtio/mmio.rs:465-467, hi *)
Definition addr_hi (v x : Z) : Z := Z.lor (Z.land v 0xffffffff) (wrap 64 (Z.shiftl x 32)).

(* src/devices/virtio/mmio.rs:469-471, lo *)
Definition addr_lo (v x : Z) : Z := Z.lor (Z.land v (wnot 64 0xffffffff)) x.

Definition q_with (size : Z) (ready : bool) (desc avail used : Z) (q : Queue) : Queue :=
  {| q_max_size := q_max_size q; q_size := size; q_ready := ready; q_desc_table := desc;
     q_avail_ring := avail; q_used_ring := used; q_next_avail := q_next_avail q;
     q_next_used := q_next_used q; q_event_idx_enabled := q_event_idx_enabled q;
     q_num_added := q_num_added q |}.
Definition q_put_size v q := q_with v (q_ready q) (q_desc_table q) (q_avail_ring q) (q_used_ring q) q.
Definition q_put_ready v q := q_with (q_size q) v (q_desc_table q) (q_avail_ring q) (q_used_ring q) q.
Definition q_put_desc v q := q_with (q_size q) (q_ready q) v (q_avail_ring q) (q_used_ring q) q.
Definition q_put_avail v q := q_with (q_size q) (q_ready q) (q_desc_table q) v (q_used_ring q) q.
Definition q_put_used v q := q_with (q_size q) (q_ready q) (q_desc_table q) (q_avail_ring q) v q.

(** The queue notification: the event of the queue is signalled. *)
(* src/devices/virtio/mmio.rs:496-503, MmioTransport::write *)
Definition mmio_notify (v : Z) : M T string unit :=
  t ← gets id;
  match mt_queue_evts t !! Z.to_nat v with
  | Some eventfd =>
      e' ← lift (unwrap (event_signal eventfd));
      modify (set_queue_evts (<[Z.to_nat v := e']> (mt_queue_evts t)))
  | None => mret tt
  end.

(* src/devices/virtio/mmio.rs:504-517, MmioTransport::write *)
Definition mmio_interrupt_ack (v : Z) : M T string unit :=
  t ← gets id;
  if check_device_status t DRIVER_OK 0 then
    let prev := it_status (mt_interrupt t) in
    _ ← modify (fun t => set_interrupt
          (it_set_status (Z.land prev (wnot 64 v)) (mt_interrupt t)) t);
    if Z.land prev (wnot 64 v) =? 0
    then zoom mt_interrupt set_interrupt it_try_clear_irq
    else mret tt
  else mret tt.

(* src/devices/virtio/mmio.rs:475-529, MmioTransport::write *)
Definition mmio_write_register (offset v : Z) : M T string unit :=
  t ← gets id;
  if offset =? 0x14 then
    modify (set_selects v (mt_acked_features_select t) (mt_queue_select t) (mt_shm_region_select t))
  else if offset =? 0x20 then
    if check_device_status t DRIVER (Z.lor FEATURES_OK FAILED)
    then modify (set_device
           (ack_features_by_page (mt_acked_features_select t) v (mt_device t)))
    else mret tt
  else if offset =? 0x24 then
    modify (set_selects (mt_features_select t) v (mt_queue_select t) (mt_shm_region_select t))
  else if offset =? 0x30 then
    modify (set_selects (mt_features_select t) (mt_acked_features_select t) v
              (mt_shm_region_select t))
  else if offset =? 0x38 then modify (update_queue_field (q_put_size (wrap 16 v)))
  else if offset =? 0x44 then modify (update_queue_field (q_put_ready (v =? 1)))
  else if offset =? 0x50 then mmio_notify v
  else if offset =? 0x64 then mmio_interrupt_ack v
  else if offset =? 0x70 then set_device_status v
  else if offset =? 0x80 then
    modify (update_queue_field (fun q => q_put_desc (addr_lo (q_desc_table q) v) q))
  else if offset =? 0x84 then
    modify (update_queue_field (fun q => q_put_desc (addr_hi (q_desc_table q) v) q))
  else if offset =? 0x90 then
    modify (update_queue_field (fun q => q_put_avail (addr_lo (q_avail_ring q) v) q))
  else if offset =? 0x94 then
    modify (update_queue_field (fun q => q_put_avail (addr_hi (q_avail_ring q) v) q))
  else if offset =? 0xa0 then
    modify (update_queue_field (fun q => q_put_used (addr_lo (q_used_ring q) v) q))
  else if offset =? 0xa4 then
    modify (update_queue_field (fun q => q_put_used (addr_hi (q_used_ring q) v) q))
  else if offset =? 0xac then
    modify (set_selects (mt_features_select t) (mt_acked_features_select t) (mt_queue_select t) v)
  else mret tt.

(* src/devices/virtio/mmio.rs:464-546, MmioTransport::write *)
Definition mmio_write (offset : Z) (data : list Z) : M T string unit :=
  t ← gets id;
  if (offset <=? 0xff) && (length data =? 4)%nat then
    mmio_write_register offset (read_le_u32 data)
  else if (0x100 <=? offset) && (offset <=? 0xfff) then
    if check_device_status t DRIVER FAILED
    then modify (set_device (vd_write_config (offset - 0x100) data (mt_device t)))
    else mret tt
  else mret tt.

(* src/devices/virtio/mmio.rs:548-557, MmioTransport::interrupt *)
Definition mmio_interrupt (irq_mask : Z) : M T string unit :=
  _ ← modify (fun t => set_interrupt
        (it_set_status (Z.lor (it_status (mt_interrupt t)) irq_mask) (mt_interrupt t)) t);
  t ← gets id;
  e ← lift (unwrap (event_signal (it_event (mt_interrupt t))));
  modify (fun t => set_interrupt (it_set_event e (mt_interrupt t)) t).

End mmio.

(** ** Lemmas *)

Lemma read_le_bytes_4 v : fits 32 v -> read_le_u32 (le_bytes 4 v) = v.
Proof.
  intros Hv. unfold read_le_u32, read_array, zip_write.
  rewrite length_replicate, take_ge by (rewrite length_le_bytes; lia).
  rewrite drop_ge, app_nil_r by (rewrite length_le_bytes, length_replicate; lia).
  by apply le_val_le_bytes_fits.
Qed.

Section lemmas.
Context {D C Ev : Type} `{!VirtioDevice D} `{!VirtioDeviceLaws D} `{!IrqChipT C Ev}
  `{!WinEvent Ev} `{!VirtioConsts}.

#[local] Abbreviation T := (MmioTransport D C Ev).

(** A sequence of guest writes; a write that panics leaves the state it
    reached. *)
Definition mmio_run (ws : list (Z * list Z)) (t : T) : T :=
  foldl (fun t w => (mmio_write w.1 w.2 t).2) t ws.

Lemma mmio_write_u32 (t : T) offset v :
  0 <= offset <= 0xff -> fits 32 v ->
  mmio_write offset (le_bytes 4 v) t = mmio_write_register offset v t.
Proof using.
  intros Ho Hv. unfold mmio_write. run_St. rewrite length_le_bytes, read_le_bytes_4 by done.
  by rewrite (proj2 (Z.leb_le offset 0xff)) by lia.
Qed.

(** A driver that has set [DRIVER_OK]. *)
Lemma running_check (t : T) :
  Z.testbit (mt_device_status t) 2 = true -> check_device_status t DRIVER_OK 0 = true.
Proof using.
  intros H2. unfold check_device_status. change (Z.lor DRIVER_OK 0) with (bit 2). apply Z.eqb_eq.
  apply Z.bits_inj'. intros n Hn. change DRIVER_OK with (bit 2).
  rewrite Z.land_spec, bit_spec by lia. destruct (Z.eqb_spec n 2) as [->|]; [by rewrite H2|].
  apply andb_false_r.
Qed.

(** The writes that touch neither the device nor the status. *)
Definition quiet (t t' : T) : Prop :=
  mt_device t' = mt_device t /\ mt_device_status t' = mt_device_status t.

Lemma update_queue_quiet f (t : T) : quiet t (update_queue_field f t).
Proof using. unfold update_queue_field, with_queue_mut. by repeat case_match. Qed.

Lemma notify_quiet v (t : T) : quiet t (mmio_notify v t).2.
Proof using.
  unfold mmio_notify. run_St. destruct (mt_queue_evts t !! Z.to_nat v) as [e|]; [|done].
  run_St. by destruct (event_signal e).
Qed.

Lemma ack_quiet v (t : T) : quiet t (mmio_interrupt_ack v t).2.
Proof using.
  unfold mmio_interrupt_ack. run_St. destruct (check_device_status t DRIVER_OK 0); [|done].
  run_St. destruct (_ =? 0); [|done]. unfold it_try_clear_irq. run_St.
  by destruct (clear_irq _ _) as [[] ?].
Qed.

(** Every register write but the features' and the status' is quiet. *)
Lemma write_register_quiet offset v (t : T) :
  offset <> 0x20 -> offset <> 0x70 -> quiet t (mmio_write_register offset v t).2.
Proof using.
  intros H20 H70. unfold mmio_write_register. run_St.
  rewrite (proj2 (Z.eqb_neq offset 0x20)), (proj2 (Z.eqb_neq offset 0x70)) by done.
  repeat match goal with |- context [offset =? ?k] => destruct (offset =? k) end;
    first [done | apply update_queue_quiet | apply notify_quiet | apply ack_quiet].
Qed.

Lemma failed_bit z : (Z.land z FAILED =? 0) = negb (Z.testbit z 7).
Proof using. change FAILED with (bit 7). apply land_bit. lia. Qed.

(** What a write does to the status and the device, by register. *)
Lemma write_cases offset data (t : T) :
  quiet t (mmio_write offset data t).2 \/
  (mmio_write offset data t = set_device_status (read_le_u32 data) t /\ offset = 0x70) \/
  (exists v, offset = 0x20 /\ v = read_le_u32 data /\ check_device_status t DRIVER (Z.lor FEATURES_OK FAILED) = true /\
     (mmio_write offset data t).2 =
       set_device (ack_features_by_page (mt_acked_features_select t) v (mt_device t)) t) \/
  (mmio_write offset data t).2 =
    set_device (vd_write_config (offset - 0x100) data (mt_device t)) t.
Proof using.
  unfold mmio_write. run_St. destruct ((offset <=? 0xff) && _).
  - destruct (decide (offset = 0x70)) as [->|H70]; [right; left; done|].
    destruct (decide (offset = 0x20)) as [->|H20].
    + unfold mmio_write_register. run_St. cbn [Z.eqb Pos.eqb].
      destruct (check_device_status t DRIVER (Z.lor FEATURES_OK FAILED)) eqn:E; [|by left].
      right. right. left. by exists (read_le_u32 data).
    + left. by apply write_register_quiet.
  - destruct ((0x100 <=? offset) && _); [|by left].
    destruct (check_device_status t DRIVER FAILED); [|by left]. by right; right; right.
Qed.

Lemma set_status_failed v (t : T) :
  Z.testbit (mt_device_status t) 7 = true ->
  Z.testbit (mt_device_status (set_device_status v t).2) 7 = true.
Proof using.
  intros Hf. unfold set_device_status. run_St.
  assert (forall k, Z.testbit k 7 = false -> (mt_device_status t =? k) = false) as Hne.
  { intros k Hk. apply Z.eqb_neq. intros E. by rewrite E, Hk in Hf. }
  rewrite !Hne, !andb_false_r by done.
  destruct (negb (Z.land v FAILED =? 0)).
  { cbn -[Z.lor Z.testbit]. by rewrite Z.lor_spec, Hf. }
  destruct (v =? 0); [|done].
  assert (forall t0 : T, Z.testbit (mt_device_status t0) 7 = true ->
    Z.testbit (mt_device_status (set_status (Z.lor (mt_device_status t) FAILED) t0)) 7 = true) as Hl
    by (intros; cbn -[Z.lor Z.testbit]; by rewrite Z.lor_spec, Hf).
  destruct (vd_is_activated (mt_device t)); [destruct (vd_reset (mt_device t)) as [[] d]|]; run_St;
    cbn [negb]; run_St; rewrite failed_bit; cbn -[Z.lor Z.testbit]; rewrite ?Z.lor_spec, ?Hf; cbn -[Z.lor Z.testbit]; rewrite ?Z.lor_spec, ?Hf; done.
Qed.

(** The write that sets [DRIVER_OK]. *)
Lemma set_status_driver_ok v (t : T) :
  mt_device_status t = 11 -> Z.land (wnot 32 11) v = DRIVER_OK ->
  set_device_status v t =
    if vd_is_activated (mt_device t) then (Ok tt, set_status v t) else mmio_activate (set_status v t).
Proof using.
  intros Hst Hv. unfold set_device_status. run_St. rewrite Hst, Hv.
  cbn [Z.eqb Pos.eqb andb ACKNOWLEDGE DRIVER FEATURES_OK DRIVER_OK INIT Z.lor Pos.lor].
  change (mt_device (set_status v t)) with (mt_device t).
  by destruct (vd_is_activated (mt_device t)).
Qed.

(** Activation hands the queues over. *)
Lemma mmio_activate_eq (t : T) qs d' :
  mt_queues t = Some qs -> 0 <= VIRTIO_RING_F_EVENT_IDX ->
  vd_activate (mt_mem t)
    (device_queues (Z.testbit (vd_acked_features (mt_device t)) VIRTIO_RING_F_EVENT_IDX) qs
       (mt_queue_evts t)) (mt_device t) = (Ok tt, d') ->
  mmio_activate t = (Ok tt, set_device d' (set_queues None t)).
Proof using.
  intros Hqs Hb Hd. unfold mmio_activate. run_St. rewrite Hqs. run_St.
  change (mt_device (set_queues None t)) with (mt_device t).
  change (Z.shiftl 1 VIRTIO_RING_F_EVENT_IDX) with (bit VIRTIO_RING_F_EVENT_IDX).
  by rewrite land_bit, negb_involutive, Hd.
Qed.

(** What a device must be given: each queue as the driver has programmed it,
    with the negotiated flag, and the event of its own index. *)
Record handed_over (event_idx : bool) (qs : list Queue) (events : nat) (dqs : list DeviceQueue) :
    Prop := {
  hd_length : length dqs = Nat.min (length qs) events;
  hd_queue i q dq :
    qs !! i = Some q -> dqs !! i = Some dq ->
    dq_event dq = i /\
    dq_queue dq = {| q_max_size := q_max_size q; q_size := q_size q; q_ready := q_ready q;
      q_desc_table := q_desc_table q; q_avail_ring := q_avail_ring q; q_used_ring := q_used_ring q;
      q_next_avail := q_next_avail q; q_next_used := q_next_used q;
      q_event_idx_enabled := event_idx; q_num_added := q_num_added q |};
}.

Lemma device_queues_handed_over event_idx qs (evts : list Ev) :
  handed_over event_idx qs (length evts) (device_queues event_idx qs evts).
Proof using.
  unfold device_queues. split.
  - by rewrite length_map, length_zip_with, length_seq.
  - intros i q dq Hq Hdq. apply list_lookup_fmap_Some in Hdq as ([q' j] & -> & [Hq' Hj]%lookup_zip_Some).
    assert (q' = q) as -> by congruence. apply lookup_seq in Hj as [-> _]. by destruct q.
Qed.

(** There is only one way to do it. *)
Lemma handed_over_unique event_idx qs events dqs dqs' :
  handed_over event_idx qs events dqs -> handed_over event_idx qs events dqs' -> dqs = dqs'.
Proof using.
  intros [Hl Hq] [Hl' Hq']. apply (list_eq_same_length _ _ (length dqs)); [congruence|done|].
  intros i [q1 e1] [q2 e2] Hi H1 H2. destruct (lookup_lt_is_Some_2 qs i) as [q Hqi]; [lia|].
  destruct (Hq i q _ Hqi H1) as [E1 Q1], (Hq' i q _ Hqi H2) as [E2 Q2]. cbn in *. congruence.
Qed.

(** The features through a status write. *)
Lemma set_device_status_features v (t : T) :
  vd_avail_features (mt_device (set_device_status v t).2) = vd_avail_features (mt_device t) /\
  vd_acked_features (mt_device (set_device_status v t).2) = vd_acked_features (mt_device t).
Proof using All.
  unfold set_device_status, mmio_activate, zoom. run_St.
  do 3 (destruct (_ && _); [done|]). destruct (_ && _).
  - run_St. change (mt_device (set_status v t)) with (mt_device t).
    destruct (negb (vd_is_activated (mt_device t))); [|done]. run_St.
    change (mt_queues (set_status v t)) with (mt_queues t).
    destruct (mt_queues t) as [qs|]; [|done]. run_St.
    cbn [mt_device mt_mem mt_queue_evts set_queues set_status].
    match goal with |- context [vd_activate ?mm ?q ?d] =>
      pose proof (vl_activate_avail mm q d) as H1; pose proof (vl_activate_acked mm q d) as H2;
      destruct (vd_activate mm q d) as [[] d1] end; done.
  - destruct (negb _); [done|]. destruct (v =? 0); [|done].
    destruct (vd_is_activated (mt_device t)); [|run_St; by destruct (_ =? 0)].
    pose proof (vl_reset_avail (mt_device t)) as H1. pose proof (vl_reset_acked (mt_device t)) as H2.
    destruct (vd_reset (mt_device t)) as [[] d]; cbn [negb]; run_St; by destruct (_ =? 0).
Qed.

(** The bits of the value that is acknowledged are offered. *)
Lemma ack_mask_bits v avail n :
  fits 64 avail -> fits 64 v -> 0 <= n ->
  Z.testbit (if negb (Z.land v (wnot 64 avail) =? 0)
             then Z.land v (wnot 64 (Z.land v (wnot 64 avail))) else v) n = true ->
  Z.testbit avail n = true.
Proof using.
  intros Ha Hv Hn. destruct (Z.ltb_spec n 64).
  2:{ destruct (negb _); intros H1; [rewrite Z.land_spec in H1|];
      rewrite (testbit_high 64 v n) in H1 by (done || lia); done. }
  assert (fits 64 (Z.land v (wnot 64 avail))) as Hf.
  { apply fits_land_l; [lia|done|]. apply fits_wnot in Ha. apply Ha. }
  destruct (Z.land v (wnot 64 avail) =? 0) eqn:E; cbn [negb]; intros H1.
  - apply Z.eqb_eq, (f_equal (fun z => Z.testbit z n)) in E.
    rewrite Z.land_spec, H1, wnot_spec, Z.bits_0 in E by (done || lia).
    by destruct (Z.testbit avail n).
  - rewrite Z.land_spec, wnot_spec, Z.land_spec, wnot_spec in H1 by (done || lia).
    by destruct (Z.testbit v n), (Z.testbit avail n).
Qed.

(** The features may only grow, within the offered ones. *)
Definition features_grow (n : Z) (d d' : D) : Prop :=
  vd_avail_features d' = vd_avail_features d /\
  (Z.testbit (vd_acked_features d) n = true -> Z.testbit (vd_acked_features d') n = true) /\
  (Z.testbit (vd_acked_features d') n = true ->
     Z.testbit (vd_acked_features d) n = true \/ Z.testbit (vd_avail_features d) n = true).

Lemma features_grow_eq n d d' :
  vd_avail_features d' = vd_avail_features d -> vd_acked_features d' = vd_acked_features d ->
  features_grow n d d'.
Proof using. unfold features_grow. intros -> ->. auto. Qed.

Lemma features_grow_trans n d d' d'' :
  features_grow n d d' -> features_grow n d' d'' -> features_grow n d d''.
Proof using.
  intros (E & H1 & H2) (E' & H1' & H2'). rewrite E in *. split_and!; [done|auto|].
  intros Hb%H2'. destruct Hb; auto.
Qed.

Lemma ack_features_grow n page v d :
  fits 64 (vd_avail_features d) -> fits 32 v -> 0 <= n ->
  features_grow n d (ack_features_by_page page v d).
Proof using All.
  intros Ha Hv Hn. unfold ack_features_by_page, features_grow.
  rewrite vl_set_avail, vl_set_get, Z.lor_spec.
  split_and!; [done|by intros ->|]. intros Hb%orb_true_iff. destruct Hb as [|Hb]; [by left|right].
  eapply ack_mask_bits; [exact Ha| |exact Hn|exact Hb].
  destruct (page =? 0); [by apply (fits_mono 32)|].
  destruct (page =? 1); [by apply wrap_fits|]. done.
Qed.

Lemma read_le_u32_fits data : bytes_ok data -> fits 32 (read_le_u32 data).
Proof using.
  intros Hd. unfold read_le_u32.
  pose proof (le_val_bound (read_array 4 data)) as Hb. unfold read_array, zlen in *.
  rewrite length_zip_write, length_replicate in Hb. apply Hb.
  unfold zip_write. apply bytes_ok_app. split; [by apply bytes_ok_take|].
  apply bytes_ok_drop, Forall_replicate. unfold is_byte. lia.
Qed.

Lemma write_features offset data (t : T) n :
  fits 64 (vd_avail_features (mt_device t)) -> bytes_ok data -> 0 <= n ->
  features_grow n (mt_device t) (mt_device (mmio_write offset data t).2).
Proof using All.
  intros Ha Hd Hn. destruct (write_cases offset data t) as [[Hq _]|[[-> _]|[(v & _ & Hv & _ & ->)|Hw]]].
  - rewrite Hq. by apply features_grow_eq.
  - destruct (set_device_status_features (read_le_u32 data) t). by apply features_grow_eq.
  - apply ack_features_grow; [done| |done]. subst v. by apply read_le_u32_fits.
  - rewrite Hw. apply features_grow_eq; cbn; [apply vl_write_avail|apply vl_write_acked].
Qed.

(** The guard of the queue registers, on the bits of the status. *)
Lemma check_features_ok (t : T) :
  fits 32 (mt_device_status t) ->
  check_device_status t FEATURES_OK FAILED =
    Z.testbit (mt_device_status t) 3 && negb (Z.testbit (mt_device_status t) 7).
Proof using.
  intros Hf. unfold check_device_status. change (Z.lor FEATURES_OK FAILED) with (Z.lor (bit 3) (bit 7)).
  change FEATURES_OK with (bit 3). apply eq_bool_prop_intro. rewrite !Is_true_true.
  rewrite Z.eqb_eq, andb_true_iff, negb_true_iff. split.
  - intros E. split; [apply (f_equal (fun z => Z.testbit z 3)) in E as E7
                      |apply (f_equal (fun z => Z.testbit z 7)) in E as E7];
      rewrite Z.land_spec, Z.lor_spec, !bit_spec in E7 by lia;
      by destruct (Z.testbit (mt_device_status t) _).
  - intros [H3 H7]. apply Z.bits_inj'. intros n Hn.
    rewrite Z.land_spec, Z.lor_spec, !bit_spec by lia.
    destruct (Z.eqb_spec n 3) as [->|]; [by rewrite H3|].
    destruct (Z.eqb_spec n 7) as [->|]; [by rewrite H7|]. apply andb_false_r.
Qed.

(** The two halves of a queue address. *)
Lemma addr_lo_hi old a :
  fits 64 a -> addr_hi (addr_lo old (wrap 32 a)) (Z.shiftr a 32) = a.
Proof using.
  intros Ha. unfold addr_hi, addr_lo. apply Z.bits_inj'. intros n Hn.
  assert (fits 64 0xffffffff) as Hm by (split; vm_compute; congruence).
  change 0xffffffff with (Z.ones 32) in *.
  rewrite !Z.lor_spec, !Z.land_spec, !Z.lor_spec, !Z.land_spec, !testbit_wrap, testbit_ones by lia.
  destruct (Z.ltb_spec n 32); cbn [andb].
  - rewrite wnot_spec, testbit_ones by (done || lia).
    rewrite (proj2 (Z.ltb_lt n 32)), (proj2 (Z.ltb_lt n 64)) by lia. cbn [negb andb].
    rewrite Z.shiftl_spec_low, andb_false_r, orb_false_r, andb_true_r by lia. done.
  - rewrite andb_false_r. cbn [orb]. destruct (Z.ltb_spec n 64); cbn [andb].
    + rewrite Z.shiftl_spec, Z.shiftr_spec by lia. f_equal. lia.
    + symmetry. by apply (testbit_high 64).
Qed.

(** A write to a field of the selected queue. *)
Lemma update_queue_field_eq f (t : T) qs q :
  check_device_status t FEATURES_OK FAILED = true ->
  mt_queues t = Some qs -> qs !! Z.to_nat (mt_queue_select t) = Some q ->
  update_queue_field f t =
    set_queues (Some (<[Z.to_nat (mt_queue_select t) := f q]> qs)) t.
Proof using. unfold update_queue_field, with_queue_mut. by intros -> -> ->. Qed.

(** Two such writes in a row. *)
Lemma update_queue_field_twice f g (t : T) :
  update_queue_field g (update_queue_field f t) = update_queue_field (fun q => g (f q)) t.
Proof using.
  destruct (check_device_status t FEATURES_OK FAILED) eqn:Ec;
    [|by unfold update_queue_field; rewrite !Ec].
  destruct (mt_queues t) as [qs|] eqn:Eq;
    [|by unfold update_queue_field, with_queue_mut; rewrite !Ec, !Eq; cbn; rewrite !Ec, !Eq].
  destruct (qs !! Z.to_nat (mt_queue_select t)) as [q|] eqn:El;
    [|by unfold update_queue_field, with_queue_mut; rewrite !Ec, !Eq, !El; cbn; rewrite !Ec, !Eq, !El].
  rewrite !(update_queue_field_eq _ t qs q) by done.
  erewrite update_queue_field_eq; [|exact Ec|reflexivity|].
  - cbn. by rewrite list_insert_insert_eq.
  - apply list_lookup_insert_eq. by eapply lookup_lt_Some.
Qed.

(** The registers of the selected queue, as functions on it. *)
Definition queue_register (offset v : Z) : option (Queue -> Queue) :=
  if offset =? 0x38 then Some (q_put_size (wrap 16 v))
  else if offset =? 0x44 then Some (q_put_ready (v =? 1))
  else if offset =? 0x80 then Some (fun q => q_put_desc (addr_lo (q_desc_table q) v) q)
  else if offset =? 0x84 then Some (fun q => q_put_desc (addr_hi (q_desc_table q) v) q)
  else if offset =? 0x90 then Some (fun q => q_put_avail (addr_lo (q_avail_ring q) v) q)
  else if offset =? 0x94 then Some (fun q => q_put_avail (addr_hi (q_avail_ring q) v) q)
  else if offset =? 0xa0 then Some (fun q => q_put_used (addr_lo (q_used_ring q) v) q)
  else if offset =? 0xa4 then Some (fun q => q_put_used (addr_hi (q_used_ring q) v) q)
  else None.

Lemma queue_register_write offset v f (t : T) :
  queue_register offset v = Some f ->
  mmio_write_register offset v t = (Ok tt, update_queue_field f t).
Proof using.
  unfold queue_register, mmio_write_register. intros Hr.
  repeat match type of Hr with context [offset =? ?k] =>
    destruct (Z.eqb_spec offset k) as [->|]; [injection Hr as <-; reflexivity|] end.
  done.
Qed.

Lemma mmio_write_queue_register offset v f (t : T) :
  0 <= offset <= 0xff -> fits 32 v -> queue_register offset v = Some f ->
  mmio_write offset (le_bytes 4 v) t = (Ok tt, update_queue_field f t).
Proof using. intros. rewrite mmio_write_u32 by done. by apply queue_register_write. Qed.

End lemmas.

(** ** An example transport: the entropy device on the placeholder chip *)

#[export] Instance example_events : WinEvent nat :=
  {| CreateEventW := Ok 0%nat; SetEvent e := Ok (S e); WaitForSingleObject e _ := (0, e) |}.

#[export] Instance spec_consts : VirtioConsts :=
  {| VIRTIO_F_VERSION_1 := 32; VIRTIO_RING_F_EVENT_IDX := 29; VIRTIO_NET_F_MAC := 5;
     VIRTIO_BLK_F_SEG_MAX := 2; VIRTIO_BLK_F_RO := 5; VIRTIO_BLK_F_FLUSH := 9;
     VIRTIO_BLK_F_DISCARD := 13; VIRTIO_BLK_F_WRITE_ZEROES := 14; VIRTIO_BLK_ID_BYTES := 20;
     VIRTIO_BLK_T_IN := 0; VIRTIO_BLK_T_OUT := 1; VIRTIO_BLK_T_FLUSH := 4;
     VIRTIO_BLK_T_GET_ID := 8; VIRTIO_BLK_T_DISCARD := 11; VIRTIO_BLK_T_WRITE_ZEROES := 13;
     VIRTIO_BLK_WRITE_ZEROES_FLAG_UNMAP := 1; VIRTIO_BLK_S_OK := 0; VIRTIO_BLK_S_IOERR := 1 |}.

Definition example_transport (status : Z) : MmioTransport Rng SimpleIrqChip nat :=
  {| mt_device := rng_new; mt_features_select := 0; mt_acked_features_select := 0;
     mt_queue_select := 0; mt_device_status := status; mt_config_generation := 0;
     mt_mem := example_mm; mt_queues := Some (create_queues RNG_QUEUE_CONFIG);
     mt_queue_evts := [0%nat]; mt_queue_config := RNG_QUEUE_CONFIG; mt_shm_region_select := 0;
     mt_interrupt := {| it_status := 0; it_event := 0%nat; it_intc := simple_irqchip_new 0 0;
                        it_irq_line := Some 5 |} |}.

(** ** Properties *)

Section properties.
Context {D C Ev : Type} `{!VirtioDevice D} `{!VirtioDeviceLaws D} `{!IrqChipT C Ev}
  `{!WinEvent Ev} `{!VirtioConsts}.

#[local] Abbreviation T := (MmioTransport D C Ev).


(** C30: a device is activated in no other way.  If a guest write activates an
    inactive device, it was a write to the status register in the state
    ACKNOWLEDGE, DRIVER, FEATURES_OK that newly sets DRIVER_OK alone, and the
    transport still held the queues. *)
Theorem mmio_activation_requires_negotiation (t : T) offset data :
  vd_is_activated (mt_device t) = false ->
  vd_is_activated (mt_device (mmio_write offset data t).2) = true ->
  offset = 0x70 /\ mt_device_status t = 11 /\
  Z.land (wnot 32 11) (read_le_u32 data) = DRIVER_OK /\ mt_queues t <> None.
Proof using All.
  intros Hina Hact. destruct (write_cases offset data t) as [[Hd _]|[[Hw ->]|[(v & _ & _ & _ & Hw)|Hw]]].
  - congruence.
  - rewrite Hw in Hact. clear Hw. split; [done|]. unfold set_device_status in Hact.
    revert Hact. run_St. set (status := read_le_u32 data).
    destruct (_ && _); [cbn; congruence|]. destruct (_ && _); [cbn; congruence|].
    destruct (_ && _); [cbn; congruence|]. destruct (_ && _) eqn:E.
    + apply andb_prop in E as [E1%Z.eqb_eq E2%Z.eqb_eq]. run_St.
      change (mt_device (set_status status t)) with (mt_device t). rewrite Hina. cbn [negb].
      unfold mmio_activate. run_St. change (mt_queues (set_status status t)) with (mt_queues t).
      destruct (mt_queues t) eqn:Eq; [|cbn; congruence]. intros _. rewrite E2 in E1. done.
    + destruct (negb _); [cbn; congruence|]. destruct (status =? 0); [|cbn; congruence].
      rewrite Hina. run_St. destruct (_ =? 0); cbn; congruence.
  - rewrite Hw in Hact. cbn in Hact. unfold ack_features_by_page in Hact.
    rewrite vl_set_activated in Hact. congruence.
  - rewrite Hw in Hact. cbn in Hact. rewrite vl_write_activated in Hact. congruence.
Qed.

(** The driver can only acknowledge features the device offers, and
    features are never un-acknowledged: over any sequence of register writes,
    resets included, the acknowledged set grows within the offered one.  In
    particular a device reset does not clear it, so the features one driver
    negotiated stay active for the next one. *)
Theorem mmio_acked_features (t : T) ws n :
  fits 64 (vd_avail_features (mt_device t)) -> Forall (fun w => bytes_ok w.2) ws -> 0 <= n ->
  let t' := mmio_run ws t in
  vd_avail_features (mt_device t') = vd_avail_features (mt_device t) /\
  (Z.testbit (vd_acked_features (mt_device t)) n = true ->
     Z.testbit (vd_acked_features (mt_device t')) n = true) /\
  (Z.testbit (vd_acked_features (mt_device t')) n = true ->
     Z.testbit (vd_acked_features (mt_device t)) n = true \/
     Z.testbit (vd_avail_features (mt_device t)) n = true).
Proof using All.
  intros Hfits Hws Hn. cbv zeta. fold (features_grow n (mt_device t) (mt_device (mmio_run ws t))).
  revert t Hfits. induction Hws as [|[o data] ws Hd _ IH]; intros t Hfits; [by split_and!; auto|].
  pose proof (write_features o data t n Hfits Hd Hn) as Hstep.
  eapply features_grow_trans; [exact Hstep|]. apply (IH (mmio_write o data t).2).
  destruct Hstep as [-> _]. done.
Qed.

(** FAILED is permanent.  Once the status has the FAILED bit, no sequence
    of register writes clears it: not even the write of 0 with which the driver
    resets the device, which is the only way out of the failure the virtio
    specification gives. *)
Theorem failed_status_is_permanent (t : T) ws :
  Z.testbit (mt_device_status t) 7 = true ->
  Z.testbit (mt_device_status (mmio_run ws t)) 7 = true.
Proof using.
  revert t. induction ws as [|[o data] ws IH]; intros t Hf; [done|].
  apply (IH (mmio_write o data t).2).
  destruct (write_cases o data t) as [[_ Hq]|[[-> _]|[(v & _ & _ & _ & ->)|Hw]]]; [| | |rewrite Hw].
  - by rewrite Hq.
  - by apply set_status_failed.
  - done.
  - done.
Qed.

(** C34: programming a queue.  With FEATURES_OK set and FAILED clear, and while
    the transport holds the queues, the driver's writes of the size, of the two
    halves of the three ring addresses and of the ready flag leave exactly the
    written 64-bit addresses, size and flag in the selected queue, whatever it
    held before, and change nothing else. *)
Theorem queue_programming (t : T) qs q size desc avail used :
  fits 32 (mt_device_status t) ->
  Z.testbit (mt_device_status t) 3 = true -> Z.testbit (mt_device_status t) 7 = false ->
  mt_queues t = Some qs -> qs !! Z.to_nat (mt_queue_select t) = Some q ->
  fits 16 size -> fits 64 desc -> fits 64 avail -> fits 64 used ->
  mmio_run [(0x38, le_bytes 4 size);
            (0x80, le_bytes 4 (wrap 32 desc)); (0x84, le_bytes 4 (Z.shiftr desc 32));
            (0x90, le_bytes 4 (wrap 32 avail)); (0x94, le_bytes 4 (Z.shiftr avail 32));
            (0xa0, le_bytes 4 (wrap 32 used)); (0xa4, le_bytes 4 (Z.shiftr used 32));
            (0x44, le_bytes 4 1)] t =
  set_queues (Some (<[Z.to_nat (mt_queue_select t) := q_with size true desc avail used q]> qs)) t.
Proof using.
  intros Hst H3 H7 Hqs Hq Hs Hd Ha Hu. unfold mmio_run. cbn [foldl fst snd].
  assert (forall a, fits 64 a -> fits 32 (Z.shiftr a 32)) as Hhi by (intros; by apply shiftr_fits).
  assert (fits 32 size) by (by apply (fits_mono 16)).
  do 8 (erewrite mmio_write_queue_register;
    [cbn [snd]| lia | first [done | by apply wrap_fits | by apply Hhi] | reflexivity]).
  rewrite !update_queue_field_twice.
  erewrite update_queue_field_eq; [|rewrite check_features_ok, H3, H7 by done; done|done|done].
  do 3 f_equal. destruct q as [q1 q2 q3 q4 q5 q6 q7 q8 q9 q10].
  cbv beta iota delta [q_put_size q_put_ready q_put_desc q_put_avail q_put_used q_with q_max_size
    q_size q_ready q_desc_table q_avail_ring q_used_ring q_next_avail q_next_used
    q_event_idx_enabled q_num_added].
  by rewrite !addr_lo_hi, (wrap_small 16).
Qed.

(** The queues are locked outside the negotiation window.  A write to a
    queue register changes nothing while FEATURES_OK is clear, after FAILED,
    after activation took the queues, or with a selector beyond the last
    queue. *)
Theorem queue_registers_locked (t : T) offset v f :
  fits 32 (mt_device_status t) -> 0 <= offset <= 0xff -> fits 32 v ->
  queue_register offset v = Some f ->
  Z.testbit (mt_device_status t) 3 = false \/ Z.testbit (mt_device_status t) 7 = true \/
  mt_queues t = None \/
  (exists qs, mt_queues t = Some qs /\ zlen qs <= mt_queue_select t) ->
  mmio_write offset (le_bytes 4 v) t = (Ok tt, t).
Proof using.
  intros Hst Ho Hv Hf Hlock. erewrite mmio_write_queue_register by done.
  unfold update_queue_field, with_queue_mut. rewrite check_features_ok by done.
  destruct Hlock as [->|[->|[->|(qs & -> & Hsel)]]]; [done|by rewrite andb_false_r| |].
  - by destruct (_ && _).
  - rewrite lookup_ge_None_2 by (unfold zlen in Hsel; lia). by destruct (_ && _).
Qed.

(** Acknowledging interrupts.  Once the driver is running, a write to the
    acknowledge register clears exactly the written bits of the interrupt
    status, and takes the line down at the interrupt controller if and only if
    no bit is left; nothing else changes. *)
Theorem interrupt_ack_clears_line_when_idle (t : T) v :
  let st := it_status (mt_interrupt t) in
  fits 32 (mt_device_status t) -> Z.testbit (mt_device_status t) 2 = true ->
  fits 64 st -> fits 32 v ->
  exists st', mmio_write 0x64 (le_bytes 4 v) t =
    (let i' := it_set_status st' (mt_interrupt t) in
     if st' =? 0 then zoom mt_interrupt set_interrupt it_try_clear_irq (set_interrupt i' t)
     else (Ok tt, set_interrupt i' t)) /\
  (forall n, 0 <= n -> Z.testbit st' n = Z.testbit st n && negb (Z.testbit v n)) /\
  (st' = 0 <-> forall n, 0 <= n -> Z.testbit st n = true -> Z.testbit v n = true) /\
  (mmio_write 0x64 (le_bytes 4 v) t).2 =
     set_interrupt {| it_status := st'; it_event := it_event (mt_interrupt t);
       it_intc := if st' =? 0
                  then (clear_irq (it_irq_line (mt_interrupt t)) (it_intc (mt_interrupt t))).2
                  else it_intc (mt_interrupt t);
       it_irq_line := it_irq_line (mt_interrupt t) |} t.
Proof using.
  intros st Hds H2 Hst Hv. exists (Z.land st (wnot 64 v)).
  assert (forall n, 0 <= n -> Z.testbit (Z.land st (wnot 64 v)) n =
    Z.testbit st n && negb (Z.testbit v n)) as Hbits.
  { intros n Hn. rewrite Z.land_spec. destruct (Z.ltb_spec n 64).
    - rewrite wnot_spec; [done| |lia]. by apply (fits_mono 32).
    - by rewrite (testbit_high 64 st n) by (done || lia). }
  assert (mmio_write 0x64 (le_bytes 4 v) t = mmio_interrupt_ack v t) as Hw
    by (rewrite mmio_write_u32 by (done || lia); done).
  rewrite Hw. unfold mmio_interrupt_ack. run_St.
  rewrite running_check by done.
  run_St. fold st. split_and!.
  - by destruct (_ =? 0).
  - exact Hbits.
  - split.
    + intros E n Hn Hs. pose proof (Hbits n Hn) as Hb. rewrite E, Hs, Z.bits_0 in Hb.
      by destruct (Z.testbit v n).
    + intros Hall. apply Z.bits_inj'. intros n Hn. rewrite Hbits, Z.bits_0 by done.
      destruct (Z.testbit st n) eqn:Es; [|done]. by rewrite (Hall n Hn Es).
  - destruct (_ =? 0); [|done]. unfold it_try_clear_irq. run_St.
    by destruct (clear_irq _ _) as [[] ?].
Qed.

End properties.

(** ** Witnesses, on the entropy device *)

#[local] Abbreviation X := (example_transport : Z -> MmioTransport Rng SimpleIrqChip nat).


Lemma mmio_activation_requires_negotiation_witness :
  vd_is_activated (mt_device (mmio_write 0x70 (le_bytes 4 15) (X 11)).2) = true /\
  0x70 = 0x70 /\ mt_device_status (X 11) = 11 /\
  Z.land (wnot 32 11) (read_le_u32 (le_bytes 4 15)) = DRIVER_OK /\ mt_queues (X 11) <> None.
Proof.
  split; [reflexivity|]. apply (mmio_activation_requires_negotiation (X 11)); reflexivity.
Defined.

Lemma mmio_acked_features_witness :
  let ws := [(0x24, le_bytes 4 1); (0x20, le_bytes 4 1); (0x70, le_bytes 4 0)] in
  vd_acked_features (mt_device (mmio_run ws (X 3))) = 2 ^ 32 /\
  vd_avail_features (mt_device (mmio_run ws (X 3))) = vd_avail_features (mt_device (X 3)).
Proof.
  split; [vm_compute; reflexivity|]. apply (mmio_acked_features (X 3) _ 0).
  - split; vm_compute; congruence.
  - repeat constructor; try lia; vm_compute; congruence.
  - lia.
Defined.

Lemma failed_status_is_permanent_witness :
  Z.testbit (mt_device_status (X 139)) 7 = true /\
  Z.testbit (mt_device_status (mmio_run [(0x70, le_bytes 4 0); (0x70, le_bytes 4 1)] (X 139))) 7
    = true.
Proof. split; [reflexivity|]. apply failed_status_is_permanent. reflexivity. Defined.

Lemma queue_programming_witness :
  let t := X 11 in
  mmio_run [(0x38, le_bytes 4 128);
            (0x80, le_bytes 4 (wrap 32 0x123456000)); (0x84, le_bytes 4 (Z.shiftr 0x123456000 32));
            (0x90, le_bytes 4 (wrap 32 0x2000)); (0x94, le_bytes 4 (Z.shiftr 0x2000 32));
            (0xa0, le_bytes 4 (wrap 32 0x3000)); (0xa4, le_bytes 4 (Z.shiftr 0x3000 32));
            (0x44, le_bytes 4 1)] t =
  set_queues (Some (<[Z.to_nat (mt_queue_select t) :=
    q_with 128 true 0x123456000 0x2000 0x3000 (q_new 256)]> (create_queues RNG_QUEUE_CONFIG))) t.
Proof.
  apply (queue_programming (X 11) _ (q_new 256)); try reflexivity; split; vm_compute; congruence.
Defined.

Lemma queue_registers_locked_witness :
  mmio_write 0x38 (le_bytes 4 128) (X 3) = (Ok tt, X 3).
Proof.
  apply (queue_registers_locked (X 3) 0x38 128 (q_put_size 128)); try reflexivity.
  - split; vm_compute; congruence.
  - lia.
  - split; vm_compute; congruence.
  - left. reflexivity.
Defined.

Lemma interrupt_ack_clears_line_when_idle_witness :
  let t := set_interrupt (it_set_status 3 (mt_interrupt (X 15))) (X 15) in
  exists st', (forall n, 0 <= n -> Z.testbit st' n = Z.testbit 3 n && negb (Z.testbit 1 n)) /\
    (mmio_write 0x64 (le_bytes 4 1) t).2 = set_interrupt (it_set_status st' (mt_interrupt t)) t.
Proof.
  intros t. destruct (interrupt_ack_clears_line_when_idle t 1) as (st' & _ & Hb & Hz & Hs).
  1, 3, 4: split; vm_compute; congruence.
  1: reflexivity.
  exists st'. split; [exact Hb|]. rewrite Hs.
  destruct (Z.eqb_spec st' 0) as [E|]; [|reflexivity].
  pose proof (proj1 Hz E 1 ltac:(lia) eq_refl). discriminate.
Defined.
