(* ===== verification/Interrupts.v ===== *)
(** * Interrupts: a device and the interrupt controller together

    The way of an interrupt: a worker sets a bit of the transport's status and
    raises the line at the I/O APIC ([InterruptTransport::try_signal]), the
    guest's driver reads and acknowledges the status ([InterruptAck] of
    [src/devices/virtio/mmio.rs]) and ends the interrupt at the controller
    ([IO_EOI] of [src/devices/legacy/ioapic.rs]).  The status is an atomic
    integer and the controller is behind a mutex: a signal and an
    acknowledgement are two steps each, and those of the device's threads and
    of the processor's thread come in any order.  Composed over any device, for
    a line whose pin is level-triggered and not masked; the other pins of the
    controller are quiet. *)

From S2P Require Import Prelude Bytes HostMem GuestMem Queue Irqchip VirtioDev Mmio.

(** ** Events *)

(** The steps: the bits of a signal are set, its line is raised; the guest's
    driver acknowledges bits, the line is taken down when none is left; the
    guest ends the interrupt. *)
Inductive IrqEvent : Type :=
| SignalStatus (status : Z) | SignalLine | AckStatus (v : Z) | AckLine | Eoi.

(** Where the threads are: how many signals have still to raise the line, and
    whether the processor's thread has still to take it down. *)
Record IrqThreads : Type := { th_raising : nat; th_clearing : bool }.

Definition enabled (h : IrqThreads) (ev : IrqEvent) : bool :=
  match ev with
  | SignalStatus _ => true
  | SignalLine => negb (th_raising h =? 0)%nat
  | AckStatus _ | Eoi => negb (th_clearing h)
  | AckLine => th_clearing h
  end.

(** [idle]: the acknowledgement has found no other bit. *)
Definition threads_step (idle : bool) (ev : IrqEvent) (h : IrqThreads) : IrqThreads :=
  match ev with
  | SignalStatus _ => {| th_raising := S (th_raising h); th_clearing := th_clearing h |}
  | SignalLine => {| th_raising := pred (th_raising h); th_clearing := th_clearing h |}
  | AckStatus _ => {| th_raising := th_raising h; th_clearing := idle |}
  | AckLine => {| th_raising := th_raising h; th_clearing := false |}
  | Eoi => h
  end.

Definition no_threads : IrqThreads := {| th_raising := 0; th_clearing := false |}.

(** ** What the pair promises

    A level-triggered source: the interrupt is requested when the line is
    raised and none is in service, and again at every end of interrupt at which
    the line is up.  [ls_raced]: the line was last raised between an
    acknowledgement that left no bit and the taking down that followed it. *)
Record LevelSource : Type := {
  ls_status : Z; ls_line : bool; ls_in_service : bool; ls_injected : nat; ls_threads : IrqThreads;
  ls_raced : bool;
}.

Definition ack_idle (a : LevelSource) (v : Z) : bool := Z.land (ls_status a) (wnot 64 v) =? 0.

Definition source_step (a : LevelSource) (ev : IrqEvent) : LevelSource :=
  match ev with
  | SignalStatus s =>
      {| ls_status := Z.lor (ls_status a) s; ls_line := ls_line a;
         ls_in_service := ls_in_service a; ls_injected := ls_injected a;
         ls_threads := threads_step false ev (ls_threads a); ls_raced := ls_raced a |}
  | SignalLine =>
      {| ls_status := ls_status a; ls_line := true; ls_in_service := true;
         ls_injected := if ls_in_service a then ls_injected a else S (ls_injected a);
         ls_threads := threads_step false ev (ls_threads a);
         ls_raced := th_clearing (ls_threads a) |}
  | AckStatus v =>
      {| ls_status := Z.land (ls_status a) (wnot 64 v); ls_line := ls_line a;
         ls_in_service := ls_in_service a; ls_injected := ls_injected a;
         ls_threads := threads_step (ack_idle a v) ev (ls_threads a);
         ls_raced := ls_raced a && negb (ack_idle a v) |}
  | AckLine =>
      {| ls_status := ls_status a; ls_line := false; ls_in_service := ls_in_service a;
         ls_injected := ls_injected a; ls_threads := threads_step false ev (ls_threads a);
         ls_raced := ls_raced a |}
  | Eoi =>
      {| ls_status := ls_status a; ls_line := ls_line a;
         ls_in_service := ls_in_service a && ls_line a;
         ls_injected := if ls_in_service a && ls_line a then S (ls_injected a) else ls_injected a;
         ls_threads := ls_threads a; ls_raced := ls_raced a |}
  end.

Definition quiet_source : LevelSource :=
  {| ls_status := 0; ls_line := false; ls_in_service := false; ls_injected := O;
     ls_threads := no_threads; ls_raced := false |}.

(** [None]: not a sequence that the threads can follow. *)
Fixpoint source_run (evs : list IrqEvent) (a : LevelSource) : option LevelSource :=
  match evs with
  | [] => Some a
  | ev :: evs' => if enabled (ls_threads a) ev then source_run evs' (source_step a ev) else None
  end.

(** The signals of the program set one of two bits. *)
Definition event_ok (ev : IrqEvent) : Prop :=
  match ev with
  | SignalStatus s => s = VIRTIO_MMIO_INT_VRING \/ s = VIRTIO_MMIO_INT_CONFIG
  | AckStatus v => fits 32 v
  | SignalLine | AckLine | Eoi => True
  end.

(** ** The steps of the program *)

Section interrupts.
Context {prof : Profile} {D Ev : Type} `{!VirtioDevice D} `{!WinEvent Ev} `{!WhvInterruptTypes}
  `{!VirtioConsts}.

#[local] Abbreviation T := (MmioTransport D IoApic Ev).
Implicit Types t : MmioTransport D IoApic Ev.

Definition chip (t : T) : IoApic := it_intc (mt_interrupt t).
Definition set_chip (c : IoApic) (t : T) : T := set_interrupt (it_set_intc c (mt_interrupt t)) t.

(* src/devices/virtio/mmio.rs:147-147, InterruptTransport::try_signal *)
Definition signal_status {E} (status : Z) : M T E unit :=
  modify (fun t => set_interrupt (it_set_status (Z.lor (it_status (mt_interrupt t)) status)
    (mt_interrupt t)) t).

(* src/devices/virtio/mmio.rs:148-152, InterruptTransport::try_signal *)
Definition signal_line : M T string unit :=
  zoom mt_interrupt set_interrupt
    (i ← gets id;
     evt ← zoom it_intc it_set_intc (set_irq (it_irq_line i) (Some (it_event i)));
     match evt with Some e => modify (it_set_event e) | None => mret tt end).

(** Whether the line is to be taken down. *)
(* src/devices/virtio/mmio.rs:506-513, MmioTransport::write *)
Definition ack_status {E} (v : Z) : M T E bool :=
  t ← gets id;
  let prev := it_status (mt_interrupt t) in
  _ ← modify (fun t => set_interrupt (it_set_status (Z.land prev (wnot 64 v)) (mt_interrupt t)) t);
  mret (Z.land prev (wnot 64 v) =? 0).

(* src/devices/virtio/mmio.rs:514-514, MmioTransport::write *)
Definition ack_line : M T string unit := zoom mt_interrupt set_interrupt it_try_clear_irq.

(** The end of the interrupt, a write to the controller under its mutex. *)
Definition end_interrupt {E} (vector : Z) : M T E unit :=
  zoom chip set_chip (ioapic_write IO_EOI (le_bytes 4 vector)).

Definition irq_step (vector : Z) (ev : IrqEvent) : M T string bool :=
  match ev with
  | SignalStatus s => _ ← signal_status s; mret false
  | SignalLine => _ ← signal_line; mret false
  | AckStatus v => ack_status v
  | AckLine => _ ← ack_line; mret false
  | Eoi => _ ← end_interrupt vector; mret false
  end.

(** A sequence of events; [None] when the threads cannot follow it or an
    operation fails. *)
Fixpoint irq_run (vector : Z) (evs : list IrqEvent) (m : IrqThreads * T) : option (IrqThreads * T) :=
  match evs with
  | [] => Some m
  | ev :: evs' =>
      if enabled m.1 ev then
        match irq_step vector ev m.2 with
        | (Ok idle, t') => irq_run vector evs' (threads_step idle ev m.1, t')
        | _ => None
        end
      else None
  end.

(** *** The operations are their steps *)

(** The driver is running and the transport's line is the pin [p]. *)
Record wired (p : nat) (t : T) : Prop := {
  wi_line : it_irq_line (mt_interrupt t) = Some (Z.of_nat p);
  wi_status : fits 32 (mt_device_status t) /\ Z.testbit (mt_device_status t) 2 = true;
}.

Lemma signal_split s t :
  zoom mt_interrupt set_interrupt (it_try_signal s) t = (_ ← signal_status s; signal_line) t.
Proof. reflexivity. Qed.

Lemma ack_split v t :
  fits 32 v -> Z.testbit (mt_device_status t) 2 = true ->
  mmio_write 0x64 (le_bytes 4 v) t =
    (idle ← ack_status v; if idle : bool then ack_line else mret tt) t.
Proof.
  intros Hv H2. rewrite mmio_write_u32 by (done || lia).
  change (mmio_write_register 0x64 v t) with (mmio_interrupt_ack v t).
  unfold mmio_interrupt_ack. run_St. rewrite running_check by done. reflexivity.
Qed.

Lemma signal_line_eq p t :
  (p < IOAPIC_NUM_PINS)%nat -> it_irq_line (mt_interrupt t) = Some (Z.of_nat p) ->
  signal_line t = (Ok tt, set_chip (line_op p (chip t) true) t).
Proof.
  intros Hp Hl. unfold signal_line, set_chip, chip. cbn [line_op]. run_St.
  cbn [set_irq ioapic_chip it_irq_line it_event it_intc it_status it_set_status]. rewrite Hl.
  unfold ioapic_set_irq.
  rewrite (proj2 (Z.ltb_lt (Z.of_nat p) (Z.of_nat IOAPIC_NUM_PINS))) by lia.
  run_St. reflexivity.
Qed.

Lemma ack_line_eq p t :
  (p < IOAPIC_NUM_PINS)%nat -> it_irq_line (mt_interrupt t) = Some (Z.of_nat p) ->
  ack_line t = (Ok tt, set_chip (line_op p (chip t) false) t).
Proof.
  intros Hp Hl. unfold ack_line, it_try_clear_irq, set_chip, chip. cbn [line_op]. run_St.
  cbn [clear_irq ioapic_chip]. rewrite Hl. unfold ioapic_clear_irq.
  rewrite (proj2 (Z.ltb_lt (Z.of_nat p) (Z.of_nat IOAPIC_NUM_PINS))) by lia.
  run_St. reflexivity.
Qed.

(** ** The refinement *)

Definition request (e : Z) : InterruptControl := ioapic_inject_interrupt (ioapic_parse_entry e).

Record implements (p : nat) (e : Z) (base : list InterruptControl) (a : LevelSource) (t : T) : Prop := {
  im_wired : wired p t;
  im_status : it_status (mt_interrupt t) = ls_status a;
  im_fits : fits 64 (ls_status a);
  im_chip :
    let rs := base ++ replicate (ls_injected a) (request e) in
    if ls_in_service a
    then in_service p e rs (chip t) /\ Z.testbit (ia_irr (chip t)) (Z.of_nat p) = ls_line a
    else idle_line p e rs (chip t) /\ ls_line a = false;
}.

Lemma replicate_snoc {A} (base : list A) n x :
  (base ++ replicate n x) ++ [x] = base ++ replicate (S n) x.
Proof. rewrite <- app_assoc, <- replicate_S_end. done. Qed.

(** A step on the controller. *)
Lemma chip_implements p e base a a' t c :
  implements p e base a t -> ls_status a' = ls_status a ->
  (let rs := base ++ replicate (ls_injected a') (request e) in
   if ls_in_service a'
   then in_service p e rs c /\ Z.testbit (ia_irr c) (Z.of_nat p) = ls_line a'
   else idle_line p e rs c /\ ls_line a' = false) ->
  implements p e base a' (set_chip c t).
Proof.
  intros [[Hl Hd] Hst Hf _] Es Hc. split; [by split|by rewrite Es|by rewrite Es|exact Hc].
Qed.

(** A step on the status. *)
Lemma status_implements p e base a a' t st :
  implements p e base a t -> ls_status a' = st -> fits 64 st ->
  (ls_in_service a', ls_line a', ls_injected a') = (ls_in_service a, ls_line a, ls_injected a) ->
  implements p e base a' (set_interrupt (it_set_status st (mt_interrupt t)) t).
Proof.
  intros [[Hl Hd] Hst Hf Hc] <- Hf' [= E1 E2 E3]. split; [by split|done|done|].
  cbv zeta in *. rewrite E1, E2, E3. exact Hc.
Qed.

Lemma line_up_implements p e base a t :
  (p < IOAPIC_NUM_PINS)%nat -> level_entry e -> implements p e base a t ->
  implements p e base (source_step a SignalLine) (set_chip (line_op p (chip t) true) t).
Proof.
  intros Hp Hlev Him. apply (chip_implements p e base a); [done..|].
  apply im_chip in Him. cbn [source_step ls_in_service ls_injected ls_line]. cbv zeta in *.
  destruct (ls_in_service a).
  - destruct Him as [Hc _]. by apply asserted_in_service.
  - destruct Him as [[Hwf He Hi Hr] _]. rewrite <- replicate_snoc, <- Hr. by apply first_assert_line.
Qed.

Lemma line_down_implements p e base a t :
  (p < IOAPIC_NUM_PINS)%nat -> level_entry e -> implements p e base a t ->
  implements p e base (source_step a AckLine) (set_chip (line_op p (chip t) false) t).
Proof.
  intros Hp Hlev Him. apply (chip_implements p e base a); [done..|].
  apply im_chip in Him. cbn [source_step ls_in_service ls_injected ls_line]. cbv zeta in *.
  destruct (ls_in_service a).
  - destruct Him as [Hc _]. split; [by apply line_op_in_service|by apply cleared_line, (is_wf _ _ _ _ Hc)].
  - destruct Him as [Hc _]. split; [by apply idle_cleared|done].
Qed.

Lemma eoi_implements p e base a t :
  (p < IOAPIC_NUM_PINS)%nat -> level_entry e -> implements p e base a t ->
  implements p e base (source_step a Eoi) (set_chip (ioapic_eoi (Z.land e 255) (chip t)) t).
Proof.
  intros Hp Hlev Him. apply (chip_implements p e base a); [done..|].
  apply im_chip in Him. cbn [source_step ls_in_service ls_injected ls_line]. cbv zeta in *.
  destruct (ls_in_service a); cbn [andb].
  - destruct Him as [Hc Hb]. pose proof (eoi_line p e _ _ Hp Hlev Hc) as Heoi. cbv zeta in Heoi.
    rewrite Hb in Heoi. destruct (ls_line a); [|done]. by rewrite replicate_snoc in Heoi.
  - destruct Him as [Hc Hl]. split; [|done]. by apply eoi_idle.
Qed.

(** One step of the pair is one step of the source. *)
Lemma irq_step_implements p e base a t ev :
  (p < IOAPIC_NUM_PINS)%nat -> level_entry e -> event_ok ev -> implements p e base a t ->
  exists idle t', irq_step (Z.land e 255) ev t = (Ok idle, t') /\
    threads_step idle ev (ls_threads a) = ls_threads (source_step a ev) /\
    implements p e base (source_step a ev) t'.
Proof.
  intros Hp Hlev Hev Him. pose proof Him as [[Hl _] Hst Hf _].
  destruct ev as [s| |v| |]; cbn [irq_step].
  - eexists _, _. split; [reflexivity|]. split; [done|]. rewrite Hst.
    apply (status_implements p e base a); [done..| |done]. apply fits_lor; [lia|done|].
    destruct Hev as [->| ->]; split; vm_compute; congruence.
  - unfold mbind, M_bind. rewrite (signal_line_eq p) by done. eexists _, _. split; [reflexivity|].
    split; [done|by apply line_up_implements].
  - exists (ack_idle a v). eexists. split; [unfold ack_status; run_St; rewrite Hst; reflexivity|].
    split; [done|]. apply (status_implements p e base a); [done..| |done].
    apply fits_land_l; [lia|done|]. apply fits_wnot. by eapply fits_mono; [|exact Hev]; lia.
  - unfold mbind, M_bind. rewrite (ack_line_eq p) by done. eexists _, _. split; [reflexivity|].
    split; [done|by apply line_down_implements].
  - unfold mbind, M_bind, end_interrupt, zoom. rewrite write_eoi by apply vector_fits.
    eexists _, _. split; [reflexivity|]. split; [done|by apply eoi_implements].
Qed.

(** The threads can follow the same sequences as the source. *)
Lemma irq_run_implements p e base evs : forall a t,
  (p < IOAPIC_NUM_PINS)%nat -> level_entry e -> Forall event_ok evs -> implements p e base a t ->
  match source_run evs a, irq_run (Z.land e 255) evs (ls_threads a, t) with
  | Some a', Some (h, t') => h = ls_threads a' /\ implements p e base a' t'
  | None, None => True
  | _, _ => False
  end.
Proof.
  induction evs as [|ev evs IH]; intros a t Hp Hlev Hevs Him; [done|].
  inversion Hevs; subst. cbn [source_run irq_run fst snd]. destruct (enabled _ ev); [|done].
  destruct (irq_step_implements p e base a t ev) as (idle & t' & -> & -> & Him'); [done..|].
  by apply IH.
Qed.

Lemma quiet_implements p e base t :
  wired p t -> it_status (mt_interrupt t) = 0 -> idle_line p e base (chip t) ->
  implements p e base quiet_source t.
Proof.
  intros Hw Hst Hi. split; [done..|]. cbv zeta. cbn. by rewrite app_nil_r.
Qed.

(** What can be observed of the controller. *)
Lemma im_observed p e base a t :
  level_entry e -> implements p e base a t ->
  ia_requests (chip t) = base ++ replicate (ls_injected a) (request e) /\
  Z.testbit (ia_irr (chip t)) (Z.of_nat p) = ls_line a /\
  Z.testbit (ia_entry (chip t) p) 14 = ls_in_service a.
Proof.
  intros (_ & _ & _ & H14) [_ _ _ Hc]. cbv zeta in Hc. destruct (ls_in_service a).
  - destruct Hc as [[_ He _ Hr] Hb]. split_and!; [done..|]. rewrite He.
    change IOAPIC_LVT_REMOTE_IRR with (bit 14). rewrite lor_bit by lia. apply orb_true_r.
  - destruct Hc as [[_ He Hi Hr] Hl]. rewrite He, Hi, Hl. split_and!; [done| |done]. apply Z.bits_0.
Qed.

End interrupts.

(** *** No interrupt is lost without a race *)

(** A bit that is set will be seen: the line is up, or a signal is about to
    raise it. *)
Definition source_inv (a : LevelSource) : Prop :=
  ls_raced a = false -> ls_status a <> 0 ->
  th_raising (ls_threads a) <> O \/ ls_line a = true /\ th_clearing (ls_threads a) = false.

Lemma source_step_inv a ev :
  enabled (ls_threads a) ev = true -> source_inv a -> source_inv (source_step a ev).
Proof.
  unfold source_inv. intros He Hi. destruct a as [st ln sv inj [r cl] rc].
  destruct ev as [s| |v| |]; cbn in *.
  - left. done.
  - intros -> _. by right.
  - unfold ack_idle. cbn. destruct (Z.eqb_spec (Z.land st (wnot 64 v)) 0) as [|Hne]; [done|].
    cbn. rewrite andb_true_r. intros Hrc _. destruct Hi as [|[]]; [done| |by left|by right].
    intros ->. done.
  - intros Hrc Hst. destruct Hi as [|[]]; [done..|by left|congruence].
  - exact Hi.
Qed.

Lemma source_run_inv evs : forall a a', source_inv a -> source_run evs a = Some a' -> source_inv a'.
Proof.
  induction evs as [|ev evs IH]; intros a a' Hi; cbn [source_run]; [by intros [= <-]|].
  destruct (enabled _ ev) eqn:He; [|done]. by apply IH, source_step_inv.
Qed.

(** ** Properties *)

(** C8: a device's interrupts are those of a level-triggered source, however
    its threads and the processor interleave, and none is lost without a race.
    A signal of the device and a write to the acknowledge register are two steps
    each, between which other threads may run.
    For a running driver and a level-triggered unmasked pin, the other pins
    being quiet, over every sequence in which the steps of any number of
    signals of the device (setting the bit, then raising the line) and of the
    guest's acknowledgements (clearing bits, then taking the line down when
    none is left) and ends of interrupt can follow one another: every operation
    succeeds, the status register, the line, the number of injected interrupts
    and what is in service are those of the abstract source, all interrupts
    with the vector of the pin's entry.  And whenever a bit of the status is
    set and no signal has still to raise the line, the line is up and an
    interrupt is in service, which the guest gets again at its end; unless the
    line was last raised between an acknowledgement that left no bit and the
    taking down that follows it, the one race in which an interrupt is lost. *)
Theorem interrupts_never_lost {prof : Profile} {D Ev} `{!VirtioDevice D} `{!WinEvent Ev}
    `{!WhvInterruptTypes} `{!VirtioConsts} (t : MmioTransport D IoApic Ev) p e base evs :
  (p < IOAPIC_NUM_PINS)%nat -> level_entry e -> wired p t -> it_status (mt_interrupt t) = 0 ->
  idle_line p e base (chip t) -> Forall event_ok evs ->
  (forall s (u : MmioTransport D IoApic Ev), zoom mt_interrupt set_interrupt (it_try_signal s) u =
     (_ ← signal_status s; signal_line) u) /\
  (forall v (u : MmioTransport D IoApic Ev), fits 32 v -> Z.testbit (mt_device_status u) 2 = true ->
     mmio_write 0x64 (le_bytes 4 v) u =
       (idle ← ack_status v; if idle : bool then ack_line else mret tt) u) /\
  match source_run evs quiet_source, irq_run (Z.land e 255) evs (no_threads, t) with
  | Some a, Some (h, t') =>
      h = ls_threads a /\ it_status (mt_interrupt t') = ls_status a /\
      ia_requests (chip t') = base ++ replicate (ls_injected a) (request e) /\
      Z.testbit (ia_irr (chip t')) (Z.of_nat p) = ls_line a /\
      Z.testbit (ia_entry (chip t') p) 14 = ls_in_service a /\
      (it_status (mt_interrupt t') <> 0 -> th_raising h = O -> ls_raced a = false ->
       ls_line a = true /\ ls_in_service a = true /\
       exists t'', irq_run (Z.land e 255) [Eoi] (h, t') = Some (h, t'') /\
         ia_requests (chip t'') = ia_requests (chip t') ++ [request e])
  | None, None => True
  | _, _ => False
  end.
Proof.
  intros Hp Hlev Hw Hst Hidle Hevs.
  split; [intros s u; apply signal_split|]. split; [intros v u; apply ack_split|].
  pose proof (irq_run_implements p e base evs quiet_source t Hp Hlev Hevs
    (quiet_implements p e base t Hw Hst Hidle)) as Hrun.
  assert (source_inv quiet_source) as Hi0 by by intros _ [].
  pose proof (source_run_inv evs quiet_source) as Hinv.
  change (ls_threads quiet_source) with no_threads in Hrun.
  destruct (source_run evs quiet_source) as [a|], (irq_run _ evs _) as [[h t']|]; try done.
  destruct Hrun as [-> Him]. specialize (Hinv a Hi0 eq_refl).
  pose proof Him as [_ Hs _ Hc]. destruct (im_observed p e base a t' Hlev Him) as (Hr & Hb & Hsv).
  split_and!; [done..|]. intros Hne Hra Hrc. rewrite Hs in Hne.
  destruct (Hinv Hrc Hne) as [|[Hln Hcl]]; [done|].
  assert (ls_in_service a = true) as Hin by (cbv zeta in Hc; destruct (ls_in_service a); [done|]; by destruct Hc; congruence).
  split; [done|]. split; [done|].
  destruct (irq_step_implements p e base a t' Eoi) as (idle & t'' & Estep & _ & Him'); [done..|].
  exists t''. split.
  - cbn [irq_run fst snd enabled]. rewrite Hcl. cbn [negb]. by rewrite Estep.
  - destruct (im_observed p e base _ t'' Hlev Him') as (Hr' & _). rewrite Hr', Hr.
    cbn [source_step ls_injected]. by rewrite Hin, Hln, replicate_snoc.
Qed.

(** The acknowledgement is not atomic: when the device signals between the
    reading of the status and the taking down of the line, the line goes down
    although a bit of the status is set.  After the end of the interrupt
    nothing is in service and nothing was injected for the second signal: it
    is lost until the device signals again. *)
Theorem racing_acknowledgement_loses_interrupt {prof : Profile} {D Ev}
    `{!WhvInterruptTypes} `{!VirtioConsts} (t : MmioTransport D IoApic Ev) p e base :
  (p < IOAPIC_NUM_PINS)%nat -> level_entry e -> wired p t -> it_status (mt_interrupt t) = 0 ->
  idle_line p e base (chip t) ->
  let vring := VIRTIO_MMIO_INT_VRING in
  exists t', irq_run (Z.land e 255)
      [SignalStatus vring; SignalLine; AckStatus vring; SignalStatus vring; SignalLine; AckLine; Eoi]
      (no_threads, t) = Some (no_threads, t') /\
    it_status (mt_interrupt t') = vring /\ idle_line p e (base ++ [request e]) (chip t').
Proof.
  intros Hp Hlev Hw Hst Hidle vring.
  set (evs := [SignalStatus vring; SignalLine; AckStatus vring; SignalStatus vring; SignalLine;
    AckLine; Eoi]).
  assert (Forall event_ok evs) as Hevs.
  { repeat apply Forall_cons_2; try apply Forall_nil_2; cbn [event_ok];
      first [by left|done|unfold fits; vm_compute; split; congruence]. }
  pose proof (irq_run_implements p e base evs quiet_source t Hp Hlev Hevs
    (quiet_implements p e base t Hw Hst Hidle)) as Hrun.
  change (ls_threads quiet_source) with no_threads in Hrun.
  destruct (irq_run _ _ _) as [[h t']|]; [|destruct Hrun]. destruct Hrun as [-> [_ Hs _ Hc]].
  exists t'. split; [reflexivity|]. split; [exact Hs|exact (proj1 Hc)].
Qed.

(** ** Witnesses *)

(** The entropy device behind pin 5, with the driver running. *)
Definition example_wired : MmioTransport Rng IoApic nat :=
  {| mt_device := rng_new; mt_features_select := 0; mt_acked_features_select := 0;
     mt_queue_select := 0; mt_device_status := 15; mt_config_generation := 0;
     mt_mem := example_mm; mt_queues := None; mt_queue_evts := [0%nat];
     mt_queue_config := RNG_QUEUE_CONFIG; mt_shm_region_select := 0;
     mt_interrupt := {| it_status := 0; it_event := 0%nat; it_intc := example_ioapic;
                        it_irq_line := Some 5 |} |}.

Lemma example_wired_ok :
  level_entry example_entry /\ wired 5 example_wired /\ idle_line 5 example_entry [] (chip example_wired).
Proof.
  split_and!.
  - unfold level_entry, fits, example_entry. repeat split; try reflexivity; lia.
  - split; [reflexivity|]. split; [unfold fits; cbn; lia|reflexivity].
  - split; [apply example_ioapic_wf|reflexivity..].
Qed.

Lemma interrupts_never_lost_witness :
  let evs := [SignalStatus 1; SignalLine; AckStatus 2; SignalStatus 1; Eoi; AckStatus 1; AckLine;
              SignalLine; Eoi; SignalStatus 2; SignalLine] in
  match irq_run (prof:=dev_profile) (Z.land example_entry 255) evs
          (no_threads, example_wired) with
  | Some (_, t') => ia_requests (chip t') = replicate 3 (request example_entry)
  | None => False
  end.
Proof.
  intros evs. destruct example_wired_ok as (H1 & H2 & H3).
  pose proof (interrupts_never_lost (prof:=dev_profile) (WinEvent0:=example_events) example_wired 5
    example_entry [] evs) as Hrun.
  destruct Hrun as (_ & _ & Hrun); [try done..|].
  1: unfold IOAPIC_NUM_PINS; lia.
  1: repeat apply Forall_cons_2; try apply Forall_nil_2; cbn [event_ok];
    first [left; reflexivity|right; reflexivity|exact I|unfold fits; lia].
  destruct (irq_run _ evs _) as [[h t']|];
    [|destruct Hrun]. destruct Hrun as (_ & _ & Hr & _). exact Hr.
Defined.

Lemma racing_acknowledgement_loses_interrupt_witness :
  exists t', irq_run (prof:=dev_profile) (Z.land example_entry 255)
      [SignalStatus 1; SignalLine; AckStatus 1; SignalStatus 1; SignalLine; AckLine; Eoi]
      (no_threads, example_wired) = Some (no_threads, t') /\
    it_status (mt_interrupt t') = 1 /\ idle_line 5 example_entry [request example_entry] (chip t').
Proof.
  destruct example_wired_ok as (H1 & H2 & H3).
  apply (racing_acknowledgement_loses_interrupt (prof:=dev_profile) example_wired 5 example_entry []);
    try done. unfold IOAPIC_NUM_PINS. lia.
Defined.
