(* ===== verification/Layout.v ===== *)
(** * Layout: the memory map of the guest, [src/memory/layout.rs] and
      [src/config.rs]

    The constants of the layout under their names in the source, and the size
    of guest memory from the configuration. *)

From S2P Require Import Prelude.

(* src/memory/layout.rs:23-23, LOW_RAM_START *)
Definition LOW_RAM_START : Z := 0x0.
(* src/memory/layout.rs:28-28, EBDA_POINTER *)
Definition EBDA_POINTER : Z := 0x40e.
(* src/memory/layout.rs:31-31, BOOT_GDT_START *)
Definition BOOT_GDT_START : Z := 0x500.
(* src/memory/layout.rs:32-32, BOOT_IDT_START *)
Definition BOOT_IDT_START : Z := 0x520.
(* src/memory/layout.rs:35-35, PVH_INFO_START *)
Definition PVH_INFO_START : Z := 0x6000.
(* src/memory/layout.rs:39-39, MODLIST_START *)
Definition MODLIST_START : Z := 0x6040.
(* src/memory/layout.rs:43-43, MEMMAP_START *)
Definition MEMMAP_START : Z := 0x7000.
(* src/memory/layout.rs:46-46, ZERO_PAGE_START *)
Definition ZERO_PAGE_START : Z := 0x7000.
(* src/memory/layout.rs:49-49, BOOT_STACK_START *)
Definition BOOT_STACK_START : Z := 0x8000.
(* src/memory/layout.rs:50-50, BOOT_STACK_POINTER *)
Definition BOOT_STACK_POINTER : Z := 0x8ff0.
(* src/memory/layout.rs:53-53, PML5_START *)
Definition PML5_START : Z := 0x9000.
(* src/memory/layout.rs:54-54, PML4_START *)
Definition PML4_START : Z := 0xa000.
(* src/memory/layout.rs:55-55, PDPTE_START *)
Definition PDPTE_START : Z := 0xb000.
(* src/memory/layout.rs:56-56, PDE_START *)
Definition PDE_START : Z := 0xc000.
(* src/memory/layout.rs:59-59, CMDLINE_START *)
Definition CMDLINE_START : Z := 0x20000.
(* src/memory/layout.rs:61-61, CMDLINE_MAX_SIZE *)
Definition CMDLINE_MAX_SIZE : Z := 0x10000.
(* src/memory/layout.rs:64-64, MPTABLE_START *)
Definition MPTABLE_START : Z := 0x9fc00.
(* src/memory/layout.rs:69-69, EBDA_START *)
Definition EBDA_START : Z := 0xa0000.
(* src/memory/layout.rs:74-74, RSDP_POINTER *)
Definition RSDP_POINTER : Z := 0xe0000.
(* src/memory/layout.rs:76-76, SMBIOS_START *)
Definition SMBIOS_START : Z := 0xf0000.
(* src/memory/layout.rs:81-81, HIGH_RAM_START *)
Definition HIGH_RAM_START : Z := 0x100000.
(* src/memory/layout.rs:93-93, MEM_32BIT_DEVICES_START *)
Definition MEM_32BIT_DEVICES_START : Z := 0xc0000000.
(* src/memory/layout.rs:97-97, MEM_32BIT_DEVICES_SIZE *)
Definition MEM_32BIT_DEVICES_SIZE : Z := Z.shiftl 640 20.
(* src/memory/layout.rs:101-101, PCI_MMCONFIG_START *)
Definition PCI_MMCONFIG_START : Z := 0xe8000000.
(* src/memory/layout.rs:103-103, PCI_MMCONFIG_SIZE *)
Definition PCI_MMCONFIG_SIZE : Z := Z.shiftl 256 20.
(* src/memory/layout.rs:106-106, PCI_MMIO_CONFIG_SIZE_PER_SEGMENT *)
Definition PCI_MMIO_CONFIG_SIZE_PER_SEGMENT : Z := 4096 * 256.
(* src/memory/layout.rs:112-112, IOAPIC_START *)
Definition IOAPIC_START : Z := 0xfec00000.
(* src/memory/layout.rs:113-113, IOAPIC_SIZE *)
Definition IOAPIC_SIZE : Z := 0x1000.
(* src/memory/layout.rs:116-116, APIC_START *)
Definition APIC_START : Z := 0xfee00000.
(* src/memory/layout.rs:118-118, MEM_32BIT_RESERVED_START *)
Definition MEM_32BIT_RESERVED_START : Z := 0xfec00000.
(* src/memory/layout.rs:119-119, MEM_32BIT_RESERVED_SIZE *)
Definition MEM_32BIT_RESERVED_SIZE : Z := 0x100000000 - MEM_32BIT_RESERVED_START.
(* src/memory/layout.rs:127-127, VIRTIO_MMIO_START *)
Definition VIRTIO_MMIO_START : Z := 0xfeb00000.
(* src/memory/layout.rs:128-128, VIRTIO_MMIO_SIZE_PER_DEVICE *)
Definition VIRTIO_MMIO_SIZE_PER_DEVICE : Z := 0x1000.
(* src/memory/layout.rs:129-129, VIRTIO_MMIO_MAX_DEVICES *)
Definition VIRTIO_MMIO_MAX_DEVICES : Z := 8.
(* src/memory/layout.rs:130-130, VIRTIO_MMIO_TOTAL_SIZE *)
Definition VIRTIO_MMIO_TOTAL_SIZE : Z := VIRTIO_MMIO_SIZE_PER_DEVICE * VIRTIO_MMIO_MAX_DEVICES.
(* src/memory/layout.rs:133-133, RAM_64BIT_START *)
Definition RAM_64BIT_START : Z := 0x100000000.

(** ** The configuration

    The environment gives the variable's value when it parses as a number; the
    product is plain arithmetic on [usize]. *)
(* src/config.rs:25-29, VmConfig::from_env *)
Definition config_memory_size {prof : Profile} {E} (memory_gb : option Z) : out E Z :=
  let memory_gb := default 5 memory_gb in
  a ← umul 64 memory_gb 1024;
  b ← umul 64 a 1024;
  umul 64 b 1024.
