(* ===== verification/Acpi.v ===== *)
(** * Acpi: the machine description given to the guest, [src/acpi.rs],
      [src/cpu.rs] and the device manager of [src/device_manager.rs]

    The managers record CPUs and devices; from them the ACPI tables are built
    and written to guest memory.  The [acpi_tables] crate is the class
    [AcpiTables]: AML objects are terms that the crate serializes, system
    description tables are built through its operations. *)

From S2P Require Import Prelude Bytes HostMem GuestMem Bus Layout.

(** ** The [acpi_tables] crate *)

(** The AML constructors the program uses. *)
Inductive Aml : Type :=
| AmlZero
| AmlInt (width n : Z)
| AmlString (s : string)
| AmlEISAName (s : string)
| AmlPackage (xs : list Aml)
| AmlName (path : string) (value : Aml)
| AmlReturn (value : Aml)
| AmlMethod (path : string) (args : Z) (serialized : bool) (body : list Aml)
| AmlDevice (path : string) (body : list Aml)
| AmlScope (path : string) (body : list Aml)
| AmlResourceTemplate (xs : list Aml)
| AmlBusNumber (min max : Z)
| AmlMemory (cacheable read_write : bool) (min max : Z)
| AmlMemory32Fixed (read_write : bool) (base len : Z)
| AmlIO (min max alignment len : Z)
| AmlInterrupt (consumer edge active_low shared : bool) (number : Z).

(** [write] and [append] take the bytes of the value. *)
Class AcpiTables (S : Type) : Type := {
  aml_bytes : Aml -> list Z;
  sdt_new : string -> Z -> Z -> string -> string -> Z -> S;
  sdt_write : Z -> list Z -> S -> S;
  sdt_append : list Z -> S -> S;
  sdt_update_checksum : S -> S;
  sdt_as_slice : S -> list Z;
  rsdp_new : string -> Z -> list Z;
  rsdp_len : Z;
  (** [GenericAddress::io_port_address::<T>] by the size of [T] *)
  io_port_address : Z -> Z -> list Z;
}.

(** [Sdt::len] is the number of bytes. *)
Definition sdt_len {S} `{!AcpiTables S} (s : S) : Z := zlen (sdt_as_slice s).

(** What the program relies on. *)
Class AcpiTablesLaws (S : Type) `{!AcpiTables S} : Prop := {
  sdt_new_length sig len rev oem table oem_rev :
    36 <= len -> sdt_len (sdt_new sig len rev oem table oem_rev) = len;
  sdt_write_length off bs s :
    0 <= off -> off + zlen bs <= sdt_len s -> sdt_len (sdt_write off bs s) = sdt_len s;
  sdt_append_length bs s :
    36 <= sdt_len s -> sdt_len (sdt_append bs s) = sdt_len s + zlen bs;
  sdt_checksum_length s : 36 <= sdt_len s -> sdt_len (sdt_update_checksum s) = sdt_len s;
  (** a write puts its bytes in place and brings the header up to date;
      appending leaves the body (the bytes behind the 36-byte header) in place *)
  sdt_write_bytes off bs s : 36 <= off -> off + zlen bs <= sdt_len s ->
    drop 36 (sdt_as_slice (sdt_write off bs s)) =
      splice (Z.to_nat (off - 36)) bs (drop 36 (sdt_as_slice s));
  sdt_append_bytes bs s : 36 <= sdt_len s ->
    drop 36 (sdt_as_slice (sdt_append bs s)) = drop 36 (sdt_as_slice s) ++ bs;
  sdt_checksum_bytes s : 36 <= sdt_len s ->
    drop 36 (sdt_as_slice (sdt_update_checksum s)) = drop 36 (sdt_as_slice s);
}.

(** [{:02X}] of a number below 256. *)
Definition hex_digit (n : Z) : Ascii.ascii :=
  Ascii.ascii_of_nat (Z.to_nat (if n <? 10 then 48 + n else 55 + n)).
Definition hex2 (n : Z) : string :=
  String.String (hex_digit (n / 16)) (String.String (hex_digit (n mod 16)) String.EmptyString).

(** ** CPUs: [src/cpu.rs] *)

(* src/cpu.rs:6-6, ACPI_X2APIC_PROCESSOR *)
Definition ACPI_X2APIC_PROCESSOR : Z := 9.
(* src/cpu.rs:7-7, ACPI_APIC_PROCESSOR *)
Definition ACPI_APIC_PROCESSOR : Z := 0.
(* src/cpu.rs:8-8, ACPI_APIC_IO *)
Definition ACPI_APIC_IO : Z := 1.
(* src/cpu.rs:9-9, ACPI_APIC_XRUPT_OVERRIDE *)
Definition ACPI_APIC_XRUPT_OVERRIDE : Z := 2.

(* src/cpu.rs:11-37, Cpu::to_aml_bytes *)
Definition cpu_aml (id : Z) : Aml :=
  AmlDevice ("CP" +:+ hex2 id)
    [AmlName "_HID" (AmlString "ACPI0007");
     AmlName "_UID" (AmlInt 32 id);
     AmlMethod "_STA" 0 false [AmlReturn (AmlInt 8 0xf)]].

(** Packed structures, in the order of their fields. *)
(* src/cpu.rs:50-58, LocalApic *)
Record LocalApic : Type := {
  la_type : Z; la_length : Z; la_apic_id : Z; la_flags : Z; la_processor_id : Z }.
Definition local_apic_bytes (l : LocalApic) : list Z :=
  le_bytes 1 (la_type l) ++ le_bytes 1 (la_length l) ++ le_bytes 1 (la_apic_id l)
  ++ le_bytes 4 (la_flags l) ++ le_bytes 1 (la_processor_id l).

(* src/cpu.rs:60-69, Ioapic *)
Record MadtIoapic : Type := {
  mi_type : Z; mi_length : Z; mi_ioapic_id : Z; mi_apic_address : Z; mi_gsi_base : Z }.
Definition madt_ioapic_bytes (i : MadtIoapic) : list Z :=
  le_bytes 1 (mi_type i) ++ le_bytes 1 (mi_length i) ++ le_bytes 1 (mi_ioapic_id i)
  ++ le_bytes 1 0 ++ le_bytes 4 (mi_apic_address i) ++ le_bytes 4 (mi_gsi_base i).

(* src/cpu.rs:71-80, InterruptSourceOverride *)
Record InterruptSourceOverride : Type := {
  is_type : Z; is_length : Z; is_bus : Z; is_source : Z; is_gsi : Z; is_flags : Z }.
Definition source_override_bytes (i : InterruptSourceOverride) : list Z :=
  le_bytes 1 (is_type i) ++ le_bytes 1 (is_length i) ++ le_bytes 1 (is_bus i)
  ++ le_bytes 1 (is_source i) ++ le_bytes 4 (is_gsi i) ++ le_bytes 2 (is_flags i).

(* src/cpu.rs:82-85, CpuManager *)
Record CpuManager : Type := { cm_cpus : Z; cm_acpi_address : option Z }.

(* src/cpu.rs:88-93, CpuManager::new *)
Definition cpu_manager_new : CpuManager := {| cm_cpus := 0; cm_acpi_address := None |}.

(* src/cpu.rs:95-97, CpuManager::set_cpu_count *)
Definition set_cpu_count (count : Z) (c : CpuManager) : CpuManager :=
  {| cm_cpus := count; cm_acpi_address := cm_acpi_address c |}.

(* src/cpu.rs:162-179, CpuManager::to_aml_bytes *)
Definition cpu_manager_aml (c : CpuManager) : Aml :=
  AmlScope "\_SB_" (map (fun i => cpu_aml (Z.of_nat i)) (seq 0 (Z.to_nat (cm_cpus c)))).

(* src/cpu.rs:119-125, CpuManager::create_madt *)
Definition madt_local_apic (cpu : Z) : LocalApic :=
  {| la_type := ACPI_APIC_PROCESSOR; la_length := 8; la_processor_id := wrap 8 cpu;
     la_apic_id := wrap 8 cpu; la_flags := 1 |}.

(* src/cpu.rs:103-159, CpuManager::create_madt *)
Definition create_madt {S} `{!AcpiTables S} (c : CpuManager) : S :=
  let madt := sdt_new "APIC" 44 5 "CLOUDH" "CHMADT  " 1 in
  let madt := sdt_write 36 (le_bytes 8 APIC_START) madt in
  let madt := sdt_write 32 (le_bytes 4 0) madt in
  let madt := foldl (fun madt cpu => sdt_append (local_apic_bytes (madt_local_apic cpu)) madt)
                madt (seqZ 0 (cm_cpus c)) in
  let madt := sdt_append (madt_ioapic_bytes
    {| mi_type := ACPI_APIC_IO; mi_length := 12; mi_ioapic_id := 0;
       mi_apic_address := wrap 32 IOAPIC_START; mi_gsi_base := 0 |}) madt in
  let madt := sdt_append (source_override_bytes
    {| is_type := ACPI_APIC_XRUPT_OVERRIDE; is_length := 10; is_bus := 0; is_source := 0;
       is_gsi := 2; is_flags := 0 |}) madt in
  sdt_update_checksum madt.

(** ** The device manager: [src/device_manager.rs] *)

(* src/device_manager.rs:298-308, PciSegment *)
Record PciSegment : Type := {
  ps_id : Z;
  ps_mmio_config_address : Z;
  ps_start_of_mem32_area : Z;
  ps_end_of_mem32_area : Z;
  ps_start_of_mem64_area : Z;
  ps_end_of_mem64_area : Z;
}.

(* src/device_manager.rs:332-381, PciSegment::to_aml_bytes *)
Definition pci_segment_aml (s : PciSegment) : Aml :=
  AmlDevice ("PC" +:+ hex2 (ps_id s))
    [AmlName "_HID" (AmlEISAName "PNP0A08");
     AmlName "_CID" (AmlEISAName "PNP0A03");
     AmlName "_SEG" (AmlInt 16 (ps_id s));
     AmlName "_UID" (AmlInt 16 (ps_id s));
     AmlName "_BBN" AmlZero;
     AmlName "_CRS" (AmlResourceTemplate
       [AmlBusNumber 0 0xff;
        AmlIO 0xcf8 0xcf8 1 0x8;
        AmlMemory32Fixed true (wrap 32 (ps_mmio_config_address s))
          (wrap 32 PCI_MMIO_CONFIG_SIZE_PER_SEGMENT);
        AmlMemory false true (ps_start_of_mem32_area s) (ps_end_of_mem32_area s);
        AmlMemory false true (ps_start_of_mem64_area s) (ps_end_of_mem64_area s)])].

(* src/device_manager.rs:383-388, SerialDevice *)
Record SerialDevice : Type := { sd_name : string; sd_uid : Z; sd_irq : Z; sd_port : Z }.

(* src/device_manager.rs:390-404, SerialDevice::to_aml_bytes *)
Definition serial_aml (d : SerialDevice) : Aml :=
  AmlDevice ("_SB_." +:+ sd_name d)
    [AmlName "_HID" (AmlEISAName "PNP0501");
     AmlName "_UID" (AmlInt 8 (sd_uid d));
     AmlName "_CRS" (AmlResourceTemplate
       [AmlInterrupt true true false false (sd_irq d);
        AmlIO (sd_port d) (sd_port d) 0x01 0x8])].

(* src/device_manager.rs:406-412, VirtioMmioDevice *)
Record VirtioMmioDevice : Type := {
  vm_name : string; vm_uid : Z; vm_base_address : Z; vm_size : Z; vm_irq : Z }.

(* src/device_manager.rs:414-434, VirtioMmioDevice::to_aml_bytes *)
Definition virtio_mmio_aml (d : VirtioMmioDevice) : Aml :=
  AmlDevice ("_SB_." +:+ vm_name d)
    [AmlName "_HID" (AmlString "LNRO0005");
     AmlName "_UID" (AmlInt 8 (vm_uid d));
     AmlName "_CRS" (AmlResourceTemplate
       [AmlMemory32Fixed true (wrap 32 (vm_base_address d)) (wrap 32 (vm_size d));
        AmlInterrupt true true false false (vm_irq d)])].

(** The addresses are kept as the bytes of the [GenericAddress]. *)
(* src/acpi.rs:18-34, AcpiPlatformAddresses *)
Record AcpiPlatformAddresses : Type := {
  pa_pm_timer : option (list Z);
  pa_reset_reg : option (list Z);
  pa_sleep_control_reg : option (list Z);
  pa_sleep_status_reg : option (list Z);
}.

(** The one device of the port bus, by the time it was created. *)
(* src/acpi.rs:225-235, AcpiPmTimerDevice *)
Record AcpiPmTimerDevice : Type := { pt_start : Z }.

(** [now] is the host's clock in nanoseconds. *)
(* src/acpi.rs:237-260, AcpiPmTimerDevice::read *)
Definition pm_timer_read (now : Z) (d : AcpiPmTimerDevice) (data : list Z) : list Z :=
  if negb (length data =? 4)%nat then data
  else
    let nanos := Z.max 0 (now - pt_start d) in
    let counter := nanos * 3579545 / 1000000000 in
    let counter := Z.land counter 0xffffffff in
    le_bytes 4 counter.

(* src/device_manager.rs:288-296, DeviceManager *)
Record DeviceManager : Type := {
  dm_io_bus : Bus AcpiPmTimerDevice;
  dm_pci_segments : list PciSegment;
  dm_serial_devices : list SerialDevice;
  dm_virtio_mmio_devices : list VirtioMmioDevice;
  dm_acpi_platform_addresses : AcpiPlatformAddresses;
}.

(* src/device_manager.rs:437-454, DeviceManager::new *)
Definition device_manager_new {prof : Profile} {E} (total_memory_gpa : Z) : out E DeviceManager :=
  start64 ← uadd 64 total_memory_gpa 1;
  Ok {| dm_io_bus := bus_new;
        dm_pci_segments :=
          [{| ps_id := 0; ps_mmio_config_address := PCI_MMCONFIG_START;
              ps_start_of_mem32_area := MEM_32BIT_DEVICES_START;
              ps_end_of_mem32_area := MEM_32BIT_DEVICES_START + MEM_32BIT_DEVICES_SIZE - 1;
              ps_start_of_mem64_area := start64;
              ps_end_of_mem64_area := 0x3fffffffffff |}];
        dm_serial_devices := [];
        dm_virtio_mmio_devices := [];
        dm_acpi_platform_addresses :=
          {| pa_pm_timer := None; pa_reset_reg := None; pa_sleep_control_reg := None;
             pa_sleep_status_reg := None |} |}.

(** The result of the insertion is dropped. *)
(* src/device_manager.rs:484-497, DeviceManager::add_acpi_platform_device *)
Definition add_acpi_platform_device {prof : Profile} {S} `{!AcpiTables S} (now : Z)
    (d : DeviceManager) : DeviceManager :=
  let pm_timer_pio_address := 0x608 in
  {| dm_io_bus :=
       (bus_insert {| pt_start := now |} pm_timer_pio_address 0x4 (dm_io_bus d)).2;
     dm_pci_segments := dm_pci_segments d;
     dm_serial_devices := dm_serial_devices d;
     dm_virtio_mmio_devices := dm_virtio_mmio_devices d;
     dm_acpi_platform_addresses :=
       {| pa_pm_timer := Some (io_port_address 4 pm_timer_pio_address);
          pa_reset_reg := pa_reset_reg (dm_acpi_platform_addresses d);
          pa_sleep_control_reg := pa_sleep_control_reg (dm_acpi_platform_addresses d);
          pa_sleep_status_reg := pa_sleep_status_reg (dm_acpi_platform_addresses d) |} |}.

(* src/device_manager.rs:456-458, DeviceManager::init *)
Definition device_manager_init {prof : Profile} {S} `{!AcpiTables S} := add_acpi_platform_device (S:=S).

(* src/device_manager.rs:473-482, DeviceManager::register_virtio_mmio *)
Definition register_virtio_mmio (name : string) (uid base_address size irq : Z)
    (d : DeviceManager) : DeviceManager :=
  {| dm_io_bus := dm_io_bus d; dm_pci_segments := dm_pci_segments d;
     dm_serial_devices := dm_serial_devices d;
     dm_virtio_mmio_devices := dm_virtio_mmio_devices d ++
       [{| vm_name := name; vm_uid := uid; vm_base_address := base_address; vm_size := size;
           vm_irq := irq |}];
     dm_acpi_platform_addresses := dm_acpi_platform_addresses d |}.

(* src/device_manager.rs:500-520, DeviceManager::to_aml_bytes *)
Definition device_manager_aml (d : DeviceManager) : list Aml :=
  map pci_segment_aml (dm_pci_segments d) ++ map serial_aml (dm_serial_devices d)
  ++ map virtio_mmio_aml (dm_virtio_mmio_devices d)
  ++ [AmlName "_S5_" (AmlPackage [AmlInt 8 5])].

(** ** The tables: [src/acpi.rs] *)

(* src/acpi.rs:16-16, FACP_DSDT_OFFSET *)
Definition FACP_DSDT_OFFSET : Z := 140.

Section tables.
Context {S : Type} `{!AcpiTables S}.

(* src/acpi.rs:45-60, create_dsdt_table *)
Definition create_dsdt_table (device_manager : DeviceManager) (cpu_manager : CpuManager) : S :=
  let dsdt := sdt_new "DSDT" 36 6 "CLOUDH" "CHDSDT  " 1 in
  let bytes := concat (map aml_bytes (device_manager_aml device_manager))
               ++ aml_bytes (cpu_manager_aml cpu_manager) in
  sdt_append bytes dsdt.

Definition facp_write_opt (off : Z) (address : option (list Z)) (facp : S) : S :=
  match address with Some a => sdt_write off a facp | None => facp end.

(* src/acpi.rs:62-114, create_facp_table *)
Definition create_facp_table (dsdt_offset : Z) (device_manager : DeviceManager) : S :=
  let a := dm_acpi_platform_addresses device_manager in
  let facp := sdt_new "FACP" 276 6 "CLOUDH" "CHFACP  " 1 in
  let facp := match pa_reset_reg a with
              | Some address => sdt_write 128 (le_bytes 1 1) (sdt_write 116 address facp)
              | None => facp
              end in
  let facp := facp_write_opt 244 (pa_sleep_control_reg a) facp in
  let facp := facp_write_opt 256 (pa_sleep_status_reg a) facp in
  let facp := match pa_pm_timer a with
              | Some address => sdt_write 76 (le_bytes 4 0x608) (sdt_write 208 address facp)
              | None => facp
              end in
  let facp := sdt_write 91 (le_bytes 1 4) facp in
  let fadt_flags := Z.lor (Z.lor (Z.shiftl 1 20) (Z.shiftl 1 10)) (Z.shiftl 1 8) in
  let facp := sdt_write 112 (le_bytes 4 fadt_flags) facp in
  let facp := sdt_write 131 (le_bytes 1 3) facp in
  let facp := sdt_write FACP_DSDT_OFFSET (le_bytes 8 dsdt_offset) facp in
  (* the bytes of "CLOUDHYP" *)
  let facp := sdt_write 268 [67; 76; 79; 85; 68; 72; 89; 80] facp in
  sdt_update_checksum facp.

(* src/acpi.rs:36-43, PciRangeEntry *)
Definition pci_range_entry (base_address segment start end_ : Z) : list Z :=
  le_bytes 8 base_address ++ le_bytes 2 segment ++ le_bytes 1 start ++ le_bytes 1 end_
  ++ le_bytes 4 0.

(* src/acpi.rs:116-136, create_mcfg_table *)
Definition create_mcfg_table (pci_segments : list PciSegment) : S :=
  let mcfg := sdt_new "MCFG" 36 1 "CLOUDH" "CHMCFG  " 1 in
  let mcfg := sdt_append (le_bytes 8 0) mcfg in
  let mcfg := foldl (fun mcfg segment =>
      sdt_append (pci_range_entry (ps_mmio_config_address segment) (ps_id segment) 0 255) mcfg)
    mcfg pci_segments in
  sdt_update_checksum mcfg.

(* src/acpi.rs:145-194, create_acpi_tables_internal *)
Definition create_acpi_tables_internal (dsdt_addr : Z) (device_manager : DeviceManager)
    (cpu_manager : CpuManager) : out string (list Z * list Z * list Z) :=
  let dsdt := create_dsdt_table device_manager cpu_manager in
  let facp := create_facp_table dsdt_addr device_manager in
  facp_addr ← unwrap_opt (checked_add 64 dsdt_addr (sdt_len dsdt));
  let madt := create_madt cpu_manager : S in
  madt_addr ← unwrap_opt (checked_add 64 facp_addr (sdt_len facp));
  let mcfg := create_mcfg_table (dm_pci_segments device_manager) in
  mcfg_addr ← unwrap_opt (checked_add 64 madt_addr (sdt_len madt));
  let xsdt_table_pointers := [facp_addr; madt_addr; mcfg_addr] in
  let xsdt : S := sdt_new "XSDT" 36 1 "CLOUDH" "CHXSDT  " 1 in
  let xsdt := foldl (fun xsdt table_pointer => sdt_append (le_bytes 8 table_pointer) xsdt)
                xsdt xsdt_table_pointers in
  let xsdt := sdt_update_checksum xsdt in
  xsdt_addr ← unwrap_opt (checked_add 64 mcfg_addr (sdt_len mcfg));
  let tables_bytes := sdt_as_slice dsdt ++ sdt_as_slice facp ++ sdt_as_slice madt
                      ++ sdt_as_slice mcfg ++ sdt_as_slice xsdt in
  Ok (rsdp_new "CLOUDH" xsdt_addr, tables_bytes, xsdt_table_pointers).

(** Both results of the writes are dropped. *)
(* src/acpi.rs:196-223, create_acpi_tables *)
Definition create_acpi_tables {prof : Profile} (device_manager : DeviceManager)
    (cpu_manager : CpuManager) (mm : MemoryManager) : M hostmem string Z :=
  let rsdp_addr := RSDP_POINTER in
  dsdt_addr ← lift (unwrap_opt (checked_add 64 rsdp_addr rsdp_len));
  t ← lift (create_acpi_tables_internal dsdt_addr device_manager cpu_manager);
  let '(rsdp, tables_bytes, _) := t in
  _ ← Mtry (write_guest_memory mm rsdp rsdp_addr : M hostmem string unit);
  _ ← Mtry (write_guest_memory mm tables_bytes dsdt_addr : M hostmem string unit);
  mret rsdp_addr.

End tables.

(** ** Lemmas *)

Section lemmas.
Context {S : Type} `{!AcpiTables S} `{!AcpiTablesLaws S}.
Implicit Types s : S.

(** A table in the making: [s] of length [n] with body [body]. *)
Record sdt_state s (n : Z) (body : list Z) : Prop := {
  ss_len : sdt_len s = n;
  ss_body : drop 36 (sdt_as_slice s) = body;
}.

Lemma sdt_state_append s n body bs :
  36 <= n -> sdt_state s n body -> sdt_state (sdt_append bs s) (n + zlen bs) (body ++ bs).
Proof using All.
  intros Hn [Hl Hb]. split.
  - rewrite sdt_append_length by lia. by rewrite Hl.
  - rewrite sdt_append_bytes by (rewrite Hl; lia). by rewrite Hb.
Qed.

Lemma sdt_state_checksum s n body :
  36 <= n -> sdt_state s n body -> sdt_state (sdt_update_checksum s) n body.
Proof using All.
  intros Hn [Hl Hb]. split.
  - by rewrite sdt_checksum_length by lia.
  - by rewrite sdt_checksum_bytes by (rewrite Hl; lia).
Qed.

Lemma sdt_state_foldl {A} (f : A -> list Z) (xs : list A) s n body :
  36 <= n -> sdt_state s n body ->
  sdt_state (foldl (fun s x => sdt_append (f x) s) s xs)
    (n + zlen (concat (map f xs))) (body ++ concat (map f xs)).
Proof using All.
  revert s n body. induction xs as [|x xs IH]; intros s n body Hn Hs; cbn [foldl map concat].
  - rewrite app_nil_r. unfold zlen. cbn. by rewrite Z.add_0_r.
  - assert (zlen (f x ++ concat (map f xs)) = zlen (f x) + zlen (concat (map f xs))) as ->
      by (unfold zlen; rewrite length_app; lia).
    rewrite app_assoc, Z.add_assoc.
    pose proof (zlen_nonneg (f x)). apply IH; [lia|]. by apply sdt_state_append.
Qed.

Lemma sdt_state_new sig n rev oem table oem_rev :
  36 <= n ->
  exists body, sdt_state (sdt_new sig n rev oem table oem_rev : S) n body /\ zlen body = n - 36.
Proof using All.
  intros Hn. eexists. split; [split; [apply sdt_new_length; lia|reflexivity]|].
  unfold zlen. rewrite length_drop.
  pose proof (sdt_new_length sig n rev oem table oem_rev ltac:(lia)) as Hl.
  unfold sdt_len, zlen in Hl. lia.
Qed.

Lemma slice_app_mid (pre x post : list Z) (i n : nat) :
  i = length pre -> n = length x -> slice i n (pre ++ x ++ post) = x.
Proof using. intros -> ->. unfold slice. by rewrite drop_app_length, take_app_length. Qed.

Lemma slice_app_end (pre x : list Z) (i n : nat) :
  i = length pre -> n = length x -> slice i n (pre ++ x) = x.
Proof using. intros. rewrite <- (app_nil_r x) at 1. by apply slice_app_mid. Qed.

(** The entry of one item in a sequence of entries of equal length. *)
Lemma slice_concat {A} (f : A -> list Z) (n : nat) xs rest i x :
  (forall x, length (f x) = n) -> xs !! i = Some x ->
  slice (n * i) n (concat (map f xs) ++ rest) = f x.
Proof using.
  intros Hf Hi. rewrite <- (take_drop_middle xs i x Hi), map_app, concat_app, <- app_assoc.
  cbn [map concat]. rewrite <- app_assoc. apply slice_app_mid; [|by rewrite Hf].
  apply lookup_lt_Some in Hi.
  assert (forall ys, length (concat (map f ys)) = (n * length ys)%nat) as ->.
  { intros ys. induction ys as [|y ys IH]; cbn [map concat length]; [lia|].
    rewrite length_app, Hf, IH. lia. }
  rewrite length_take. lia.
Qed.

(** A field written behind the header, and the fields apart from it. *)
Lemma sdt_write_slice off bs s :
  36 <= off -> off + zlen bs <= sdt_len s ->
  slice (Z.to_nat off) (length bs) (sdt_as_slice (sdt_write off bs s)) = bs.
Proof using All.
  intros Ho Hl. unfold zlen in Hl.
  replace (Z.to_nat off) with (36 + Z.to_nat (off - 36))%nat by lia. unfold slice.
  rewrite <- drop_drop, sdt_write_bytes by (unfold zlen; lia). apply slice_splice.
  rewrite length_drop. unfold sdt_len, zlen in Hl. lia.
Qed.

Lemma sdt_write_slice_ne off bs s i n :
  36 <= off -> off + zlen bs <= sdt_len s -> (36 <= i)%nat ->
  (i + n <= Z.to_nat off)%nat \/ (Z.to_nat off + length bs <= i)%nat ->
  slice i n (sdt_as_slice (sdt_write off bs s)) = slice i n (sdt_as_slice s).
Proof using All.
  intros Ho Hl Hi Hd. replace i with (36 + (i - 36))%nat by lia. unfold slice.
  rewrite <- !drop_drop, sdt_write_bytes by done. apply slice_splice_disjoint; [|lia].
  rewrite length_drop. unfold sdt_len, zlen in Hl. lia.
Qed.

(** A [GenericAddress] has twelve bytes. *)
Definition addresses_fit (a : AcpiPlatformAddresses) : Prop :=
  Forall (fun o => from_option (fun bs => zlen bs = 12) True o)
    [pa_pm_timer a; pa_reset_reg a; pa_sleep_control_reg a; pa_sleep_status_reg a].

(** The FADT keeps its length through the writes, and points to the DSDT. *)
Lemma facp_points_to_dsdt dsdt dm :
  addresses_fit (dm_acpi_platform_addresses dm) ->
  slice 140 8 (sdt_as_slice (create_facp_table dsdt dm : S)) = le_bytes 8 dsdt.
Proof using All.
  intros Ha. unfold addresses_fit in Ha. rewrite !Forall_cons in Ha. destruct Ha as (Ht & Hr & Hc & Hs & _).
  assert (forall off bs s, 0 <= off -> off + zlen bs <= 276 -> sdt_len s = 276 ->
    sdt_len (sdt_write off bs s) = 276) as Hw by (intros ? ? s ? ? Hl; rewrite sdt_write_length; lia).
  unfold create_facp_table. set (a := dm_acpi_platform_addresses dm) in *.
  pose proof (sdt_new_length (S:=S) "FACP" 276 6 "CLOUDH" "CHFACP  " 1 ltac:(lia)) as H0.
  match goal with |- context [sdt_write FACP_DSDT_OFFSET _ ?x] => set (f := x) end.
  assert (sdt_len f = 276) as Hf.
  { subst f. unfold facp_write_opt.
    repeat (apply Hw; [lia|vm_compute; congruence|]).
    destruct (pa_pm_timer a) as [t|], (pa_sleep_status_reg a) as [ss|], (pa_sleep_control_reg a) as [sc|],
      (pa_reset_reg a) as [rr|]; cbn in *;
      repeat (first [apply Hw; [lia|first [lia|vm_compute; congruence]|]]); exact H0. }
  assert (sdt_len (sdt_write FACP_DSDT_OFFSET (le_bytes 8 dsdt) f) = 276) as Hd
    by (apply Hw; [vm_compute; congruence| |done]; unfold zlen; rewrite length_le_bytes; vm_compute; congruence).
  set (g := sdt_write 268 _ _). assert (sdt_len g = 276) as Hg by (apply Hw; [lia|vm_compute; congruence|done]).
  assert (forall s : S, 36 <= sdt_len s -> slice 140 8 (sdt_as_slice (sdt_update_checksum s)) =
    slice 140 8 (sdt_as_slice s)) as ->.
  { intros s Hl. change 140%nat with (36 + 104)%nat. unfold slice.
    by rewrite <- !drop_drop, sdt_checksum_bytes. }
  2: lia.
  subst g. rewrite sdt_write_slice_ne; [|lia|rewrite Hd; vm_compute; congruence|lia|left; vm_compute; lia].
  pose proof (sdt_write_slice FACP_DSDT_OFFSET (le_bytes 8 dsdt) f) as Hs8.
  rewrite length_le_bytes in Hs8. apply Hs8; [vm_compute; congruence|].
  rewrite Hf. unfold zlen. rewrite length_le_bytes. vm_compute. congruence.
Qed.

(** The MCFG: eight reserved bytes, then the segments. *)
Lemma mcfg_segment segments k segment :
  segments !! k = Some segment ->
  slice (44 + 16 * k) 16 (sdt_as_slice (create_mcfg_table segments : S)) =
    pci_range_entry (ps_mmio_config_address segment) (ps_id segment) 0 255.
Proof using All.
  intros Hk. unfold create_mcfg_table.
  set (entry := fun x : PciSegment => pci_range_entry (ps_mmio_config_address x) (ps_id x) 0 255).
  destruct (sdt_state_new "MCFG" 36 1 "CLOUDH" "CHMCFG  " 1 ltac:(lia)) as (body & H0 & Hb).
  assert (body = []) as -> by (apply nil_length_inv; unfold zlen in Hb; lia).
  apply (sdt_state_append _ _ _ (le_bytes 8 0)) in H0; [|lia]. cbn [app] in H0.
  change (36 + zlen (le_bytes 8 0)) with 44 in H0.
  pose proof (sdt_state_foldl entry
    segments _ 44 _ ltac:(lia) H0) as H1.
  match type of H1 with sdt_state _ (44 + zlen ?l) _ => pose proof (zlen_nonneg l) end.
  apply sdt_state_checksum in H1; [|lia]. destruct H1 as [_ H1].
  subst entry. cbv beta in H1.
  replace (44 + 16 * k)%nat with (36 + (8 + 16 * k))%nat by lia. unfold slice.
  rewrite <- drop_drop, H1, <- drop_drop, drop_app_length' by done.
  change (slice (16 * k) 16 (concat (map (fun x =>
    pci_range_entry (ps_mmio_config_address x) (ps_id x) 0 255) segments)) = 
    pci_range_entry (ps_mmio_config_address segment) (ps_id segment) 0 255).
  rewrite <- (app_nil_r (concat _)).
  by apply (slice_concat (fun x => pci_range_entry (ps_mmio_config_address x) (ps_id x) 0 255) 16).
Qed.

(** The MADT: eight bytes of its own, then the processors. *)
Lemma madt_body c :
  exists own rest, length own = 8%nat /\
    drop 36 (sdt_as_slice (create_madt c : S)) =
      own ++ concat (map (fun cpu => local_apic_bytes (madt_local_apic cpu)) (seqZ 0 (cm_cpus c)))
      ++ rest.
Proof using All.
  unfold create_madt.
  pose proof (sdt_new_length (S:=S) "APIC" 44 5 "CLOUDH" "CHMADT  " 1 ltac:(lia)) as H0.
  set (m0 := sdt_new _ _ _ _ _ _) in *.
  assert (sdt_len (sdt_write 36 (le_bytes 8 APIC_START) m0) = 44) as H1
    by (rewrite sdt_write_length; [done|lia|rewrite H0; vm_compute; congruence]).
  assert (sdt_len (sdt_write 32 (le_bytes 4 0) (sdt_write 36 (le_bytes 8 APIC_START) m0)) = 44)
    as H2 by (rewrite sdt_write_length; [done|lia|rewrite H1; vm_compute; congruence]).
  set (m1 := sdt_write 32 _ _) in *.
  pose proof (Build_sdt_state m1 44 _ H2 eq_refl) as Hm1.
  pose proof (sdt_state_foldl (fun cpu => local_apic_bytes (madt_local_apic cpu))
    (seqZ 0 (cm_cpus c)) m1 44 _ ltac:(lia) Hm1) as Hm2.
  match type of Hm2 with sdt_state _ (44 + zlen ?l) _ => pose proof (zlen_nonneg l) end.
  match goal with |- context [sdt_append ?b (sdt_append ?a _)] => set (ba := a); set (bb := b) end.
  pose proof (zlen_nonneg ba). pose proof (zlen_nonneg bb).
  apply (sdt_state_append _ _ _ ba) in Hm2; [|lia].
  apply (sdt_state_append _ _ _ bb) in Hm2 as Hm4; [|lia].
  apply sdt_state_checksum in Hm4; [|lia]. destruct Hm4 as [_ Hbody].
  exists (drop 36 (sdt_as_slice m1)), (ba ++ bb). split.
  - rewrite length_drop. unfold sdt_len, zlen in H2. lia.
  - rewrite Hbody. by rewrite <- !app_assoc.
Qed.

End lemmas.

(** ** An example of the crate: tables as byte lists

    The header holds the length at 4 and the checksum at 9. *)

Definition bytes_checksum (bs : list Z) : Z := wrap 8 (- foldr Z.add 0 bs).

#[export] Instance byte_tables : AcpiTables (list Z) := {
  aml_bytes _ := [0x5b; 0x82];
  sdt_new _ len rev _ _ _ := splice 4 (le_bytes 4 len ++ [rev]) (replicate (Z.to_nat len) 0);
  sdt_write off bs s := splice (Z.to_nat off) bs s;
  sdt_append bs s := splice 4 (le_bytes 4 (zlen s + zlen bs)) s ++ bs;
  sdt_update_checksum s := splice 9 [bytes_checksum s] s;
  sdt_as_slice s := s;
  rsdp_new _ addr := replicate 24 0 ++ le_bytes 8 addr ++ replicate 4 0;
  rsdp_len := 36;
  io_port_address size addr := [1; 8 * size; 0; 3] ++ le_bytes 8 addr;
}.

(** [sdt_new] is only used with room for the header. *)
Lemma drop_splice_below (i n : nat) (bs l : list Z) :
  (i + length bs <= n)%nat -> (n <= length l)%nat -> drop n (splice i bs l) = drop n l.
Proof.
  intros Hi Hn. unfold splice. rewrite app_assoc, drop_app_ge
    by (rewrite length_app, length_take; lia).
  rewrite length_app, length_take, drop_drop. f_equal. lia.
Qed.

Lemma drop_splice_above (i n : nat) (bs l : list Z) :
  (n <= i)%nat -> (i + length bs <= length l)%nat ->
  drop n (splice i bs l) = splice (i - n) bs (drop n l).
Proof.
  intros Hn Hi. apply list_eq. intros j.
  rewrite lookup_drop, !lookup_splice, lookup_drop by (rewrite ?length_drop; lia).
  repeat case_decide; try lia; [f_equal; lia|done].
Qed.

(** ** Properties *)

(** C28: every table is where its pointer says.  The tables are laid out one
    behind the other from [dsdt_addr]; the pointers the XSDT holds are the
    guest addresses of the FADT, the MADT and the MCFG, the RSDP gets the
    address of the XSDT, and the XSDT's body is exactly those pointers; the
    FADT's pointer ([X_DSDT], at offset 140) is the address of the DSDT, and the
    MCFG has the configuration window of each PCI segment. *)
Theorem acpi_pointers_locate_tables {S} `{!AcpiTables S} `{!AcpiTablesLaws S} dsdt_addr dm cm :
  let dsdt := create_dsdt_table dm cm : S in
  let facp := create_facp_table dsdt_addr dm : S in
  let madt := create_madt cm : S in
  let mcfg := create_mcfg_table (dm_pci_segments dm) : S in
  addresses_fit (dm_acpi_platform_addresses dm) ->
  dsdt_addr + sdt_len dsdt + sdt_len facp + sdt_len madt + sdt_len mcfg < 2 ^ 64 ->
  exists p_facp p_madt p_mcfg p_xsdt (xsdt : S) tables,
    create_acpi_tables_internal (S:=S) dsdt_addr dm cm =
      Ok (rsdp_new "CLOUDH" p_xsdt, tables, [p_facp; p_madt; p_mcfg]) /\
    Forall (fun '(p, t) =>
        slice (Z.to_nat (p - dsdt_addr)) (length (sdt_as_slice t)) tables = sdt_as_slice t)
      [(dsdt_addr, dsdt); (p_facp, facp); (p_madt, madt); (p_mcfg, mcfg); (p_xsdt, xsdt)] /\
    zlen tables = sdt_len dsdt + sdt_len facp + sdt_len madt + sdt_len mcfg + sdt_len xsdt /\
    drop 36 (sdt_as_slice xsdt) = le_bytes 8 p_facp ++ le_bytes 8 p_madt ++ le_bytes 8 p_mcfg /\
    slice 140 8 (sdt_as_slice facp) = le_bytes 8 dsdt_addr /\
    (forall k segment, dm_pci_segments dm !! k = Some segment ->
       slice (44 + 16 * k) 16 (sdt_as_slice mcfg) =
         le_bytes 8 (ps_mmio_config_address segment) ++ le_bytes 2 (ps_id segment) ++
         [0; 255; 0; 0; 0; 0]).
Proof.
  intros dsdt facp madt mcfg Hfit Hb.
  assert (forall s : S, 0 <= sdt_len s) as Hpos by (intros; apply zlen_nonneg).
  pose proof (Hpos dsdt). pose proof (Hpos facp). pose proof (Hpos madt). pose proof (Hpos mcfg).
  set (p_facp := dsdt_addr + sdt_len dsdt). set (p_madt := p_facp + sdt_len facp).
  set (p_mcfg := p_madt + sdt_len madt). set (p_xsdt := p_mcfg + sdt_len mcfg).
  destruct (sdt_state_new (S:=S) "XSDT" 36 1 "CLOUDH" "CHXSDT  " 1 ltac:(lia)) as (body & Hx0 & Hbody).
  pose proof (sdt_state_foldl (le_bytes 8) [p_facp; p_madt; p_mcfg] _ 36 body ltac:(lia) Hx0) as Hx1.
  apply sdt_state_checksum in Hx1;
    [|match goal with |- _ <= _ + zlen ?l => pose proof (zlen_nonneg l); lia end].
  set (xsdt := sdt_update_checksum (foldl _ _ [p_facp; p_madt; p_mcfg])) in Hx1.
  exists p_facp, p_madt, p_mcfg, p_xsdt, xsdt.
  exists (sdt_as_slice dsdt ++ sdt_as_slice facp ++ sdt_as_slice madt ++ sdt_as_slice mcfg
          ++ sdt_as_slice xsdt).
  assert (forall a n, a + n < 2 ^ 64 -> checked_add 64 a n = Some (a + n)) as Hadd
    by (intros; by apply checked_add_Some).
  split_and!.
  - unfold create_acpi_tables_internal. fold dsdt facp madt mcfg.
    rewrite (Hadd dsdt_addr) by lia. fold p_facp. run_M. rewrite (Hadd p_facp) by lia. fold p_madt.
    run_M. rewrite (Hadd p_madt) by lia. fold p_mcfg. run_M. rewrite (Hadd p_mcfg) by lia.
    fold p_xsdt. run_M. reflexivity.
  - assert (forall s : S, sdt_len s = Z.of_nat (length (sdt_as_slice s))) as Hl by done.
    repeat (apply Forall_cons; split); [..|apply Forall_nil_2].
    + apply (slice_app_mid []); [cbn; lia|done].
    + apply slice_app_mid; [unfold p_facp; rewrite Hl; lia|done].
    + rewrite (app_assoc (sdt_as_slice dsdt)). apply slice_app_mid;
        [rewrite length_app; unfold p_madt, p_facp; rewrite !Hl; lia|done].
    + rewrite (app_assoc (sdt_as_slice dsdt)), (app_assoc (_ ++ _)). apply slice_app_mid;
        [rewrite !length_app; unfold p_mcfg, p_madt, p_facp; rewrite !Hl; lia|done].
    + rewrite (app_assoc (sdt_as_slice dsdt)), (app_assoc (_ ++ _)), (app_assoc (_ ++ _)).
      apply slice_app_end;
        [rewrite !length_app; unfold p_xsdt, p_mcfg, p_madt, p_facp; rewrite !Hl; lia|done].
  - unfold zlen, sdt_len. unfold zlen. rewrite !length_app. lia.
  - destruct Hx1 as [_ Hx1]. rewrite Hx1.
    rewrite (nil_length_inv body) by (unfold zlen in Hbody; lia).
    cbn [map concat]. by rewrite app_nil_r.
  - by apply facp_points_to_dsdt.
  - intros k segment Hk. by apply mcfg_segment.
Qed.

(** The MADT's processor entries are laid out wrongly.  ACPI puts the
    flags of a local APIC entry at offset 4, behind the processor and APIC
    ids; the structure here puts them between the two.  Read as ACPI defines
    it, the entry of every CPU has APIC id 1 and the Enabled bit clear. *)
Theorem madt_local_apics_disabled {S} `{!AcpiTables S} `{!AcpiTablesLaws S} c k :
  0 <= k < cm_cpus c -> cm_cpus c <= 256 ->
  let entry := slice (Z.to_nat (44 + 8 * k)) 8 (sdt_as_slice (create_madt c : S)) in
  entry = [0; 8; k; 1; 0; 0; 0; k] /\
  entry !! 3%nat = Some 1 /\ Z.testbit (le_val (slice 4 4 entry)) 0 = false.
Proof.
  intros Hk Hc entry.
  assert (entry = [0; 8; k; 1; 0; 0; 0; k]) as ->.
  { subst entry. destruct (madt_body (S:=S) c) as (own & rest & Hown & Hbody).
    replace (Z.to_nat (44 + 8 * k)) with (36 + (8 + 8 * Z.to_nat k))%nat by lia.
    unfold slice. rewrite <- drop_drop, Hbody, <- drop_drop, drop_app_length' by done.
    fold (slice (8 * Z.to_nat k) 8
      (concat (map (fun cpu => local_apic_bytes (madt_local_apic cpu)) (seqZ 0 (cm_cpus c))) ++ rest)).
    rewrite (slice_concat _ 8 _ _ (Z.to_nat k) k);
      [|done|rewrite lookup_seqZ; lia].
    unfold madt_local_apic. rewrite (wrap_small 8 k) by (split; [lia|]; change (2 ^ 8) with 256; lia).
    unfold local_apic_bytes, la_processor_id, la_apic_id.
    assert (le_bytes 1 k = [k]) as -> by (cbn; f_equal; rewrite Z.mod_small by lia; done).
    reflexivity. }
  split_and!; [done|done|]. unfold slice. cbn [drop take le_val].
  change (Z.testbit (0 + 256 * (0 + 256 * (0 + 256 * (k + 256 * 0)))) 0 = false).
  replace (0 + 256 * (0 + 256 * (0 + 256 * (k + 256 * 0)))) with (2 * (8388608 * k)) by lia.
  apply Z.testbit_even_0.
Qed.

#[export] Instance byte_tables_laws : AcpiTablesLaws (list Z).
Proof.
  split; unfold sdt_len, zlen; cbn [sdt_as_slice sdt_new sdt_write sdt_append sdt_update_checksum
    byte_tables].
  - intros sig len rev oem table oem_rev Hl. rewrite length_splice, length_replicate; [lia|].
    rewrite length_replicate, length_app, length_le_bytes. cbn. lia.
  - intros off bs s Ho Hl. rewrite length_splice by (unfold zlen in Hl; lia). done.
  - intros bs s Hl. rewrite length_app, length_splice by (rewrite length_le_bytes; lia). lia.
  - intros s Hl. rewrite length_splice by (cbn; lia). done.
  - intros off bs s Ho Hl. unfold zlen in Hl. rewrite drop_splice_above by lia. f_equal. lia.
  - intros bs s Hl. rewrite drop_app_le by (rewrite length_splice by (rewrite length_le_bytes; lia); lia).
    by rewrite drop_splice_below by (rewrite ?length_le_bytes; lia).
  - intros s Hl. by rewrite drop_splice_below by (cbn; lia).
Qed.

Definition example_device_manager : DeviceManager :=
  {| dm_io_bus := bus_new;
     dm_pci_segments := [{| ps_id := 0; ps_mmio_config_address := PCI_MMCONFIG_START;
       ps_start_of_mem32_area := MEM_32BIT_DEVICES_START; ps_end_of_mem32_area := 0xe7ffffff;
       ps_start_of_mem64_area := 0x140000001; ps_end_of_mem64_area := 0x3fffffffffff |}];
     dm_serial_devices := [];
     dm_virtio_mmio_devices := [{| vm_name := "VBLK"; vm_uid := 1;
       vm_base_address := VIRTIO_MMIO_START; vm_size := 0x1000; vm_irq := 20 |}];
     dm_acpi_platform_addresses := {| pa_pm_timer := Some ([1; 32; 0; 3] ++ le_bytes 8 0x608);
       pa_reset_reg := None; pa_sleep_control_reg := None; pa_sleep_status_reg := None |} |}.

Lemma acpi_pointers_locate_tables_witness :
  exists p_facp p_madt p_mcfg p_xsdt tables,
    create_acpi_tables_internal (S:=list Z) 0xe0024 example_device_manager
      (set_cpu_count 1 cpu_manager_new) =
      Ok (rsdp_new "CLOUDH" p_xsdt, tables, [p_facp; p_madt; p_mcfg]).
Proof.
  destruct (acpi_pointers_locate_tables (S:=list Z) 0xe0024 example_device_manager
    (set_cpu_count 1 cpu_manager_new)) as (pf & pm & pc & px & xsdt & tables & Hr & _).
  - repeat constructor.
  - vm_compute. reflexivity.
  - exists pf, pm, pc, px, tables. exact Hr.
Defined.

Lemma madt_local_apics_disabled_witness :
  slice 52 8 (create_madt (S:=list Z) (set_cpu_count 2 cpu_manager_new)) = [0; 8; 1; 1; 0; 0; 0; 1].
Proof.
  destruct (madt_local_apics_disabled (S:=list Z) (set_cpu_count 2 cpu_manager_new) 1) as [H _];
    [cbn; lia|cbn; lia|exact H].
Defined.
