(* ===== verification/Partition.v ===== *)
(** * Partition: the virtual machine, [src/partition.rs], with the wiring of its
      devices in [src/device_manager.rs] and [src/main.rs]

    The partition owns guest memory, the MMIO windows and the handlers behind
    them.  Its operations are methods on the record [Partition]; the calls
    into the hypervisor and the host are the class [PartitionHost].  The
    interrupt controller, which the program shares between the IOAPIC adapter
    and the virtio transports through an [Arc], is one field of the record:
    a transport works on it for the duration of one access. *)

From S2P Require Import Prelude Bytes HostMem GuestMem Queue Irqchip Bus VirtioDev Mmio Layout Acpi.

(** ** The host *)

Class PartitionHost : Type := {
  WHvCreatePartition : out string unit;
  WHvEmulatorCreateEmulator : out string unit;
  (** the interrupt controller of the processors, the CPUID leaves that exit *)
  WHvSetLocalApicEmulationMode : Z -> out string unit;
  WHvSetCpuidExitList : list Z -> out string unit;
  WHvSetupPartition : out string unit;
  WHvCreateVirtualProcessor : Z -> out string unit;
  (** the host address of a fresh block of the size, 0 when there is none *)
  VirtualAlloc : Z -> Z;
  (** source, guest address, size and flags *)
  WHvMapGpaRange : Z -> Z -> Z -> Z -> out string unit;
  WHvSetProcessorCount : Z -> out string unit;
  WHvMapGpaRangeFlagRead : Z;
  WHvMapGpaRangeFlagWrite : Z;
  WHvMapGpaRangeFlagExecute : Z;
  (** creating a missing disk image *)
  create_image : string -> out string unit;
  (** size, discard alignment and device id of a disk image *)
  open_image : string -> out string (Z * Z * option (list Z));
  (** whether the network proxy can be spawned *)
  gvproxy_available : bool;
}.

(* src/memory/memory.rs:76-84, MemoryPerms::to_flags *)
Definition perms_to_flags `{!PartitionHost} (perms : Z) : Z :=
  let flags := 0 in
  let flags := if perms_contains perms PERM_READ then Z.lor flags WHvMapGpaRangeFlagRead else flags in
  let flags := if perms_contains perms PERM_WRITE then Z.lor flags WHvMapGpaRangeFlagWrite else flags in
  if perms_contains perms PERM_EXECUTE then Z.lor flags WHvMapGpaRangeFlagExecute else flags.

(** ** The MMIO handlers *)

(** The [Box<dyn BusDevice>]s the program registers.  The adapter of the
    IOAPIC holds a handle of the shared controller and nothing else. *)
Inductive MmioHandler (Ev : Type) : Type :=
| IoApicMmioAdapter
| PciEcamHandler
| BlockTransport (t : MmioTransport Block IoApic Ev)
| RngTransport (t : MmioTransport Rng IoApic Ev)
| ConsoleTransport (t : MmioTransport Console IoApic Ev)
| NetTransport (t : MmioTransport Net IoApic Ev).
Arguments IoApicMmioAdapter {Ev}.
Arguments PciEcamHandler {Ev}.
Arguments BlockTransport {Ev}.
Arguments RngTransport {Ev}.
Arguments ConsoleTransport {Ev}.
Arguments NetTransport {Ev}.

(** ** State *)

(** The calls that acquire or release something of the host, in order: those
    that succeeded on the way up, and all of them on the way down, where
    results are dropped. *)
Inductive HvCall : Type :=
| CallCreatePartition
| CallCreateEmulator
| CallSetupPartition
| CallCreateVp (vp_id : Z)
| CallAlloc (base size : Z)
| CallMap (source gpa size : Z)
| CallJoinWorker (handler : string)
| CallDeleteVp (vp_id : Z)
| CallUnmap (gpa size : Z)
| CallDestroyEmulator
| CallDeletePartition
| CallFree (base : Z).

(** The handles of the partition and of the emulator are opaque values passed
    to the hypervisor. *)
(* src/partition.rs:20-36, Partition *)
Record Partition (Ev : Type) : Type := {
  pt_memory : MemoryManager;
  pt_device_manager : DeviceManager;
  pt_cpu_manager : CpuManager;
  pt_mmio_handlers : gmap string (MmioHandler Ev);
  pt_irqchip : IoApic;
  pt_pci_address_config : Z;
  pt_vm_start_tsc : Z;
  pt_tsc_reference_gpa : option Z;
  pt_guest_os_id : Z;
  pt_guest_memory_base : option Z;
  pt_guest_memory_size : Z;
  pt_calls : list HvCall;
}.
Arguments pt_memory {Ev}.
Arguments pt_device_manager {Ev}.
Arguments pt_cpu_manager {Ev}.
Arguments pt_mmio_handlers {Ev}.
Arguments pt_irqchip {Ev}.
Arguments pt_pci_address_config {Ev}.
Arguments pt_vm_start_tsc {Ev}.
Arguments pt_tsc_reference_gpa {Ev}.
Arguments pt_guest_os_id {Ev}.
Arguments pt_guest_memory_base {Ev}.
Arguments pt_guest_memory_size {Ev}.
Arguments pt_calls {Ev}.
Arguments Build_Partition {Ev}.

Section partition.
Context {prof : Profile} {Ev : Type} `{!WinEvent Ev} `{!WhvInterruptTypes} `{!VirtioConsts}
  `{!PartitionHost} {Sdt : Type} `{!AcpiTables Sdt}.

#[local] Abbreviation P := (Partition Ev).

(** Field updates. *)
Definition pt_set_memory (m : MemoryManager) (p : P) : P :=
  {| pt_memory := m; pt_device_manager := pt_device_manager p;
     pt_cpu_manager := pt_cpu_manager p; pt_mmio_handlers := pt_mmio_handlers p;
     pt_irqchip := pt_irqchip p; pt_pci_address_config := pt_pci_address_config p;
     pt_vm_start_tsc := pt_vm_start_tsc p; pt_tsc_reference_gpa := pt_tsc_reference_gpa p;
     pt_guest_os_id := pt_guest_os_id p; pt_guest_memory_base := pt_guest_memory_base p;
     pt_guest_memory_size := pt_guest_memory_size p; pt_calls := pt_calls p |}.
Definition pt_set_managers (d : DeviceManager) (c : CpuManager) (p : P) : P :=
  {| pt_memory := pt_memory p; pt_device_manager := d;
     pt_cpu_manager := c; pt_mmio_handlers := pt_mmio_handlers p;
     pt_irqchip := pt_irqchip p; pt_pci_address_config := pt_pci_address_config p;
     pt_vm_start_tsc := pt_vm_start_tsc p; pt_tsc_reference_gpa := pt_tsc_reference_gpa p;
     pt_guest_os_id := pt_guest_os_id p; pt_guest_memory_base := pt_guest_memory_base p;
     pt_guest_memory_size := pt_guest_memory_size p; pt_calls := pt_calls p |}.
Definition pt_set_handlers (hs : gmap string (MmioHandler Ev)) (chip : IoApic) (p : P) : P :=
  {| pt_memory := pt_memory p; pt_device_manager := pt_device_manager p;
     pt_cpu_manager := pt_cpu_manager p; pt_mmio_handlers := hs;
     pt_irqchip := chip; pt_pci_address_config := pt_pci_address_config p;
     pt_vm_start_tsc := pt_vm_start_tsc p; pt_tsc_reference_gpa := pt_tsc_reference_gpa p;
     pt_guest_os_id := pt_guest_os_id p; pt_guest_memory_base := pt_guest_memory_base p;
     pt_guest_memory_size := pt_guest_memory_size p; pt_calls := pt_calls p |}.
Definition pt_set_guest_memory (base : option Z) (size : Z) (p : P) : P :=
  {| pt_memory := pt_memory p; pt_device_manager := pt_device_manager p;
     pt_cpu_manager := pt_cpu_manager p; pt_mmio_handlers := pt_mmio_handlers p;
     pt_irqchip := pt_irqchip p; pt_pci_address_config := pt_pci_address_config p;
     pt_vm_start_tsc := pt_vm_start_tsc p; pt_tsc_reference_gpa := pt_tsc_reference_gpa p;
     pt_guest_os_id := pt_guest_os_id p; pt_guest_memory_base := base;
     pt_guest_memory_size := size; pt_calls := pt_calls p |}.
Definition pt_set_guest_state (pci : Z) (tsc : option Z) (os_id : Z) (p : P) : P :=
  {| pt_memory := pt_memory p; pt_device_manager := pt_device_manager p;
     pt_cpu_manager := pt_cpu_manager p; pt_mmio_handlers := pt_mmio_handlers p;
     pt_irqchip := pt_irqchip p; pt_pci_address_config := pci;
     pt_vm_start_tsc := pt_vm_start_tsc p; pt_tsc_reference_gpa := tsc;
     pt_guest_os_id := os_id; pt_guest_memory_base := pt_guest_memory_base p;
     pt_guest_memory_size := pt_guest_memory_size p; pt_calls := pt_calls p |}.

Definition pt_log (c : HvCall) (p : P) : P :=
  {| pt_memory := pt_memory p; pt_device_manager := pt_device_manager p;
     pt_cpu_manager := pt_cpu_manager p; pt_mmio_handlers := pt_mmio_handlers p;
     pt_irqchip := pt_irqchip p; pt_pci_address_config := pt_pci_address_config p;
     pt_vm_start_tsc := pt_vm_start_tsc p; pt_tsc_reference_gpa := pt_tsc_reference_gpa p;
     pt_guest_os_id := pt_guest_os_id p; pt_guest_memory_base := pt_guest_memory_base p;
     pt_guest_memory_size := pt_guest_memory_size p; pt_calls := pt_calls p ++ [c] |}.

(** ** Construction *)

(** A call that acquires something when it succeeds. *)
Definition hv_call (result : out string unit) (c : HvCall) : M P string unit :=
  _ ← lift result;
  modify (pt_log c).

(** [tsc] is the time stamp counter of the host, [now] its clock.  The state is
    the log of the calls: while the function runs there is no partition that a
    failure would drop. *)
(* src/partition.rs:44-68, Partition::new *)
Definition partition_new (tsc now memory_size : Z) : M (list HvCall) string P :=
  _ ← lift WHvCreatePartition;
  _ ← modify (fun log => log ++ [CallCreatePartition]);
  _ ← lift WHvEmulatorCreateEmulator;
  _ ← modify (fun log => log ++ [CallCreateEmulator]);
  device_manager ← lift (device_manager_new memory_size);
  let device_manager := device_manager_init (S:=Sdt) now device_manager in
  log ← gets id;
  mret {| pt_memory := mm_new; pt_device_manager := device_manager;
          pt_cpu_manager := cpu_manager_new; pt_mmio_handlers := ∅;
          pt_irqchip := ioapic_new; pt_pci_address_config := 0; pt_vm_start_tsc := tsc;
          pt_tsc_reference_gpa := None; pt_guest_os_id := 0;
          pt_guest_memory_base := None; pt_guest_memory_size := 0; pt_calls := log |}.

(* src/partition.rs:70-85, Partition::configure *)
Definition partition_configure (processor_count : Z) : M P string unit :=
  _ ← lift (WHvSetProcessorCount processor_count);
  modify (fun p => pt_set_managers (pt_device_manager p)
                     (set_cpu_count processor_count (pt_cpu_manager p)) p).

(* src/partition.rs:116-151, Partition::setup *)
Definition partition_setup : M P string unit :=
  _ ← lift (WHvSetLocalApicEmulationMode 1);
  _ ← lift (WHvSetCpuidExitList
        [0x40000000; 0x40000001; 0x40000002; 0x40000003; 0x40000004; 0x40000005]);
  hv_call WHvSetupPartition CallSetupPartition.

(* src/partition.rs:153-158, Partition::create_vp *)
Definition create_vp (vp_id : Z) : M P string unit :=
  hv_call (WHvCreateVirtualProcessor vp_id) (CallCreateVp vp_id).

Definition register_ram (gpa size hpa : Z) (p : P) : P :=
  pt_set_memory (mm_register_region (pt_memory p)
    {| mr_gpa := gpa; mr_size := size; mr_perms := PERM_RWX; mr_hpa := Some hpa |}) p.

(* src/partition.rs:170-222, Partition::allocate_memory_with_size *)
Definition allocate_memory_with_size (total_memory flags : Z) : M P string unit :=
  let source := VirtualAlloc total_memory in
  if source =? 0 then throw "Failed to allocate memory"%string
  else
    _ ← modify (pt_log (CallAlloc source total_memory));
    _ ← modify (pt_set_guest_memory (Some source) total_memory);
    if total_memory <=? MEM_32BIT_RESERVED_START then
      _ ← hv_call (WHvMapGpaRange source 0 total_memory (perms_to_flags flags))
            (CallMap source 0 total_memory);
      modify (register_ram 0 total_memory source)
    else
      let low_size := MEM_32BIT_DEVICES_START in
      _ ← hv_call (WHvMapGpaRange source 0 low_size (perms_to_flags flags))
            (CallMap source 0 low_size);
      _ ← modify (register_ram 0 low_size source);
      let gpa := RAM_64BIT_START in
      size ← lift (usub 64 total_memory low_size);
      let high_source := source + low_size in
      _ ← hv_call (WHvMapGpaRange high_source gpa size (perms_to_flags flags))
            (CallMap high_source gpa size);
      modify (register_ram gpa size high_source).

(** ** Guest memory *)

(* src/partition.rs:224-226, Partition::write_code *)
Definition partition_write_code (p : P) (code : list Z) (gpa : Z) : M hostmem string unit :=
  write_guest_memory (pt_memory p) code gpa.

(** Nothing calls the next two; [fs_read] and the register come from the host. *)
(* src/partition.rs:229-234, Partition::load_file *)
Definition partition_load_file (fs_read : string -> out string (list Z)) (p : P)
    (file_path : string) (gpa : Z) : M hostmem string Z :=
  data ← lift (fs_read file_path);
  _ ← partition_write_code p data gpa;
  mret (zlen data).

(* src/partition.rs:242-254, Partition::verify_rip *)
Definition partition_verify_rip (WHvGetVirtualProcessorRegisters : Z -> out string Z) (vp_id : Z) :
    out string Z :=
  WHvGetVirtualProcessorRegisters vp_id.

(** The text of the access violation is not kept. *)
(* src/partition.rs:278-301, Partition::read_memory *)
Definition partition_read_memory (p : P) (hm : hostmem) (gpa : Z) (size : nat) :
    out string (list Z) :=
  hpa ← mm_checked_range (pt_memory p) gpa (Z.of_nat size) PERM_READ
          "Read exceeds allocated memory" "Memory access violation";
  Ok (host_read hm hpa size).

(** [max] of the ends, 0 when there is no region. *)
Fixpoint region_ends {E} (rs : list MemoryRegion) : out E (list Z) :=
  match rs with
  | [] => Ok []
  | r :: rs' => e ← uadd 64 (mr_gpa r) (mr_size r); es ← region_ends rs'; Ok (e :: es)
  end.

(* src/partition.rs:374-379, Partition::get_memory_size *)
Definition get_memory_size {E} (mm : MemoryManager) : out E Z :=
  ends ← region_ends (mm_regions mm);
  Ok (foldr Z.max 0 ends).

(** ** MMIO windows *)

(** The two loops of [register_mmio_region]: the first overlap is an error.
    The addresses in the messages are not kept.  [&&] evaluates its right side
    only when the left one holds; the calls it skips have no effect. *)
Fixpoint check_ram_overlap (gpa mmio_end : Z) (rs : list MemoryRegion) : out string unit :=
  match rs with
  | [] => Ok tt
  | r :: rs' =>
      last ← region_last_addr r;
      if (gpa <? last) && (mr_gpa r <? mmio_end)
      then Err "MMIO region overlaps with memory region"%string
      else check_ram_overlap gpa mmio_end rs'
  end.

Fixpoint check_mmio_overlap (gpa mmio_end : Z) (ms : list MmioRegion) : out string unit :=
  match ms with
  | [] => Ok tt
  | m :: ms' =>
      existing_end ← uadd 64 (mmio_gpa m) (mmio_size m);
      if (gpa <? existing_end) && (mmio_gpa m <? mmio_end)
      then Err "MMIO region overlaps with existing MMIO region"%string
      else check_mmio_overlap gpa mmio_end ms'
  end.

(* src/partition.rs:304-339, Partition::register_mmio_region *)
Definition register_mmio_region (gpa size : Z) (name : string) (handler_name : option string) :
    M P string unit :=
  p ← gets id;
  mmio_end ← lift (ok_or (checked_add 64 gpa size) "MMIO region size overflow"%string);
  _ ← lift (check_ram_overlap gpa mmio_end (mm_regions (pt_memory p)));
  _ ← lift (check_mmio_overlap gpa mmio_end (mm_mmio_regions (pt_memory p)));
  modify (pt_set_memory (mm_register_mmio (pt_memory p)
    {| mmio_gpa := gpa; mmio_size := size; mmio_name := name; mmio_handler := handler_name |})).

(* src/partition.rs:342-344, Partition::register_mmio_handler *)
Definition register_mmio_handler (name : string) (handler : MmioHandler Ev) : M P string unit :=
  modify (fun p => pt_set_handlers (<[name := handler]> (pt_mmio_handlers p)) (pt_irqchip p) p).

(** ** Access to the handlers *)

Section transport.
Context {D : Type} `{!VirtioDevice D}.

(** The transport locks the shared controller: it works on [chip] and the
    result is the controller again. *)
Definition transport_write (offset : Z) (data : list Z)
    (st : MmioTransport D IoApic Ev * IoApic) :
    out string unit * (MmioTransport D IoApic Ev * IoApic) :=
  let t := set_interrupt (it_set_intc st.2 (mt_interrupt st.1)) st.1 in
  let '(o, t') := mmio_write offset data t in
  (o, (t', it_intc (mt_interrupt t'))).

End transport.

(** [BusDevice::read] of the handlers; none of them changes on a read but the
    controller. *)
(* src/device_manager.rs:91-94, PciEcamHandler::read *)
Definition handler_read (h : MmioHandler Ev) (offset : Z) (data : list Z) :
    M IoApic string (list Z) :=
  match h with
  | IoApicMmioAdapter => ioapic_read offset data
  | PciEcamHandler => mret (replicate (length data) 0xff)
  | BlockTransport t => mret (mmio_read t offset data)
  | RngTransport t => mret (mmio_read t offset data)
  | ConsoleTransport t => mret (mmio_read t offset data)
  | NetTransport t => mret (mmio_read t offset data)
  end.

(* src/devices/legacy/ioapic.rs:457-459, IoApicMmioAdapter::write *)
Definition handler_write (offset : Z) (data : list Z) (st : MmioHandler Ev * IoApic) :
    out string unit * (MmioHandler Ev * IoApic) :=
  match st.1 with
  | IoApicMmioAdapter =>
      let '(o, chip) := ioapic_write offset data st.2 in (o, (IoApicMmioAdapter, chip))
  | PciEcamHandler => (Ok tt, st)
  | BlockTransport t =>
      let '(o, (t', chip)) := transport_write offset data (t, st.2) in (o, (BlockTransport t', chip))
  | RngTransport t =>
      let '(o, (t', chip)) := transport_write offset data (t, st.2) in (o, (RngTransport t', chip))
  | ConsoleTransport t =>
      let '(o, (t', chip)) := transport_write offset data (t, st.2) in (o, (ConsoleTransport t', chip))
  | NetTransport t =>
      let '(o, (t', chip)) := transport_write offset data (t, st.2) in (o, (NetTransport t', chip))
  end.

(** ** The devices: [src/device_manager.rs] *)

(* src/device_manager.rs:22-22, VIRTIO_BLOCK_IRQ *)
Definition VIRTIO_BLOCK_IRQ : Z := 20.
(* src/device_manager.rs:23-23, VIRTIO_RNG_IRQ *)
Definition VIRTIO_RNG_IRQ : Z := 21.
(* src/device_manager.rs:24-24, VIRTIO_CONSOLE_IRQ *)
Definition VIRTIO_CONSOLE_IRQ : Z := 22.
(* src/device_manager.rs:25-25, VIRTIO_NET_IRQ *)
Definition VIRTIO_NET_IRQ : Z := 23.
(* src/device_manager.rs:252-252, DEFAULT_MAC *)
Definition DEFAULT_MAC : list Z := [0x52; 0x54; 0x00; 0x12; 0x34; 0x56].

(* src/device_manager.rs:58-80, setup_ioapic *)
Definition setup_ioapic : M P string unit :=
  _ ← modify (fun p => pt_set_handlers (pt_mmio_handlers p) ioapic_new p);
  _ ← register_mmio_region IOAPIC_START IOAPIC_SIZE "IOAPIC" (Some "ioapic"%string);
  register_mmio_handler "ioapic" IoApicMmioAdapter.

(* src/device_manager.rs:100-116, setup_pci_ecam *)
Definition setup_pci_ecam : M P string unit :=
  _ ← register_mmio_region PCI_MMCONFIG_START PCI_MMCONFIG_SIZE "PCI ECAM"
        (Some "pci_ecam"%string);
  register_mmio_handler "pci_ecam" PciEcamHandler.

(** The transport of a device: a clone of the memory manager and a handle of
    the controller. *)
Definition new_transport {D} `{!VirtioDevice D} (device : D) (irq : Z) :
    M P string (MmioTransport D IoApic Ev) :=
  p ← gets id;
  transport ← lift (map_err (fun _ => "Failed to create event"%string)
                      (mmio_new (pt_memory p) (pt_irqchip p) device));
  mret (mmio_set_irq_line irq transport).

(** The end of the four functions: the window, the handler and the entry for
    the ACPI tables. *)
Definition register_virtio (window handler_name acpi_name : string) (uid base size irq : Z)
    (handler : MmioHandler Ev) : M P string unit :=
  _ ← register_mmio_region base size window (Some handler_name);
  _ ← register_mmio_handler handler_name handler;
  modify (fun p => pt_set_managers
    (register_virtio_mmio acpi_name uid base size irq (pt_device_manager p))
    (pt_cpu_manager p) p).

(** [rootfs_exists] is the answer of [std::fs::metadata]. *)
(* src/device_manager.rs:123-170, setup_virtio_block *)
Definition setup_virtio_block (rootfs_path : string) (rootfs_exists : bool) : M P string unit :=
  let base := VIRTIO_MMIO_START in
  let size := VIRTIO_MMIO_SIZE_PER_DEVICE in
  _ ← (if rootfs_exists then mret tt else lift (create_image rootfs_path));
  img ← lift (open_image rootfs_path);
  let '(disk_size, discard_alignment, device_id) := img in
  let block_device := block_new "vda1" None CacheWriteback false SyncFull disk_size
                        discard_alignment device_id in
  transport ← new_transport block_device VIRTIO_BLOCK_IRQ;
  register_virtio "Virtio Block Device" "virtio_block" "VBLK" 1 base size VIRTIO_BLOCK_IRQ
    (BlockTransport transport).

(* src/device_manager.rs:177-204, setup_virtio_rng *)
Definition setup_virtio_rng : M P string unit :=
  let base := VIRTIO_MMIO_START + VIRTIO_MMIO_SIZE_PER_DEVICE in
  let size := VIRTIO_MMIO_SIZE_PER_DEVICE in
  transport ← new_transport rng_new VIRTIO_RNG_IRQ;
  register_virtio "Virtio RNG Device" "virtio_rng" "VRNG" 2 base size VIRTIO_RNG_IRQ
    (RngTransport transport).

(* src/device_manager.rs:211-245, setup_virtio_console *)
Definition setup_virtio_console : M P string unit :=
  let base := VIRTIO_MMIO_START + 2 * VIRTIO_MMIO_SIZE_PER_DEVICE in
  let size := VIRTIO_MMIO_SIZE_PER_DEVICE in
  transport ← new_transport (console_new 200 200) VIRTIO_CONSOLE_IRQ;
  register_virtio "Virtio Console Device" "virtio_console" "VCON" 3 base size VIRTIO_CONSOLE_IRQ
    (ConsoleTransport transport).

(* src/device_manager.rs:255-282, setup_virtio_net *)
Definition setup_virtio_net : M P string unit :=
  let base := VIRTIO_MMIO_START + 3 * VIRTIO_MMIO_SIZE_PER_DEVICE in
  let size := VIRTIO_MMIO_SIZE_PER_DEVICE in
  transport ← new_transport (net_new DEFAULT_MAC gvproxy_available) VIRTIO_NET_IRQ;
  register_virtio "Virtio Net Device" "virtio_net" "VNET" 4 base size VIRTIO_NET_IRQ
    (NetTransport transport).

(* src/device_manager.rs:33-50, register_devices *)
Definition register_devices (rootfs_path : string) (rootfs_exists : bool) : M P string unit :=
  _ ← setup_ioapic;
  _ ← setup_pci_ecam;
  _ ← setup_virtio_block rootfs_path rootfs_exists;
  _ ← setup_virtio_rng;
  _ ← setup_virtio_console;
  setup_virtio_net.

(** What [main] does with the partition before it loads the kernel, in the two
    parts between which it sets up the host's console. *)
(* src/main.rs:61-64, main *)
Definition prepare (memory_size : Z) : M P string unit :=
  _ ← partition_configure 1;
  _ ← partition_setup;
  _ ← create_vp 0;
  allocate_memory_with_size memory_size PERM_RWX.

(* src/main.rs:61-77, main *)
Definition construct (memory_size : Z) (rootfs_path : string) (rootfs_exists : bool) :
    M P string unit :=
  _ ← prepare memory_size;
  register_devices rootfs_path rootfs_exists.

(* src/main.rs:56-77, main *)
Definition assemble (tsc now memory_size : Z) (rootfs_path : string) (rootfs_exists : bool) :
    out string P :=
  p ← (partition_new tsc now memory_size []).1;
  let '(o, p') := construct memory_size rootfs_path rootfs_exists p in
  _ ← o;
  Ok p'.

End partition.

(** ** The machine as the program assembles it *)

Definition window (gpa size : Z) (name handler_name : string) : MmioRegion :=
  {| mmio_gpa := gpa; mmio_size := size; mmio_name := name; mmio_handler := Some handler_name |}.

Definition machine_windows : list MmioRegion :=
  [window IOAPIC_START IOAPIC_SIZE "IOAPIC" "ioapic";
   window PCI_MMCONFIG_START PCI_MMCONFIG_SIZE "PCI ECAM" "pci_ecam";
   window VIRTIO_MMIO_START VIRTIO_MMIO_SIZE_PER_DEVICE "Virtio Block Device" "virtio_block";
   window (VIRTIO_MMIO_START + VIRTIO_MMIO_SIZE_PER_DEVICE) VIRTIO_MMIO_SIZE_PER_DEVICE
     "Virtio RNG Device" "virtio_rng";
   window (VIRTIO_MMIO_START + 2 * VIRTIO_MMIO_SIZE_PER_DEVICE) VIRTIO_MMIO_SIZE_PER_DEVICE
     "Virtio Console Device" "virtio_console";
   window (VIRTIO_MMIO_START + 3 * VIRTIO_MMIO_SIZE_PER_DEVICE) VIRTIO_MMIO_SIZE_PER_DEVICE
     "Virtio Net Device" "virtio_net"].

Definition machine_virtio_devices : list VirtioMmioDevice :=
  zip_with (fun '(name, irq) uid =>
      {| vm_name := name; vm_uid := uid;
         vm_base_address := VIRTIO_MMIO_START + (uid - 1) * VIRTIO_MMIO_SIZE_PER_DEVICE;
         vm_size := VIRTIO_MMIO_SIZE_PER_DEVICE; vm_irq := irq |})
    [("VBLK"%string, VIRTIO_BLOCK_IRQ); ("VRNG"%string, VIRTIO_RNG_IRQ);
     ("VCON"%string, VIRTIO_CONSOLE_IRQ); ("VNET"%string, VIRTIO_NET_IRQ)] [1; 2; 3; 4].

(** The line a virtio handler raises. *)
Definition handler_irq {Ev} (h : MmioHandler Ev) : option Z :=
  match h with
  | BlockTransport t => it_irq_line (mt_interrupt t)
  | RngTransport t => it_irq_line (mt_interrupt t)
  | ConsoleTransport t => it_irq_line (mt_interrupt t)
  | NetTransport t => it_irq_line (mt_interrupt t)
  | _ => None
  end.

(** No guest address is claimed twice, and every window has its handler. *)
Record address_map_wf {Ev} (p : Partition Ev) : Prop := {
  amw_ram : mm_wf (pt_memory p);
  amw_windows i j m1 m2 :
    mm_mmio_regions (pt_memory p) !! i = Some m1 -> mm_mmio_regions (pt_memory p) !! j = Some m2 ->
    i <> j -> ranges_disjoint (mmio_gpa m1) (mmio_size m1) (mmio_gpa m2) (mmio_size m2);
  amw_ram_windows r m :
    r ∈ mm_regions (pt_memory p) -> m ∈ mm_mmio_regions (pt_memory p) ->
    ranges_disjoint (mr_gpa r) (mr_size r) (mmio_gpa m) (mmio_size m);
  amw_handlers m :
    m ∈ mm_mmio_regions (pt_memory p) ->
    exists name, mmio_handler m = Some name /\ is_Some (pt_mmio_handlers p !! name);
}.

(** The host grants what the program asks for. *)
Record host_ready {Ev} `{!WinEvent Ev} `{!PartitionHost} (memory_size : Z) (rootfs_path : string) :
    Prop := {
  hr_partition : WHvCreatePartition = Ok tt;
  hr_emulator : WHvEmulatorCreateEmulator = Ok tt;
  hr_apic mode : WHvSetLocalApicEmulationMode mode = Ok tt;
  hr_cpuid leaves : WHvSetCpuidExitList leaves = Ok tt;
  hr_setup : WHvSetupPartition = Ok tt;
  hr_vp vp_id : WHvCreateVirtualProcessor vp_id = Ok tt;
  hr_alloc : 0 < VirtualAlloc memory_size;
  hr_map src gpa size flags : WHvMapGpaRange src gpa size flags = Ok tt;
  hr_cpus n : WHvSetProcessorCount n = Ok tt;
  hr_image : exists img, open_image rootfs_path = Ok img;
  hr_create : create_image rootfs_path = Ok tt;
  hr_event : exists e : Ev, CreateEventW = Ok e;
}.
Arguments host_ready Ev {_ _} memory_size rootfs_path.

(** ** Lemmas *)

(** The values of the layout's constants, for [lia]: the constants stay folded,
    so that conversion does not look into the arithmetic around them. *)
Ltac layout_values :=
  pose proof (eq_refl : MEM_32BIT_DEVICES_START = 0xc0000000);
  pose proof (eq_refl : MEM_32BIT_RESERVED_START = 0xfec00000);
  pose proof (eq_refl : PCI_MMCONFIG_START = 0xe8000000);
  pose proof (eq_refl : RAM_64BIT_START = 0x100000000).

Section lemmas.
Context {prof : Profile} {Ev : Type} `{!WinEvent Ev} `{!WhvInterruptTypes} `{!VirtioConsts}
  `{!PartitionHost} {Sdt : Type} `{!AcpiTables Sdt}.
Implicit Types p : Partition Ev.

Definition ram_overlap (gpa mmio_end : Z) (r : MemoryRegion) : bool :=
  (gpa <? mr_gpa r + mr_size r - 1) && (mr_gpa r <? mmio_end).
Definition window_overlap (gpa mmio_end : Z) (m : MmioRegion) : bool :=
  (gpa <? mmio_gpa m + mmio_size m) && (mmio_gpa m <? mmio_end).

Lemma check_ram_overlap_eq gpa e rs :
  Forall region_wf rs ->
  check_ram_overlap gpa e rs =
    if existsb (ram_overlap gpa e) rs then Err "MMIO region overlaps with memory region"%string
    else Ok tt.
Proof.
  induction 1 as [|r rs Hr _ IH]; [done|]. cbn [check_ram_overlap existsb].
  rewrite region_last_addr_wf by done. cbn [mbind out_bind]. rewrite IH.
  unfold ram_overlap at 2. by destruct (_ && _).
Qed.

Definition window_fits (m : MmioRegion) : Prop :=
  0 <= mmio_gpa m /\ 0 <= mmio_size m /\ mmio_gpa m + mmio_size m < 2 ^ 64.

Lemma check_mmio_overlap_eq gpa e ms :
  Forall window_fits ms ->
  check_mmio_overlap gpa e ms =
    if existsb (window_overlap gpa e) ms
    then Err "MMIO region overlaps with existing MMIO region"%string else Ok tt.
Proof.
  induction 1 as [|m ms Hm _ IH]; [done|]. cbn [check_mmio_overlap existsb].
  destruct Hm as (?&?&?). rewrite uadd_ok by lia. cbn [mbind out_bind]. rewrite IH.
  unfold window_overlap at 2. by destruct (_ && _).
Qed.

Lemma register_mmio_region_eq p gpa size name h :
  regions_wf (pt_memory p) -> Forall window_fits (mm_mmio_regions (pt_memory p)) ->
  gpa + size < 2 ^ 64 ->
  register_mmio_region gpa size name h p =
    if existsb (ram_overlap gpa (gpa + size)) (mm_regions (pt_memory p))
    then (Err "MMIO region overlaps with memory region"%string, p)
    else if existsb (window_overlap gpa (gpa + size)) (mm_mmio_regions (pt_memory p))
    then (Err "MMIO region overlaps with existing MMIO region"%string, p)
    else (Ok tt, pt_set_memory (mm_register_mmio (pt_memory p)
            {| mmio_gpa := gpa; mmio_size := size; mmio_name := name; mmio_handler := h |}) p).
Proof.
  intros Hr Hm Hb. unfold register_mmio_region, checked_add. run_St.
  rewrite (proj2 (Z.ltb_lt _ _)) by done.
  rewrite check_ram_overlap_eq by done. destruct (existsb _ (mm_regions _)); [done|].
  rewrite check_mmio_overlap_eq by done. by destruct (existsb _ (mm_mmio_regions _)).
Qed.

(** The regions [allocate_memory_with_size] registers. *)
Definition ram (gpa size hpa : Z) : MemoryRegion :=
  {| mr_gpa := gpa; mr_size := size; mr_perms := PERM_RWX; mr_hpa := Some hpa |}.

Definition ram_regions (size source : Z) : list MemoryRegion :=
  if size <=? MEM_32BIT_RESERVED_START then [ram 0 size source]
  else [ram 0 MEM_32BIT_DEVICES_START source;
        ram RAM_64BIT_START (size - MEM_32BIT_DEVICES_START) (source + MEM_32BIT_DEVICES_START)].

(** The sizes whose RAM stays clear of the windows. *)
Definition size_fits_map (size : Z) : Prop :=
  0 < size <= PCI_MMCONFIG_START \/ MEM_32BIT_RESERVED_START < size <= 2 ^ 63.

Lemma allocate_ok p size flags path :
  host_ready Ev size path -> mm_regions (pt_memory p) = [] ->
  exists p', allocate_memory_with_size size flags p = (Ok tt, p') /\
    mm_regions (pt_memory p') = ram_regions size (VirtualAlloc size) /\
    mm_mmio_regions (pt_memory p') = mm_mmio_regions (pt_memory p) /\
    pt_device_manager p' = pt_device_manager p.
Proof.
  intros Hh Hp. unfold allocate_memory_with_size, hv_call, ram_regions.
  pose proof (hr_alloc _ _ Hh). rewrite (proj2 (Z.eqb_neq _ _)) by lia. run_St.
  destruct (Z.leb_spec size MEM_32BIT_RESERVED_START) as [Hs|Hs].
  - rewrite (hr_map _ _ Hh). eexists. split; [reflexivity|]. cbn. by rewrite Hp.
  - rewrite !(hr_map _ _ Hh), usub_ok by (layout_values; lia).
    rewrite !(hr_map _ _ Hh). eexists. split; [reflexivity|]. cbn. by rewrite Hp.
Qed.

Lemma ram_regions_wf size source :
  size_fits_map size -> Forall region_wf (ram_regions size source).
Proof.
  unfold size_fits_map, ram_regions, region_wf. intros Hs. layout_values.
  case_Z; repeat constructor; cbn [ram mr_gpa mr_size]; lia.
Qed.

(** RAM and windows do not meet. *)
Lemma ram_windows_disjoint size source r m :
  size_fits_map size -> r ∈ ram_regions size source -> m ∈ machine_windows ->
  ranges_disjoint (mr_gpa r) (mr_size r) (mmio_gpa m) (mmio_size m).
Proof.
  intros Hs Hr Hm.
  assert (0xe8000000 <= mmio_gpa m /\ mmio_gpa m + mmio_size m <= 0x100000000) as Hb.
  { assert (forallb (fun m => (0xe8000000 <=? mmio_gpa m) && (mmio_gpa m + mmio_size m <=? 0x100000000))
      machine_windows = true) as Ha by (vm_compute; reflexivity).
    rewrite forallb_forall in Ha. apply list_elem_of_In in Hm. specialize (Ha m Hm). lia. }
  clear Hm. revert Hr Hs Hb. generalize (mmio_gpa m) (mmio_size m). clear m. intros a n Hr Hs Hb.
  layout_values. unfold ranges_disjoint, size_fits_map in *. unfold ram_regions in Hr.
  destruct (Z.leb_spec size MEM_32BIT_RESERVED_START).
  - apply list_elem_of_singleton in Hr as ->. unfold ram. cbn [mr_gpa mr_size]. lia.
  - apply elem_of_cons in Hr as [-> | Hr%list_elem_of_singleton]; [|subst r]; unfold ram;
      cbn [mr_gpa mr_size]; lia.
Qed.

Lemma ram_clear size source m :
  size_fits_map size -> m ∈ machine_windows ->
  existsb (ram_overlap (mmio_gpa m) (mmio_gpa m + mmio_size m)) (ram_regions size source) = false.
Proof.
  intros Hs Hm. apply Bool.not_true_iff_false. intros Ho%List.existsb_exists.
  destruct Ho as (r & Hr & Ho). apply list_elem_of_In in Hr.
  pose proof (ram_windows_disjoint size source r m Hs Hr Hm) as Hd.
  unfold ranges_disjoint in Hd. unfold ram_overlap in Ho. lia.
Qed.

(** The windows among themselves, by evaluation. *)
Lemma windows_clear k m :
  machine_windows !! k = Some m ->
  window_fits m /\
  existsb (window_overlap (mmio_gpa m) (mmio_gpa m + mmio_size m)) (take k machine_windows) = false.
Proof.
  intros Hk. do 6 (destruct k as [|k]; [injection Hk as <-; vm_compute; intuition congruence|]).
  done.
Qed.

Lemma windows_disjoint i j m1 m2 :
  machine_windows !! i = Some m1 -> machine_windows !! j = Some m2 -> i <> j ->
  ranges_disjoint (mmio_gpa m1) (mmio_size m1) (mmio_gpa m2) (mmio_size m2).
Proof.
  intros Hi Hj Hne. unfold ranges_disjoint.
  do 6 (destruct i as [|i]; [injection Hi as <-;
    do 6 (destruct j as [|j]; [injection Hj as <-; cbn; try done; vm_compute; intuition congruence|]);
    done|]). done.
Qed.

(** The machine with its first [k] windows. *)
Record assembling (rs : list MemoryRegion) (k : nat) p : Prop := {
  as_ram : mm_regions (pt_memory p) = rs;
  as_windows : mm_mmio_regions (pt_memory p) = take k machine_windows;
  as_handlers m : m ∈ take k machine_windows ->
    exists name, mmio_handler m = Some name /\ is_Some (pt_mmio_handlers p !! name);
}.

Lemma register_window_ok size source k p m name :
  size_fits_map size -> assembling (ram_regions size source) k p ->
  machine_windows !! k = Some m -> mmio_handler m = Some name ->
  exists p',
    register_mmio_region (mmio_gpa m) (mmio_size m) (mmio_name m) (Some name) p = (Ok tt, p') /\
    p' = pt_set_memory (mm_register_mmio (pt_memory p) m) p /\
    forall h, assembling (ram_regions size source) (S k)
      (pt_set_handlers (<[name := h]> (pt_mmio_handlers p')) (pt_irqchip p') p').
Proof.
  intros Hs [Hr Hw Hh] Hk Hn. eexists. split_and!; [|reflexivity|].
  - destruct (windows_clear k m Hk) as [(Hf1&Hf2&Hf3) Hc].
    rewrite register_mmio_region_eq.
    + rewrite Hr, Hw, ram_clear, Hc by (done || by eapply list_elem_of_lookup_2).
      by destruct m as [????]; cbn in *; subst.
    + unfold regions_wf. rewrite Hr. by apply ram_regions_wf.
    + rewrite Hw. apply Forall_take, Forall_forall. intros m' [i Hi]%list_elem_of_lookup.
      by destruct (windows_clear i m' Hi).
    + done.
  - intros h. split; cbn [pt_memory pt_mmio_handlers pt_set_handlers pt_set_memory
      mm_register_mmio mm_regions mm_mmio_regions]; [done| |].
    + rewrite Hw. symmetry. by apply take_S_r.
    + intros m' Hm'. rewrite (take_S_r _ _ m) in Hm' by done.
      apply elem_of_app in Hm' as [Hm'|Hm'].
      * destruct (Hh m' Hm') as (n' & Hn' & Hi). exists n'. split; [done|].
        destruct (decide (n' = name)) as [->|]; [by rewrite lookup_insert_eq|].
        by rewrite lookup_insert_ne.
      * apply list_elem_of_singleton in Hm' as ->. exists name.
        by rewrite lookup_insert_eq.
Qed.

(** A fresh transport raises the line it is given. *)
Lemma new_transport_ok {D} `{!VirtioDevice D} (d : D) irq p size path :
  host_ready Ev size path -> vd_is_activated d = false ->
  exists t, new_transport d irq p = (Ok t, p) /\ it_irq_line (mt_interrupt t) = Some irq.
Proof.
  intros Hh Hd. destruct (hr_event _ _ Hh) as [e He].
  assert (forall n, exists es, create_queue_evts n = Ok es) as Hevts.
  { intros n. induction n as [|n [es IH]]; [by eexists|]. cbn [create_queue_evts].
    unfold event_new. rewrite He, IH. cbn. by eexists. }
  unfold new_transport, mmio_new. run_St.
  destruct (Hevts (length (vd_queue_config d))) as [es ->].
  unfold it_new, event_new. rewrite He. eexists. split; [reflexivity|].
  unfold mmio_set_irq_line. cbn [mt_device mt_interrupt set_interrupt]. by rewrite Hd.
Qed.

(** One virtio device: window, handler and ACPI entry. *)
Lemma register_virtio_ok size source k p m name acpi uid irq h :
  size_fits_map size -> assembling (ram_regions size source) k p ->
  machine_windows !! k = Some m -> mmio_handler m = Some name ->
  exists p', register_virtio (mmio_name m) name acpi uid (mmio_gpa m) (mmio_size m) irq h p
      = (Ok tt, p') /\
    assembling (ram_regions size source) (S k) p' /\
    pt_mmio_handlers p' = <[name := h]> (pt_mmio_handlers p) /\
    dm_virtio_mmio_devices (pt_device_manager p') =
      dm_virtio_mmio_devices (pt_device_manager p) ++
      [{| vm_name := acpi; vm_uid := uid; vm_base_address := mmio_gpa m;
          vm_size := mmio_size m; vm_irq := irq |}] /\
    dm_pci_segments (pt_device_manager p') = dm_pci_segments (pt_device_manager p).
Proof.
  intros Hs Ha Hk Hn.
  destruct (register_window_ok size source k p m name Hs Ha Hk Hn) as (p1 & Hr & Hp1 & Hnext).
  unfold register_virtio. unfold mbind at 1, M_bind at 1. rewrite Hr.
  unfold register_mmio_handler. run_St. eexists. split; [reflexivity|].
  destruct (Hnext h) as [A B C]. split_and!; subst p1; [|done..].
  split; [exact A|exact B|exact C].
Qed.

(** The four devices, each with its line. *)
Lemma setup_platform_ok size p :
  size_fits_map size -> assembling (ram_regions size (VirtualAlloc size)) 0 p ->
  exists p1 p2, setup_ioapic p = (Ok tt, p1) /\ setup_pci_ecam p1 = (Ok tt, p2) /\
    assembling (ram_regions size (VirtualAlloc size)) 2 p2 /\
    pt_device_manager p2 = pt_device_manager p.
Proof.
  intros Hs Ha. set (p0 := pt_set_handlers (pt_mmio_handlers p) ioapic_new p).
  assert (assembling (ram_regions size (VirtualAlloc size)) 0 p0) as Ha0.
  { destruct Ha as [A B C]. split; [exact A|exact B|exact C]. }
  destruct (register_window_ok size _ 0 p0 _ "ioapic" Hs Ha0 eq_refl eq_refl) as (p1 & R1 & E1 & A1).
  specialize (A1 IoApicMmioAdapter).
  destruct (register_window_ok size _ 1 _ _ "pci_ecam" Hs A1 eq_refl eq_refl) as (p2 & R2 & E2 & A2).
  specialize (A2 PciEcamHandler). unfold window in *. cbn [mmio_gpa mmio_size mmio_name] in R1, R2.
  eexists _, _. split_and!; [..|exact A2|].
  - unfold setup_ioapic. run_St. fold p0. by rewrite R1.
  - unfold setup_pci_ecam. unfold mbind at 1, M_bind at 1. by rewrite R2.
  - by subst p2 p1 p0.
Qed.

Lemma setup_devices_ok size p path ex :
  size_fits_map size -> host_ready Ev size path ->
  assembling (ram_regions size (VirtualAlloc size)) 0 p ->
  dm_virtio_mmio_devices (pt_device_manager p) = [] ->
  exists p' b r c n,
    register_devices path ex p = (Ok tt, p') /\
    assembling (ram_regions size (VirtualAlloc size)) 6 p' /\
    dm_virtio_mmio_devices (pt_device_manager p') = machine_virtio_devices /\
    dm_pci_segments (pt_device_manager p') = dm_pci_segments (pt_device_manager p) /\
    (pt_mmio_handlers p' !! "virtio_block"%string = Some b /\ handler_irq b = Some VIRTIO_BLOCK_IRQ) /\
    (pt_mmio_handlers p' !! "virtio_rng"%string = Some r /\ handler_irq r = Some VIRTIO_RNG_IRQ) /\
    (pt_mmio_handlers p' !! "virtio_console"%string = Some c /\
     handler_irq c = Some VIRTIO_CONSOLE_IRQ) /\
    (pt_mmio_handlers p' !! "virtio_net"%string = Some n /\ handler_irq n = Some VIRTIO_NET_IRQ).
Proof.
  intros Hs Hh Ha Hd.
  destruct (setup_platform_ok size p Hs Ha) as (p2 & p3 & S1 & S2 & A2 & E3).
  destruct (hr_image _ _ Hh) as [[[dsize align] id] Hi].
  destruct (new_transport_ok (block_new "vda1" None CacheWriteback false SyncFull dsize align id)
    VIRTIO_BLOCK_IRQ p3 size path Hh) as (tb & Nb & Ib);
    [reflexivity|].
  destruct (register_virtio_ok size _ 2 p3 _ "virtio_block" "VBLK" 1 VIRTIO_BLOCK_IRQ
    (BlockTransport tb) Hs A2 eq_refl eq_refl) as (p4 & R4 & A4 & H4 & D4 & G4).
  destruct (new_transport_ok rng_new VIRTIO_RNG_IRQ p4 size path Hh) as (tr & Nr & Ir);
    [reflexivity|].
  destruct (register_virtio_ok size _ 3 p4 _ "virtio_rng" "VRNG" 2 VIRTIO_RNG_IRQ
    (RngTransport tr) Hs A4 eq_refl eq_refl) as (p5 & R5 & A5 & H5 & D5 & G5).
  destruct (new_transport_ok (console_new 200 200) VIRTIO_CONSOLE_IRQ p5 size path Hh) as (tc & Nc & Ic);
    [reflexivity|].
  destruct (register_virtio_ok size _ 4 p5 _ "virtio_console" "VCON" 3 VIRTIO_CONSOLE_IRQ
    (ConsoleTransport tc) Hs A5 eq_refl eq_refl) as (p6 & R6 & A6 & H6 & D6 & G6).
  destruct (new_transport_ok (net_new DEFAULT_MAC gvproxy_available) VIRTIO_NET_IRQ p6 size path Hh) as (tn & Nn & In_);
    [reflexivity|].
  destruct (register_virtio_ok size _ 5 p6 _ "virtio_net" "VNET" 4 VIRTIO_NET_IRQ
    (NetTransport tn) Hs A6 eq_refl eq_refl) as (p7 & R7 & A7 & H7 & D7 & G7).
  unfold window in *.
  cbn [mmio_gpa mmio_size mmio_name] in R4, R5, R6, R7, D4, D5, D6, D7.
  exists p7, (BlockTransport tb), (RngTransport tr), (ConsoleTransport tc), (NetTransport tn).
  split_and!; [|exact A7| | |rewrite H7, H6, H5, H4; by simpl_map|exact Ib
    |rewrite H7, H6, H5; by simpl_map|exact Ir|rewrite H7, H6; by simpl_map|exact Ic
    |rewrite H7; by simpl_map|exact In_].
  - unfold register_devices.
    assert (setup_virtio_block path ex p3 = (Ok tt, p4)) as S3.
    { unfold setup_virtio_block. destruct ex; run_St; rewrite ?(hr_create _ _ Hh), Hi;
        cbv beta iota; rewrite Nb; exact R4. }
    unfold mbind, M_bind. rewrite S1, S2, S3.
    unfold setup_virtio_rng, mbind, M_bind. rewrite Nr. rewrite R5.
    unfold setup_virtio_console, mbind, M_bind. rewrite Nc. rewrite R6.
    unfold setup_virtio_net, mbind, M_bind. rewrite Nn. exact R7.
  - by rewrite D7, D6, D5, D4, E3, Hd.
  - by rewrite G7, G6, G5, G4, E3.
Qed.

(** The machine [main] assembles, by its parts. *)
Lemma assemble_ok tsc now size path ex :
  size_fits_map size -> host_ready Ev size path ->
  exists p b r c n,
    assemble (Ev:=Ev) (Sdt:=Sdt) tsc now size path ex = Ok p /\
    assembling (ram_regions size (VirtualAlloc size)) 6 p /\
    dm_virtio_mmio_devices (pt_device_manager p) = machine_virtio_devices /\
    map ps_start_of_mem64_area (dm_pci_segments (pt_device_manager p)) = [size + 1] /\
    (pt_mmio_handlers p !! "virtio_block"%string = Some b /\ handler_irq b = Some VIRTIO_BLOCK_IRQ) /\
    (pt_mmio_handlers p !! "virtio_rng"%string = Some r /\ handler_irq r = Some VIRTIO_RNG_IRQ) /\
    (pt_mmio_handlers p !! "virtio_console"%string = Some c /\
     handler_irq c = Some VIRTIO_CONSOLE_IRQ) /\
    (pt_mmio_handlers p !! "virtio_net"%string = Some n /\ handler_irq n = Some VIRTIO_NET_IRQ).
Proof.
  intros Hs Hh. unfold assemble, partition_new, device_manager_new.
  rewrite uadd_ok by (unfold size_fits_map in Hs; layout_values; lia). run_St.
  rewrite (hr_partition _ _ Hh), (hr_emulator _ _ Hh). cbn [fst].
  unfold construct, prepare, partition_configure, partition_setup, create_vp, hv_call. run_St.
  rewrite (hr_cpus _ _ Hh), (hr_apic _ _ Hh), (hr_cpuid _ _ Hh), (hr_setup _ _ Hh), (hr_vp _ _ Hh).
  match goal with |- context [allocate_memory_with_size _ _ ?q] =>
    destruct (allocate_ok q size PERM_RWX path Hh eq_refl) as (p1 & -> & Hr & Hm & Hd) end.
  destruct (setup_devices_ok size p1 path ex Hs Hh) as (p2 & b & r & c & n & -> & Ha & Hdv & Hseg & Hd').
  - split; [done|exact Hm|]. intros m Hm'. by apply elem_of_nil in Hm'.
  - by rewrite Hd.
  - exists p2, b, r, c, n. split_and!; [reflexivity|done|done| |apply Hd'..].
    rewrite Hseg, Hd. reflexivity.
Qed.

Lemma assembling_map_wf size p :
  size_fits_map size -> 0 < VirtualAlloc size ->
  assembling (ram_regions size (VirtualAlloc size)) 6 p -> address_map_wf p.
Proof.
  intros Hs Hv [Hr Hm Hh]. change (take 6 machine_windows) with machine_windows in *.
  split; rewrite ?Hr, ?Hm; [|apply windows_disjoint| |done].
  - split; unfold regions_wf; rewrite ?Hr; [by apply ram_regions_wf|..];
      unfold ram_regions, size_fits_map in *; layout_values; case_Z;
      intros [|[|i]] [|[|j]]; cbn [lookup list_lookup]; intros; simplify_eq;
      unfold ranges_disjoint; cbn [ram mr_gpa mr_size mr_hpa] in *; simplify_eq; lia.
  - intros r m. by apply ram_windows_disjoint.
Qed.

End lemmas.

(** ** Properties *)

(** C4: the machine that the program assembles has a sound address map.  For
    every memory size whose RAM stays clear of the device window, and a host
    that grants the resources, allocation and registration succeed; RAM
    regions and the six MMIO windows are pairwise disjoint, every window has a
    registered handler, RAM adds up to the requested size, and each virtio
    device announced in ACPI has its window at the announced address and a
    handler that raises the announced interrupt line. *)
Theorem machine_assembles {prof : Profile} {Ev} `{!WinEvent Ev} `{!WhvInterruptTypes}
    `{!VirtioConsts} `{!PartitionHost} {Sdt} `{!AcpiTables Sdt} tsc now size path ex :
  size_fits_map size -> host_ready Ev size path ->
  exists p, assemble (Ev:=Ev) (Sdt:=Sdt) tsc now size path ex = Ok p /\
    address_map_wf p /\
    mm_mmio_regions (pt_memory p) = machine_windows /\
    foldr Z.add 0 (map mr_size (mm_regions (pt_memory p))) = size /\
    (forall d, d ∈ dm_virtio_mmio_devices (pt_device_manager p) ->
       exists m name h, m ∈ mm_mmio_regions (pt_memory p) /\ mmio_handler m = Some name /\
         mmio_gpa m = vm_base_address d /\ mmio_size m = vm_size d /\
         pt_mmio_handlers p !! name = Some h /\ handler_irq h = Some (vm_irq d)).
Proof.
  intros Hs Hh.
  destruct (assemble_ok (Sdt:=Sdt) tsc now size path ex Hs Hh)
    as (p & b & r & c & n & Hp & Ha & Hd & _ & Hb & Hr & Hc & Hn).
  exists p. split_and!; [done|by eapply assembling_map_wf, Ha; [|apply (hr_alloc _ _ Hh)]|by destruct Ha| |].
  - destruct Ha as [-> _ _]. unfold ram_regions. case_Z; cbn [map foldr ram mr_size]; lia.
  - rewrite Hd. assert (mm_mmio_regions (pt_memory p) = machine_windows) as -> by by destruct Ha.
    intros d Hin. unfold machine_virtio_devices in Hin. cbn [zip_with] in Hin.
    repeat apply elem_of_cons in Hin as [-> | Hin]; [..|by apply elem_of_nil in Hin];
      cbn [vm_base_address vm_size vm_irq].
    + eexists _, _, b. split_and!; [apply (list_elem_of_lookup_2 _ 2); reflexivity|reflexivity..|apply Hb|apply Hb].
    + eexists _, _, r. split_and!; [apply (list_elem_of_lookup_2 _ 3); reflexivity|reflexivity..|apply Hr|apply Hr].
    + eexists _, _, c. split_and!; [apply (list_elem_of_lookup_2 _ 4); reflexivity|reflexivity..|apply Hc|apply Hc].
    + eexists _, _, n. split_and!; [apply (list_elem_of_lookup_2 _ 5); reflexivity|reflexivity..|apply Hn|apply Hn].
Qed.

(** Registering an MMIO window, on every branch.  A window that runs past
    the 64-bit space, that meets a RAM region in an address other than the
    region's last, or that meets an earlier window is refused and nothing
    changes; otherwise it is appended.  The last address of a RAM region is
    the exception: the check compares with the inclusive last address, so a
    window that starts there is accepted. *)
Theorem register_mmio_region_outcomes {prof : Profile} {Ev} (p : Partition Ev) gpa size name h :
  regions_wf (pt_memory p) -> Forall window_fits (mm_mmio_regions (pt_memory p)) ->
  0 <= gpa -> 0 < size ->
  let result := register_mmio_region gpa size name h p in
  let accepted := {| mmio_gpa := gpa; mmio_size := size; mmio_name := name; mmio_handler := h |} in
  (gpa + size < 2 ^ 64 ->
   Forall (fun r => ranges_disjoint (mr_gpa r) (mr_size r - 1) gpa size) (mm_regions (pt_memory p)) ->
   Forall (fun m => ranges_disjoint (mmio_gpa m) (mmio_size m) gpa size)
     (mm_mmio_regions (pt_memory p)) ->
   result = (Ok tt, pt_set_memory (mm_register_mmio (pt_memory p) accepted) p)) /\
  (2 ^ 64 <= gpa + size \/
   Exists (fun r => ~ ranges_disjoint (mr_gpa r) (mr_size r - 1) gpa size)
     (mm_regions (pt_memory p)) \/
   Exists (fun m => 0 < mmio_size m /\ ~ ranges_disjoint (mmio_gpa m) (mmio_size m) gpa size)
     (mm_mmio_regions (pt_memory p)) ->
   exists e, result = (Err e, p)).
Proof.
  intros Hr Hm Hg Hsz result accepted. subst result accepted. split.
  - intros Hb Hdr Hdm. rewrite register_mmio_region_eq by done.
    destruct (existsb _ (mm_regions _)) eqn:E1.
    { apply List.existsb_exists in E1 as (r & Hin%list_elem_of_In & Ho).
      rewrite Forall_forall in Hdr. specialize (Hdr r Hin).
      unfold ranges_disjoint in Hdr. unfold ram_overlap in Ho. lia. }
    destruct (existsb _ (mm_mmio_regions _)) eqn:E2; [|done].
    apply List.existsb_exists in E2 as (m & Hin%list_elem_of_In & Ho).
    rewrite Forall_forall in Hdm. specialize (Hdm m Hin).
    unfold ranges_disjoint in Hdm. unfold window_overlap in Ho. lia.
  - intros Hbad. destruct (decide (gpa + size < 2 ^ 64)) as [Hb|Hb].
    + rewrite register_mmio_region_eq by done.
      destruct (existsb _ (mm_regions _)) eqn:E1; [by eexists|].
      destruct (existsb _ (mm_mmio_regions _)) eqn:E2; [by eexists|]. exfalso.
      destruct Hbad as [?|[Hx|Hx]]; [lia|..];
        apply Exists_exists in Hx as (x & Hin%list_elem_of_In & Hx).
      * apply Bool.not_true_iff_false in E1. apply E1, List.existsb_exists. exists x.
        split; [done|]. unfold ram_overlap, ranges_disjoint in *. lia.
      * apply Bool.not_true_iff_false in E2. apply E2, List.existsb_exists. exists x.
        split; [done|]. unfold window_overlap, ranges_disjoint in *. lia.
    + unfold register_mmio_region, checked_add. run_St.
      rewrite (proj2 (Z.ltb_ge _ _)) by lia. by eexists.
Qed.

(** The 64-bit PCI window announced in ACPI starts behind the memory size,
    not behind RAM: with 4 GiB of memory or more, RAM is moved up by a gigabyte
    around the device hole and the window overlaps its last gigabyte. *)
Theorem pci_window_overlaps_high_ram {prof : Profile} {Ev} `{!WinEvent Ev} `{!WhvInterruptTypes}
    `{!VirtioConsts} `{!PartitionHost} {Sdt} `{!AcpiTables Sdt} tsc now size path ex :
  RAM_64BIT_START <= size <= 2 ^ 63 -> host_ready Ev size path ->
  exists p s r, assemble (Ev:=Ev) (Sdt:=Sdt) tsc now size path ex = Ok p /\
    s ∈ dm_pci_segments (pt_device_manager p) /\ r ∈ mm_regions (pt_memory p) /\
    region_contains r (ps_start_of_mem64_area s) /\
    mr_gpa r + mr_size r - ps_start_of_mem64_area s = 2 ^ 30 - 1.
Proof.
  intros Hs Hh. assert (MEM_32BIT_RESERVED_START < size <= 2 ^ 63) as Hs' by (layout_values; lia).
  destruct (assemble_ok (Sdt:=Sdt) tsc now size path ex (or_intror Hs') Hh)
    as (p & b & r & c & n & Hp & [Hram _ _] & _ & Hseg & _).
  destruct (dm_pci_segments (pt_device_manager p)) as [|s [|]] eqn:Es; try done.
  injection Hseg as Hseg. unfold ram_regions in Hram.
  rewrite (proj2 (Z.leb_gt _ _)) in Hram by lia.
  exists p, s, (ram RAM_64BIT_START (size - MEM_32BIT_DEVICES_START)
    (VirtualAlloc size + MEM_32BIT_DEVICES_START)). rewrite Hram.
  rewrite Es. split_and!; [done|by apply list_elem_of_singleton
    |apply elem_of_cons; right; by apply list_elem_of_singleton| |];
    unfold region_contains; cbn [ram mr_gpa mr_size]; layout_values; lia.
Qed.

(** ** Witnesses *)

Definition example_host : PartitionHost :=
  {| WHvCreatePartition := Ok tt; WHvEmulatorCreateEmulator := Ok tt;
     WHvSetLocalApicEmulationMode _ := Ok tt; WHvSetCpuidExitList _ := Ok tt;
     WHvSetupPartition := Ok tt; WHvCreateVirtualProcessor _ := Ok tt;
     VirtualAlloc _ := 0x7f0000000000; WHvMapGpaRange _ _ _ _ := Ok tt;
     WHvSetProcessorCount _ := Ok tt; WHvMapGpaRangeFlagRead := 1; WHvMapGpaRangeFlagWrite := 2;
     WHvMapGpaRangeFlagExecute := 4; create_image _ := Ok tt;
     open_image _ := Ok (0x40000000, 512, None); gvproxy_available := true |}.

(** An event that counts its signals. *)
Definition example_event : WinEvent nat :=
  {| CreateEventW := Ok O; SetEvent n := Ok (S n); WaitForSingleObject n _ := (WAIT_OBJECT_0, n) |}.

Lemma example_host_ready size path :
  @host_ready nat example_event example_host size path.
Proof. split; try done; by eexists. Qed.

Lemma machine_assembles_witness :
  exists p, assemble (prof:=dev_profile) (Ev:=nat) (WinEvent0:=example_event) (H1:=example_host)
      (Sdt:=list Z) 17 0 0x140000000 "rootfs.img" true = Ok p /\ address_map_wf p.
Proof.
  destruct (machine_assembles (prof:=dev_profile) (Ev:=nat) (WinEvent0:=example_event)
    (H1:=example_host) (Sdt:=list Z) 17 0 0x140000000 "rootfs.img" true) as (p & Hp & Hw & _).
  - right. split; vm_compute; congruence.
  - apply example_host_ready.
  - exists p. by split.
Defined.

Definition example_partition : Partition nat :=
  pt_set_memory example_mm
    {| pt_memory := mm_new; pt_device_manager := example_device_manager;
       pt_cpu_manager := cpu_manager_new; pt_mmio_handlers := ∅; pt_irqchip := ioapic_new;
       pt_pci_address_config := 0; pt_vm_start_tsc := 0; pt_tsc_reference_gpa := None;
       pt_guest_os_id := 0; pt_guest_memory_base := None; pt_guest_memory_size := 0;
       pt_calls := [] |}.

Lemma register_mmio_region_outcomes_witness :
  fst (register_mmio_region (prof:=dev_profile) 69631 4096 "at the last byte of RAM" None
         example_partition) = Ok tt /\
  exists e, register_mmio_region (prof:=dev_profile) 69630 4096 "before it" None
              example_partition = (Err e, example_partition).
Proof.
  split.
  - destruct (register_mmio_region_outcomes (prof:=dev_profile) example_partition 69631 4096
      "at the last byte of RAM" None) as [Hok _].
    + apply (mm_wf_regions _ example_mm_wf).
    + constructor.
    + lia.
    + lia.
    + rewrite Hok; [done|lia|..]; [|constructor].
      constructor; [|constructor]. unfold ranges_disjoint; cbn; lia.
  - destruct (register_mmio_region_outcomes (prof:=dev_profile) example_partition 69630 4096
      "before it" None) as [_ Herr].
    + apply (mm_wf_regions _ example_mm_wf).
    + constructor.
    + lia.
    + lia.
    + apply Herr. right; left. constructor. unfold ranges_disjoint; cbn; lia.
Defined.

Lemma pci_window_overlaps_high_ram_witness :
  exists p s r, assemble (prof:=dev_profile) (Ev:=nat) (WinEvent0:=example_event) (H1:=example_host)
      (Sdt:=list Z) 17 0 0x140000000 "rootfs.img" true = Ok p /\
    s ∈ dm_pci_segments (pt_device_manager p) /\ r ∈ mm_regions (pt_memory p) /\
    region_contains r (ps_start_of_mem64_area s).
Proof.
  destruct (pci_window_overlaps_high_ram (prof:=dev_profile) (Ev:=nat) (WinEvent0:=example_event)
    (H1:=example_host) (Sdt:=list Z) 17 0 0x140000000 "rootfs.img" true)
    as (p & s & r & Hp & Hs & Hr & Hc & _).
  - split; vm_compute; congruence.
  - apply example_host_ready.
  - exists p, s, r. by split_and!.
Defined.
