(* ===== verification/Emulator.v ===== *)
(** * Emulator: the instruction emulator's handle and the processor's registers

    The part of [src/emulator.rs] between the emulator of the hypervisor and
    the partition that is not a device access (those are in [Vm]): the handle,
    the two entry points, and the callbacks that read and write registers and
    translate addresses for the emulator. *)

From S2P Require Import Prelude.

(** The calls of the hypervisor, on a host state [W]; a register call on names
    and a buffer of values, an error as its code.  A failed call may have
    written to its outputs. *)
Class EmulatorApi (W Name Value Context Status : Type) : Type := {
  create_emulator : W -> option Z * Z * W;
  emulate_io : Z -> Context -> W -> (Status + Z) * W;
  emulate_mmio : Z -> Context -> W -> (Status + Z) * W;
  get_registers : Z -> Z -> list Name -> list Value -> W -> option Z * list Value * W;
  set_registers : Z -> Z -> list Name -> list Value -> W -> option Z * W;
  (** handle, processor, address, flags: the result code and the address *)
  translate_gva : Z -> Z -> Z -> Z -> W -> (Z * Z + Z) * W;
}.

(** [HRESULT]: success, [ERROR_INTERNAL_ERROR], the code of an error. *)
Inductive HCode : Type := H_OK | H_INTERNAL_ERROR | H_CODE (code : Z).

(* src/emulator.rs:14-16, Emulator *)
Record Emulator : Type := { em_handle : Z }.

Section emulator.
Context {W Name Value Context Status : Type} `{!EmulatorApi W Name Value Context Status}.

(* src/emulator.rs:19-43, Emulator::new *)
Definition emulator_new : M W string Emulator := fun w =>
  let '(error, handle, w) := create_emulator w in
  match error with
  | None => if negb (handle =? 0) then (Ok {| em_handle := handle |}, w)
            else (Err "Failed to create WHV Emulator"%string, w)
  | Some _ => (Err "Failed to create WHV Emulator"%string, w)
  end.

(* src/emulator.rs:147-161, Emulator::try_io_emulation *)
Definition emulator_try_io (em : Emulator) (ctx : Context) : M W string Status := fun w =>
  if em_handle em =? 0 then (Err "Emulator handle is null"%string, w)
  else
    match emulate_io (em_handle em) ctx w with
    | (inl status, w') => (Ok status, w')
    | (inr _, w') => (Err "WHvEmulatorTryIoEmulation failed"%string, w')
    end.

(* src/emulator.rs:163-177, Emulator::try_mmio_emulation *)
Definition emulator_try_mmio (em : Emulator) (ctx : Context) : M W string Status := fun w =>
  if em_handle em =? 0 then (Err "Emulator handle is null"%string, w)
  else
    match emulate_mmio (em_handle em) ctx w with
    | (inl status, w') => (Ok status, w')
    | (inr _, w') => (Err "WHvEmulatorTryMmioEmulation failed"%string, w')
    end.

(** ** The callbacks, for the partition's handle

    The only processor is the one with index 0. *)

(* src/emulator.rs:240-261, Emulator::get_vp_registers_callback *)
Definition get_vp_registers_callback (partition : Z) (names : list Name) (values : list Value) (w : W) :
    HCode * list Value * W :=
  let '(error, values', w') := get_registers partition 0 names values w in
  (if error then H_INTERNAL_ERROR else H_OK, values', w').

(* src/emulator.rs:263-281, Emulator::set_vp_registers_callback *)
Definition set_vp_registers_callback (partition : Z) (names : list Name) (values : list Value) (w : W) :
    HCode * W :=
  let '(error, w') := set_registers partition 0 names values w in
  (if error then H_INTERNAL_ERROR else H_OK, w').

(** The outputs [result_code] and [page_address] are written on success only;
    success of the call is not success of the translation, whose result code
    is handed on. *)
(* src/emulator.rs:283-314, Emulator::translate_gva_page_callback *)
Definition translate_gva_page_callback (partition gva flags : Z) (out : Z * Z) (w : W) :
    HCode * (Z * Z) * W :=
  match translate_gva partition 0 gva flags w with
  | (inl (code, gpa), w') => (H_OK, (code, gpa), w')
  | (inr e, w') => (H_CODE e, out, w')
  end.

(** ** What the emulator relies on *)

(** An emulator that [new] returned has a handle, so that the entry points
    always reach the hypervisor and answer as it does. *)
Lemma new_emulator_is_usable w em w' :
  emulator_new w = (Ok em, w') ->
  em_handle em <> 0 /\
  (forall ctx v, (emulator_try_io em ctx v).2 = (emulate_io (em_handle em) ctx v).2) /\
  (forall ctx v, (emulator_try_mmio em ctx v).2 = (emulate_mmio (em_handle em) ctx v).2).
Proof.
  unfold emulator_new. destruct (create_emulator w) as [[[e|] handle] w1]; [done|].
  destruct (Z.eqb_spec handle 0) as [|Hh]; cbn [negb]; [done|]. intros [= <- <-].
  cbn [em_handle]. split; [done|]. unfold emulator_try_io, emulator_try_mmio. cbn [em_handle].
  rewrite (proj2 (Z.eqb_neq _ _)) by done.
  split; intros ctx v; by case_match; case_match.
Qed.

(** A translation that fails leaves the emulator's outputs alone. *)
Lemma failed_translation_keeps_outputs partition gva flags out w :
  (translate_gva_page_callback partition gva flags out w).1.1 <> H_OK ->
  (translate_gva_page_callback partition gva flags out w).1.2 = out.
Proof. unfold translate_gva_page_callback. by destruct (translate_gva _ _ _ _ w) as [[[]|] ?]. Qed.

End emulator.
