(* ===== verification/Vm.v ===== *)
(** * Vm: the processor loop, [src/vm.rs] and [src/emulator.rs]

    The exits of the virtual processor and the callbacks of the instruction
    emulator: port and memory accesses are routed to the devices, CPUID and the
    Hyper-V model-specific registers are answered.  The hypervisor's emulator
    decodes the instruction and calls back: it is a higher-order parameter. *)

From S2P Require Import Prelude Bytes HostMem GuestMem Queue Irqchip Bus VirtioDev Mmio Layout Acpi Partition.

(** ** State *)

(** Registers of the virtual processor that the program writes. *)
Inductive VpReg : Type := VpRax | VpRbx | VpRcx | VpRdx | VpRip.

(** The partition, guest memory, the statics of [emulator.rs] and [vm.rs], and
    the calls made to the hypervisor: register writes and fixed interrupts, in
    order. *)
(* src/emulator.rs:9-12, DUMMY_RTC_TIME / DUMMY_RTC_COUNTER / INTERNAL_COUNTER *)
Record Vm (Ev : Type) : Type := {
  v_partition : Partition Ev;
  v_memory : hostmem;
  v_rtc_time : Z;
  v_rtc_counter : Z;
  v_internal_counter : Z;
  v_last_interrupt : Z;
  v_tsc_invariant_control : Z;
  v_registers : list (list (VpReg * Z));
  v_interrupts : list Z;
}.
Arguments v_partition {Ev}.
Arguments v_memory {Ev}.
Arguments v_rtc_time {Ev}.
Arguments v_rtc_counter {Ev}.
Arguments v_internal_counter {Ev}.
Arguments v_last_interrupt {Ev}.
Arguments v_tsc_invariant_control {Ev}.
Arguments v_registers {Ev}.
Arguments v_interrupts {Ev}.
Arguments Build_Vm {Ev}.

(** [ERROR_INVALID_PARAMETER], [ERROR_NOT_FOUND] as [HRESULT]s. *)
Inductive HResult : Type := S_OK | E_INVALID_PARAMETER | E_NOT_FOUND.

(** [WHV_EMULATOR_IO_ACCESS_INFO] *)
Record IoAccess : Type := { io_port : Z; io_direction : Z; io_size : Z; io_data : Z }.
Definition io_set_data (d : Z) (a : IoAccess) : IoAccess :=
  {| io_port := io_port a; io_direction := io_direction a; io_size := io_size a; io_data := d |}.

(** [WHV_EMULATOR_MEMORY_ACCESS_INFO]; the data is an array of 8 bytes. *)
Record MemoryAccess : Type := { ma_gpa : Z; ma_direction : Z; ma_size : Z; ma_data : list Z }.
Definition ma_set_data (d : list Z) (a : MemoryAccess) : MemoryAccess :=
  {| ma_gpa := ma_gpa a; ma_direction := ma_direction a; ma_size := ma_size a; ma_data := d |}.

(** ** The host *)

(** The instruction emulator runs the callback on a state of any type and
    returns its status word; the clocks and the CPUID of the host. *)
Class VmHost : Type := {
  try_io_emulation {S} : (IoAccess -> M S string (HResult * IoAccess)) -> M S string Z;
  try_mmio_emulation {S} : (MemoryAccess -> M S string (HResult * MemoryAccess)) -> M S string Z;
  WHvSetVirtualProcessorRegisters : list (VpReg * Z) -> out string unit;
  (** nanoseconds on the monotonic clock, milliseconds since the epoch *)
  host_now : Z;
  host_now_ms : Z;
  (** nanoseconds since the first read of the time reference counter *)
  host_elapsed : Z;
  (** EAX, EBX, ECX of leaf 0x15, EAX of leaf 0x16 *)
  host_cpuid15 : Z * Z * Z;
  host_cpuid16 : Z;
}.

Section vm.
Context {prof : Profile} {Ev : Type} `{!WinEvent Ev} `{!WhvInterruptTypes} `{!VirtioConsts}
  `{!VmHost}.

#[local] Abbreviation V := (Vm Ev).

Definition v_set_partition (p : Partition Ev) (v : V) : V :=
  {| v_partition := p; v_memory := v_memory v; v_rtc_time := v_rtc_time v;
     v_rtc_counter := v_rtc_counter v; v_internal_counter := v_internal_counter v;
     v_last_interrupt := v_last_interrupt v;
     v_tsc_invariant_control := v_tsc_invariant_control v; v_registers := v_registers v;
     v_interrupts := v_interrupts v |}.
Definition v_set_memory (hm : hostmem) (v : V) : V :=
  {| v_partition := v_partition v; v_memory := hm; v_rtc_time := v_rtc_time v;
     v_rtc_counter := v_rtc_counter v; v_internal_counter := v_internal_counter v;
     v_last_interrupt := v_last_interrupt v;
     v_tsc_invariant_control := v_tsc_invariant_control v; v_registers := v_registers v;
     v_interrupts := v_interrupts v |}.
Definition v_set_counters (t c i : Z) (v : V) : V :=
  {| v_partition := v_partition v; v_memory := v_memory v; v_rtc_time := t;
     v_rtc_counter := c; v_internal_counter := i;
     v_last_interrupt := v_last_interrupt v;
     v_tsc_invariant_control := v_tsc_invariant_control v; v_registers := v_registers v;
     v_interrupts := v_interrupts v |}.
Definition v_set_tsc_control (x : Z) (v : V) : V :=
  {| v_partition := v_partition v; v_memory := v_memory v; v_rtc_time := v_rtc_time v;
     v_rtc_counter := v_rtc_counter v; v_internal_counter := v_internal_counter v;
     v_last_interrupt := v_last_interrupt v;
     v_tsc_invariant_control := x; v_registers := v_registers v;
     v_interrupts := v_interrupts v |}.
Definition v_log_registers (rs : list (VpReg * Z)) (v : V) : V :=
  {| v_partition := v_partition v; v_memory := v_memory v; v_rtc_time := v_rtc_time v;
     v_rtc_counter := v_rtc_counter v; v_internal_counter := v_internal_counter v;
     v_last_interrupt := v_last_interrupt v;
     v_tsc_invariant_control := v_tsc_invariant_control v; v_registers := v_registers v ++ [rs];
     v_interrupts := v_interrupts v |}.
Definition v_log_interrupt (now vector : Z) (v : V) : V :=
  {| v_partition := v_partition v; v_memory := v_memory v; v_rtc_time := v_rtc_time v;
     v_rtc_counter := v_rtc_counter v; v_internal_counter := v_internal_counter v;
     v_last_interrupt := now;
     v_tsc_invariant_control := v_tsc_invariant_control v; v_registers := v_registers v;
     v_interrupts := v_interrupts v ++ [vector] |}.

Definition set_registers (rs : list (VpReg * Z)) : M V string unit :=
  _ ← lift (WHvSetVirtualProcessorRegisters rs);
  modify (v_log_registers rs).

(** ** The emulator's callbacks: [src/emulator.rs] *)

Definition v_set_pci_address (x : Z) (v : V) : V :=
  let p := v_partition v in
  v_set_partition (pt_set_guest_state x (pt_tsc_reference_gpa p) (pt_guest_os_id p) p) v.

(** The only device of the port bus is the ACPI timer; it has the trait's
    empty [write]. *)
Definition io_bus_read (v : V) (port : Z) (data : list Z) : M V string (list Z * bool) :=
  bus_read (fun d _ _ data => mret (pm_timer_read host_now d data))
    (dm_io_bus (pt_device_manager (v_partition v))) 0 port data.
Definition io_bus_write (v : V) (port : Z) (data : list Z) : M V string bool :=
  bus_write (fun _ _ _ _ => mret tt)
    (dm_io_bus (pt_device_manager (v_partition v))) 0 port data.

(* src/emulator.rs:63-79, Emulator::io_port_callback *)
Definition io_port_out (a : IoAccess) : M V string (HResult * IoAccess) :=
  v ← gets id;
  if io_port a =? 0xcf8 then _ ← modify (v_set_pci_address (io_data a)); mret (S_OK, a)
  else
    let size := Z.to_nat (Z.min (io_size a) 4) in
    _ ← io_bus_write v (io_port a) (take size (le_bytes 4 (io_data a)));
    mret (S_OK, a).

(* src/emulator.rs:80-141, Emulator::io_port_callback *)
Definition io_port_in (a : IoAccess) : M V string (HResult * IoAccess) :=
  v ← gets id;
  let port := io_port a in
  if port =? 43 then mret (S_OK, io_set_data 99 a)
  else if (port =? 0x40) || (port =? 0x43) then
    let counter := wadd 64 (v_rtc_counter v) 1 in
    let time := if counter mod 100 =? 0 then wadd 64 (v_rtc_time v) 1 else v_rtc_time v in
    _ ← modify (v_set_counters time counter (v_internal_counter v));
    mret (S_OK, io_set_data (wrap 32 time) a)
  else if port =? 0x61 then
    let counter := wadd 64 (v_internal_counter v) 1 in
    _ ← modify (v_set_counters (v_rtc_time v) (v_rtc_counter v) counter);
    let bit4 := Z.shiftl (Z.land (Z.shiftr counter 7) 1) 4 in
    let bit5 := Z.shiftl (Z.land (Z.shiftr counter 6) 1) 5 in
    mret (S_OK, io_set_data (wrap 32 (Z.lor bit4 bit5)) a)
  else if (port =? 0x70) || (port =? 0x71) then mret (S_OK, io_set_data 0 a)
  else if port =? 0xcf8 then
    mret (S_OK, io_set_data (pt_pci_address_config (v_partition v)) a)
  else if port =? 0xcfc then mret (S_OK, io_set_data 0xffffffff a)
  else
    let size := Z.to_nat (Z.min (io_size a) 4) in
    r ← io_bus_read v port (replicate size 0);
    let '(data, found) := r in
    mret (S_OK, io_set_data (if found : bool then le_val (data ++ replicate (4 - size) 0) else 0) a).

(* src/emulator.rs:45-145, Emulator::io_port_callback *)
Definition io_port_callback (a : IoAccess) : M V string (HResult * IoAccess) :=
  if io_direction a =? 1 then io_port_out a else io_port_in a.

(** Run an operation of a handler on the partition: the handler is in the map
    under its name, the controller is shared. *)
Definition with_handler_read (h : MmioHandler Ev) (offset : Z) (data : list Z) :
    M (Partition Ev) string (list Z) :=
  zoom pt_irqchip (fun chip p => pt_set_handlers (pt_mmio_handlers p) chip p)
    (handler_read h offset data).

Definition with_handler_write (name : string) (h : MmioHandler Ev) (offset : Z) (data : list Z) :
    M (Partition Ev) string unit :=
  fun p =>
    let '(o, (h', chip)) := handler_write offset data (h, pt_irqchip p) in
    (o, pt_set_handlers (<[name := h']> (pt_mmio_handlers p)) chip p).

(* src/emulator.rs:179-238, Emulator::memory_callback *)
Definition memory_callback (a : MemoryAccess) : M (Partition Ev) string (HResult * MemoryAccess) :=
  p ← gets id;
  region ← lift (mm_find_mmio (pt_memory p) (ma_gpa a));
  match region with
  | None => mret (E_NOT_FOUND, a)
  | Some mmio_region =>
      let offset := ma_gpa a - mmio_gpa mmio_region in
      match mmio_handler mmio_region with
      | None => mret (E_NOT_FOUND, a)
      | Some handler_name =>
          match pt_mmio_handlers p !! handler_name with
          | None => mret (E_NOT_FOUND, a)
          | Some handler =>
              let size := Z.to_nat (ma_size a) in
              if ma_direction a =? 0 then
                if (length (ma_data a) <? size)%nat then lift Panic
                else
                  data ← with_handler_read handler offset (take size (ma_data a));
                  mret (S_OK, ma_set_data (data ++ drop size (ma_data a)) a)
              else if ma_direction a =? 1 then
                if (length (ma_data a) <? size)%nat then lift Panic
                else
                  _ ← with_handler_write handler_name handler offset (take size (ma_data a));
                  mret (S_OK, a)
              else mret (E_INVALID_PARAMETER, a)
          end
      end
  end.

(** ** Exits: [src/vm.rs] *)

(** The exit reason, with the fields of its context that the code reads.  A
    reason is named by the constant it is compared with. *)
Inductive VmExit : Type :=
| ExitNone
| ExitMemoryAccess (access_info gpa : Z)
| ExitIoPortAccess
| ExitException
| ExitUnrecoverableException
| ExitInvalidVpRegisterValue
| ExitUnsupportedFeature
| ExitInterruptWindow
| ExitHalt
| ExitCanceled
| ExitApicEoi (vector : Z)
| ExitCpuid (rax default_rax default_rbx default_rcx default_rdx : Z)
| ExitMsrAccess (msr_number access_info rax rdx : Z)
| ExitOther (code : Z).

Record ExitContext : Type := { ec_exit : VmExit; ec_rip : Z; ec_bitfield : Z }.

Definition ascii4 (s : string) : Z :=
  le_val (map (fun c => Z.of_N (Ascii.N_of_ascii c)) (String.list_ascii_of_string s)).

(* src/vm.rs:227-267, Partition::handle_cpuid *)
Definition cpuid_result (leaf : Z) (default : Z * Z * Z * Z) : Z * Z * Z * Z :=
  if leaf =? 0x40000000 then (0x40000005, ascii4 "Micr", ascii4 "osof", ascii4 "t Hv")
  else if leaf =? 0x40000001 then (ascii4 "Hv#1", 0, 0, 0)
  else if leaf =? 0x40000002 then (0, Z.lor (Z.shiftl 10 16) 0, 0, 0)
  else if leaf =? 0x40000003 then
    (Z.lor (Z.lor (Z.shiftl 1 1) (Z.shiftl 1 9)) (Z.shiftl 1 15), 0, 0, 0)
  else if (leaf =? 0x40000004) || (leaf =? 0x40000005) then (0, 0, 0, 0)
  else default.

(* src/vm.rs:218-299, Partition::handle_cpuid *)
Definition handle_cpuid (ctx : ExitContext) (leaf : Z) (default : Z * Z * Z * Z) : M V string bool :=
  let '(rax, rbx, rcx, rdx) := cpuid_result leaf default in
  next_rip ← lift (uadd 64 (ec_rip ctx) (Z.land (ec_bitfield ctx) 0x0f));
  _ ← set_registers [(VpRax, rax); (VpRbx, rbx); (VpRcx, rcx); (VpRdx, rdx); (VpRip, next_rip)];
  mret true.

(* src/vm.rs:384-403, Partition::advance_rip *)
Definition advance_rip (rip instruction_length : Z) : M V string unit :=
  new_rip ← lift (uadd 64 rip instruction_length);
  set_registers [(VpRip, new_rip)].

(* src/vm.rs:407-422, Partition::get_tsc_frequency_hz *)
Definition get_tsc_frequency_hz : Z :=
  let '(eax, ebx, ecx) := host_cpuid15 in
  if negb (eax =? 0) && negb (ebx =? 0) && negb (ecx =? 0) then wrap 64 (ecx * ebx) / eax
  else if negb (host_cpuid16 =? 0) then host_cpuid16 * 1000000
  else 2712000000.

(** The arithmetic on [u128] cannot overflow; a frequency of 0 divides by zero
    and the negation of the least [i64] overflows. *)
(* src/vm.rs:429-440, Partition::write_tsc_reference_page *)
Definition tsc_reference_page (tsc_freq vm_start_tsc : Z) : out string (list Z) :=
  if tsc_freq =? 0 then Panic
  else
    let tsc_scale := wrap 64 (Z.shiftl 10000000 64 / tsc_freq) in
    let elapsed := signed 64 (wrap 64 (Z.shiftr (vm_start_tsc * tsc_scale) 64)) in
    if (elapsed =? - 2 ^ 63) && overflow_checks then Panic
    else
      let tsc_offset := - elapsed in
      let page := replicate (Z.to_nat 4096) 0 in
      let page := splice 0 (le_bytes 4 1) page in
      let page := splice 8 (le_bytes 8 tsc_scale) page in
      Ok (splice 16 (le_bytes 8 tsc_offset) page).

(* src/vm.rs:428-453, Partition::write_tsc_reference_page *)
Definition write_tsc_reference_page (gpa : Z) : M V string unit :=
  v ← gets id;
  page ← lift (tsc_reference_page get_tsc_frequency_hz (pt_vm_start_tsc (v_partition v)));
  zoom v_memory v_set_memory (write_guest_memory (pt_memory (v_partition v)) page gpa).

Definition v_set_tsc_gpa (g : option Z) (v : V) : V :=
  let p := v_partition v in
  v_set_partition (pt_set_guest_state (pt_pci_address_config p) g (pt_guest_os_id p) p) v.
Definition v_set_guest_os_id (x : Z) (v : V) : V :=
  let p := v_partition v in
  v_set_partition (pt_set_guest_state (pt_pci_address_config p) (pt_tsc_reference_gpa p) x p) v.

(** A 64-bit register of two halves. *)
Definition msr_join (rax rdx : Z) : Z :=
  Z.lor (wrap 64 (Z.shiftl rdx 32)) (Z.land rax 0xffffffff).
Definition msr_split (x : Z) : Z * Z := (Z.land x 0xffffffff, Z.shiftr x 32).

(** The result is what a read returns in RAX and RDX. *)
(* src/vm.rs:310-361, Partition::handle_msr_access *)
Definition msr_access (msr_number : Z) (is_write : bool) (in_rax in_rdx : Z) :
    M V string (Z * Z) :=
  v ← gets id;
  if msr_number =? 0x40000000 then
    if is_write then _ ← modify (v_set_guest_os_id (msr_join in_rax in_rdx)); mret (0, 0)
    else mret (msr_split (pt_guest_os_id (v_partition v)))
  else if msr_number =? 0x40000001 then mret (if is_write then 0 else 1, 0)
  else if msr_number =? 0x40000020 then
    let ticks := host_elapsed / 100 in
    mret (wrap 64 (Z.land ticks 0xffffffff), wrap 64 (Z.land (Z.shiftr ticks 32) 0xffffffff))
  else if msr_number =? 0x40000021 then
    if is_write then
      let msr_value := msr_join in_rax in_rdx in
      if negb (Z.land msr_value 1 =? 0) then
        let gpa := Z.land msr_value (wnot 64 0xfff) in
        _ ← write_tsc_reference_page gpa;
        _ ← modify (v_set_tsc_gpa (Some gpa));
        mret (0, 0)
      else _ ← modify (v_set_tsc_gpa None); mret (0, 0)
    else
      match pt_tsc_reference_gpa (v_partition v) with
      | Some gpa => mret (msr_split (Z.lor gpa 1))
      | None => mret (0, 0)
      end
  else if msr_number =? 0x40000118 then
    if is_write then _ ← modify (v_set_tsc_control (msr_join in_rax in_rdx)); mret (0, 0)
    else mret (msr_split (v_tsc_invariant_control v))
  else mret (0, 0).

(* src/vm.rs:302-381, Partition::handle_msr_access *)
Definition handle_msr_access (ctx : ExitContext) (msr_number access_info in_rax in_rdx : Z) :
    M V string bool :=
  let is_write := negb (Z.land access_info 1 =? 0) in
  r ← msr_access msr_number is_write in_rax in_rdx;
  let '(rax, rdx) := r in
  _ ← (if is_write then mret tt else set_registers [(VpRax, rax); (VpRdx, rdx)]);
  _ ← advance_rip (ec_rip ctx) (Z.land (ec_bitfield ctx) 0x0f);
  mret true.

(** The result of the request is dropped. *)
(* src/vm.rs:188-215, Partition::handle_interrupt_window *)
Definition handle_interrupt_window : M V string bool :=
  v ← gets id;
  let last_time := v_last_interrupt v in
  let since := Z.max 0 (host_now_ms - last_time) in
  _ ← (if (1 <=? since) || (last_time =? 0) then modify (v_log_interrupt host_now_ms 0x20) else mret tt);
  mret true.

Definition emulated_bit (status : Z) : bool := Z.land status 1 =? 1.

(** Run a callback that only needs the partition on the whole state. *)
Definition on_partition {A} (m : M (Partition Ev) string A) : M V string A :=
  zoom v_partition v_set_partition m.

(* src/vm.rs:174-185, Partition::handle_io_port *)
Definition handle_io_port : M V string bool :=
  status ← try_io_emulation io_port_callback;
  mret (emulated_bit status).

(* src/vm.rs:102-129, Partition::handle_exit *)
Definition handle_memory_access (access_info gpa rip : Z) : M V string bool :=
  v ← gets id;
  violation ← lift (ok_or (mav_from_exit_context true access_info gpa rip)
                      "Failed to extract memory access violation"%string);
  window ← lift (mm_find_mmio (pt_memory (v_partition v)) (mav_gpa violation));
  match window with
  | Some _ =>
      status ← Mtry (try_mmio_emulation (fun a => on_partition (memory_callback a))
                       : M V string Z);
      mret (match status with inl status => emulated_bit status | inr _ => false end)
  | None =>
      _ ← lift (mm_find_region (pt_memory (v_partition v)) (mav_gpa violation));
      mret false
  end.

(* src/vm.rs:151-159, Partition::handle_exit *)
Definition handle_apic_eoi (vector : Z) : M V string bool :=
  v ← gets id;
  _ ← (match pt_mmio_handlers (v_partition v) !! "ioapic"%string with
       | Some handler =>
           on_partition (with_handler_write "ioapic" handler 0x40 (le_bytes 4 (wrap 32 vector)))
       | None => mret tt
       end);
  mret true.

(* src/vm.rs:96-171, Partition::handle_exit *)
Definition handle_exit (ctx : ExitContext) : M V string bool :=
  match ec_exit ctx with
  | ExitNone => mret false
  | ExitMemoryAccess access_info gpa => handle_memory_access access_info gpa (ec_rip ctx)
  | ExitIoPortAccess => handle_io_port
  | ExitException | ExitUnrecoverableException | ExitInvalidVpRegisterValue
  | ExitUnsupportedFeature => mret false
  | ExitInterruptWindow => handle_interrupt_window
  | ExitHalt => mret true
  | ExitCanceled => mret false
  | ExitApicEoi vector => handle_apic_eoi vector
  | ExitCpuid rax d_rax d_rbx d_rcx d_rdx => handle_cpuid ctx rax (d_rax, d_rbx, d_rcx, d_rdx)
  | ExitMsrAccess msr_number access_info rax rdx =>
      handle_msr_access ctx msr_number access_info rax rdx
  | ExitOther _ => mret false
  end.

(** ** The loop *)

(** Why the loop ended; [RanOut] has no counterpart in the program: the list
    of turns given to the model is used up while the machine still runs. *)
Inductive StopReason : Type :=
| StoppedByUser | RunFailed (e : string) | GuestStopped | ExitFailed (e : string) | RanOut.

(** One turn: whether the running flag is set when it is tested, and what
    [WHvRunVirtualProcessor] returns.  The counters of the loop only feed the
    log. *)
(* src/vm.rs:16-87, run *)
Fixpoint vm_run (turns : list (bool * (ExitContext + string))) : M V string StopReason :=
  match turns with
  | [] => mret RanOut
  | (running, exit_context) :: turns' =>
      if negb running then mret StoppedByUser
      else
        match exit_context with
        | inr e => mret (RunFailed e)
        | inl ctx =>
            r ← Mtry (handle_exit ctx : M V string bool);
            match r with
            | inl true => vm_run turns'
            | inl false => mret GuestStopped
            | inr e => mret (ExitFailed e)
            end
        end
  end.

End vm.

(** ** Lemmas *)

Definition window_contains (m : MmioRegion) (gpa : Z) : Prop :=
  mmio_gpa m <= gpa < mmio_gpa m + mmio_size m.
#[export] Instance window_contains_dec m gpa : Decision (window_contains m gpa).
Proof. unfold window_contains. apply _. Defined.

Section lemmas.
Context {prof : Profile} {Ev : Type} `{!WinEvent Ev} `{!WhvInterruptTypes} `{!VirtioConsts}.

Lemma find_mmio_in_ok {E} ms gpa :
  Forall window_fits ms ->
  find_mmio_in (E:=E) ms gpa = Ok (snd <$> list_find (fun m => window_contains m gpa) ms).
Proof.
  induction 1 as [|m ms (?&?&?) _ IH]; [done|]. cbn [find_mmio_in list_find].
  rewrite uadd_ok by done. cbn [mbind out_bind]. rewrite IH.
  destruct (decide (window_contains m gpa)) as [Hc|Hc]; unfold window_contains in Hc.
  - by rewrite (proj2 (Z.leb_le _ _)), (proj2 (Z.ltb_lt _ _)) by lia.
  - destruct (list_find _ ms) as [[??]|]; repeat case_Z; cbn; try done; lia.
Qed.

Lemma find_mmio_unique {E} (p : Partition Ev) m gpa :
  address_map_wf p -> Forall window_fits (mm_mmio_regions (pt_memory p)) ->
  m ∈ mm_mmio_regions (pt_memory p) -> window_contains m gpa ->
  mm_find_mmio (E:=E) (pt_memory p) gpa = Ok (Some m).
Proof.
  intros Hwf Hf Hin Hc. unfold mm_find_mmio. rewrite find_mmio_in_ok by done. do 2 f_equal.
  destruct (list_find _ _) as [[j m']|] eqn:Ef.
  - apply list_find_Some in Ef as (Hj & Hc' & _). cbn. f_equal.
    apply list_elem_of_lookup in Hin as [i Hi].
    destruct (decide (i = j)) as [->|Hne]; [congruence|].
    pose proof (amw_windows _ Hwf _ _ _ _ Hi Hj Hne) as Hd.
    unfold ranges_disjoint, window_contains in *. lia.
  - apply list_find_None in Ef. rewrite Forall_forall in Ef. by destruct (Ef m Hin).
Qed.

End lemmas.

(** ** Properties *)

(** C14: the guest's memory accesses reach the device they name.  In a machine
    with a sound address map, an access of up to eight bytes inside a window
    runs the window's handler, and only it, at the offset into the window: a
    write hands over exactly the bytes of the access and replaces that handler
    and the shared interrupt controller; a read returns the bytes the handler
    produces, followed by the untouched rest of the buffer, and changes no
    handler.  An access outside every window is refused and changes nothing. *)
Theorem guest_access_reaches_device {prof : Profile} {Ev} `{!WinEvent Ev} `{!WhvInterruptTypes}
    `{!VirtioConsts} (p : Partition Ev) (a : MemoryAccess) :
  address_map_wf p -> Forall window_fits (mm_mmio_regions (pt_memory p)) ->
  length (ma_data a) = 8%nat -> 0 <= ma_size a <= 8 ->
  let bytes := take (Z.to_nat (ma_size a)) (ma_data a) in
  (forall m name h, m ∈ mm_mmio_regions (pt_memory p) -> window_contains m (ma_gpa a) ->
     mmio_handler m = Some name -> pt_mmio_handlers p !! name = Some h ->
     (ma_direction a = 1 ->
      forall h' chip, handler_write (ma_gpa a - mmio_gpa m) bytes (h, pt_irqchip p)
          = (Ok tt, (h', chip)) ->
        exists p', memory_callback a p = (Ok (S_OK, a), p') /\
          pt_irqchip p' = chip /\ pt_mmio_handlers p' !! name = Some h' /\
          (forall other, other <> name ->
             pt_mmio_handlers p' !! other = pt_mmio_handlers p !! other) /\
          pt_memory p' = pt_memory p) /\
     (ma_direction a = 0 ->
      forall data chip, handler_read h (ma_gpa a - mmio_gpa m) bytes (pt_irqchip p)
          = (Ok data, chip) ->
        exists p', memory_callback a p =
            (Ok (S_OK, ma_set_data (data ++ drop (Z.to_nat (ma_size a)) (ma_data a)) a), p') /\
          pt_irqchip p' = chip /\ pt_mmio_handlers p' = pt_mmio_handlers p /\
          pt_memory p' = pt_memory p)) /\
  (Forall (fun m => ~ window_contains m (ma_gpa a)) (mm_mmio_regions (pt_memory p)) ->
   memory_callback a p = (Ok (E_NOT_FOUND, a), p)).
Proof.
  intros Hwf Hf Hlen Hsz bytes. split.
  - intros m name h Hin Hc Hn Hh.
    assert ((length (ma_data a) <? Z.to_nat (ma_size a))%nat = false) as Hle
      by (apply Nat.ltb_ge; lia).
    split.
    + intros Hd h' chip Hw. unfold memory_callback. run_St.
      rewrite (find_mmio_unique p m) by done. cbv beta iota. rewrite Hn, Hh, Hle, Hd.
      change (1 =? 0) with false. change (1 =? 1) with true. cbv beta iota.
      unfold with_handler_write. fold bytes. rewrite Hw.
      eexists. split; [reflexivity|]. cbn [pt_irqchip pt_mmio_handlers pt_memory pt_set_handlers].
      split_and!; [done|by rewrite lookup_insert_eq| |done].
      intros other Ho. by rewrite lookup_insert_ne.
    + intros Hd data chip Hr. unfold memory_callback. run_St.
      rewrite (find_mmio_unique p m) by done. cbv beta iota. rewrite Hn, Hh, Hle, Hd.
      change (0 =? 0) with true. cbv beta iota.
      unfold with_handler_read, zoom. fold bytes. rewrite Hr. by eexists.
  - intros Hno. unfold memory_callback, mm_find_mmio. run_St. rewrite find_mmio_in_ok by done.
    by rewrite (proj2 (list_find_None _ _)).
Qed.

(** The value that a read of a register pair delivers. *)
Definition registers_after_read (rax rdx rip : Z) : list (list (VpReg * Z)) :=
  [[(VpRax, rax); (VpRdx, rdx)]; [(VpRip, rip)]].

Lemma msr_split_join rax rdx :
  fits 32 rax -> fits 32 rdx -> msr_split (msr_join rax rdx) = (rax, rdx).
Proof.
  intros Ha Hd. unfold msr_split, msr_join.
  assert (fits 64 (Z.shiftl rdx 32)) as Hs.
  { rewrite Z.shiftl_mul_pow2 by lia. unfold fits in *. lia. }
  rewrite (wrap_small 64) by done. change 0xffffffff with (Z.ones 32).
  f_equal; word_bits 32.
  - rewrite Z.land_ones by lia. apply Z.mod_pos_bound. lia.
  - done.
  - rewrite Z.land_spec, Z.lor_spec, Z.land_spec, testbit_ones by lia.
    rewrite (proj2 (Z.ltb_lt _ _)) by lia. rewrite Z.shiftl_spec_low by lia. cbn. by rewrite !andb_true_r.
  - apply (shiftr_fits 32 32); [lia..|]. apply (fits_lor 64); [lia|done|].
    apply (fits_land_l 64); [lia| |by vm_compute]. eapply (fits_mono 32); [lia|done].
  - done.
  - rewrite Z.shiftr_spec, Z.lor_spec, Z.land_spec, Z.shiftl_spec, testbit_ones by lia.
    rewrite (proj2 (Z.ltb_ge _ _)) by lia. rewrite andb_false_r, orb_false_r. f_equal. lia.
Qed.

(** The Hyper-V registers that keep a value give it back.  A guest write of
    the OS identity or of the TSC-invariant control register, followed by a
    read, continues the guest after each instruction and returns the two
    halves that were written. *)
Theorem msr_write_read {prof : Profile} {Ev} `{!VmHost} (v : Vm Ev) msr rip1 rip2 bits rax rdx :
  msr = 0x40000000 \/ msr = 0x40000118 ->
  (forall rs, WHvSetVirtualProcessorRegisters rs = Ok tt) ->
  fits 32 rax -> fits 32 rdx -> rip1 + 15 < 2 ^ 64 -> rip2 + 15 < 2 ^ 64 -> 0 <= bits ->
  exists v1 v2,
    handle_msr_access {| ec_exit := ExitMsrAccess msr 1 rax rdx; ec_rip := rip1; ec_bitfield := bits |}
      msr 1 rax rdx v = (Ok true, v1) /\
    handle_msr_access {| ec_exit := ExitMsrAccess msr 0 0 0; ec_rip := rip2; ec_bitfield := bits |}
      msr 0 0 0 v1 = (Ok true, v2) /\
    v_registers v2 = v_registers v ++ [[(VpRip, rip1 + Z.land bits 15)]]
      ++ registers_after_read rax rdx (rip2 + Z.land bits 15).
Proof.
  intros Hmsr Hset Ha Hd H1 H2 Hb.
  assert (0 <= Z.land bits 15 <= 15) as Hl.
  { change 15 with (Z.ones 4). rewrite Z.land_ones by lia.
    pose proof (Z.mod_pos_bound bits (2 ^ 4)). change (Z.ones 4) with 15. lia. }
  unfold handle_msr_access, msr_access, advance_rip, set_registers. run_St.
  change (Z.land 1 1) with 1. change (Z.land 0 1) with 0.
  destruct Hmsr as [-> | ->]; cbn [ec_rip ec_bitfield];
    repeat (rewrite ?Hset, ?uadd_ok by lia; cbn -[msr_split msr_join Z.land Z.add]);
    (do 2 eexists; split; [reflexivity|]); cbn -[msr_split msr_join Z.land Z.add];
    rewrite msr_split_join, Hset by done; cbn -[Z.land Z.add];
    (split; [reflexivity|]); cbn -[Z.land Z.add]; by rewrite <- !app_assoc.
Qed.

(** *** The reference time of the guest *)

(** What the guest computes from the page at a value of its time stamp
    counter: [((tsc * TscScale) >> 64) + TscOffset], in units of 100 ns. *)
Definition page_scale (page : list Z) : Z := le_val (slice 8 8 page).
Definition page_offset (page : list Z) : Z := signed 64 (le_val (slice 16 8 page)).
Definition guest_reference_time (page : list Z) (tsc : Z) : Z :=
  Z.shiftr (tsc * page_scale page) 64 + page_offset page.

Lemma page_fields (seq scale offset : list Z) :
  length seq = 4%nat -> length scale = 8%nat -> length offset = 8%nat ->
  let page := splice 16 offset (splice 8 scale (splice 0 seq (replicate (Z.to_nat 4096) 0))) in
  length page = Z.to_nat 4096 /\ slice 0 4 page = seq /\ slice 8 8 page = scale /\
  slice 16 8 page = offset.
Proof.
  intros H4 H8 H8'. cbv zeta. set (z := replicate _ 0).
  assert (length z = Z.to_nat 4096) as Hz by apply length_replicate.
  assert (length (splice 0 seq z) = Z.to_nat 4096) as Hz1 by (rewrite length_splice; lia).
  assert (length (splice 8 scale (splice 0 seq z)) = Z.to_nat 4096) as Hz2
    by (rewrite length_splice; lia).
  split_and!.
  - rewrite length_splice; lia.
  - rewrite !slice_splice_disjoint by lia. by apply slice_splice_at; lia.
  - rewrite slice_splice_disjoint by lia. by apply slice_splice_at; lia.
  - by apply slice_splice_at; lia.
Qed.

(** Scaling by the truncated quotient [k * W / f] and dividing by [W] is off by
    at most one from scaling by [k / f]. *)
Lemma scaled_difference W k f a d :
  0 < W -> 0 < f -> 0 <= k -> 0 <= a -> 0 <= d < W ->
  Z.abs ((a + d) * (k * W / f) / W - a * (k * W / f) / W - d * k / f) <= 1.
Proof.
  intros HW Hf Hk Ha Hd. set (s := k * W / f).
  pose proof (Z.div_mod (k * W) f ltac:(lia)) as Es. fold s in Es.
  pose proof (Z.mod_pos_bound (k * W) f Hf) as Bs.
  pose proof (Z.div_mod ((a + d) * s) W ltac:(lia)) as E1.
  pose proof (Z.mod_pos_bound ((a + d) * s) W HW) as B1.
  pose proof (Z.div_mod (a * s) W ltac:(lia)) as E0.
  pose proof (Z.mod_pos_bound (a * s) W HW) as B0.
  pose proof (Z.div_mod (d * k) f ltac:(lia)) as Ed.
  pose proof (Z.mod_pos_bound (d * k) f Hf) as Bd.
  set (q1 := (a + d) * s / W) in *. set (q0 := a * s / W) in *. set (q := d * k / f) in *.
  set (r1 := (a + d) * s mod W) in *. set (r0 := a * s mod W) in *.
  set (r := d * k mod f) in *. set (t := k * W mod f) in *.
  assert ((q1 - q0 - q) * (W * f) = r * W - (r1 - r0) * f - d * t) as E by nia.
  assert (0 <= r * W < W * f) by nia. assert (- (W * f) < (r1 - r0) * f < W * f) by nia.
  assert (0 <= d * t < W * f) by nia. nia.
Qed.

Lemma tsc_page_ok {prof : Profile} freq start :
  10000000 < freq -> 0 <= start < 2 ^ 63 ->
  exists page, tsc_reference_page freq start = Ok page /\ zlen page = 4096 /\
    le_val (slice 0 4 page) = 1 /\ page_scale page = 10000000 * 2 ^ 64 / freq /\
    page_offset page = - (start * (10000000 * 2 ^ 64 / freq) / 2 ^ 64).
Proof.
  intros Hf Hs. unfold tsc_reference_page.
  rewrite (proj2 (Z.eqb_neq _ _)), Z.shiftl_mul_pow2 by lia.
  set (s := 10000000 * 2 ^ 64 / freq).
  assert (0 <= s < 2 ^ 64) as Bs.
  { split; [by apply Z.div_pos; lia|]. apply Z.div_lt_upper_bound; lia. }
  rewrite (wrap_small 64 s) by done. rewrite Z.shiftr_div_pow2 by lia.
  set (e := start * s / 2 ^ 64).
  assert (0 <= e < 2 ^ 63) as Be.
  { split; [apply Z.div_pos; nia|]. apply Z.div_lt_upper_bound; nia. }
  rewrite (wrap_small 64 e) by (unfold fits; lia).
  assert (signed 64 e = e) as -> by (unfold signed; case_Z; lia).
  rewrite (proj2 (Z.eqb_neq _ _)) by lia. cbn [andb].
  destruct (page_fields (le_bytes 4 1) (le_bytes 8 s) (le_bytes 8 (- e)))
    as (Hl & E4 & E8 & E16); [by rewrite length_le_bytes..|].
  eexists. split; [reflexivity|]. unfold page_scale, page_offset. rewrite E4, E8, E16.
  split_and!.
  - unfold zlen. rewrite Hl. lia.
  - done.
  - by apply le_val_le_bytes_fits.
  - rewrite le_val_le_bytes. change (256 ^ Z.of_nat 8) with (2 ^ 64).
    apply (signed_wrap 64); lia.
Qed.

(** C27: the Reference TSC page keeps time.  A guest that enables the page at a
    mapped address gets a valid page there and reads the address back with the
    enable bit; the time it computes from the page is 0 at the start of the
    machine, never runs backwards and after [d] ticks of the counter is within
    one unit of 100 ns of [d] divided by the counter's frequency, over the
    whole range of the counter.  It holds for counters faster than the 10 MHz
    of the reference time. *)
Theorem tsc_reference_time {prof : Profile} {Ev} `{!VmHost} (v : Vm Ev) rax rdx p :
  let mm := pt_memory (v_partition v) in
  let gpa := Z.land (msr_join rax rdx) (wnot 64 0xfff) in
  let start := pt_vm_start_tsc (v_partition v) in
  mm_wf mm -> mapped mm gpa 4096 p -> fits 32 rax -> fits 32 rdx -> Z.odd rax = true ->
  10000000 < get_tsc_frequency_hz -> 0 <= start < 2 ^ 63 ->
  exists v' page,
    msr_access 0x40000021 true rax rdx v = (Ok (0, 0), v') /\
    guest_bytes mm (v_memory v') gpa 4096 = Some page /\
    msr_access 0x40000021 false 0 0 v' = (Ok (msr_split (Z.lor gpa 1)), v') /\
    le_val (slice 0 4 page) = 1 /\
    guest_reference_time page start = 0 /\
    (forall t1 t2, t1 <= t2 -> guest_reference_time page t1 <= guest_reference_time page t2) /\
    (forall d, 0 <= d < 2 ^ 64 ->
       Z.abs (guest_reference_time page (start + d) - d * 10000000 / get_tsc_frequency_hz) <= 1).
Proof.
  intros mm gpa start Hwf Hm Ha Hd Hodd Hf Hs.
  destruct (tsc_page_ok get_tsc_frequency_hz start Hf Hs) as (page & Hp & Hl & H1 & Hsc & Hoff).
  assert (Hm' := Hm). rewrite <- Hl in Hm'.
  destruct (write_mapped mm (v_memory v) page gpa p Hwf Hm') as (hm' & Hw & Hg & _).
  assert (length page = Z.to_nat 4096) as Hlen by (unfold zlen in Hl; lia).
  assert (negb (Z.land (msr_join rax rdx) 1 =? 0) = true) as Hen.
  { change 1 with (Z.ones 1). rewrite Z.land_ones by lia. change (2 ^ 1) with 2.
    rewrite Zmod_odd, <- Z.bit0_odd. unfold msr_join, wrap.
    rewrite Z.lor_spec, Z.land_spec, Z.mod_pow2_bits_low, Z.shiftl_spec_low by lia.
    by rewrite (Z.bit0_odd rax), Hodd. }
  exists (v_set_tsc_gpa (Some gpa) (v_set_memory hm' v)), page. split_and!.
  - unfold msr_access. run_St. cbn [Z.eqb Pos.eqb]. rewrite Hen. fold gpa.
    unfold write_tsc_reference_page. run_St. fold start mm. rewrite Hp, Hw. done.
  - replace 4096%nat with (length page) by (by rewrite Hlen). done.
  - done.
  - done.
  - unfold guest_reference_time. rewrite Hsc, Hoff, Z.shiftr_div_pow2 by lia. lia.
  - intros t1 t2 Ht. unfold guest_reference_time. rewrite Hsc, !Z.shiftr_div_pow2 by lia.
    assert (0 <= 10000000 * 2 ^ 64 / get_tsc_frequency_hz) by (apply Z.div_pos; lia).
    apply Z.add_le_mono_r, Z.div_le_mono; nia.
  - intros d Hdd. unfold guest_reference_time. rewrite Hsc, Hoff, Z.shiftr_div_pow2 by lia.
    assert (0 < get_tsc_frequency_hz) as Hf0 by (clear -Hf; lia).
    pose proof (scaled_difference (2 ^ 64) 10000000 get_tsc_frequency_hz start d
      eq_refl Hf0 ltac:(done) (proj1 Hs) Hdd). lia.
Qed.

(** ** Witnesses *)

(** An emulator that runs the callback once on a fixed access, and a host with
    a 3 GHz counter (crystal of 24 MHz, ratio 250 / 2). *)
Definition example_vm_host : VmHost :=
  {| try_io_emulation S cb :=
       _ ← cb {| io_port := 0x40; io_direction := 0; io_size := 1; io_data := 0 |}; mret 1;
     try_mmio_emulation S cb :=
       _ ← cb {| ma_gpa := IOAPIC_START; ma_direction := 0; ma_size := 4; ma_data := replicate 8 0 |};
       mret 1;
     WHvSetVirtualProcessorRegisters _ := Ok tt;
     host_now := 0; host_now_ms := 1000; host_elapsed := 0;
     host_cpuid15 := (2, 250, 24000000); host_cpuid16 := 0 |}.

(** The example partition with the window of the interrupt controller. *)
Definition example_ioapic_window : MmioRegion :=
  {| mmio_gpa := IOAPIC_START; mmio_size := 0x20; mmio_name := "IOAPIC";
     mmio_handler := Some "ioapic"%string |}.
Definition example_io_partition : Partition nat :=
  pt_set_handlers {["ioapic"%string := IoApicMmioAdapter]} ioapic_new
    (pt_set_memory (mm_register_mmio example_mm example_ioapic_window) example_partition).

Definition example_vm : Vm nat :=
  {| v_partition := example_io_partition; v_memory := fun _ => 0; v_rtc_time := 0;
     v_rtc_counter := 0; v_internal_counter := 0; v_last_interrupt := 0;
     v_tsc_invariant_control := 0; v_registers := []; v_interrupts := [] |}.

Lemma example_io_partition_wf :
  address_map_wf example_io_partition /\
  Forall window_fits (mm_mmio_regions (pt_memory example_io_partition)).
Proof.
  split; [split|].
  - by destruct example_mm_wf; split.
  - intros [|[|i]] [|[|j]]; cbn; intros; simplify_eq; done.
  - intros r m Hr%list_elem_of_singleton Hm%list_elem_of_singleton. subst.
    left. vm_compute. congruence.
  - intros m Hm%list_elem_of_singleton. subst. exists "ioapic"%string. split; [done|by eexists].
  - repeat constructor; vm_compute; congruence.
Qed.

(** Selecting register 0x10 of the interrupt controller. *)
Lemma guest_access_reaches_device_witness :
  exists p', memory_callback (prof:=dev_profile) (WinEvent0:=example_event)
      {| ma_gpa := IOAPIC_START; ma_direction := 1; ma_size := 4;
         ma_data := [0x10; 0; 0; 0; 0; 0; 0; 0] |} example_io_partition
    = (Ok (S_OK, {| ma_gpa := IOAPIC_START; ma_direction := 1; ma_size := 4;
         ma_data := [0x10; 0; 0; 0; 0; 0; 0; 0] |}), p') /\
    ia_ioregsel (pt_irqchip p') = 0x10.
Proof.
  destruct example_io_partition_wf as [Hw Hf].
  destruct (guest_access_reaches_device (prof:=dev_profile) (WinEvent0:=example_event)
    example_io_partition
    {| ma_gpa := IOAPIC_START; ma_direction := 1; ma_size := 4;
       ma_data := [0x10; 0; 0; 0; 0; 0; 0; 0] |}) as [Hin _]; [done|done|done|done|].
  destruct (Hin example_ioapic_window "ioapic"%string IoApicMmioAdapter) as [Hwr _].
  - by apply list_elem_of_singleton.
  - split; vm_compute; congruence.
  - done.
  - done.
  - destruct (Hwr eq_refl IoApicMmioAdapter (ia_set_regsel 0x10 ioapic_new)) as (p' & Hp & Hc & _).
    + vm_compute. reflexivity.
    + exists p'. by rewrite Hc.
Defined.

Lemma msr_write_read_witness :
  exists v1 v2,
    handle_msr_access (prof:=dev_profile) (H1:=example_vm_host)
      {| ec_exit := ExitMsrAccess 0x40000000 1 0x1234 0x8100; ec_rip := 0x1000; ec_bitfield := 2 |}
      0x40000000 1 0x1234 0x8100 example_vm = (Ok true, v1) /\
    handle_msr_access (prof:=dev_profile) (H1:=example_vm_host)
      {| ec_exit := ExitMsrAccess 0x40000000 0 0 0; ec_rip := 0x1002; ec_bitfield := 2 |}
      0x40000000 0 0 0 v1 = (Ok true, v2) /\
    v_registers v2 = [] ++ [[(VpRip, 0x1000 + Z.land 2 15)]]
      ++ registers_after_read 0x1234 0x8100 (0x1002 + Z.land 2 15).
Proof.
  apply (msr_write_read (prof:=dev_profile) (H:=example_vm_host) example_vm 0x40000000).
  - by left.
  - done.
  - split; vm_compute; congruence.
  - split; vm_compute; congruence.
  - done.
  - done.
  - done.
Defined.

Lemma tsc_reference_time_witness :
  exists v' page,
    msr_access (prof:=dev_profile) (H1:=example_vm_host) 0x40000021 true 0x3001 0 example_vm
      = (Ok (0, 0), v') /\
    guest_bytes (pt_memory example_io_partition) (v_memory v') 0x3000 4096 = Some page /\
    Z.abs (guest_reference_time page (0 + 3000000000) - 10000000) <= 1.
Proof.
  destruct (tsc_reference_time (prof:=dev_profile) (H:=example_vm_host) example_vm 0x3001 0
    (1048576 + (0x3000 - 4096))) as (v' & page & Hw & Hg & _ & _ & _ & _ & Ht).
  - apply example_io_partition_wf.
  - apply example_mapped; vm_compute; congruence.
  - split; vm_compute; congruence.
  - split; vm_compute; congruence.
  - done.
  - vm_compute. reflexivity.
  - split; vm_compute; congruence.
  - exists v', page. split_and!; [exact Hw|exact Hg|]. apply (Ht 3000000000).
    split; vm_compute; congruence.
Defined.
