(* ===== verification/VmRun.v ===== *)
(** * VmRun: what a run of the processor keeps

    The machine that [main] assembles stays well formed under every sequence of
    exits: each handler, callback and exit keeps the address map, the
    configuration of the devices and the interrupt controller's state space,
    and writes host memory only inside guest RAM. *)

From S2P Require Import Prelude Bytes HostMem GuestMem Queue Irqchip Bus VirtioDev Mmio Layout Acpi Partition Vm.

(** ** The interrupt controller *)

Section ioapic.
Context {prof : Profile} `{!WhvInterruptTypes}.

(** A request that the controller sends: the message of an unmasked entry. *)
Definition entry_request (r : InterruptControl) : Prop :=
  exists e, fits 64 e /\ Z.testbit e 16 = false /\ r = ioapic_inject_interrupt (ioapic_parse_entry e).

(** The state stays in range, no request is withdrawn, and the new ones are
    messages of unmasked entries. *)
Definition chip_frame (c c' : IoApic) : Prop :=
  ioapic_wf c -> ioapic_wf c' /\
    exists new, ia_requests c' = ia_requests c ++ new /\ Forall entry_request new.

#[export] Instance chip_frame_preorder : PreOrder chip_frame.
Proof.
  split.
  - intros c Hc. split; [done|]. exists []. by rewrite app_nil_r.
  - intros c1 c2 c3 H12 H23 Hc. destruct (H12 Hc) as [Hc2 (n1 & E1 & F1)].
    destruct (H23 Hc2) as [Hc3 (n2 & E2 & F2)]. split; [done|].
    exists (n1 ++ n2). rewrite E2, E1, app_assoc. split; [done|]. by apply Forall_app.
Qed.

(** A register changes. *)
Lemma chip_register c c' :
  (ioapic_wf c -> ioapic_wf c') -> ia_requests c' = ia_requests c -> chip_frame c c'.
Proof. intros Hw E Hc. split; [auto|]. exists []. by rewrite E, app_nil_r. Qed.

Lemma pin_request_entry s i : ioapic_wf s -> Forall entry_request (pin_request s i).
Proof.
  intros Hs. unfold pin_request, pin_fires, pin_active.
  destruct (Z.testbit (ia_entry s i) 16) eqn:E; [by rewrite andb_false_r; constructor|].
  case_match; repeat constructor. exists (ia_entry s i). split_and!; [by apply entry_fits|done..].
Qed.

Lemma chip_service s : chip_frame s (ioapic_service s).
Proof.
  intros Hs. destruct (service_serviced s Hs) as [Hw _ _ Hr _]. split; [done|].
  eexists. split; [exact Hr|]. apply Forall_concat, Forall_map, Forall_true.
  intros i. by apply pin_request_entry.
Qed.

Lemma wf_set_regsel s v : ioapic_wf s -> fits 8 v -> ioapic_wf (ia_set_regsel v s).
Proof. intros [] ?. by split. Qed.

Lemma wf_set_id s v : ioapic_wf s -> fits 8 v -> ioapic_wf (ia_set_id v s).
Proof. intros [] ?. by split. Qed.

Lemma chip_eoi v s : chip_frame s (ioapic_eoi v s).
Proof.
  unfold ioapic_eoi. generalize (seq 0 IOAPIC_NUM_PINS). intros l. revert s.
  induction l as [|i l IH]; intros s; [done|]. cbn [foldl]. etransitivity; [|apply IH].
  unfold ioapic_eoi_pin. destruct (_ && _); [|done].
  assert (chip_frame s (ia_set_redtbl i (Z.land (ia_entry s i) (wnot 64 IOAPIC_LVT_REMOTE_IRR)) s)).
  { apply chip_register; [|done]. intros Hs. apply wf_set_redtbl; [done|].
    apply fits_land_l; [lia|by apply entry_fits|]. apply fits_wnot, fits_rirr. }
  destruct (negb _); [|done]. etransitivity; [eassumption|apply chip_service].
Qed.

(** Whatever four bytes the guest writes, and wherever in the window. *)
Lemma ioapic_write_keeps {E} offset data :
  bytes_ok data -> keeps (E:=E) chip_frame (ioapic_write offset data).
Proof.
  intros Hd s. unfold ioapic_write. destruct (_ =? 4)%nat eqn:Hl; [|done]. cbn [negb].
  apply Nat.eqb_eq in Hl.
  assert (fits 32 (le_val data)) as Hv.
  { pose proof (le_val_bound data Hd) as Hb. unfold zlen in Hb. rewrite Hl in Hb. exact Hb. }
  destruct (offset =? IO_REG_SEL).
  { apply chip_register; [|done]. intros Hs. apply wf_set_regsel; [done|]. by apply wrap_fits. }
  destruct (offset =? IO_WIN); [|destruct (offset =? IO_EOI); [|done]; by apply chip_eoi].
  run_St. destruct (ia_ioregsel s =? IO_APIC_ID).
  { apply chip_register; [|done]. intros Hs. apply wf_set_id; [done|by apply wrap_fits]. }
  destruct (_ || _); [done|]. destruct (_ <? _); [done|].
  destruct (usub _ _ _) as [d| | |] eqn:Ed; try done. cbn [fst snd].
  destruct (Z.of_nat IOAPIC_NUM_PINS <=? Z.shiftr d 1) eqn:Ei; [done|]. cbn [snd].
  apply Z.leb_gt in Ei. assert (Z.to_nat (Z.shiftr d 1) < IOAPIC_NUM_PINS)%nat as Hi
    by (unfold IOAPIC_NUM_PINS in *; lia).
  intros Hs. destruct (write_redtbl_serviced (Z.to_nat (Z.shiftr d 1)) (0 <? Z.land (ia_ioregsel s) 1)
    (le_val data) s Hs Hi Hv) as (s1 & Hs1 & -> & _ & Hreq & _). rewrite <- Hreq. by apply chip_service.
Qed.

Lemma ioapic_read_keeps {E} offset data : keeps (E:=E) eq (ioapic_read offset data).
Proof.
  intros s. unfold ioapic_read. run_St. destruct (ioapic_read_val _ _ _) as [[v|]| | |]; done.
Qed.

Lemma ioapic_clear_irq_keeps irq : keeps chip_frame (ioapic_clear_irq irq).
Proof.
  intros s. unfold ioapic_clear_irq. destruct irq as [irq|]; [|done].
  destruct (irq <? _) eqn:Ei; [|done]. cbn. apply chip_register; [|done]. intros Hs.
  apply wf_set_irr; [done|].
  apply fits_land_l; [lia|apply Hs|].
  unfold wnot. apply Z.ltb_lt in Ei. unfold IOAPIC_NUM_PINS in Ei.
  destruct (decide (0 <= irq)).
  - rewrite Z.shiftl_mul_pow2 by lia. pose proof (Z.pow_lt_mono_r 2 irq 24 ltac:(lia)).
    pose proof (Z.pow_pos_nonneg 2 irq). lia.
  - rewrite Z.shiftl_div_pow2 by lia. rewrite Z.div_small; [lia|].
    pose proof (Z.pow_gt_1 2 (- irq)). lia.
Qed.

End ioapic.
#[export] Hint Resolve ioapic_clear_irq_keeps : keeps.

(** ** The transport *)

Section transport.
Context {prof : Profile} {D Ev : Type} `{!VirtioDevice D} `{!VirtioDeviceLaws D} `{!WinEvent Ev}
  `{!WhvInterruptTypes} `{!VirtioConsts}.
#[local] Abbreviation T := (MmioTransport D IoApic Ev).

(** While the device is inactive the transport holds one queue for each entry
    of the configuration. *)
Definition transport_wf (t : T) : Prop :=
  (forall qs, mt_queues t = Some qs -> length qs = length (mt_queue_config t)) /\
  length (mt_queue_evts t) = length (mt_queue_config t).

(** What no register write changes, and what every one keeps. *)
Record transport_frame (t t' : T) : Prop := {
  tf_line : it_irq_line (mt_interrupt t') = it_irq_line (mt_interrupt t);
  tf_mem : mt_mem t' = mt_mem t;
  tf_config : mt_queue_config t' = mt_queue_config t;
  tf_evts : length (mt_queue_evts t') = length (mt_queue_evts t);
  tf_features : vd_avail_features (mt_device t') = vd_avail_features (mt_device t);
  tf_wf : transport_wf t -> transport_wf t';
  tf_chip : chip_frame (it_intc (mt_interrupt t)) (it_intc (mt_interrupt t'));
}.

#[export] Instance transport_frame_preorder : PreOrder transport_frame.
Proof.
  split; [by split|]. intros t1 t2 t3 [] []. split; try congruence; [auto|by etransitivity].
Qed.

Lemma frame_selects a b c d t : transport_frame t (set_selects a b c d t).
Proof. by split. Qed.

Lemma frame_status s t : transport_frame t (set_status s t).
Proof. by split. Qed.

Lemma frame_device d t :
  vd_avail_features d = vd_avail_features (mt_device t) -> transport_frame t (set_device d t).
Proof. by split. Qed.

Lemma frame_interrupt i t :
  it_irq_line i = it_irq_line (mt_interrupt t) ->
  chip_frame (it_intc (mt_interrupt t)) (it_intc i) ->
  transport_frame t (set_interrupt i t).
Proof. by split. Qed.

Lemma frame_evts es t :
  length es = length (mt_queue_evts t) -> transport_frame t (set_queue_evts es t).
Proof. intros Hl. split; try done. unfold transport_wf. cbn. by rewrite Hl. Qed.

Lemma frame_queues qs t :
  (forall l, qs = Some l -> length l = length (mt_queue_config t) \/
     exists l', mt_queues t = Some l' /\ length l = length l') ->
  transport_frame t (set_queues qs t).
Proof.
  intros Hq. split; try done. intros [Hw He]. split; [|done]. cbn. intros l ->.
  destruct (Hq l eq_refl) as [|(l' & Hl' & ->)]; [done|]. by apply Hw.
Qed.

Lemma update_queue_keeps f t : transport_frame t (update_queue_field f t).
Proof.
  unfold update_queue_field, with_queue_mut. destruct (check_device_status _ _ _); [|done].
  destruct (mt_queues t) as [qs|] eqn:Eq; [|done]. destruct (qs !! _); [|done]. cbn.
  apply frame_queues. intros l [= <-]. right. exists qs.
  by rewrite length_insert.
Qed.

Lemma mmio_reset_keeps t : transport_frame t (mmio_reset t).
Proof.
  unfold mmio_reset. etransitivity; [apply (frame_selects 0 0 0 (mt_shm_region_select t))|].
  etransitivity; [by apply (frame_interrupt (it_set_status 0 (mt_interrupt t)))|].
  etransitivity; [apply (frame_status INIT)|]. apply frame_queues.
  intros l [= <-]. left. cbn. unfold create_queues. by rewrite length_map.
Qed.

Lemma mmio_activate_keeps : keeps transport_frame (mmio_activate (D:=D) (C:=IoApic) (Ev:=Ev)).
Proof.
  intros t. unfold mmio_activate. run_St. destruct (mt_queues t) as [qs|] eqn:Eq; [|done].
  cbn [fst snd]. match goal with |- context [vd_activate ?m ?q ?d] =>
    pose proof (vl_activate_avail m q d) as Ha; destruct (vd_activate m q d) as [o d'] end.
  cbn [snd] in Ha.
  assert (transport_frame t (set_device d' (set_queues None t))); [|by destruct o].
  etransitivity; [by apply (frame_queues None)|]. apply frame_device. exact Ha.
Qed.

End transport.
#[export] Hint Resolve frame_selects frame_status update_queue_keeps mmio_reset_keeps
  mmio_activate_keeps : keeps.

Section transport_write.
Context {prof : Profile} {D Ev : Type} `{!VirtioDevice D} `{!VirtioDeviceLaws D} `{!WinEvent Ev}
  `{!WhvInterruptTypes} `{!VirtioConsts}.
#[local] Abbreviation T := (MmioTransport D IoApic Ev).

(** The write of 0: the device is reset, then the transport. *)
Lemma status_zero_keeps (t : T) :
  transport_frame t
    (((_ ← (if vd_is_activated (mt_device t) then
              let '(ok, d) := vd_reset (mt_device t) in
              _ ← modify (set_device d);
              if negb ok then modify (set_status (Z.lor (mt_device_status t) FAILED)) else mret tt
            else mret tt);
       t ← gets id;
       if Z.land (mt_device_status t) FAILED =? 0 then modify mmio_reset else mret tt)
      : M T string unit) t).2.
Proof.
  revert t. assert (keeps transport_frame ((t ← gets id;
    if Z.land (mt_device_status t) FAILED =? 0 then modify mmio_reset else mret tt)
      : M T string unit)) as Hreset by (keeps; auto with keeps).
  intros t. pose proof (vl_reset_avail (mt_device t)) as Ha.
  destruct (vd_is_activated _); [|apply Hreset].
  destruct (vd_reset (mt_device t)) as [ok d]. cbn [snd] in Ha.
  assert (transport_frame t (set_device d t)) as Hd by by apply frame_device.
  destruct ok; (etransitivity; [exact Hd|]); [apply Hreset|].
  etransitivity; [apply (frame_status (Z.lor (mt_device_status t) FAILED))|]. apply Hreset.
Qed.

Lemma set_device_status_keeps v : keeps (transport_frame (D:=D) (Ev:=Ev)) (set_device_status v).
Proof.
  intros t. unfold set_device_status. unfold mbind at 1, M_bind at 1, gets at 1. cbn [id].
  repeat match goal with |- context [if ?b && ?c then modify (set_status ?x) else _] =>
    destruct (b && c); [apply frame_status|] end.
  destruct (_ && _).
  { etransitivity; [apply (frame_status v)|]. run_St.
    destruct (negb _); [apply mmio_activate_keeps|done]. }
  destruct (negb _); [apply frame_status|]. destruct (v =? 0); [apply status_zero_keeps|done].
Qed.

Lemma notify_keeps v : keeps (transport_frame (D:=D) (Ev:=Ev)) (mmio_notify v).
Proof.
  intros t. unfold mmio_notify. run_St. destruct (mt_queue_evts t !! _) as [e|]; [|done].
  destruct (event_signal e) as [e'|e'| |]; try done. cbn [fst snd].
  apply frame_evts. by rewrite length_insert.
Qed.

Lemma interrupt_ack_keeps v : keeps (transport_frame (D:=D) (Ev:=Ev)) (mmio_interrupt_ack v).
Proof.
  apply keeps_gets_bind. intros t. cbn [id].
  destruct (check_device_status _ _ _); [|done]. cbv zeta.
  revert t. intros t. match goal with |- transport_frame _ (?m t).2 => enough (keeps transport_frame m) by auto end.
  apply (keeps_bind transport_frame);
    [apply keeps_modify; by intros t'; apply frame_interrupt|intros _].
  destruct (_ =? 0); [|apply (keeps_ret transport_frame)].
  apply (keeps_zoom _ (fun i i' => it_irq_line i' = it_irq_line i /\
    chip_frame (it_intc i) (it_intc i'))).
  - intros i. unfold it_try_clear_irq. run_St.
    pose proof (ioapic_clear_irq_keeps (it_irq_line i) (it_intc i)) as Hc.
    change (clear_irq (it_irq_line i) (it_intc i)) with (ioapic_clear_irq (it_irq_line i) (it_intc i)).
    destruct (ioapic_clear_irq _ _) as [o c]. by destruct o.
  - intros t' i []. by apply frame_interrupt.
Qed.
#[local] Hint Resolve set_device_status_keeps notify_keeps interrupt_ack_keeps : keeps.

Lemma mmio_write_register_keeps offset v :
  keeps (transport_frame (D:=D) (Ev:=Ev)) (mmio_write_register offset v).
Proof.
  unfold mmio_write_register. apply keeps_gets_bind. intros t. cbn [id].
  repeat match goal with |- context [(if ?b then ?m else _) t] =>
    destruct b; [try solve [apply set_device_status_keeps|apply notify_keeps|apply interrupt_ack_keeps
      |apply frame_selects|apply update_queue_keeps|by apply frame_device, vl_set_avail]|] end.
  all: done.
Qed.

Lemma mmio_write_keeps offset data : keeps (transport_frame (D:=D) (Ev:=Ev)) (mmio_write offset data).
Proof.
  unfold mmio_write. apply keeps_gets_bind. intros t. cbn [id].
  destruct (_ && _); [apply mmio_write_register_keeps|]. destruct (_ && _); [|done].
  destruct (check_device_status _ _ _); [|done]. apply frame_device, vl_write_avail.
Qed.

(** What a write leaves as it was, the shared controller apart. *)
Record same_transport (t t' : T) : Prop := {
  sm_line : it_irq_line (mt_interrupt t') = it_irq_line (mt_interrupt t);
  sm_mem : mt_mem t' = mt_mem t;
  sm_config : mt_queue_config t' = mt_queue_config t;
  sm_features : vd_avail_features (mt_device t') = vd_avail_features (mt_device t);
  sm_wf : transport_wf t -> transport_wf t';
}.

Lemma transport_write_keeps offset data t chip :
  let '(_, (t', chip')) := transport_write offset data (t, chip) in
  same_transport t t' /\ chip_frame chip chip'.
Proof.
  unfold transport_write. cbn [fst snd].
  pose proof (mmio_write_keeps offset data
    (set_interrupt (it_set_intc chip (mt_interrupt t)) t)) as Hk.
  destruct (mmio_write _ _ _) as [o t']. destruct Hk. by split; [split|].
Qed.

End transport_write.

(** ** The partition *)

Section partition.
Context {prof : Profile} {Ev : Type} `{!WinEvent Ev} `{!WhvInterruptTypes} `{!VirtioConsts}.

(** A handler stays the same device on the same line with the same features. *)
Definition same_handler (h h' : MmioHandler Ev) : Prop :=
  match h, h' with
  | IoApicMmioAdapter, IoApicMmioAdapter | PciEcamHandler, PciEcamHandler => True
  | BlockTransport t, BlockTransport t' => same_transport t t'
  | RngTransport t, RngTransport t' => same_transport t t'
  | ConsoleTransport t, ConsoleTransport t' => same_transport t t'
  | NetTransport t, NetTransport t' => same_transport t t'
  | _, _ => False
  end.

#[export] Instance same_transport_preorder {D} `{!VirtioDevice D} :
  PreOrder (same_transport (D:=D) (Ev:=Ev)).
Proof. split; [by split|]. intros t1 t2 t3 [] []. split; try congruence; auto. Qed.

#[export] Instance same_handler_preorder : PreOrder same_handler.
Proof.
  split; [by intros []|]. intros [] [] []; cbn; try done; intros; by etransitivity.
Qed.

Record partition_frame (p p' : Partition Ev) : Prop := {
  pf_memory : pt_memory p' = pt_memory p;
  pf_devices : pt_device_manager p' = pt_device_manager p;
  pf_start : pt_vm_start_tsc p' = pt_vm_start_tsc p;
  pf_host : (pt_calls p', pt_cpu_manager p', pt_guest_memory_base p') =
    (pt_calls p, pt_cpu_manager p, pt_guest_memory_base p);
  pf_handlers name :
    option_Forall2 same_handler (pt_mmio_handlers p !! name) (pt_mmio_handlers p' !! name);
  pf_chip : chip_frame (pt_irqchip p) (pt_irqchip p');
}.

#[export] Instance partition_frame_preorder : PreOrder partition_frame.
Proof.
  split.
  - by split.
  - intros p1 p2 p3 [???? H12 ?] [???? H23 ?]. split; try congruence; [|by etransitivity]. intros name.
    etransitivity; [apply H12|apply H23].
Qed.

(** An access that the emulator can make. *)
Definition access_ok (a : MemoryAccess) : Prop :=
  length (ma_data a) = 8%nat /\ bytes_ok (ma_data a) /\ 0 <= ma_size a <= 8.

Lemma handler_write_keeps offset data h chip :
  bytes_ok data ->
  let '(_, (h', chip')) := handler_write offset data (h, chip) in
  same_handler h h' /\ chip_frame chip chip'.
Proof.
  intros Hd. unfold handler_write. cbn [fst snd].
  destruct h as [| |t|t|t|t]; [|done|..];
    try (pose proof (transport_write_keeps offset data t chip) as Hk;
         destruct (transport_write _ _ _) as [o [t' chip']]; exact Hk).
  pose proof (ioapic_write_keeps (E:=string) offset data Hd chip) as Hk.
  by destruct (ioapic_write _ _ _) as [o chip'].
Qed.

Lemma handler_read_keeps h offset data : keeps eq (handler_read (Ev:=Ev) h offset data).
Proof. destruct h; [apply ioapic_read_keeps|done..]. Qed.

Lemma with_handler_read_keeps h offset data :
  keeps partition_frame (with_handler_read (Ev:=Ev) h offset data).
Proof.
  apply (keeps_zoom _ eq); [apply handler_read_keeps|]. intros p chip <-.
  by split.
Qed.

Lemma with_handler_write_frame name h offset data p :
  bytes_ok data -> pt_mmio_handlers p !! name = Some h ->
  partition_frame p (with_handler_write name h offset data p).2.
Proof.
  intros Hd Hh. unfold with_handler_write.
  pose proof (handler_write_keeps offset data h (pt_irqchip p) Hd) as Hk.
  destruct (handler_write _ _ _) as [o [h' chip']]. destruct Hk as [Hs Hc].
  split; try done. intros n. cbn. destruct (decide (n = name)) as [->|Hn].
  - rewrite lookup_insert_eq, Hh. by constructor.
  - by rewrite lookup_insert_ne by done.
Qed.

Lemma memory_callback_keeps a :
  access_ok a -> keeps partition_frame (memory_callback (Ev:=Ev) a).
Proof.
  intros (Hl & Hd & _). unfold memory_callback. apply keeps_gets_bind. intros p.
  unfold mbind, M_bind, lift. cbn [id].
  destruct (mm_find_mmio _ _) as [[m|]|e| |]; [|done..].
  cbv zeta. destruct (mmio_handler m) as [name|]; [|done].
  destruct (pt_mmio_handlers p !! name) as [h|] eqn:Hh; [|done].
  destruct (_ =? 0); [|destruct (_ =? 1); [|done]]; (destruct (_ <? _)%nat; [done|]).
  - pose proof (with_handler_read_keeps h (ma_gpa a - mmio_gpa m)
      (take (Z.to_nat (ma_size a)) (ma_data a)) p) as Hk.
    by destruct (with_handler_read _ _ _ p) as [[] p'].
  - pose proof (with_handler_write_frame name h (ma_gpa a - mmio_gpa m)
      (take (Z.to_nat (ma_size a)) (ma_data a)) p) as Hk.
    destruct (with_handler_write _ _ _ _ p) as [[] p']; apply Hk; auto with whypa.
Qed.

End partition.

(** ** The machine *)

(** Host memory that backs guest RAM. *)
Definition guest_host (mm : MemoryManager) (a : Z) : Prop :=
  exists r h, r ∈ mm_regions mm /\ mr_hpa r = Some h /\ h <= a < h + mr_size r.

(** No RAM in the last page of the 64-bit address space. *)
Definition ram_below_end (mm : MemoryManager) : Prop :=
  regions_wf mm /\ Forall (fun r => mr_gpa r + mr_size r + 4096 <= 2 ^ 64) (mm_regions mm).

(** The instruction emulator of the hypervisor touches the machine through its
    callbacks only, and moves at most eight bytes at a time. *)
Class EmulatorLaws `{!VmHost} : Prop := {
  io_emulation_keeps {S} (R : relation S) `{!PreOrder R} cb :
    (forall a, keeps R (cb a)) -> keeps R (try_io_emulation cb);
  mmio_emulation_keeps {S} (R : relation S) `{!PreOrder R} cb :
    (forall a, access_ok a -> keeps R (cb a)) -> keeps R (try_mmio_emulation cb);
}.

Section machine.
Context {prof : Profile} {Ev : Type} `{!WinEvent Ev} `{!WhvInterruptTypes} `{!VirtioConsts}
  `{!VmHost} `{!EmulatorLaws}.
Implicit Types v : Vm Ev.

(** The invariant of the machine. *)
Record machine_wf v : Prop := {
  mw_map : address_map_wf (v_partition v);
  mw_chip : ioapic_wf (pt_irqchip (v_partition v));
}.

(** What the processor's thread leaves as it was: the guest's memory map, the
    devices, the start of time; the interrupts it requests itself are timer
    ticks, and it writes no host memory but guest RAM. *)
Record machine_frame v v' : Prop := {
  mf_partition : partition_frame (v_partition v) (v_partition v');
  mf_interrupts : exists n, v_interrupts v' = v_interrupts v ++ replicate n 0x20;
  mf_memory a : ram_below_end (pt_memory (v_partition v)) ->
    ~ guest_host (pt_memory (v_partition v)) a -> v_memory v' a = v_memory v a;
}.

#[export] Instance machine_frame_preorder : PreOrder machine_frame.
Proof.
  split.
  - intros v. split; try done. exists O. by rewrite app_nil_r.
  - intros v1 v2 v3 [Hp [n Hn] Hm] [Hp' [n' Hn'] Hm']. split.
    + by etransitivity.
    + exists (n + n')%nat. by rewrite Hn', Hn, replicate_add, app_assoc.
    + intros a Hr Ha. rewrite Hm'; rewrite ?(pf_memory _ _ Hp); auto.
Qed.

Lemma frame_same_memory v v' :
  partition_frame (v_partition v) (v_partition v') -> v_interrupts v' = v_interrupts v ->
  v_memory v' = v_memory v -> machine_frame v v'.
Proof.
  intros Hp Hi Hm. split; [done| |by rewrite Hm]. exists O. by rewrite Hi, app_nil_r.
Qed.

Lemma guest_state_frame x y z (p : Partition Ev) : partition_frame p (pt_set_guest_state x y z p).
Proof. by split. Qed.

Ltac same := intros; apply frame_same_memory; [try apply guest_state_frame; done|done|done].

Lemma set_registers_keeps rs : keeps machine_frame (set_registers rs).
Proof. unfold set_registers. keeps. same. Qed.
#[local] Hint Resolve set_registers_keeps : keeps.

Lemma io_bus_read_keeps w port data : keeps machine_frame (io_bus_read (Ev:=Ev) w port data).
Proof. unfold io_bus_read, bus_read. keeps. Qed.

Lemma io_bus_write_keeps w port data : keeps machine_frame (io_bus_write (Ev:=Ev) w port data).
Proof. unfold io_bus_write, bus_write. keeps. Qed.
#[local] Hint Resolve io_bus_read_keeps io_bus_write_keeps : keeps.

Lemma io_port_callback_keeps a : keeps machine_frame (io_port_callback (Ev:=Ev) a).
Proof. unfold io_port_callback, io_port_out, io_port_in. keeps; same. Qed.

Lemma on_partition_keeps {A} (m : M (Partition Ev) string A) :
  keeps partition_frame m -> keeps machine_frame (on_partition m).
Proof. intros Hm. apply (keeps_zoom _ _ _ _ _ Hm). intros. by apply frame_same_memory. Qed.

Lemma write_guest_frame mm code gpa hm a :
  ram_below_end mm -> zlen code <= 4096 -> ~ guest_host mm a ->
  (write_guest_memory mm code gpa hm).2 a = hm a.
Proof.
  intros [Hr Hend] Hl Ha. unfold write_guest_memory. run_St.
  destruct (region_at mm gpa) as [r|] eqn:Er.
  - pose proof (zlen_nonneg code). pose proof Er as [Hin Hc]%region_at_Some.
    assert (mr_gpa r + mr_size r + 4096 <= 2 ^ 64) as Hb by (by eapply Forall_forall in Hend).
    unfold region_contains in Hc.
    rewrite (checked_range_wf _ _ _ _ _ _ r) by done || lia.
    case_Z; [done|]. destruct (negb _); [done|]. destruct (mr_hpa r) as [h|] eqn:Eh; [|done].
    cbn [snd]. apply host_write_out. destruct (decide (h <= a < h + mr_size r)) as [?|?]; [|lia].
    destruct Ha. by exists r, h.
  - unfold mm_checked_range. by rewrite find_region_wf, Er.
Qed.

Lemma tsc_page_length freq start page :
  tsc_reference_page freq start = Ok page -> zlen page = 4096.
Proof.
  unfold tsc_reference_page. destruct (freq =? 0); [done|]. destruct (_ && _); [done|].
  intros [= <-]. unfold zlen.
  edestruct page_fields as (-> & _); [first [done|apply length_le_bytes]..|done].
Qed.

Lemma write_page_keeps gpa : keeps machine_frame (write_tsc_reference_page (Ev:=Ev) gpa).
Proof.
  unfold write_tsc_reference_page. apply keeps_gets_bind. intros v. cbn [id].
  unfold mbind, M_bind, lift. destruct (tsc_reference_page _ _) as [page|e| |] eqn:Ep; [|done..].
  unfold zoom. pose proof (write_guest_frame (pt_memory (v_partition v)) page gpa (v_memory v)) as Hw.
  destruct (write_guest_memory _ _ _ _) as [o hm']. split; [done| |].
  - exists O. by rewrite app_nil_r.
  - intros a Hr Ha. apply Hw; [done| |done]. by rewrite (tsc_page_length _ _ _ Ep).
Qed.
#[local] Hint Resolve write_page_keeps : keeps.

Lemma msr_access_keeps n w rax rdx : keeps machine_frame (msr_access (Ev:=Ev) n w rax rdx).
Proof. unfold msr_access. keeps; same. Qed.
#[local] Hint Resolve msr_access_keeps : keeps.

Lemma interrupt_window_keeps : keeps machine_frame (handle_interrupt_window (Ev:=Ev)).
Proof.
  unfold handle_interrupt_window. keeps. split; [done| |done]. by exists 1%nat.
Qed.

Lemma io_port_keeps : keeps machine_frame (handle_io_port (Ev:=Ev)).
Proof.
  unfold handle_io_port. keeps. apply (io_emulation_keeps machine_frame), io_port_callback_keeps.
Qed.

Lemma memory_access_keeps info gpa rip :
  keeps machine_frame (handle_memory_access (Ev:=Ev) info gpa rip).
Proof.
  unfold handle_memory_access. keeps. apply (mmio_emulation_keeps machine_frame).
  intros access Ha. by apply on_partition_keeps, memory_callback_keeps.
Qed.

Lemma apic_eoi_keeps vector : keeps machine_frame (handle_apic_eoi (Ev:=Ev) vector).
Proof.
  unfold handle_apic_eoi. apply keeps_gets_bind. intros v. cbn [id].
  destruct (pt_mmio_handlers (v_partition v) !! "ioapic"%string) as [h|] eqn:Hh; [|done].
  pose proof (with_handler_write_frame "ioapic" h 0x40 (le_bytes 4 (wrap 32 vector))
    (v_partition v) (le_bytes_ok _ _) Hh) as Hw.
  unfold mbind, M_bind, on_partition, zoom.
  destruct (with_handler_write _ _ _ _ _) as [[] p']; by apply frame_same_memory.
Qed.
#[local] Hint Resolve interrupt_window_keeps io_port_keeps memory_access_keeps apic_eoi_keeps : keeps.

Lemma handle_exit_keeps ctx : keeps machine_frame (handle_exit (Ev:=Ev) ctx).
Proof.
  unfold handle_exit, handle_cpuid, handle_msr_access, advance_rip. keeps.
Qed.
#[local] Hint Resolve handle_exit_keeps : keeps.

Lemma vm_run_keeps turns : keeps machine_frame (vm_run (Ev:=Ev) turns).
Proof. induction turns as [|[running [ctx|e]] turns IH]; cbn [vm_run]; keeps. Qed.

Lemma machine_frame_wf v v' : machine_frame v v' -> machine_wf v -> machine_wf v'.
Proof.
  intros [Hp _ _] [Hm Hc]. split; [|by apply (pf_chip _ _ Hp)]. destruct Hp as [Emem _ _ _ Hh _], Hm as [Hr Hd Hrd Hnamed].
  split; rewrite ?Emem; try done. intros m Hin.
  destruct (Hnamed m Hin) as (name & Hn & [h Hl]). exists name. split; [done|].
  specialize (Hh name). rewrite Hl in Hh. inversion Hh; subst. by eexists.
Qed.

End machine.

(** ** The machine that the program assembles *)

Section assembled.
Context {prof : Profile} {Ev : Type} `{!WinEvent Ev} `{!WhvInterruptTypes} `{!VirtioConsts}
  `{!PartitionHost} {Sdt : Type} `{!AcpiTables Sdt}.

Definition chip_wf (p : Partition Ev) : Prop := ioapic_wf (pt_irqchip p).

Lemma ioapic_new_wf : ioapic_wf ioapic_new.
Proof.
  split; try (unfold fits; cbn; lia); [done|]. apply Forall_replicate.
  unfold fits. vm_compute. split; congruence.
Qed.

Lemma register_window_keeps gpa size name h :
  keeps (along chip_wf) (register_mmio_region (Ev:=Ev) gpa size name h).
Proof. unfold register_mmio_region. keeps. by intros ?. Qed.

Lemma register_handler_keeps name h :
  keeps (along chip_wf) (register_mmio_handler (Ev:=Ev) name h).
Proof. unfold register_mmio_handler. keeps. by intros ?. Qed.

#[local] Hint Resolve register_window_keeps register_handler_keeps : keeps.

Lemma setup_ioapic_keeps : keeps (along chip_wf) (setup_ioapic (Ev:=Ev)).
Proof. unfold setup_ioapic. keeps. intros _. apply ioapic_new_wf. Qed.
#[local] Hint Resolve setup_ioapic_keeps : keeps.

Lemma register_devices_keeps path ex : keeps (along chip_wf) (register_devices (Ev:=Ev) path ex).
Proof.
  unfold register_devices, setup_pci_ecam, setup_virtio_block, setup_virtio_rng,
    setup_virtio_console, setup_virtio_net, new_transport, register_virtio.
  keeps. all: by intros ?.
Qed.

#[local] Hint Resolve register_devices_keeps : keeps.

Lemma construct_keeps size path ex : keeps (along chip_wf) (construct (Ev:=Ev) size path ex).
Proof.
  unfold construct, prepare, partition_configure, partition_setup, create_vp, allocate_memory_with_size, hv_call.
  keeps; by intros ?.
Qed.

Lemma assemble_chip_wf tsc now size path ex p :
  assemble (Ev:=Ev) (Sdt:=Sdt) tsc now size path ex = Ok p -> chip_wf p.
Proof.
  unfold assemble. pose proof (construct_keeps size path ex) as Hk.
  destruct (partition_new _ _ _ _).1 as [p0| | |] eqn:Ep; try done. cbn [mbind out_bind].
  specialize (Hk p0). destruct (construct _ _ _ _) as [[] p']; try done.
  intros [= <-]. apply Hk. revert Ep. unfold partition_new. run_St.
  destruct WHvCreatePartition; try done. destruct WHvEmulatorCreateEmulator; try done.
  destruct (device_manager_new size); try done. cbn. intros [= <-]. apply ioapic_new_wf.
Qed.

Lemma ram_below_end_fits size source p :
  size_fits_map size -> address_map_wf p ->
  mm_regions (pt_memory (Ev:=Ev) p) = ram_regions size source -> ram_below_end (pt_memory p).
Proof.
  intros Hs Hw Hr. split; [apply mm_wf_regions, Hw|]. rewrite Hr.
  unfold ram_regions, size_fits_map in *. layout_values.
  case_Z; repeat constructor; cbn [ram mr_gpa mr_size]; lia.
Qed.

End assembled.

(** ** Properties *)


(** ** Witness *)

#[export] Instance example_emulator_laws : @EmulatorLaws example_vm_host.
Proof.
  split; intros S R ? cb Hcb; cbn [try_io_emulation try_mmio_emulation example_vm_host];
    (apply (keeps_bind R); [apply Hcb|intros _; apply (keeps_ret R)]).
  split; [done|]. split; [apply bytes_okb_ok; reflexivity|]. cbn. lia.
Qed.

(** A halt, an access to the interrupt controller, a timer tick, a port access. *)
Definition example_turns : list (bool * (ExitContext + string)) :=
  map (fun e => (true, inl {| ec_exit := e; ec_rip := 0x1000000; ec_bitfield := 2 |}))
    [ExitHalt; ExitMemoryAccess 1 IOAPIC_START; ExitInterruptWindow; ExitIoPortAccess].

