(* ===== verification/Lifecycle.v ===== *)
(** * Lifecycle: what the program takes from the host and gives back

    The resources of a partition (the partition itself, the instruction
    emulator, virtual processors, mapped guest ranges, host memory, worker
    threads) as a state machine of the hypervisor's calls, and the destructor
    [Drop for Partition] of [src/partition.rs].  The model of the hypervisor
    accepts a call only where its documentation allows it: memory must not be
    released while a range of it is mapped or a worker runs, a partition must
    not be deleted before its processors and mappings. *)

From S2P Require Import Prelude Bytes HostMem GuestMem Queue Irqchip Bus VirtioDev Mmio Layout Acpi Partition Vm VmRun.

(** ** The hypervisor's side *)

Record HvState : Type := {
  hv_partition : bool;
  hv_emulator : bool;
  hv_vps : list Z;
  (** source, guest address, size *)
  hv_maps : list (Z * Z * Z);
  (** base, size *)
  hv_blocks : list (Z * Z);
  hv_workers : list string;
}.

Definition hv_empty : HvState :=
  {| hv_partition := false; hv_emulator := false; hv_vps := []; hv_maps := []; hv_blocks := [];
     hv_workers := [] |}.

Definition hv_with_workers (ws : list string) (h : HvState) : HvState :=
  {| hv_partition := hv_partition h; hv_emulator := hv_emulator h; hv_vps := hv_vps h;
     hv_maps := hv_maps h; hv_blocks := hv_blocks h; hv_workers := ws |}.

(** [m] lies in block [b]. *)
Definition in_block (m : Z * Z * Z) (b : Z * Z) : bool :=
  (b.1 <=? m.1.1) && (m.1.1 + m.2 <=? b.1 + b.2).

(** The names and processors of a state are distinct. *)
Definition without {A} `{!EqDecision A} (x : A) (l : list A) : list A := filter (fun y => y <> x) l.

(** The effect of a call; [None] where the call would be an error of the
    program.  Deleting a processor that does not exist fails without effect,
    and the program drops the result. *)
Definition hv_step (h : HvState) (c : HvCall) : option HvState :=
  match c with
  | CallCreatePartition =>
      if hv_partition h then None
      else Some {| hv_partition := true; hv_emulator := hv_emulator h; hv_vps := hv_vps h;
                   hv_maps := hv_maps h; hv_blocks := hv_blocks h; hv_workers := hv_workers h |}
  | CallCreateEmulator =>
      if hv_emulator h then None
      else Some {| hv_partition := hv_partition h; hv_emulator := true; hv_vps := hv_vps h;
                   hv_maps := hv_maps h; hv_blocks := hv_blocks h; hv_workers := hv_workers h |}
  | CallSetupPartition => if hv_partition h then Some h else None
  | CallCreateVp i =>
      if hv_partition h && bool_decide (i ∉ hv_vps h)
      then Some {| hv_partition := true; hv_emulator := hv_emulator h; hv_vps := i :: hv_vps h;
                   hv_maps := hv_maps h; hv_blocks := hv_blocks h; hv_workers := hv_workers h |}
      else None
  | CallAlloc base size =>
      Some {| hv_partition := hv_partition h; hv_emulator := hv_emulator h; hv_vps := hv_vps h;
              hv_maps := hv_maps h; hv_blocks := (base, size) :: hv_blocks h;
              hv_workers := hv_workers h |}
  | CallMap source gpa size =>
      if hv_partition h && existsb (in_block (source, gpa, size)) (hv_blocks h)
      then Some {| hv_partition := true; hv_emulator := hv_emulator h; hv_vps := hv_vps h;
                   hv_maps := hv_maps h ++ [(source, gpa, size)]; hv_blocks := hv_blocks h;
                   hv_workers := hv_workers h |}
      else None
  | CallJoinWorker name =>
      if bool_decide (name ∈ hv_workers h)
      then Some (hv_with_workers (without name (hv_workers h)) h)
      else None
  | CallDeleteVp i =>
      Some {| hv_partition := hv_partition h; hv_emulator := hv_emulator h;
              hv_vps := without i (hv_vps h); hv_maps := hv_maps h; hv_blocks := hv_blocks h;
              hv_workers := hv_workers h |}
  | CallUnmap gpa size =>
      match list_find (fun m => m.1.2 = gpa /\ m.2 = size) (hv_maps h) with
      | Some (i, _) =>
          Some {| hv_partition := hv_partition h; hv_emulator := hv_emulator h;
                  hv_vps := hv_vps h; hv_maps := delete i (hv_maps h); hv_blocks := hv_blocks h;
                  hv_workers := hv_workers h |}
      | None => None
      end
  | CallDestroyEmulator =>
      if hv_emulator h
      then Some {| hv_partition := hv_partition h; hv_emulator := false; hv_vps := hv_vps h;
                   hv_maps := hv_maps h; hv_blocks := hv_blocks h; hv_workers := hv_workers h |}
      else None
  | CallDeletePartition =>
      match hv_partition h, hv_vps h, hv_maps h, hv_workers h with
      | true, [], [], [] =>
          Some {| hv_partition := false; hv_emulator := hv_emulator h; hv_vps := [];
                  hv_maps := []; hv_blocks := hv_blocks h; hv_workers := [] |}
      | _, _, _, _ => None
      end
  | CallFree base =>
      match list_find (fun b => b.1 = base) (hv_blocks h), hv_workers h with
      | Some (i, b), [] =>
          if existsb (fun m => in_block m b) (hv_maps h) then None
          else Some {| hv_partition := hv_partition h; hv_emulator := hv_emulator h;
                       hv_vps := hv_vps h; hv_maps := hv_maps h;
                       hv_blocks := delete i (hv_blocks h); hv_workers := [] |}
      | _, _ => None
      end
  end.

Fixpoint hv_run (h : HvState) (cs : list HvCall) : option HvState :=
  match cs with
  | [] => Some h
  | c :: cs' => match hv_step h c with Some h' => hv_run h' cs' | None => None end
  end.

(** ** The destructor *)

Section drop.
Context {Ev : Type}.

(** Whether the handler's device has a worker thread: the devices' own
    destructors stop and join it. *)
(* src/devices/virtio/block/device.rs:437-443, Block::drop *)
Definition handler_has_worker (h : MmioHandler Ev) : bool :=
  match h with
  | BlockTransport t => bool_decide (is_Some (vc_worker (blk_core (mt_device t))))
  | RngTransport t => bool_decide (is_Some (vc_worker (rng_core (mt_device t))))
  | ConsoleTransport t => bool_decide (is_Some (vc_worker (con_core (mt_device t))))
  | NetTransport t => bool_decide (is_Some (vc_worker (net_core (mt_device t))))
  | IoApicMmioAdapter | PciEcamHandler => false
  end.

Definition running_workers (p : Partition Ev) : list string :=
  map fst (filter (fun kv => handler_has_worker kv.2 = true) (map_to_list (pt_mmio_handlers p))).

(** [order] is the order in which the map of handlers is cleared, which is not
    specified. *)
(* src/partition.rs:394-443, Partition::drop *)
Definition drop_calls (order : list string) (p : Partition Ev) : list HvCall :=
  map CallJoinWorker order
    ++ map CallDeleteVp (seqZ 0 (cm_cpus (pt_cpu_manager p)))
    ++ map (fun r => CallUnmap (mr_gpa r) (mr_size r)) (mm_regions (pt_memory p))
    ++ [CallDestroyEmulator]
    ++ [CallDeletePartition]
    ++ match pt_guest_memory_base p with Some base => [CallFree base] | None => [] end.

End drop.

(** ** What a partition holds *)

(** A region's host mapping. *)
Definition region_map (r : MemoryRegion) : Z * Z * Z := (default 0 (mr_hpa r), mr_gpa r, mr_size r).

(** The host's state as the partition's fields record it, without its workers. *)
Record holds {Ev} (p : Partition Ev) (h : HvState) : Prop := {
  ho_partition : hv_partition h = true;
  ho_emulator : hv_emulator h = true;
  ho_vps : Forall (fun i => 0 <= i < cm_cpus (pt_cpu_manager p)) (hv_vps h);
  ho_maps : hv_maps h = map region_map (mm_regions (pt_memory p));
  ho_blocks : map fst (hv_blocks h) = match pt_guest_memory_base p with Some base => [base] | None => [] end;
  ho_workers : hv_workers h = [];
}.

(** The calls made so far were accepted and left what the partition records. *)
Definition accounted {Ev} (p : Partition Ev) : Prop :=
  exists h, hv_run hv_empty (pt_calls p) = Some h /\ holds p h.

Lemma hv_run_app h cs cs' :
  hv_run h (cs ++ cs') = match hv_run h cs with Some h' => hv_run h' cs' | None => None end.
Proof.
  revert h. induction cs as [|c cs IH]; intros h; [done|]. cbn [hv_run app].
  destruct (hv_step h c); [apply IH|done].
Qed.

Lemma without_absent {A} `{!EqDecision A} (x : A) l : x ∉ l -> without x l = l.
Proof.
  induction l as [|y l IH]; intros Hx; [done|]. apply not_elem_of_cons in Hx as [Hy Hx].
  unfold without. rewrite filter_cons_True by done. f_equal. by apply IH.
Qed.

Lemma run_joins order ws h :
  NoDup ws -> order ≡ₚ ws ->
  hv_run (hv_with_workers ws h) (map CallJoinWorker order) = Some (hv_with_workers [] h).
Proof.
  revert ws. induction order as [|name order IH]; intros ws Hnd Hp.
  - by apply Permutation_nil in Hp as ->.
  - cbn [map hv_run hv_step hv_workers hv_with_workers].
    rewrite bool_decide_eq_true_2 by (rewrite <- Hp; left).
    assert (without name ws ≡ₚ order) as Hw.
    { unfold without. rewrite <- Hp. rewrite <- Hp in Hnd. apply NoDup_cons in Hnd as [Hnin _].
      rewrite filter_cons_False by (intros E; by apply E).
      fold (without name order). by rewrite without_absent. }
    apply (IH (without name ws)); [|by symmetry]. by apply NoDup_filter.
Qed.

Lemma run_deletes ids h :
  Forall (fun i => i ∈ ids) (hv_vps h) ->
  exists h', hv_run h (map CallDeleteVp ids) = Some h' /\ hv_vps h' = [] /\
    hv_partition h' = hv_partition h /\ hv_emulator h' = hv_emulator h /\
    hv_maps h' = hv_maps h /\ hv_blocks h' = hv_blocks h /\ hv_workers h' = hv_workers h.
Proof.
  revert h. induction ids as [|i ids IH]; intros h Hi.
  - exists h. split_and!; try done. destruct (hv_vps h) as [|x l]; [done|].
    apply Forall_cons in Hi as [Hx _]. by apply not_elem_of_nil in Hx.
  - cbn [map hv_run hv_step].
    match goal with |- context [hv_run ?x _] => destruct (IH x) as (h' & Hr & Hv & Hrest) end.
    + cbn [hv_vps]. unfold without. rewrite Forall_forall in Hi |- *.
      intros x [Hne Hx]%list_elem_of_filter. specialize (Hi x Hx).
      by apply elem_of_cons in Hi as [?|?].
    + by exists h'.
Qed.

Lemma run_unmaps rs h :
  hv_maps h = map region_map rs ->
  exists h', hv_run h (map (fun r => CallUnmap (mr_gpa r) (mr_size r)) rs) = Some h' /\
    hv_maps h' = [] /\ hv_partition h' = hv_partition h /\ hv_emulator h' = hv_emulator h /\
    hv_vps h' = hv_vps h /\ hv_blocks h' = hv_blocks h /\ hv_workers h' = hv_workers h.
Proof.
  revert h. induction rs as [|r rs IH]; intros h Hm; [by exists h|].
  cbn [map hv_run hv_step]. rewrite Hm. cbn [map list_find region_map].
  rewrite decide_True by done.
  match goal with |- context [hv_run ?x _] => destruct (IH x eq_refl) as (h' & Hr & Hrest) end.
  by exists h'.
Qed.

Lemma running_workers_nodup {Ev} (p : Partition Ev) : NoDup (running_workers p).
Proof.
  unfold running_workers. eapply sublist_NoDup; [apply (NoDup_fst_map_to_list (pt_mmio_handlers p))|].
  by apply fmap_sublist, sublist_filter.
Qed.

(** The destructor gives back what the partition holds, in an order the
    hypervisor accepts. *)
Lemma drop_releases {Ev} (p : Partition Ev) h order :
  holds p h -> order ≡ₚ running_workers p ->
  hv_run (hv_with_workers (running_workers p) h) (drop_calls order p) = Some hv_empty.
Proof.
  intros [Hpart Hemu Hvps Hmaps Hblocks Hworkers] Ho. unfold drop_calls.
  rewrite hv_run_app, (run_joins order (running_workers p)); [|apply running_workers_nodup|done].
  rewrite hv_run_app.
  destruct (run_deletes (seqZ 0 (cm_cpus (pt_cpu_manager p))) (hv_with_workers [] h))
    as (h1 & -> & V1 & P1 & E1 & M1 & B1 & W1).
  { apply (Forall_impl _ _ _ Hvps). cbv beta. intros i Hi. apply elem_of_seqZ. lia. }
  rewrite hv_run_app.
  destruct (run_unmaps (mm_regions (pt_memory p)) h1) as (h2 & -> & M2 & P2 & E2 & V2 & B2 & W2).
  { by rewrite M1. }
  destruct h2 as [part emu vps maps blocks workers]. cbn in *. subst. cbn.
  rewrite E1, Hemu. cbn. rewrite P1, Hpart, V1, W1. cbn.
  destruct (pt_guest_memory_base p) as [base|]; cbn in Hblocks |- *; rewrite B1.
  - destruct (hv_blocks h) as [|[b n] [|]]; try done. injection Hblocks as ->. cbn.
    by rewrite decide_True.
  - by destruct (hv_blocks h).
Qed.

(** ** Construction *)

Section construction.
Context {prof : Profile} {Ev : Type} `{!WinEvent Ev} `{!WhvInterruptTypes} `{!VirtioConsts}
  `{!PartitionHost} {Sdt : Type} `{!AcpiTables Sdt}.
Implicit Types p : Partition Ev.

(** What the host's state depends on. *)
Definition host_part p : list HvCall * Z * list MemoryRegion * option Z :=
  (pt_calls p, cm_cpus (pt_cpu_manager p), mm_regions (pt_memory p), pt_guest_memory_base p).
Definition same_host : relation (Partition Ev) := fun p p' => host_part p' = host_part p.
#[export] Instance same_host_preorder : PreOrder same_host.
Proof. split; unfold same_host; [done|congruence]. Qed.

Lemma accounted_same p p' : same_host p p' -> accounted p -> accounted p'.
Proof.
  unfold same_host, host_part. intros [= Ec En Er Eb] (h & Hr & [Hp He Hv Hm Hb Hw]).
  exists h. split; [by rewrite Ec|]. split; rewrite ?En, ?Er, ?Eb; done.
Qed.

Lemma register_window_host gpa size name h :
  keeps same_host (register_mmio_region (Ev:=Ev) gpa size name h).
Proof.
  apply keeps_gets_bind. intros p. cbn [id]. unfold mbind, M_bind, lift.
  destruct (ok_or _ _); try done. destruct (check_ram_overlap _ _ _); try done.
  by destruct (check_mmio_overlap _ _ _).
Qed.
#[local] Hint Resolve register_window_host : keeps.

Lemma register_devices_host path ex : keeps same_host (register_devices (Ev:=Ev) path ex).
Proof.
  unfold register_devices, setup_ioapic, setup_pci_ecam, setup_virtio_block, setup_virtio_rng,
    setup_virtio_console, setup_virtio_net, new_transport, register_virtio, register_mmio_handler.
  keeps; unfold same_host; reflexivity.
Qed.

(** A range at an offset into a fresh block can be mapped. *)
Lemma map_in_block source gpa size base n :
  base <= source -> source + size <= base + n ->
  existsb (in_block (source, gpa, size)) [(base, n)] = true.
Proof.
  intros. cbn. unfold in_block. cbn.
  by rewrite (proj2 (Z.leb_le _ _)), (proj2 (Z.leb_le _ _)) by lia.
Qed.

(** The calls [cs] were made since; they are accepted and the partition records
    them. *)
Ltac account cs :=
  match goal with Hfin : forall p' cs h', _, Hreg : mm_regions _ = [] |- _ =>
    eapply (Hfin _ cs);
      [ cbn; by rewrite <- ?app_assoc
      | repeat (cbn [hv_run hv_step hv_blocks hv_partition andb]; rewrite ?map_in_block by lia);
        reflexivity
      | split; cbn; try done; by rewrite Hreg ]
  end.

(** The allocation, under an arbitrary host: at whichever call it fails, what
    was acquired before is recorded. *)
Lemma allocate_accounted size flags p h :
  0 <= size -> hv_run hv_empty (pt_calls p) = Some h -> holds p h ->
  mm_regions (pt_memory p) = [] -> pt_guest_memory_base p = None ->
  accounted (allocate_memory_with_size (Ev:=Ev) size flags p).2.
Proof.
  intros Hs Hr [Hp He Hv Hm Hb Hw] Hreg Hbase. unfold allocate_memory_with_size, hv_call.
  rewrite Hreg in Hm. rewrite Hbase in Hb. apply fmap_nil_inv in Hb.
  destruct h as [part emu vps maps blocks workers]. cbn in Hp, He, Hv, Hm, Hb, Hw. subst.
  set (source := VirtualAlloc size). pose proof (eq_refl : MEM_32BIT_DEVICES_START = 0xc0000000).
  pose proof (eq_refl : MEM_32BIT_RESERVED_START = 0xfec00000).
  destruct (source =? 0).
  { eexists. split; [exact Hr|]. split; cbn; try done; by rewrite ?Hreg, ?Hbase. }
  assert (forall p' cs h', pt_calls p' = pt_calls p ++ cs ->
    hv_run {| hv_partition := true; hv_emulator := true; hv_vps := vps; hv_maps := [];
              hv_blocks := []; hv_workers := [] |} cs = Some h' -> holds p' h' -> accounted p')
    as Hfin.
  { intros p' cs h' Hc Hrun Hh. exists h'. split; [|done]. by rewrite Hc, hv_run_app, Hr. }
  run_St. destruct (Z.leb_spec size MEM_32BIT_RESERVED_START).
  - destruct (WHvMapGpaRange _ _ _ _) as [[]|e| |]; cbn [fst snd].
    2-4: account [CallAlloc source size].
    account [CallAlloc source size; CallMap source 0 size].
  - rewrite usub_ok by lia.
    destruct (WHvMapGpaRange source _ _ _) as [[]|e| |]; cbn [fst snd].
    2-4: account [CallAlloc source size].
    destruct (WHvMapGpaRange _ _ _ _) as [[]|e| |]; cbn [fst snd].
    2-4: account [CallAlloc source size; CallMap source 0 MEM_32BIT_DEVICES_START].
    account [CallAlloc source size; CallMap source 0 MEM_32BIT_DEVICES_START;
      CallMap (source + MEM_32BIT_DEVICES_START) RAM_64BIT_START (size - MEM_32BIT_DEVICES_START)].
Qed.

(** A partition that [Partition::new] returned. *)
Record fresh p : Prop := {
  fr_calls : pt_calls p = [CallCreatePartition; CallCreateEmulator];
  fr_regions : mm_regions (pt_memory p) = [];
  fr_base : pt_guest_memory_base p = None;
}.

Lemma partition_new_fresh tsc now size p log :
  partition_new (Sdt:=Sdt) tsc now size [] = (Ok p, log) -> fresh p.
Proof.
  unfold partition_new. run_St. destruct WHvCreatePartition; try done.
  destruct WHvEmulatorCreateEmulator; try done. destruct (device_manager_new size); try done.
  cbn. by intros [= <- _].
Qed.

Lemma early_accounted p cs vps h :
  pt_calls p = cs -> hv_run hv_empty cs = Some h -> hv_partition h = true -> hv_emulator h = true ->
  hv_vps h = vps -> hv_maps h = [] -> hv_blocks h = [] -> hv_workers h = [] ->
  Forall (fun i => 0 <= i < cm_cpus (pt_cpu_manager p)) vps ->
  mm_regions (pt_memory p) = [] -> pt_guest_memory_base p = None ->
  hv_run hv_empty (pt_calls p) = Some h /\ holds p h.
Proof.
  intros -> Hr Hp He <- Hm Hb Hw Hv Hreg Hbase. split; [done|].
  split; try done; by rewrite ?Hreg, ?Hbase, ?Hm, ?Hb.
Qed.

(** The construction, under an arbitrary host. *)
Lemma prepare_accounted size p :
  0 <= size -> fresh p -> accounted (prepare (Ev:=Ev) size p).2.
Proof.
  intros Hs [Hc Hreg Hbase].
  unfold prepare, partition_configure, partition_setup, create_vp, hv_call. run_St.
  destruct (WHvSetProcessorCount 1) as [[]|e| |]; cbn [fst snd].
  2-4: by eexists; eapply early_accounted.
  destruct (WHvSetLocalApicEmulationMode 1) as [[]|e| |]; cbn [fst snd].
  2-4: by eexists; eapply early_accounted.
  destruct (WHvSetCpuidExitList _) as [[]|e| |]; cbn [fst snd].
  2-4: by eexists; eapply early_accounted.
  destruct WHvSetupPartition as [[]|e| |]; cbn [fst snd].
  2-4: by eexists; eapply early_accounted.
  destruct (WHvCreateVirtualProcessor 0) as [[]|e| |]; cbn [fst snd].
  2-4: eexists; eapply early_accounted; cbn; rewrite ?Hc; try done; by constructor.
  match goal with |- context [allocate_memory_with_size _ _ ?q] => set (q1 := q) end.
  edestruct (early_accounted q1) as [Hr Hh]; cycle -1;
    [eapply (allocate_accounted size PERM_RWX q1 _ Hs Hr Hh)|..]; subst q1; cbn; rewrite ?Hc;
    try done. repeat constructor; lia.
Qed.

Lemma construct_accounted size path ex p :
  0 <= size -> fresh p -> accounted (construct (Ev:=Ev) size path ex p).2.
Proof.
  intros Hs Hf. pose proof (prepare_accounted size p Hs Hf) as Ha.
  unfold construct, mbind, M_bind. destruct (prepare size p) as [[[]|e| |] p1]; try done.
  pose proof (register_devices_host path ex p1) as Hsame. by eapply accounted_same.
Qed.

End construction.

(** The one exception: when the emulator cannot be created there is no
    partition object yet, and the handle of the partition is lost. *)
Lemma partition_new_loses_handle {Ev} `{!PartitionHost} {prof : Profile} {Sdt} `{!AcpiTables Sdt}
    tsc now size e :
  WHvCreatePartition = Ok tt -> WHvEmulatorCreateEmulator = Err e ->
  partition_new (Ev:=Ev) (Sdt:=Sdt) tsc now size [] = (Err e, [CallCreatePartition]).
Proof. intros Hp He. unfold partition_new. run_St. by rewrite Hp, He. Qed.

(** ** An example *)

(** The mapping of the upper memory is refused. *)
Definition failing_host : PartitionHost :=
  {| WHvCreatePartition := Ok tt; WHvEmulatorCreateEmulator := Ok tt;
     WHvSetLocalApicEmulationMode _ := Ok tt; WHvSetCpuidExitList _ := Ok tt;
     WHvSetupPartition := Ok tt; WHvCreateVirtualProcessor _ := Ok tt;
     VirtualAlloc _ := 0x7f0000000000;
     WHvMapGpaRange _ gpa _ _ := if gpa =? 0 then Ok tt else Err "no resources"%string;
     WHvSetProcessorCount _ := Ok tt; WHvMapGpaRangeFlagRead := 1; WHvMapGpaRangeFlagWrite := 2;
     WHvMapGpaRangeFlagExecute := 4; create_image _ := Ok tt;
     open_image _ := Ok (0x40000000, 512, None); gvproxy_available := true |}.

Definition failing_partition : Partition nat :=
  match (partition_new (prof:=dev_profile) (H1:=failing_host) (Sdt:=list Z) 17 0 0x140000000 []).1 with
  | Ok p => p
  | _ => example_partition
  end.
