(* ===== verification/Shutdown.v ===== *)
(** * Shutdown: the request that stops the machine

    The escape key and the console's control events end the machine from other
    threads: they clear the flag [RUNNING] and cancel the processor's run
    ([src/partition.rs], [src/terminal.rs]).  The threads are interleaved here
    step by step: the loop of [src/vm.rs] with its test, its run and its
    handling of the exit as separate steps, any number of requests, each of two
    steps, and the workers of the devices, which the main thread joins when a
    device is reset and when the partition is dropped.  The hypervisor keeps a
    cancellation until the next run when none is under way. *)

From S2P Require Import Prelude Bytes HostMem GuestMem Queue Irqchip Bus VirtioDev Mmio Layout Acpi Partition Vm VmRun Lifecycle.

(** ** State *)

(** The statics that the threads share; [CANCEL_HANDLE] is 0 until
    [Partition::new] stores the partition's handle. *)
(* src/partition.rs:16-18, CANCEL_HANDLE / RUNNING *)
Record Control : Type := { ct_cancel_handle : Z; ct_running : bool }.
(* src/partition.rs:17-18, CANCEL_HANDLE / RUNNING *)
Definition control_initial : Control := {| ct_cancel_handle := 0; ct_running := true |}.

(* src/partition.rs:52-52, Partition::new *)
Definition store_handle (handle : Z) (c : Control) : Control :=
  {| ct_cancel_handle := handle; ct_running := ct_running c |}.

(* src/partition.rs:112-114, Partition::is_running *)
Definition is_running (c : Control) : bool := ct_running c.

(** Where the main thread is: about to test the flag, inside
    [WHvRunVirtualProcessor], with the result of the run, out of the loop,
    unwinding after a panic, joining workers before it goes on, past the
    destructor of the partition. *)
Inductive MainPc : Type :=
| AtTest | InRun | AtExit (exit : ExitContext + string) | OutOfLoop (why : StopReason) | Unwinding
| Joining (ws : list string) (next : MainPc) | Dropped.

(** Where a worker is: in a round of its loop, at the wait, ended. *)
Inductive WorkerPc : Type := InRound | AtWait | Stopped.

(** Where a request is: not started, past the store, done. *)
Inductive RequestPc : Type := Requested | Stored | Cancelled.

Record Threads (Ev : Type) : Type := {
  th_vm : Vm Ev;
  th_control : Control;
  (** the hypervisor's memory of a cancellation *)
  th_pending : bool;
  th_main : MainPc;
  th_requests : list RequestPc;
  (** the worker of each handler, by the handler's name *)
  th_workers : string -> WorkerPc;
  (** cancellations of a partition that no longer exists *)
  th_stale : nat;
}.
Arguments th_vm {Ev}.
Arguments th_control {Ev}.
Arguments th_pending {Ev}.
Arguments th_main {Ev}.
Arguments th_requests {Ev}.
Arguments th_workers {Ev}.
Arguments th_stale {Ev}.
Arguments Build_Threads {Ev}.

Section shutdown.
Context {prof : Profile} {Ev : Type} `{!WinEvent Ev} `{!WhvInterruptTypes} `{!VirtioConsts}
  `{!VmHost}.

#[local] Abbreviation T := (Threads Ev).
#[local] Abbreviation V := (Vm Ev).
Implicit Types t : Threads Ev.

Definition th_at (pc : MainPc) (t : T) : T :=
  {| th_vm := th_vm t; th_control := th_control t; th_pending := th_pending t; th_main := pc;
     th_requests := th_requests t; th_workers := th_workers t; th_stale := th_stale t |}.
Definition th_with_vm (v : V) (t : T) : T :=
  {| th_vm := v; th_control := th_control t; th_pending := th_pending t; th_main := th_main t;
     th_requests := th_requests t; th_workers := th_workers t; th_stale := th_stale t |}.
Definition th_with_pending (b : bool) (t : T) : T :=
  {| th_vm := th_vm t; th_control := th_control t; th_pending := b; th_main := th_main t;
     th_requests := th_requests t; th_workers := th_workers t; th_stale := th_stale t |}.
Definition th_with_requests (c : Control) (rs : list RequestPc) (t : T) : T :=
  {| th_vm := th_vm t; th_control := c; th_pending := th_pending t; th_main := th_main t;
     th_requests := rs; th_workers := th_workers t; th_stale := th_stale t |}.
Definition th_with_stale (n : nat) (t : T) : T :=
  {| th_vm := th_vm t; th_control := th_control t; th_pending := th_pending t; th_main := th_main t;
     th_requests := th_requests t; th_workers := th_workers t; th_stale := n |}.
Definition th_with_workers (ws : string -> WorkerPc) (t : T) : T :=
  {| th_vm := th_vm t; th_control := th_control t; th_pending := th_pending t; th_main := th_main t;
     th_requests := th_requests t; th_workers := ws; th_stale := th_stale t |}.
Definition th_with_worker (w : string) (pc : WorkerPc) (t : T) : T :=
  th_with_workers (fun w' => if decide (w' = w) then pc else th_workers t w') t.

(** ** The main thread *)

(** The exit of a cancelled run. *)
Definition canceled (ctx : ExitContext) : Prop := ec_exit ctx = ExitCanceled.

(* src/vm.rs:36-36, run *)
Definition test_running (t : T) : T :=
  if is_running (th_control t) then th_at InRun t else th_at (OutOfLoop StoppedByUser) t.

Definition workers_of (v : V) : list string := running_workers (v_partition v).

(** The workers that an exit has joined, those of the devices it has reset, and
    those it has started; no exit does both to one device. *)
Definition joined_workers (v v' : V) : list string :=
  filter (fun w => w ∉ workers_of v') (workers_of v).
Definition started_workers (v v' : V) : list string :=
  filter (fun w => w ∉ workers_of v) (workers_of v').

(** Where the main thread goes after the exit. *)
Definition after_exit (r : out string bool) : MainPc :=
  match r with
  | Ok true => AtTest
  | Ok false => OutOfLoop GuestStopped
  | Err e => OutOfLoop (ExitFailed e)
  | Panic | NoFuel => Unwinding
  end.

(** The handling of one exit, as in the body of the loop; a worker that is
    started begins at its wait. *)
(* src/vm.rs:39-76, run *)
Definition exit_step (exit : ExitContext + string) (t : T) : T :=
  match exit with
  | inr e => th_at (OutOfLoop (RunFailed e)) t
  | inl ctx =>
      let '(r, v) := (handle_exit ctx : M V string bool) (th_vm t) in
      let started := started_workers (th_vm t) v in
      th_at (Joining (joined_workers (th_vm t) v) (after_exit r))
        (th_with_workers (fun w => if decide (w ∈ started) then AtWait else th_workers t w)
          (th_with_vm v t))
  end.

(** A run returns at once, as cancelled, when a cancellation is pending;
    otherwise it returns when the guest exits or the call fails, if it does.
    The destructor, on the way out as on a panic, joins the workers of the
    devices in any order before it deletes anything; a join waits until the
    worker has ended. *)
(* src/partition.rs:346-358, Partition::run_vp *)
Inductive main_step : T -> T -> Prop :=
| step_test t : th_main t = AtTest -> main_step t (test_running t)
| step_cancelled t ctx :
    th_main t = InRun -> th_pending t = true -> canceled ctx ->
    main_step t (th_at (AtExit (inl ctx)) (th_with_pending false t))
| step_guest_exit t exit :
    th_main t = InRun -> th_pending t = false -> main_step t (th_at (AtExit exit) t)
| step_exit t exit : th_main t = AtExit exit -> main_step t (exit_step exit t)
| step_drop t order :
    ((exists why, th_main t = OutOfLoop why) \/ th_main t = Unwinding) ->
    order ≡ₚ workers_of (th_vm t) -> main_step t (th_at (Joining order Dropped) t)
| step_join t w ws next :
    th_main t = Joining (w :: ws) next -> th_workers t w = Stopped ->
    main_step t (th_at (Joining ws next) t)
| step_joined t next : th_main t = Joining [] next -> main_step t (th_at next t).

(** ** The workers

    A worker is woken for a round and comes back to its wait, if the round
    ends; it takes the stop event, which the main thread signals before it
    joins, at its wait; a wait that fails and a panic end it. *)
Inductive worker_step : T -> T -> Prop :=
| step_round t w : th_workers t w = AtWait -> worker_step t (th_with_worker w InRound t)
| step_round_end t w : th_workers t w = InRound -> worker_step t (th_with_worker w AtWait t)
| step_stop t w ws next :
    th_main t = Joining (w :: ws) next -> th_workers t w = AtWait ->
    worker_step t (th_with_worker w Stopped t)
| step_fail t w : th_workers t w <> Stopped -> worker_step t (th_with_worker w Stopped t).

(** ** The requests *)

(** [RUNNING.store(false)] *)
(* src/partition.rs:161-161, Partition::cancel_vp *)
Definition store_stop (c : Control) : Control :=
  {| ct_cancel_handle := ct_cancel_handle c; ct_running := false |}.

(** The load of the handle and the call.  A cancellation of a deleted
    partition is a call on a stale handle; its result is dropped. *)
(* src/partition.rs:162-167, Partition::cancel_vp *)
Definition cancel_run (t : T) : T :=
  if ct_cancel_handle (th_control t) =? 0 then t
  else match th_main t with
       | Dropped => th_with_stale (S (th_stale t)) t
       | _ => th_with_pending true t
       end.

(** [signal_shutdown], called by the reader of the keyboard and by the handler
    of control events, in whatever thread each runs. *)
(* src/terminal.rs:160-162, signal_shutdown *)
Inductive request_step : T -> T -> Prop :=
| step_store t i :
    th_requests t !! i = Some Requested ->
    request_step t (th_with_requests (store_stop (th_control t)) (<[i := Stored]> (th_requests t)) t)
| step_cancel t i :
    th_requests t !! i = Some Stored ->
    request_step t (th_with_requests (th_control t) (<[i := Cancelled]> (th_requests t)) (cancel_run t)).

Definition thread_step (t t' : T) : Prop := main_step t t' \/ request_step t t' \/ worker_step t t'.

(** The state in which [main] enters the loop: the partition exists, nothing
    was cancelled; the requests are those that will come. *)
Record at_start (v : V) (t : T) : Prop := {
  as_vm : th_vm t = v;
  as_running : ct_running (th_control t) = true;
  as_handle : ct_cancel_handle (th_control t) <> 0;
  as_pending : th_pending t = false;
  as_main : th_main t = AtTest;
  as_requests : Forall (eq Requested) (th_requests t);
  as_stale : th_stale t = O;
}.

(** ** The invariant *)

Definition stopping (t : T) : Prop := exists i pc, th_requests t !! i = Some pc /\ pc <> Requested.
Definition cancelled (t : T) : Prop := exists i, th_requests t !! i = Some Cancelled.

Record threads_ok (t : T) : Prop := {
  to_handle : ct_cancel_handle (th_control t) <> 0;
  (** the flag is clear exactly when a request has come *)
  to_flag : ct_running (th_control t) = false <-> stopping t;
  (** a completed request is not lost: a run under way will return *)
  to_pending : cancelled t -> th_main t = InRun -> th_pending t = true;
}.

Lemma insert_stopping t t' i pc pc' :
  th_requests t !! i = Some pc -> pc' <> Requested ->
  th_requests t' = <[i := pc']> (th_requests t) -> stopping t'.
Proof.
  intros Hi Hp Ht'. exists i, pc'. rewrite Ht'. split; [|done].
  apply list_lookup_insert_eq. by eapply lookup_lt_Some.
Qed.

Lemma th_same_requests t t' :
  th_requests t' = th_requests t -> th_control t' = th_control t ->
  (cancelled t -> th_main t' = InRun -> th_pending t' = true) -> threads_ok t -> threads_ok t'.
Proof.
  intros Hr Hc Hp [Hh Hf _]. unfold stopping, cancelled in *. split; rewrite ?Hc; unfold stopping, cancelled;
    rewrite ?Hr; done.
Qed.

(** Where a thread that joins is going. *)
Fixpoint target (pc : MainPc) : MainPc :=
  match pc with Joining _ next => target next | pc => pc end.

(** Where a thread goes from a join. *)
Definition joins_end (t : T) : Prop :=
  match th_main t with
  | Joining _ next => match next with AtTest | OutOfLoop _ | Unwinding | Dropped => True | _ => False end
  | _ => True
  end.

Lemma exit_step_control exit t :
  th_requests (exit_step exit t) = th_requests t /\ th_control (exit_step exit t) = th_control t /\
  joins_end (exit_step exit t) /\ th_main (exit_step exit t) <> InRun.
Proof.
  unfold joins_end. destruct exit as [ctx|e]; cbn [exit_step]; [|done].
  by destruct (handle_exit ctx (th_vm t)) as [[[]| | |] v].
Qed.

Lemma main_step_joins t t' : main_step t t' -> joins_end t -> joins_end t'.
Proof.
  intros Hs. pose proof (fun exit => exit_step_control exit t) as He. unfold joins_end in *.
  destruct Hs as [t Em|t ctx Em Ep _|t exit Em Ep|t exit Em|t order Em Ho|t w ws next Em Hw|t next Em];
    rewrite ?Em; try done.
  - unfold test_running. by destruct is_running.
  - intros _. apply He.
  - cbn. by destruct next.
Qed.

Lemma main_step_ok t t' : main_step t t' -> joins_end t -> threads_ok t -> threads_ok t'.
Proof.
  intros Hs Hj Hok. pose proof Hok as [Hh Hf Hp].
  destruct Hs as [t Em|t ctx Em Ep _|t exit Em Ep|t exit Em|t order Em Ho|t w ws next Em Hw|t next Em].
  - unfold test_running, is_running. destruct (ct_running (th_control t)) eqn:Er;
      (eapply th_same_requests; [..|exact Hok]; try done).
    intros (i & Hi) _. assert (true = false) as [=]. { apply Hf. by exists i, Cancelled. }
  - by eapply th_same_requests, Hok.
  - by eapply th_same_requests, Hok.
  - destruct (exit_step_control exit t) as (Hr & Hc & _ & Hn).
    by eapply th_same_requests, Hok.
  - by eapply th_same_requests, Hok.
  - by eapply th_same_requests, Hok.
  - eapply th_same_requests, Hok; [done..|]. cbn. intros _ ->. unfold joins_end in Hj. by rewrite Em in Hj.
Qed.

(** A worker's step changes nothing else. *)
Lemma worker_step_same t t' :
  worker_step t t' -> exists ws, t' = th_with_workers ws t.
Proof. intros []; by eexists. Qed.

Lemma request_step_ok t t' : request_step t t' -> threads_ok t -> threads_ok t'.
Proof.
  intros Hs [Hh Hf Hp]. destruct Hs as [t i Hi|t i Hi].
  - split; cbn [th_with_requests th_control th_requests th_main th_pending store_stop
      ct_running ct_cancel_handle]; [done| |].
    + split; [|done]. intros _. by apply (insert_stopping t _ i Requested Stored).
    + intros (j & Hj). cbn [th_with_requests th_requests] in Hj. apply Hp. exists j.
      destruct (decide (i = j)) as [<-|Hne].
      * rewrite list_lookup_insert_eq in Hj by (by eapply lookup_lt_Some). done.
      * by rewrite list_lookup_insert_ne in Hj by done.
  - assert (th_main (cancel_run t) = th_main t /\ th_pending (cancel_run t) =
      match th_main t with Dropped => th_pending t | _ => true end) as [Em Ep].
    { unfold cancel_run. rewrite (proj2 (Z.eqb_neq _ _) Hh). by destruct (th_main t) eqn:E; cbn. }
    split; cbn [th_with_requests th_control th_requests th_main th_pending]; [done| |].
    + rewrite Hf. split; intros _; [by apply (insert_stopping t _ i Stored Cancelled)|].
      by exists i, Stored.
    + intros _ Hm. rewrite Em in Hm. by rewrite Ep, Hm.
Qed.

Lemma start_ok v t : at_start v t -> threads_ok t.
Proof.
  intros [_ Hr Hh _ Hm Hq _]. rewrite Forall_lookup in Hq.
  split; [done| |by rewrite Hm]. rewrite Hr. split; [done|].
  intros (i & pc & Hi & Hn). by specialize (Hq _ _ Hi).
Qed.

Lemma thread_step_ok t t' :
  thread_step t t' -> threads_ok t /\ joins_end t -> threads_ok t' /\ joins_end t'.
Proof.
  intros [Hs|[Hs|Hs]] [Hok Hj].
  - split; [by eapply main_step_ok|by eapply main_step_joins].
  - split; [by eapply request_step_ok|]. destruct Hs as [t i Hi|t i Hi]; [done|].
    unfold joins_end, cancel_run in *. destruct (_ =? 0); [done|]. destruct (th_main t) eqn:E; cbn; rewrite ?E; done.
  - apply worker_step_same in Hs as [ws ->]. split; [|done].
    apply (th_same_requests t); [done..|apply Hok|done].
Qed.

Lemma reachable_ok v t0 t :
  at_start v t0 -> steps thread_step t0 t -> threads_ok t /\ joins_end t.
Proof.
  intros Hs Hr. eapply (steps_invariant thread_step (fun t => threads_ok t /\ joins_end t));
    [apply thread_step_ok|exact Hr|].
  split; [by eapply start_ok|]. unfold joins_end. by rewrite (as_main _ _ Hs).
Qed.

(** *** No worker outlives the partition *)

Definition joined_first (t : T) : Prop :=
  match th_main t with
  | Joining ws Dropped => forall w, w ∈ workers_of (th_vm t) -> w ∈ ws \/ th_workers t w = Stopped
  | Dropped => forall w, w ∈ workers_of (th_vm t) -> th_workers t w = Stopped
  | _ => True
  end.

Lemma exit_step_joined exit t : joined_first (exit_step exit t).
Proof.
  unfold joined_first. destruct exit as [ctx|e]; cbn [exit_step]; [|done].
  by destruct (handle_exit ctx (th_vm t)) as [[[]| | |] v].
Qed.

Lemma main_step_joined t t' : main_step t t' -> joins_end t -> joined_first t -> joined_first t'.
Proof.
  intros Hs He Hj.
  destruct Hs as [t Em|t ctx Em Ep _|t exit Em Ep|t exit Em|t order Em Ho|t w ws next Em Hw|t next Em];
    try done.
  - unfold joined_first, test_running. by destruct is_running.
  - apply exit_step_joined.
  - intros w Hw. left. by rewrite Ho.
  - unfold joined_first in *. rewrite Em in Hj. cbn. destruct next; try done. intros w' Hw'.
    destruct (Hj w' Hw') as [[->|Hin]%elem_of_cons|Hst]; [by right|by left|by right].
  - unfold joined_first, joins_end in *. rewrite Em in Hj, He. cbn. destruct next; try done.
    intros w Hw. by destruct (Hj w Hw) as [[]%elem_of_nil|].
Qed.

(** An ended worker does not come back. *)
Lemma worker_step_stopped t t' w :
  worker_step t t' -> th_workers t w = Stopped -> th_workers t' w = Stopped.
Proof.
  intros Hs Hw. destruct Hs as [t u Hu|t u Hu|t u ws next Em Hu|t u Hu]; cbn;
    destruct (decide (w = u)) as [->|]; congruence.
Qed.

Lemma thread_step_joined t t' :
  thread_step t t' -> joins_end t -> joined_first t -> joined_first t'.
Proof.
  intros [Hs|[Hs|Hs]] He Hj; [by eapply main_step_joined| |].
  - destruct Hs as [t i Hi|t i Hi]; [done|]. unfold joined_first, cancel_run in *.
    destruct (_ =? 0); [done|]. destruct (th_main t) eqn:E; cbn; rewrite ?E; done.
  - pose proof (fun w => worker_step_stopped t t' w Hs) as Hst. apply worker_step_same in Hs as [ws ->].
    unfold joined_first in *. cbn in *. destruct (th_main t) as [| | | | |l []|]; try done.
    + intros w Hw. destruct (Hj w Hw); [by left|right; auto].
    + auto.
Qed.

Lemma reachable_joined v t0 t : at_start v t0 -> steps thread_step t0 t -> joined_first t.
Proof.
  intros Hs Hr. enough ((threads_ok t /\ joins_end t) /\ joined_first t) by tauto.
  eapply (steps_invariant thread_step (fun t => (threads_ok t /\ joins_end t) /\ joined_first t));
    [|exact Hr|].
  - intros x y Hxy [Hok Hj]. split; [by eapply thread_step_ok|]. apply (thread_step_joined x y Hxy); tauto.
  - split; [by apply (reachable_ok v t0 t0 Hs), steps_refl|].
    unfold joined_first. by rewrite (as_main _ _ Hs).
Qed.

(** ** Progress *)

(** The stages on the way out, and the workers still to join in this one. *)
Fixpoint stage (pc : MainPc) : nat :=
  match pc with
  | InRun => 7 | AtExit _ => 6 | AtTest => 4 | OutOfLoop _ | Unwinding => 3 | Dropped => 0
  | Joining _ next => S (stage next)
  end.
Definition joins_left (pc : MainPc) : nat :=
  match pc with Joining ws _ => length ws | _ => O end.

(** The main thread has come further. *)
Definition further (t t' : T) : Prop :=
  (stage (th_main t') < stage (th_main t))%nat \/
  stage (th_main t') = stage (th_main t) /\ (joins_left (th_main t') < joins_left (th_main t))%nat.

Lemma main_step_progress t t' :
  threads_ok t -> cancelled t -> main_step t t' -> further t t'.
Proof.
  intros [_ Hf _] (i & Hi) Hs. assert (ct_running (th_control t) = false) as Hr.
  { apply Hf. by exists i, Cancelled. }
  unfold further.
  destruct Hs as [t Em|t ctx Em Ep _|t exit Em Ep|t exit Em|t order Em Ho|t w ws next Em Hw|t next Em].
  - rewrite Em. unfold test_running, is_running. rewrite Hr. cbn. lia.
  - rewrite Em. cbn. lia.
  - rewrite Em. cbn. lia.
  - rewrite Em. destruct exit as [ctx|e]; cbn [exit_step]; [|cbn; lia].
    destruct (handle_exit ctx (th_vm t)) as [[[]| | |] v]; cbn; lia.
  - destruct Em as [[why Em]|Em]; rewrite Em; cbn; lia.
  - rewrite Em. cbn. lia.
  - rewrite Em. cbn. lia.
Qed.

(** The one thing that the main thread waits for. *)
Definition waits_for_worker (t : T) : Prop :=
  exists w ws next, th_main t = Joining (w :: ws) next /\ th_workers t w <> Stopped.

(** Otherwise a main thread that has not ended can step; with a completed
    request its run returns without the guest. *)
Lemma main_can_step t :
  threads_ok t -> cancelled t -> th_main t <> Dropped -> ~ waits_for_worker t ->
  exists t', main_step t t' /\
    (forall exit, th_main t = InRun -> th_main t' = AtExit exit ->
       exists ctx, exit = inl ctx /\ canceled ctx).
Proof.
  intros [_ _ Hp] Hc Hd Hw.
  destruct (th_main t) as [| |exit|why| |[|w ws] next|] eqn:Em; [..|done].
  - eexists. split; [by apply step_test|done].
  - set (ctx := {| ec_exit := ExitCanceled; ec_rip := 0; ec_bitfield := 0 |}).
    eexists. split; [apply (step_cancelled t ctx); [done|by apply Hp|done]|].
    intros exit _ [= <-]. by exists ctx.
  - eexists. split; [by apply step_exit|done].
  - eexists. split; [by eapply step_drop; [left; eexists|]|done].
  - eexists. split; [by eapply step_drop; [right|]|done].
  - eexists. split; [by apply step_joined|done].
  - eexists. split; [eapply step_join; [exact Em|]|done].
    destruct (th_workers t w) eqn:Ew; [destruct Hw; exists w, ws, next; by rewrite Ew..|done].
Qed.

Lemma cancelled_keeps t t' : thread_step t t' -> cancelled t -> cancelled t'.
Proof.
  intros Hs (i & Hi). exists i. destruct Hs as [Hs|[Hs|Hs]].
  - destruct Hs as [t Em|t ctx Em Ep _|t exit Em Ep|t exit Em|t order Em Ho|t w ws next Em Hw|t next Em];
      try done.
    + unfold test_running. by destruct is_running.
    + by rewrite (proj1 (exit_step_control exit t)).
  - destruct Hs as [t j Hj|t j Hj]; cbn [th_with_requests th_requests];
      (destruct (decide (j = i)) as [->|]; [congruence|by rewrite list_lookup_insert_ne]).
  - by apply worker_step_same in Hs as [ws ->].
Qed.

(** The steps that bring the machine down: those of the main thread, and of the
    worker that it is joining the end of a round and the stop. *)
Inductive closing_step : T -> T -> Prop :=
| close_main t t' : main_step t t' -> closing_step t t'
| close_round t w ws next :
    th_main t = Joining (w :: ws) next -> th_workers t w = InRound ->
    closing_step t (th_with_worker w AtWait t)
| close_stop t w ws next :
    th_main t = Joining (w :: ws) next -> th_workers t w = AtWait ->
    closing_step t (th_with_worker w Stopped t).

Lemma closing_thread_step t t' : closing_step t t' -> thread_step t t'.
Proof.
  intros [t1 t2 Hs|t1 w ws next Em Ew|t1 w ws next Em Ew]; [by left|right; right..].
  - by apply step_round_end.
  - by eapply step_stop.
Qed.

Lemma th_with_worker_eq w pc t : th_workers (th_with_worker w pc t) w = pc.
Proof. cbn. by rewrite decide_True. Qed.

(** The worker that the main thread is joining ends. *)
Lemma worker_ends t w ws next :
  th_main t = Joining (w :: ws) next ->
  exists t', steps closing_step t t' /\ th_main t' = th_main t /\ th_workers t' w = Stopped.
Proof.
  intros Em.
  assert (forall t, th_main t = Joining (w :: ws) next -> th_workers t w = AtWait ->
    exists t', steps closing_step t t' /\ th_main t' = th_main t /\ th_workers t' w = Stopped) as Hstop.
  { intros u Eu Ew. eexists. split; [eapply steps_cons; [by eapply close_stop|apply steps_refl]|].
    split; [done|apply th_with_worker_eq]. }
  destruct (th_workers t w) eqn:Ew.
  - destruct (Hstop (th_with_worker w AtWait t)) as (t' & Hs & Em' & Ew'); [done|apply th_with_worker_eq|].
    exists t'. split; [|done]. eapply steps_cons; [by eapply close_round|done].
  - by apply Hstop.
  - exists t. split; [apply steps_refl|done].
Qed.

Lemma closing_reaches_drop n : forall k t,
  (stage (th_main t) < n)%nat -> (joins_left (th_main t) < k)%nat ->
  threads_ok t -> joins_end t -> cancelled t ->
  exists t', steps closing_step t t' /\ th_main t' = Dropped.
Proof.
  induction n as [|n IHn]; [lia|]. induction k as [|k IHk]; [lia|]. intros t Hn Hk Hok Hj Hc.
  destruct (decide (stage (th_main t) = O)) as [E0|].
  { exists t. split; [apply steps_refl|]. by destruct (th_main t). }
  assert (exists t1, steps closing_step t t1 /\ th_main t1 = th_main t /\ ~ waits_for_worker t1)
    as (t1 & Hs1 & Em1 & Hw1).
  { destruct (th_main t) as [| | | | |[|w ws] next|] eqn:Em.
    7: { destruct (worker_ends t w ws next Em) as (t1 & Hs & Em' & Ew). exists t1.
         split; [done|]. split; [congruence|]. intros (w' & ws' & next' & E & Ne). congruence. }
    all: exists t; split; [apply steps_refl|]; split; [done|]; intros (? & ? & ? & E & _); congruence. }
  assert ((threads_ok t1 /\ joins_end t1) /\ cancelled t1) as [[Hok1 Hj1] Hc1].
  { split; [eapply (steps_invariant closing_step (fun t => threads_ok t /\ joins_end t)); [|exact Hs1|done]|
      eapply (steps_invariant closing_step cancelled); [|exact Hs1|done]]; intros x y Hxy%closing_thread_step.
    - by apply thread_step_ok.
    - by apply cancelled_keeps. }
  destruct (main_can_step t1 Hok1 Hc1) as (t2 & Hs2 & _); [rewrite Em1; by intros E; rewrite E in *|done|].
  pose proof (main_step_progress t1 t2 Hok1 Hc1 Hs2) as Hfar. unfold further in Hfar. rewrite Em1 in Hfar.
  assert (thread_step t1 t2) as Ht by by left.
  destruct (thread_step_ok t1 t2 Ht (conj Hok1 Hj1)) as [Hok2 Hj2].
  pose proof (cancelled_keeps t1 t2 Ht Hc1) as Hc2.
  assert (exists t', steps closing_step t2 t' /\ th_main t' = Dropped) as (t' & Hs' & Em').
  { destruct Hfar as [Hlt|[Heq Hlt]]; [|apply IHk; (done || lia)].
    apply (IHn (S (joins_left (th_main t2)))); (done || lia). }
  exists t'. split; [|done]. eapply steps_trans; [exact Hs1|].
  eapply steps_cons; [by apply close_main|exact Hs'].
Qed.

(** ** The loop of [Vm] *)

(** The turns that the main thread has taken so far. *)
Inductive follows (v0 : V) : list (bool * (ExitContext + string)) -> T -> Prop :=
| follows_run ts t :
    (forall ts', vm_run (ts ++ ts') v0 = vm_run ts' (th_vm t)) ->
    (target (th_main t) = AtTest \/ th_main t = InRun \/ exists e, th_main t = AtExit e) -> follows v0 ts t
| follows_stopped ts t why :
    vm_run ts v0 = (Ok why, th_vm t) -> target (th_main t) = OutOfLoop why -> follows v0 ts t
| follows_ended ts t :
    (vm_run ts v0).2 = th_vm t -> (target (th_main t) = Dropped \/ target (th_main t) = Unwinding) ->
    follows v0 ts t.

Lemma vm_run_turn (exit : ExitContext + string) ts v :
  vm_run ((true, exit) :: ts) v =
  match exit with
  | inr e => (Ok (RunFailed e), v)
  | inl ctx =>
      let '(r, v') := (handle_exit ctx : M V string bool) v in
      match r with
      | Ok true => vm_run ts v'
      | Ok false => (Ok GuestStopped, v')
      | Err e => (Ok (ExitFailed e), v')
      | Panic => (Panic, v')
      | NoFuel => (NoFuel, v')
      end
  end.
Proof.
  cbn [vm_run negb]. destruct exit as [ctx|e]; [|done]. run_St.
  by destruct (handle_exit ctx v) as [[[]| | |] v'].
Qed.

Lemma follows_exit v0 ts t exit :
  (forall ts', vm_run (ts ++ ts') v0 = vm_run ts' (th_vm t)) -> th_main t = AtExit exit ->
  follows v0 (ts ++ [(true, exit)]) (exit_step exit t).
Proof.
  intros Hr Em. pose proof (vm_run_turn exit) as Ht. destruct exit as [ctx|e]; cbn [exit_step].
  2:{ eapply follows_stopped; [|done]. by rewrite Hr, Ht. }
  destruct (handle_exit ctx (th_vm t)) as [[[]|e| |] v'] eqn:Eh.
  - apply follows_run; [|by left]. intros ts'. rewrite <- app_assoc. cbn [app]. by rewrite Hr, Ht, Eh.
  - eapply follows_stopped; [|done]. by rewrite Hr, Ht, Eh.
  - eapply follows_stopped; [|done]. by rewrite Hr, Ht, Eh.
  - apply follows_ended; [|by right]. by rewrite Hr, Ht, Eh.
  - apply follows_ended; [|by right]. by rewrite Hr, Ht, Eh.
Qed.

(** What does not touch the machine and goes to the same place. *)
Lemma follows_same v0 ts t t' :
  th_vm t' = th_vm t -> th_main t' = th_main t -> follows v0 ts t -> follows v0 ts t'.
Proof.
  intros Hv Hm Hf. destruct Hf as [ts t Hr Hpc|ts t w Hr Hpc|ts t Hr Hpc].
  - apply follows_run; by rewrite ?Hv, ?Hm.
  - eapply follows_stopped; by rewrite ?Hv, ?Hm.
  - apply follows_ended; by rewrite ?Hv, ?Hm.
Qed.

Lemma follows_join v0 ts t t' ws next :
  th_vm t' = th_vm t -> th_main t = Joining ws next -> target (th_main t') = target next ->
  follows v0 ts t -> follows v0 ts t'.
Proof.
  intros Hv Em Ht Hf. destruct Hf as [ts t Hr Hpc|ts t w Hr Hpc|ts t Hr Hpc]; rewrite Em in Hpc.
  - destruct Hpc as [Hpc|[Hpc|[]]]; [|done..]. apply follows_run; rewrite ?Hv; [done|]. left. by rewrite Ht.
  - eapply follows_stopped; rewrite ?Hv; [done|by rewrite Ht].
  - apply follows_ended; rewrite ?Hv; [done|by rewrite Ht].
Qed.

Lemma follows_main v0 ts t t' : main_step t t' -> follows v0 ts t -> exists ts', follows v0 ts' t'.
Proof.
  intros Hs Hf.
  destruct Hs as [t Em|t ctx Em Ep _|t exit Em Ep|t exit Em|t order Em Ho|t w ws next Em Hw|t next Em].
  6, 7: exists ts; by refine (follows_join v0 ts t (th_at _ t) _ _ eq_refl Em _ Hf).
  5: { exists ts. apply follows_ended; [|by left]. destruct Hf as [ts t Hr Hpc|ts t w Hr Hpc|ts t Hr Hpc].
       - exfalso. destruct Em as [[why Em]|Em]; rewrite Em in Hpc; by destruct Hpc as [|[|[]]].
       - by rewrite Hr.
       - done. }
  all: destruct Hf as [ts t Hr Hpc|ts t w Hr Hpc|ts t Hr Hpc];
    [|rewrite Em in Hpc; cbn in Hpc; try (by destruct Hpc); done..].
  - unfold test_running. destruct is_running eqn:Er.
    + exists ts. apply follows_run; [done|]. right; by left.
    + exists (ts ++ [(false, inr ""%string)]). eapply follows_stopped; [|done]. by rewrite Hr.
  - exists ts. apply follows_run; [done|]. right; right; by eexists.
  - exists ts. apply follows_run; [done|]. right; right; by eexists.
  - exists (ts ++ [(true, exit)]). by apply follows_exit.
Qed.

Lemma follows_step v0 ts t t' : thread_step t t' -> follows v0 ts t -> exists ts', follows v0 ts' t'.
Proof.
  intros [Hs|[Hs|Hs]] Hf; [by eapply follows_main|exists ts..]; (eapply follows_same; [..|exact Hf]).
  1, 2: destruct Hs as [u i Hi|u i Hi]; [done|]; cbn; unfold cancel_run;
    destruct (_ =? 0); [done|]; by destruct (th_main u) eqn:E.
  all: by apply worker_step_same in Hs as [ws ->].
Qed.

Lemma follows_start v t : at_start v t -> follows v [] t.
Proof. intros [<- _ _ _ Hm _ _]. apply follows_run; [done|left]. by rewrite Hm. Qed.

Lemma follows_reachable v t0 t : at_start v t0 -> steps thread_step t0 t -> exists ts, follows v ts t.
Proof.
  intros Hs Hr. eapply (steps_invariant thread_step (fun t => exists ts, follows v ts t)); [|exact Hr|].
  - intros x y Hxy [ts Hf]. by eapply follows_step.
  - exists []. by apply follows_start.
Qed.

End shutdown.

(** ** Properties *)


(** The static handle outlives the partition: a request that comes after the
    partition was dropped cancels a run on a deleted handle. *)
Lemma late_request_uses_stale_handle {prof : Profile} {Ev} `{!WinEvent Ev} `{!WhvInterruptTypes}
    `{!VirtioConsts} `{!VmHost} (v : Vm Ev) :
  workers_of v = [] ->
  exists t0 t, at_start v t0 /\ steps thread_step t0 t /\ th_stale t = 1%nat.
Proof.
  intros Hv. set (c := store_handle 0x100 control_initial).
  set (t0 := {| th_vm := v; th_control := c; th_pending := false; th_main := AtTest;
                th_requests := [Requested]; th_workers := fun _ => AtWait; th_stale := O |}).
  eexists t0, _. split; [split; try done; by repeat constructor|]. split.
  - eapply steps_cons; [left; by apply step_test|].
    eapply steps_cons; [left; by apply (step_guest_exit _ (inr "failed"%string))|].
    eapply steps_cons; [left; by eapply step_exit|].
    eapply steps_cons; [left; eapply (step_drop _ []); [left; by eexists|by cbn; rewrite Hv]|].
    eapply steps_cons; [left; by eapply step_joined|].
    eapply steps_cons; [right; left; by apply (step_store _ 0)|].
    eapply steps_cons; [right; left; by apply (step_cancel _ 0)|]. apply steps_refl.
  - reflexivity.
Qed.

(** ** Witness *)

(** The request comes between the test of the flag and the run. *)
Definition example_threads : Threads nat :=
  {| th_vm := example_vm; th_control := store_handle 0x100 control_initial; th_pending := false;
     th_main := AtTest; th_requests := [Requested]; th_workers := fun _ => AtWait; th_stale := O |}.

Definition example_race : Threads nat :=
  {| th_vm := example_vm; th_control := store_stop (store_handle 0x100 control_initial);
     th_pending := true; th_main := InRun; th_requests := [Cancelled];
     th_workers := fun _ => AtWait; th_stale := O |}.

