(* ===== verification/CLayout.v ===== *)
(** * The layout of C types

    [#[repr(C)]] and [#[repr(C, packed)]] of the bindings in
    [src/bootparam.rs]: sizes, alignments and the places of fields, a place
    being reached by a path of field names and array indices.  Reading and
    writing the integer at a place of a value given as its bytes; places that
    part at a field of a structure or at an index do not overlap, so that a
    write is seen by the reads of its own path only. *)

From S2P Require Import Prelude Bytes.

Inductive repr := ReprC | Packed.

(** [Option<fn>] and pointers are integers of their width. *)
Inductive ctype : Type :=
| TInt (bytes : nat)
| TArray (elt : ctype) (n : nat)
| TStruct (r : repr) (fields : list (string * ctype))
| TUnion (r : repr) (fields : list (string * ctype)).

(** ** Sizes and alignments *)

Definition align_up (a x : nat) : nat := ((x + (a - 1)) / a * a)%nat.

(** The alignment the representation asks of a field. *)
Definition field_align (r : repr) (a : nat) : nat :=
  match r with Packed => 1%nat | ReprC => a end.

Fixpoint align_of (t : ctype) : nat :=
  match t with
  | TInt n => Nat.max 1 n
  | TArray t _ => align_of t
  | TStruct r fs | TUnion r fs =>
      field_align r (foldr (fun f a => Nat.max (align_of f.2) a) 1%nat fs)
  end.

(** Where the fields that remain end, from [off] on. *)
Fixpoint size_of (t : ctype) : nat :=
  match t with
  | TInt n => n
  | TArray t n => (n * size_of t)%nat
  | TStruct r fs =>
      let fix fields_end (off : nat) (fs : list (string * ctype)) : nat :=
        match fs with
        | [] => off
        | (_, t) :: fs' => fields_end (align_up (field_align r (align_of t)) off + size_of t)%nat fs'
        end in
      align_up (align_of (TStruct r fs)) (fields_end 0%nat fs)
  | TUnion r fs =>
      align_up (align_of (TUnion r fs)) (foldr (fun f a => Nat.max (size_of f.2) a) 0%nat fs)
  end.

Fixpoint fields_end (r : repr) (off : nat) (fs : list (string * ctype)) : nat :=
  match fs with
  | [] => off
  | (_, t) :: fs' => fields_end r (align_up (field_align r (align_of t)) off + size_of t)%nat fs'
  end.

(** ** Places *)

Inductive step := Fld (name : string) | Idx (i : nat).

#[export] Instance step_eq_dec : EqDecision step.
Proof. solve_decision. Defined.

Definition path : Type := list step.

Fixpoint field_at (r : repr) (off : nat) (fs : list (string * ctype)) (name : string) :
    option (nat * ctype) :=
  match fs with
  | [] => None
  | (m, t) :: fs' =>
      let o := align_up (field_align r (align_of t)) off in
      if bool_decide (m = name) then Some (o, t) else field_at r (o + size_of t)%nat fs' name
  end.

Fixpoint member (fs : list (string * ctype)) (name : string) : option ctype :=
  match fs with
  | [] => None
  | (m, t) :: fs' => if bool_decide (m = name) then Some t else member fs' name
  end.

(** One step from the start of a value. *)
Definition step_place (t : ctype) (s : step) : option (nat * ctype) :=
  match t, s with
  | TStruct r fs, Fld name => field_at r 0%nat fs name
  | TUnion _ fs, Fld name => t' ← member fs name; Some (0%nat, t')
  | TArray t' n, Idx i => if bool_decide (i < n)%nat then Some ((i * size_of t')%nat, t') else None
  | _, _ => None
  end.

Fixpoint place (t : ctype) (p : path) : option (nat * ctype) :=
  match p with
  | [] => Some (0%nat, t)
  | s :: p' =>
      '(o, t') ← step_place t s; '(o', t'') ← place t' p'; Some ((o + o')%nat, t'')
  end.

(** Where two paths part: at two fields of a structure or two elements of an
    array, never at a union. *)
Fixpoint parts (t : ctype) (p q : path) : bool :=
  match p, q with
  | s :: p', s' :: q' =>
      if bool_decide (s = s') then
        match step_place t s with Some (_, t') => parts t' p' q' | None => false end
      else match t with TUnion _ _ => false | _ => true end
  | _, _ => false
  end.

(** ** Integers at places, in the machine's byte order *)

Definition read_field (t : ctype) (p : path) (bs : list Z) : option Z :=
  x ← place t p;
  match x.2 with TInt n => Some (le_val (slice x.1 n bs)) | _ => None end.

Definition write_field (t : ctype) (p : path) (v : Z) (bs : list Z) : option (list Z) :=
  x ← place t p;
  match x.2 with TInt n => Some (splice x.1 (le_bytes n v) bs) | _ => None end.

(** A layout test of the bindings: the size, the alignment and the place of
    every field. *)
Definition layout_test (t : ctype) (size align : nat) (offsets : list (string * nat)) : bool :=
  (size_of t =? size)%nat && (align_of t =? align)%nat &&
  forallb (fun x => bool_decide (fst <$> step_place t (Fld x.1) = Some x.2)) offsets.

(** ** Layout lemmas *)

Lemma align_up_ge a x : (0 < a)%nat -> (x <= align_up a x)%nat.
Proof.
  intros Ha. unfold align_up. pose proof (Nat.div_mod_eq (x + (a - 1)) a) as H.
  pose proof (Nat.mod_upper_bound (x + (a - 1)) a ltac:(lia)). rewrite Nat.mul_comm. lia.
Qed.

Lemma foldr_max_ge {A} (f : A -> nat) b l : (b <= foldr (fun x a => Nat.max (f x) a) b l)%nat.
Proof. induction l; cbn; lia. Qed.

Lemma align_of_pos t : (0 < align_of t)%nat.
Proof.
  induction t as [n|t IH n|r fs|r fs]; cbn [align_of]; [lia|done|..]; destruct r; cbn [field_align];
    try lia; apply (foldr_max_ge (fun f => align_of f.2)).
Qed.

Lemma field_align_pos r t : (0 < field_align r (align_of t))%nat.
Proof. destruct r; [apply align_of_pos|cbn; lia]. Qed.

Lemma size_of_struct r fs :
  size_of (TStruct r fs) = align_up (align_of (TStruct r fs)) (fields_end r 0%nat fs).
Proof.
  cbn [size_of]. f_equal. generalize 0%nat. induction fs as [|[m t] fs IH]; intros off; cbn; [done|].
  apply IH.
Qed.

Lemma fields_end_ge r off fs : (off <= fields_end r off fs)%nat.
Proof.
  revert off. induction fs as [|[m t] fs IH]; intros off; cbn; [lia|].
  pose proof (align_up_ge _ off (field_align_pos r t)).
  specialize (IH (align_up (field_align r (align_of t)) off + size_of t)%nat). lia.
Qed.

Lemma field_at_bounds r off fs name o t :
  field_at r off fs name = Some (o, t) -> (off <= o)%nat /\ (o + size_of t <= fields_end r off fs)%nat.
Proof.
  revert off. induction fs as [|[m t'] fs IH]; intros off; cbn; [done|].
  pose proof (align_up_ge _ off (field_align_pos r t')) as Ha. case_bool_decide.
  - intros [= <- <-]. split; [done|]. apply fields_end_ge.
  - intros H1. apply IH in H1. lia.
Qed.

(** Fields with different names are one behind the other. *)
Lemma field_at_disjoint r off fs a b oa ta ob tb :
  a <> b -> field_at r off fs a = Some (oa, ta) -> field_at r off fs b = Some (ob, tb) ->
  (oa + size_of ta <= ob)%nat \/ (ob + size_of tb <= oa)%nat.
Proof.
  intros Hne. revert off. induction fs as [|[m t] fs IH]; intros off; cbn; [done|].
  repeat case_bool_decide; subst; [done| | |by eauto].
  - intros [= <- <-] Hb. apply field_at_bounds in Hb. lia.
  - intros Ha [= <- <-]. apply field_at_bounds in Ha. lia.
Qed.

Lemma member_size fs name t :
  member fs name = Some t -> (size_of t <= foldr (fun f a => Nat.max (size_of f.2) a) 0%nat fs)%nat.
Proof.
  induction fs as [|[m t'] fs IH]; cbn; [done|]. case_bool_decide; [intros [= ->]; lia|].
  intros H1. apply IH in H1. lia.
Qed.

Lemma step_place_bounds t s o t' : step_place t s = Some (o, t') -> (o + size_of t' <= size_of t)%nat.
Proof.
  destruct t as [n|t1 n|r fs|r fs], s as [name|i]; cbn [step_place]; try done.
  - case_bool_decide; [|done]. intros [= <- <-]. cbn [size_of]. nia.
  - intros H. apply field_at_bounds in H. rewrite size_of_struct.
    pose proof (align_up_ge _ (fields_end r 0%nat fs) (align_of_pos (TStruct r fs))). lia.
  - destruct (member fs name) as [t''|] eqn:Hm; cbn; [|done]. intros [= <- <-].
    apply member_size in Hm. cbn [size_of].
    pose proof (align_up_ge _ (foldr (fun f a => Nat.max (size_of f.2) a) 0%nat fs)
      (align_of_pos (TUnion r fs))). cbn [align_of] in *. lia.
Qed.

Lemma place_cons t s p o u :
  place t (s :: p) = Some (o, u) -> exists o1 t1 o2, step_place t s = Some (o1, t1) /\
    place t1 p = Some (o2, u) /\ o = (o1 + o2)%nat.
Proof.
  cbn [place]. destruct (step_place t s) as [[o1 t1]|]; cbn; [|done].
  destruct (place t1 p) as [[o2 t2]|] eqn:Hp; cbn; [|done]. intros [= <- <-].
  by exists o1, t1, o2.
Qed.

Lemma place_app t p q :
  place t (p ++ q) = '(o, t') ← place t p; '(o', t'') ← place t' q; Some ((o + o')%nat, t'').
Proof.
  revert t. induction p as [|s p IH]; intros t; cbn.
  - by destruct (place t q) as [[o' t'']|].
  - destruct (step_place t s) as [[o t']|]; cbn; [|done]. rewrite IH.
    destruct (place t' p) as [[o1 t1]|]; cbn; [|done].
    destruct (place t1 q) as [[o2 t2]|]; cbn; [|done]. by rewrite Nat.add_assoc.
Qed.

Lemma place_bounds t p o t' : place t p = Some (o, t') -> (o + size_of t' <= size_of t)%nat.
Proof.
  revert t o. induction p as [|s p IH]; intros t o.
  - intros [= <- <-]. lia.
  - intros (o1 & t1 & o2 & H1 & H2 & ->)%place_cons.
    apply step_place_bounds in H1. apply IH in H2. cbn in *. lia.
Qed.

Lemma step_place_disjoint t s s' o1 t1 o2 t2 :
  s <> s' -> match t with TUnion _ _ => False | _ => True end ->
  step_place t s = Some (o1, t1) -> step_place t s' = Some (o2, t2) ->
  (o1 + size_of t1 <= o2)%nat \/ (o2 + size_of t2 <= o1)%nat.
Proof.
  intros Hne Hu. destruct t as [n|t n|r fs|r fs], s as [a|i], s' as [b|j]; cbn; try done.
  - do 2 (case_bool_decide; [|done]). intros [= <- <-] [= <- <-].
    assert (i < j \/ j < i)%nat as [?|?] by (destruct (Nat.lt_trichotomy i j) as [?|[->|?]]; [auto|done|auto]); nia.
  - intros. by eapply field_at_disjoint; [|done..]; congruence.
Qed.

Lemma place_disjoint t p q o1 t1 o2 t2 :
  parts t p q = true -> place t p = Some (o1, t1) -> place t q = Some (o2, t2) ->
  (o1 + size_of t1 <= o2)%nat \/ (o2 + size_of t2 <= o1)%nat.
Proof.
  revert t q o1 o2. induction p as [|s p IH]; intros t [|s' q] o1 o2; cbn [parts]; try done.
  intros Hparts (a1 & u1 & b1 & Hs1 & Hp1 & ->)%place_cons (a2 & u2 & b2 & Hs2 & Hp2 & ->)%place_cons.
  case_bool_decide as Hs.
  - subst s'. rewrite Hs1 in Hs2, Hparts. injection Hs2 as <- <-.
    destruct (IH u1 q _ _ Hparts Hp1 Hp2); lia.
  - apply place_bounds in Hp1, Hp2.
    destruct (step_place_disjoint t s s' a1 u1 a2 u2); [done|by destruct t|done|done|lia|lia].
Qed.

(** ** Properties *)

Lemma write_field_place t p v bs bs' :
  write_field t p v bs = Some bs' ->
  exists o n, place t p = Some (o, TInt n) /\ bs' = splice o (le_bytes n v) bs.
Proof.
  unfold write_field. destruct (place t p) as [[o u]|]; cbn; [|done].
  destruct u; try done. intros [= <-]. eauto.
Qed.

Lemma read_field_place t p bs v :
  read_field t p bs = Some v ->
  exists o n, place t p = Some (o, TInt n) /\ v = le_val (slice o n bs).
Proof.
  unfold read_field. destruct (place t p) as [[o u]|]; cbn; [|done].
  destruct u; try done. intros [= <-]. eauto.
Qed.

(** A field of a value holds the last integer written to it.  On a value of
    the type's size a write keeps the size; reading the same path gives the
    integer, truncated to the field; and every path that parts from it, at a
    field or an index, reads what it read before. *)
Theorem field_write_read (t : ctype) (p : path) (v : Z) (bs bs' : list Z) :
  length bs = size_of t -> write_field t p v bs = Some bs' ->
  length bs' = size_of t /\
  (exists n, snd <$> place t p = Some (TInt n) /\ read_field t p bs' = Some (wrap (8 * Z.of_nat n) v)) /\
  (forall q, parts t p q = true -> read_field t q bs' = read_field t q bs).
Proof.
  intros Hl (o & n & Hp & ->)%write_field_place.
  pose proof (place_bounds _ _ _ _ Hp) as Hb. cbn [size_of] in Hb.
  split; [by rewrite length_splice; rewrite ?length_le_bytes; lia|]. split.
  - exists n. rewrite Hp. split; [done|]. unfold read_field. rewrite Hp. cbn [mbind option_bind snd fst].
    rewrite slice_splice_at by (rewrite ?length_le_bytes; lia). rewrite le_val_le_bytes, pow_256.
    reflexivity.
  - intros q Hq. unfold read_field. destruct (place t q) as [[o' u]|] eqn:Hq'; cbn; [|done].
    destruct u as [m| | |]; try done. f_equal. f_equal.
    pose proof (place_disjoint _ _ _ _ _ _ _ Hq Hp Hq') as Hd. apply place_bounds in Hq'.
    cbn [size_of] in Hd, Hq'. apply slice_splice_disjoint; rewrite length_le_bytes; lia.
Qed.
