(* ===== verification/BootParams.v ===== *)
(** * The boot parameters of Linux

    The bindings of [src/bootparam.rs]: the structures a boot loader and the
    kernel share, from [screen_info] to the zero page [boot_params], and the
    layout tests that the generator wrote next to them.  The structures are
    types of [CLayout], so that what the loader puts at numbered offsets can be
    read as fields. *)

From S2P Require Import Prelude Bytes CLayout.

(** The width of [long], the one C type here that is not the same everywhere:
    8 bytes on Linux, 4 bytes on Windows. *)
Class CLong := c_long_bytes : nat.
Definition linux_long : CLong := 8%nat.
Definition windows_long : CLong := 4%nat.

(* src/bootparam.rs:208-208, __u8 *)
Definition __u8 : ctype := TInt 1.
(* src/bootparam.rs:210-210, __u16 *)
Definition __u16 : ctype := TInt 2.
(* src/bootparam.rs:212-212, __u32 *)
Definition __u32 : ctype := TInt 4.
(* src/bootparam.rs:214-214, __u64 *)
Definition __u64 : ctype := TInt 8.
Definition c_int : ctype := TInt 4.
Definition c_ulong {long : CLong} : ctype := TInt c_long_bytes.

(* src/bootparam.rs:62-62, LOADED_HIGH *)
Definition LOADED_HIGH : Z := 1.
(* src/bootparam.rs:66-66, CAN_USE_HEAP *)
Definition CAN_USE_HEAP : Z := 128.
(* src/bootparam.rs:205-205, E820_MAX_ENTRIES_ZEROPAGE *)
Definition E820_MAX_ENTRIES_ZEROPAGE : nat := 128.

(** ** The structures *)

Section structures.
Context {long : CLong}.

(* src/bootparam.rs:215-219, __kernel_fd_set *)
Definition __kernel_fd_set : ctype := TStruct ReprC [
  ("fds_bits", (TArray c_ulong 16))].

(* src/bootparam.rs:267-271, __kernel_fsid_t *)
Definition __kernel_fsid_t : ctype := TStruct ReprC [
  ("val", (TArray c_int 2))].

(* src/bootparam.rs:317-356, screen_info *)
Definition screen_info : ctype := TStruct Packed [
  ("orig_x", __u8); ("orig_y", __u8); ("ext_mem_k", __u16); ("orig_video_page", __u16);
  ("orig_video_mode", __u8); ("orig_video_cols", __u8); ("flags", __u8); ("unused2", __u8);
  ("orig_video_ega_bx", __u16); ("unused3", __u16); ("orig_video_lines", __u8);
  ("orig_video_isVGA", __u8); ("orig_video_points", __u16); ("lfb_width", __u16);
  ("lfb_height", __u16); ("lfb_depth", __u16); ("lfb_base", __u32); ("lfb_size", __u32);
  ("cl_magic", __u16); ("cl_offset", __u16); ("lfb_linelength", __u16); ("red_size", __u8);
  ("red_pos", __u8); ("green_size", __u8); ("green_pos", __u8); ("blue_size", __u8);
  ("blue_pos", __u8); ("rsvd_size", __u8); ("rsvd_pos", __u8); ("vesapm_seg", __u16);
  ("vesapm_off", __u16); ("pages", __u16); ("vesa_attributes", __u16); ("capabilities", __u32);
  ("ext_lfb_base", __u32); ("_reserved", (TArray __u8 2))].

(* src/bootparam.rs:734-746, apm_bios_info *)
Definition apm_bios_info : ctype := TStruct ReprC [
  ("version", __u16); ("cseg", __u16); ("offset", __u32); ("cseg_16", __u16); ("dseg", __u16);
  ("flags", __u16); ("cseg_len", __u16); ("cseg_16_len", __u16); ("dseg_len", __u16)].

(* src/bootparam.rs:884-890, edd_device_params__bindgen_ty_1__bindgen_ty_1 *)
Definition edd_device_params__bindgen_ty_1__bindgen_ty_1 : ctype := TStruct Packed [
  ("base_address", __u16); ("reserved1", __u16); ("reserved2", __u32)].

(* src/bootparam.rs:943-951, edd_device_params__bindgen_ty_1__bindgen_ty_2 *)
Definition edd_device_params__bindgen_ty_1__bindgen_ty_2 : ctype := TStruct Packed [
  ("bus", __u8); ("slot", __u8); ("function", __u8); ("channel", __u8); ("reserved", __u32)].

(* src/bootparam.rs:1024-1028, edd_device_params__bindgen_ty_1__bindgen_ty_3 *)
Definition edd_device_params__bindgen_ty_1__bindgen_ty_3 : ctype := TStruct Packed [
  ("reserved", __u64)].

(* src/bootparam.rs:1061-1065, edd_device_params__bindgen_ty_1__bindgen_ty_4 *)
Definition edd_device_params__bindgen_ty_1__bindgen_ty_4 : ctype := TStruct Packed [
  ("reserved", __u64)].

(* src/bootparam.rs:1098-1102, edd_device_params__bindgen_ty_1__bindgen_ty_5 *)
Definition edd_device_params__bindgen_ty_1__bindgen_ty_5 : ctype := TStruct Packed [
  ("reserved", __u64)].

(* src/bootparam.rs:1135-1139, edd_device_params__bindgen_ty_1__bindgen_ty_6 *)
Definition edd_device_params__bindgen_ty_1__bindgen_ty_6 : ctype := TStruct Packed [
  ("reserved", __u64)].

(* src/bootparam.rs:874-883, edd_device_params__bindgen_ty_1 *)
Definition edd_device_params__bindgen_ty_1 : ctype := TUnion ReprC [
  ("isa", edd_device_params__bindgen_ty_1__bindgen_ty_1);
  ("pci", edd_device_params__bindgen_ty_1__bindgen_ty_2);
  ("ibnd", edd_device_params__bindgen_ty_1__bindgen_ty_3);
  ("xprs", edd_device_params__bindgen_ty_1__bindgen_ty_4);
  ("htpt", edd_device_params__bindgen_ty_1__bindgen_ty_5);
  ("unknown", edd_device_params__bindgen_ty_1__bindgen_ty_6)].

(* src/bootparam.rs:1271-1279, edd_device_params__bindgen_ty_2__bindgen_ty_1 *)
Definition edd_device_params__bindgen_ty_2__bindgen_ty_1 : ctype := TStruct Packed [
  ("device", __u8); ("reserved1", __u8); ("reserved2", __u16); ("reserved3", __u32);
  ("reserved4", __u64)].

(* src/bootparam.rs:1352-1361, edd_device_params__bindgen_ty_2__bindgen_ty_2 *)
Definition edd_device_params__bindgen_ty_2__bindgen_ty_2 : ctype := TStruct Packed [
  ("device", __u8); ("lun", __u8); ("reserved1", __u8); ("reserved2", __u8);
  ("reserved3", __u32); ("reserved4", __u64)].

(* src/bootparam.rs:1444-1451, edd_device_params__bindgen_ty_2__bindgen_ty_3 *)
Definition edd_device_params__bindgen_ty_2__bindgen_ty_3 : ctype := TStruct Packed [
  ("id", __u16); ("lun", __u64); ("reserved1", __u16); ("reserved2", __u32)].

(* src/bootparam.rs:1514-1519, edd_device_params__bindgen_ty_2__bindgen_ty_4 *)
Definition edd_device_params__bindgen_ty_2__bindgen_ty_4 : ctype := TStruct Packed [
  ("serial_number", __u64); ("reserved", __u64)].

(* src/bootparam.rs:1562-1567, edd_device_params__bindgen_ty_2__bindgen_ty_5 *)
Definition edd_device_params__bindgen_ty_2__bindgen_ty_5 : ctype := TStruct Packed [
  ("eui", __u64); ("reserved", __u64)].

(* src/bootparam.rs:1610-1615, edd_device_params__bindgen_ty_2__bindgen_ty_6 *)
Definition edd_device_params__bindgen_ty_2__bindgen_ty_6 : ctype := TStruct Packed [
  ("wwid", __u64); ("lun", __u64)].

(* src/bootparam.rs:1658-1663, edd_device_params__bindgen_ty_2__bindgen_ty_7 *)
Definition edd_device_params__bindgen_ty_2__bindgen_ty_7 : ctype := TStruct Packed [
  ("identity_tag", __u64); ("reserved", __u64)].

(* src/bootparam.rs:1706-1712, edd_device_params__bindgen_ty_2__bindgen_ty_8 *)
Definition edd_device_params__bindgen_ty_2__bindgen_ty_8 : ctype := TStruct Packed [
  ("array_number", __u32); ("reserved1", __u32); ("reserved2", __u64)].

(* src/bootparam.rs:1765-1773, edd_device_params__bindgen_ty_2__bindgen_ty_9 *)
Definition edd_device_params__bindgen_ty_2__bindgen_ty_9 : ctype := TStruct Packed [
  ("device", __u8); ("reserved1", __u8); ("reserved2", __u16); ("reserved3", __u32);
  ("reserved4", __u64)].

(* src/bootparam.rs:1846-1851, edd_device_params__bindgen_ty_2__bindgen_ty_10 *)
Definition edd_device_params__bindgen_ty_2__bindgen_ty_10 : ctype := TStruct Packed [
  ("reserved1", __u64); ("reserved2", __u64)].

(* src/bootparam.rs:1257-1270, edd_device_params__bindgen_ty_2 *)
Definition edd_device_params__bindgen_ty_2 : ctype := TUnion ReprC [
  ("ata", edd_device_params__bindgen_ty_2__bindgen_ty_1);
  ("atapi", edd_device_params__bindgen_ty_2__bindgen_ty_2);
  ("scsi", edd_device_params__bindgen_ty_2__bindgen_ty_3);
  ("usb", edd_device_params__bindgen_ty_2__bindgen_ty_4);
  ("i1394", edd_device_params__bindgen_ty_2__bindgen_ty_5);
  ("fibre", edd_device_params__bindgen_ty_2__bindgen_ty_6);
  ("i2o", edd_device_params__bindgen_ty_2__bindgen_ty_7);
  ("raid", edd_device_params__bindgen_ty_2__bindgen_ty_8);
  ("sata", edd_device_params__bindgen_ty_2__bindgen_ty_9);
  ("unknown", edd_device_params__bindgen_ty_2__bindgen_ty_10)].

(* src/bootparam.rs:852-873, edd_device_params *)
Definition edd_device_params : ctype := TStruct Packed [
  ("length", __u16); ("info_flags", __u16); ("num_default_cylinders", __u32);
  ("num_default_heads", __u32); ("sectors_per_track", __u32); ("number_of_sectors", __u64);
  ("bytes_per_sector", __u16); ("dpte_ptr", __u32); ("key", __u16);
  ("device_path_info_length", __u8); ("reserved2", __u8); ("reserved3", __u16);
  ("host_bus_type", (TArray __u8 4)); ("interface_type", (TArray __u8 8));
  ("interface_path", edd_device_params__bindgen_ty_1);
  ("device_path", edd_device_params__bindgen_ty_2); ("reserved4", __u8); ("checksum", __u8)].

(* src/bootparam.rs:2223-2233, edd_info *)
Definition edd_info : ctype := TStruct Packed [
  ("device", __u8); ("version", __u8); ("interface_support", __u16);
  ("legacy_max_cylinder", __u16); ("legacy_max_head", __u8);
  ("legacy_sectors_per_track", __u8); ("params", edd_device_params)].

(* src/bootparam.rs:2328-2335, edd *)
Definition edd : ctype := TStruct ReprC [
  ("mbr_signature", (TArray __u32 16)); ("edd_info", (TArray edd_info 6));
  ("mbr_signature_nr", __u8); ("edd_info_nr", __u8)].

(* src/bootparam.rs:2400-2407, ist_info *)
Definition ist_info : ctype := TStruct ReprC [
  ("signature", __u32); ("command", __u32); ("event", __u32); ("perf_level", __u32)].

(* src/bootparam.rs:2463-2467, edid_info *)
Definition edid_info : ctype := TStruct ReprC [
  ("dummy", (TArray __u8 128))].

(* src/bootparam.rs:2502-2509, setup_data *)
Definition setup_data : ctype := TStruct ReprC [
  ("next", __u64); ("type_", __u32); ("len", __u32); ("data", (TArray __u8 0))].

(* src/bootparam.rs:2565-2572, setup_indirect *)
Definition setup_indirect : ctype := TStruct ReprC [
  ("type_", __u32); ("reserved", __u32); ("len", __u64); ("addr", __u64)].

(* src/bootparam.rs:2628-2670, setup_header *)
Definition setup_header : ctype := TStruct Packed [
  ("setup_sects", __u8); ("root_flags", __u16); ("syssize", __u32); ("ram_size", __u16);
  ("vid_mode", __u16); ("root_dev", __u16); ("boot_flag", __u16); ("jump", __u16);
  ("header", __u32); ("version", __u16); ("realmode_swtch", __u32); ("start_sys_seg", __u16);
  ("kernel_version", __u16); ("type_of_loader", __u8); ("loadflags", __u8);
  ("setup_move_size", __u16); ("code32_start", __u32); ("ramdisk_image", __u32);
  ("ramdisk_size", __u32); ("bootsect_kludge", __u32); ("heap_end_ptr", __u16);
  ("ext_loader_ver", __u8); ("ext_loader_type", __u8); ("cmd_line_ptr", __u32);
  ("initrd_addr_max", __u32); ("kernel_alignment", __u32); ("relocatable_kernel", __u8);
  ("min_alignment", __u8); ("xloadflags", __u16); ("cmdline_size", __u32);
  ("hardware_subarch", __u32); ("hardware_subarch_data", __u64); ("payload_offset", __u32);
  ("payload_length", __u32); ("setup_data", __u64); ("pref_address", __u64);
  ("init_size", __u32); ("handover_offset", __u32); ("kernel_info_offset", __u32)].

(* src/bootparam.rs:3076-3081, sys_desc_table *)
Definition sys_desc_table : ctype := TStruct ReprC [
  ("length", __u16); ("table", (TArray __u8 14))].

(* src/bootparam.rs:3117-3124, olpc_ofw_header *)
Definition olpc_ofw_header : ctype := TStruct Packed [
  ("ofw_magic", __u32); ("ofw_version", __u32); ("cif_handler", __u32);
  ("irq_desc_table", __u32)].

(* src/bootparam.rs:3180-3191, efi_info *)
Definition efi_info : ctype := TStruct ReprC [
  ("efi_loader_signature", __u32); ("efi_systab", __u32); ("efi_memdesc_size", __u32);
  ("efi_memdesc_version", __u32); ("efi_memmap", __u32); ("efi_memmap_size", __u32);
  ("efi_systab_hi", __u32); ("efi_memmap_hi", __u32)].

(* src/bootparam.rs:3287-3293, boot_e820_entry *)
Definition boot_e820_entry : ctype := TStruct Packed [
  ("addr", __u64); ("size", __u64); ("type_", __u32)].

(* src/bootparam.rs:3346-3351, jailhouse_setup_data__bindgen_ty_1 *)
Definition jailhouse_setup_data__bindgen_ty_1 : ctype := TStruct Packed [
  ("version", __u16); ("compatible_version", __u16)].

(* src/bootparam.rs:3391-3401, jailhouse_setup_data__bindgen_ty_2 *)
Definition jailhouse_setup_data__bindgen_ty_2 : ctype := TStruct Packed [
  ("pm_timer_address", __u16); ("num_cpus", __u16); ("pci_mmconfig_base", __u64);
  ("tsc_khz", __u32); ("apic_khz", __u32); ("standard_ioapic", __u8);
  ("cpu_ids", (TArray __u8 255))].

(* src/bootparam.rs:3500-3504, jailhouse_setup_data__bindgen_ty_3 *)
Definition jailhouse_setup_data__bindgen_ty_3 : ctype := TStruct Packed [
  ("flags", __u32)].

(* src/bootparam.rs:3339-3345, jailhouse_setup_data *)
Definition jailhouse_setup_data : ctype := TStruct Packed [
  ("hdr", jailhouse_setup_data__bindgen_ty_1); ("v1", jailhouse_setup_data__bindgen_ty_2);
  ("v2", jailhouse_setup_data__bindgen_ty_3)].

(* src/bootparam.rs:3588-3593, ima_setup_data *)
Definition ima_setup_data : ctype := TStruct Packed [
  ("addr", __u64); ("size", __u64)].

(* src/bootparam.rs:3629-3667, boot_params *)
Definition boot_params : ctype := TStruct Packed [
  ("screen_info", screen_info); ("apm_bios_info", apm_bios_info); ("_pad2", (TArray __u8 4));
  ("tboot_addr", __u64); ("ist_info", ist_info); ("acpi_rsdp_addr", __u64);
  ("_pad3", (TArray __u8 8)); ("hd0_info", (TArray __u8 16)); ("hd1_info", (TArray __u8 16));
  ("sys_desc_table", sys_desc_table); ("olpc_ofw_header", olpc_ofw_header);
  ("ext_ramdisk_image", __u32); ("ext_ramdisk_size", __u32); ("ext_cmd_line_ptr", __u32);
  ("_pad4", (TArray __u8 112)); ("cc_blob_address", __u32); ("edid_info", edid_info);
  ("efi_info", efi_info); ("alt_mem_k", __u32); ("scratch", __u32); ("e820_entries", __u8);
  ("eddbuf_entries", __u8); ("edd_mbr_sig_buf_entries", __u8); ("kbd_status", __u8);
  ("secure_boot", __u8); ("_pad5", (TArray __u8 2)); ("sentinel", __u8);
  ("_pad6", (TArray __u8 1)); ("hdr", setup_header); ("_pad7", (TArray __u8 36));
  ("edd_mbr_sig_buffer", (TArray __u32 16)); ("e820_table", (TArray boot_e820_entry 128));
  ("_pad8", (TArray __u8 48)); ("eddbuf", (TArray edd_info 6)); ("_pad9", (TArray __u8 276))].

(** [MaybeUninit], every byte written with 0. *)
(* src/bootparam.rs:4033-4041, boot_params::default *)
Definition boot_params_default : list Z := replicate (size_of boot_params) 0.

(** ** The layout tests *)

(* src/bootparam.rs:220-244, bindgen_test_layout___kernel_fd_set *)
Definition bindgen_test_layout___kernel_fd_set : bool :=
  layout_test __kernel_fd_set 128 8 [
    ("fds_bits", 0%nat)].

(* src/bootparam.rs:272-296, bindgen_test_layout___kernel_fsid_t *)
Definition bindgen_test_layout___kernel_fsid_t : bool :=
  layout_test __kernel_fsid_t 8 4 [
    ("val", 0%nat)].

(* src/bootparam.rs:357-731, bindgen_test_layout_screen_info *)
Definition bindgen_test_layout_screen_info : bool :=
  layout_test screen_info 64 1 [
    ("orig_x", 0%nat); ("orig_y", 1%nat); ("ext_mem_k", 2%nat); ("orig_video_page", 4%nat);
    ("orig_video_mode", 6%nat); ("orig_video_cols", 7%nat); ("flags", 8%nat);
    ("unused2", 9%nat); ("orig_video_ega_bx", 10%nat); ("unused3", 12%nat);
    ("orig_video_lines", 14%nat); ("orig_video_isVGA", 15%nat); ("orig_video_points", 16%nat);
    ("lfb_width", 18%nat); ("lfb_height", 20%nat); ("lfb_depth", 22%nat); ("lfb_base", 24%nat);
    ("lfb_size", 28%nat); ("cl_magic", 32%nat); ("cl_offset", 34%nat);
    ("lfb_linelength", 36%nat); ("red_size", 38%nat); ("red_pos", 39%nat);
    ("green_size", 40%nat); ("green_pos", 41%nat); ("blue_size", 42%nat); ("blue_pos", 43%nat);
    ("rsvd_size", 44%nat); ("rsvd_pos", 45%nat); ("vesapm_seg", 46%nat);
    ("vesapm_off", 48%nat); ("pages", 50%nat); ("vesa_attributes", 52%nat);
    ("capabilities", 54%nat); ("ext_lfb_base", 58%nat); ("_reserved", 62%nat)].

(* src/bootparam.rs:747-851, bindgen_test_layout_apm_bios_info *)
Definition bindgen_test_layout_apm_bios_info : bool :=
  layout_test apm_bios_info 20 4 [
    ("version", 0%nat); ("cseg", 2%nat); ("offset", 4%nat); ("cseg_16", 8%nat);
    ("dseg", 10%nat); ("flags", 12%nat); ("cseg_len", 14%nat); ("cseg_16_len", 16%nat);
    ("dseg_len", 18%nat)].

(* src/bootparam.rs:2019-2213, bindgen_test_layout_edd_device_params *)
Definition bindgen_test_layout_edd_device_params : bool :=
  layout_test edd_device_params 74 1 [
    ("length", 0%nat); ("info_flags", 2%nat); ("num_default_cylinders", 4%nat);
    ("num_default_heads", 8%nat); ("sectors_per_track", 12%nat); ("number_of_sectors", 16%nat);
    ("bytes_per_sector", 24%nat); ("dpte_ptr", 26%nat); ("key", 30%nat);
    ("device_path_info_length", 32%nat); ("reserved2", 33%nat); ("reserved3", 34%nat);
    ("host_bus_type", 36%nat); ("interface_type", 40%nat); ("interface_path", 48%nat);
    ("device_path", 56%nat); ("reserved4", 72%nat); ("checksum", 73%nat)].

(* src/bootparam.rs:1172-1247, bindgen_test_layout_edd_device_params__bindgen_ty_1 *)
Definition bindgen_test_layout_edd_device_params__bindgen_ty_1 : bool :=
  layout_test edd_device_params__bindgen_ty_1 8 1 [
    ("isa", 0%nat); ("pci", 0%nat); ("ibnd", 0%nat); ("xprs", 0%nat); ("htpt", 0%nat);
    ("unknown", 0%nat)].

(* src/bootparam.rs:891-942, bindgen_test_layout_edd_device_params__bindgen_ty_1__bindgen_ty_1 *)
Definition bindgen_test_layout_edd_device_params__bindgen_ty_1__bindgen_ty_1 : bool :=
  layout_test edd_device_params__bindgen_ty_1__bindgen_ty_1 8 1 [
    ("base_address", 0%nat); ("reserved1", 2%nat); ("reserved2", 4%nat)].

(* src/bootparam.rs:952-1023, bindgen_test_layout_edd_device_params__bindgen_ty_1__bindgen_ty_2 *)
Definition bindgen_test_layout_edd_device_params__bindgen_ty_1__bindgen_ty_2 : bool :=
  layout_test edd_device_params__bindgen_ty_1__bindgen_ty_2 8 1 [
    ("bus", 0%nat); ("slot", 1%nat); ("function", 2%nat); ("channel", 3%nat);
    ("reserved", 4%nat)].

(* src/bootparam.rs:1029-1060, bindgen_test_layout_edd_device_params__bindgen_ty_1__bindgen_ty_3 *)
Definition bindgen_test_layout_edd_device_params__bindgen_ty_1__bindgen_ty_3 : bool :=
  layout_test edd_device_params__bindgen_ty_1__bindgen_ty_3 8 1 [
    ("reserved", 0%nat)].

(* src/bootparam.rs:1066-1097, bindgen_test_layout_edd_device_params__bindgen_ty_1__bindgen_ty_4 *)
Definition bindgen_test_layout_edd_device_params__bindgen_ty_1__bindgen_ty_4 : bool :=
  layout_test edd_device_params__bindgen_ty_1__bindgen_ty_4 8 1 [
    ("reserved", 0%nat)].

(* src/bootparam.rs:1103-1134, bindgen_test_layout_edd_device_params__bindgen_ty_1__bindgen_ty_5 *)
Definition bindgen_test_layout_edd_device_params__bindgen_ty_1__bindgen_ty_5 : bool :=
  layout_test edd_device_params__bindgen_ty_1__bindgen_ty_5 8 1 [
    ("reserved", 0%nat)].

(* src/bootparam.rs:1140-1171, bindgen_test_layout_edd_device_params__bindgen_ty_1__bindgen_ty_6 *)
Definition bindgen_test_layout_edd_device_params__bindgen_ty_1__bindgen_ty_6 : bool :=
  layout_test edd_device_params__bindgen_ty_1__bindgen_ty_6 8 1 [
    ("reserved", 0%nat)].

(* src/bootparam.rs:1894-2009, bindgen_test_layout_edd_device_params__bindgen_ty_2 *)
Definition bindgen_test_layout_edd_device_params__bindgen_ty_2 : bool :=
  layout_test edd_device_params__bindgen_ty_2 16 1 [
    ("ata", 0%nat); ("atapi", 0%nat); ("scsi", 0%nat); ("usb", 0%nat); ("i1394", 0%nat);
    ("fibre", 0%nat); ("i2o", 0%nat); ("raid", 0%nat); ("sata", 0%nat); ("unknown", 0%nat)].

(* src/bootparam.rs:1280-1351, bindgen_test_layout_edd_device_params__bindgen_ty_2__bindgen_ty_1 *)
Definition bindgen_test_layout_edd_device_params__bindgen_ty_2__bindgen_ty_1 : bool :=
  layout_test edd_device_params__bindgen_ty_2__bindgen_ty_1 16 1 [
    ("device", 0%nat); ("reserved1", 1%nat); ("reserved2", 2%nat); ("reserved3", 4%nat);
    ("reserved4", 8%nat)].

(* src/bootparam.rs:1362-1443, bindgen_test_layout_edd_device_params__bindgen_ty_2__bindgen_ty_2 *)
Definition bindgen_test_layout_edd_device_params__bindgen_ty_2__bindgen_ty_2 : bool :=
  layout_test edd_device_params__bindgen_ty_2__bindgen_ty_2 16 1 [
    ("device", 0%nat); ("lun", 1%nat); ("reserved1", 2%nat); ("reserved2", 3%nat);
    ("reserved3", 4%nat); ("reserved4", 8%nat)].

(* src/bootparam.rs:1452-1513, bindgen_test_layout_edd_device_params__bindgen_ty_2__bindgen_ty_3 *)
Definition bindgen_test_layout_edd_device_params__bindgen_ty_2__bindgen_ty_3 : bool :=
  layout_test edd_device_params__bindgen_ty_2__bindgen_ty_3 16 1 [
    ("id", 0%nat); ("lun", 2%nat); ("reserved1", 10%nat); ("reserved2", 12%nat)].

(* src/bootparam.rs:1520-1561, bindgen_test_layout_edd_device_params__bindgen_ty_2__bindgen_ty_4 *)
Definition bindgen_test_layout_edd_device_params__bindgen_ty_2__bindgen_ty_4 : bool :=
  layout_test edd_device_params__bindgen_ty_2__bindgen_ty_4 16 1 [
    ("serial_number", 0%nat); ("reserved", 8%nat)].

(* src/bootparam.rs:1568-1609, bindgen_test_layout_edd_device_params__bindgen_ty_2__bindgen_ty_5 *)
Definition bindgen_test_layout_edd_device_params__bindgen_ty_2__bindgen_ty_5 : bool :=
  layout_test edd_device_params__bindgen_ty_2__bindgen_ty_5 16 1 [
    ("eui", 0%nat); ("reserved", 8%nat)].

(* src/bootparam.rs:1616-1657, bindgen_test_layout_edd_device_params__bindgen_ty_2__bindgen_ty_6 *)
Definition bindgen_test_layout_edd_device_params__bindgen_ty_2__bindgen_ty_6 : bool :=
  layout_test edd_device_params__bindgen_ty_2__bindgen_ty_6 16 1 [
    ("wwid", 0%nat); ("lun", 8%nat)].

(* src/bootparam.rs:1664-1705, bindgen_test_layout_edd_device_params__bindgen_ty_2__bindgen_ty_7 *)
Definition bindgen_test_layout_edd_device_params__bindgen_ty_2__bindgen_ty_7 : bool :=
  layout_test edd_device_params__bindgen_ty_2__bindgen_ty_7 16 1 [
    ("identity_tag", 0%nat); ("reserved", 8%nat)].

(* src/bootparam.rs:1713-1764, bindgen_test_layout_edd_device_params__bindgen_ty_2__bindgen_ty_8 *)
Definition bindgen_test_layout_edd_device_params__bindgen_ty_2__bindgen_ty_8 : bool :=
  layout_test edd_device_params__bindgen_ty_2__bindgen_ty_8 16 1 [
    ("array_number", 0%nat); ("reserved1", 4%nat); ("reserved2", 8%nat)].

(* src/bootparam.rs:1774-1845, bindgen_test_layout_edd_device_params__bindgen_ty_2__bindgen_ty_9 *)
Definition bindgen_test_layout_edd_device_params__bindgen_ty_2__bindgen_ty_9 : bool :=
  layout_test edd_device_params__bindgen_ty_2__bindgen_ty_9 16 1 [
    ("device", 0%nat); ("reserved1", 1%nat); ("reserved2", 2%nat); ("reserved3", 4%nat);
    ("reserved4", 8%nat)].

(* src/bootparam.rs:1852-1893, bindgen_test_layout_edd_device_params__bindgen_ty_2__bindgen_ty_10 *)
Definition bindgen_test_layout_edd_device_params__bindgen_ty_2__bindgen_ty_10 : bool :=
  layout_test edd_device_params__bindgen_ty_2__bindgen_ty_10 16 1 [
    ("reserved1", 0%nat); ("reserved2", 8%nat)].

(* src/bootparam.rs:2234-2318, bindgen_test_layout_edd_info *)
Definition bindgen_test_layout_edd_info : bool :=
  layout_test edd_info 82 1 [
    ("device", 0%nat); ("version", 1%nat); ("interface_support", 2%nat);
    ("legacy_max_cylinder", 4%nat); ("legacy_max_head", 6%nat);
    ("legacy_sectors_per_track", 7%nat); ("params", 8%nat)].

(* src/bootparam.rs:2336-2390, bindgen_test_layout_edd *)
Definition bindgen_test_layout_edd : bool :=
  layout_test edd 560 4 [
    ("mbr_signature", 0%nat); ("edd_info", 64%nat); ("mbr_signature_nr", 556%nat);
    ("edd_info_nr", 557%nat)].

(* src/bootparam.rs:2408-2462, bindgen_test_layout_ist_info *)
Definition bindgen_test_layout_ist_info : bool :=
  layout_test ist_info 16 4 [
    ("signature", 0%nat); ("command", 4%nat); ("event", 8%nat); ("perf_level", 12%nat)].

(* src/bootparam.rs:2468-2492, bindgen_test_layout_edid_info *)
Definition bindgen_test_layout_edid_info : bool :=
  layout_test edid_info 128 1 [
    ("dummy", 0%nat)].

(* src/bootparam.rs:2510-2564, bindgen_test_layout_setup_data *)
Definition bindgen_test_layout_setup_data : bool :=
  layout_test setup_data 16 8 [
    ("next", 0%nat); ("type_", 8%nat); ("len", 12%nat); ("data", 16%nat)].

(* src/bootparam.rs:2573-2627, bindgen_test_layout_setup_indirect *)
Definition bindgen_test_layout_setup_indirect : bool :=
  layout_test setup_indirect 24 8 [
    ("type_", 0%nat); ("reserved", 4%nat); ("len", 8%nat); ("addr", 16%nat)].

(* src/bootparam.rs:2671-3075, bindgen_test_layout_setup_header *)
Definition bindgen_test_layout_setup_header : bool :=
  layout_test setup_header 123 1 [
    ("setup_sects", 0%nat); ("root_flags", 1%nat); ("syssize", 3%nat); ("ram_size", 7%nat);
    ("vid_mode", 9%nat); ("root_dev", 11%nat); ("boot_flag", 13%nat); ("jump", 15%nat);
    ("header", 17%nat); ("version", 21%nat); ("realmode_swtch", 23%nat);
    ("start_sys_seg", 27%nat); ("kernel_version", 29%nat); ("type_of_loader", 31%nat);
    ("loadflags", 32%nat); ("setup_move_size", 33%nat); ("code32_start", 35%nat);
    ("ramdisk_image", 39%nat); ("ramdisk_size", 43%nat); ("bootsect_kludge", 47%nat);
    ("heap_end_ptr", 51%nat); ("ext_loader_ver", 53%nat); ("ext_loader_type", 54%nat);
    ("cmd_line_ptr", 55%nat); ("initrd_addr_max", 59%nat); ("kernel_alignment", 63%nat);
    ("relocatable_kernel", 67%nat); ("min_alignment", 68%nat); ("xloadflags", 69%nat);
    ("cmdline_size", 71%nat); ("hardware_subarch", 75%nat); ("hardware_subarch_data", 79%nat);
    ("payload_offset", 87%nat); ("payload_length", 91%nat); ("setup_data", 95%nat);
    ("pref_address", 103%nat); ("init_size", 111%nat); ("handover_offset", 115%nat);
    ("kernel_info_offset", 119%nat)].

(* src/bootparam.rs:3082-3116, bindgen_test_layout_sys_desc_table *)
Definition bindgen_test_layout_sys_desc_table : bool :=
  layout_test sys_desc_table 16 2 [
    ("length", 0%nat); ("table", 2%nat)].

(* src/bootparam.rs:3125-3179, bindgen_test_layout_olpc_ofw_header *)
Definition bindgen_test_layout_olpc_ofw_header : bool :=
  layout_test olpc_ofw_header 16 1 [
    ("ofw_magic", 0%nat); ("ofw_version", 4%nat); ("cif_handler", 8%nat);
    ("irq_desc_table", 12%nat)].

(* src/bootparam.rs:3192-3286, bindgen_test_layout_efi_info *)
Definition bindgen_test_layout_efi_info : bool :=
  layout_test efi_info 32 4 [
    ("efi_loader_signature", 0%nat); ("efi_systab", 4%nat); ("efi_memdesc_size", 8%nat);
    ("efi_memdesc_version", 12%nat); ("efi_memmap", 16%nat); ("efi_memmap_size", 20%nat);
    ("efi_systab_hi", 24%nat); ("efi_memmap_hi", 28%nat)].

(* src/bootparam.rs:3294-3338, bindgen_test_layout_boot_e820_entry *)
Definition bindgen_test_layout_boot_e820_entry : bool :=
  layout_test boot_e820_entry 20 1 [
    ("addr", 0%nat); ("size", 8%nat); ("type_", 16%nat)].

(* src/bootparam.rs:3534-3578, bindgen_test_layout_jailhouse_setup_data *)
Definition bindgen_test_layout_jailhouse_setup_data : bool :=
  layout_test jailhouse_setup_data 284 1 [
    ("hdr", 0%nat); ("v1", 4%nat); ("v2", 280%nat)].

(* src/bootparam.rs:3352-3390, bindgen_test_layout_jailhouse_setup_data__bindgen_ty_1 *)
Definition bindgen_test_layout_jailhouse_setup_data__bindgen_ty_1 : bool :=
  layout_test jailhouse_setup_data__bindgen_ty_1 4 1 [
    ("version", 0%nat); ("compatible_version", 2%nat)].

(* src/bootparam.rs:3402-3490, bindgen_test_layout_jailhouse_setup_data__bindgen_ty_2 *)
Definition bindgen_test_layout_jailhouse_setup_data__bindgen_ty_2 : bool :=
  layout_test jailhouse_setup_data__bindgen_ty_2 276 1 [
    ("pm_timer_address", 0%nat); ("num_cpus", 2%nat); ("pci_mmconfig_base", 4%nat);
    ("tsc_khz", 12%nat); ("apic_khz", 16%nat); ("standard_ioapic", 20%nat); ("cpu_ids", 21%nat)].

(* src/bootparam.rs:3505-3533, bindgen_test_layout_jailhouse_setup_data__bindgen_ty_3 *)
Definition bindgen_test_layout_jailhouse_setup_data__bindgen_ty_3 : bool :=
  layout_test jailhouse_setup_data__bindgen_ty_3 4 1 [
    ("flags", 0%nat)].

(* src/bootparam.rs:3594-3628, bindgen_test_layout_ima_setup_data *)
Definition bindgen_test_layout_ima_setup_data : bool :=
  layout_test ima_setup_data 16 1 [
    ("addr", 0%nat); ("size", 8%nat)].

(* src/bootparam.rs:3668-4032, bindgen_test_layout_boot_params *)
Definition bindgen_test_layout_boot_params : bool :=
  layout_test boot_params 4096 1 [
    ("screen_info", 0%nat); ("apm_bios_info", 64%nat); ("_pad2", 84%nat);
    ("tboot_addr", 88%nat); ("ist_info", 96%nat); ("acpi_rsdp_addr", 112%nat);
    ("_pad3", 120%nat); ("hd0_info", 128%nat); ("hd1_info", 144%nat);
    ("sys_desc_table", 160%nat); ("olpc_ofw_header", 176%nat); ("ext_ramdisk_image", 192%nat);
    ("ext_ramdisk_size", 196%nat); ("ext_cmd_line_ptr", 200%nat); ("_pad4", 204%nat);
    ("cc_blob_address", 316%nat); ("edid_info", 320%nat); ("efi_info", 448%nat);
    ("alt_mem_k", 480%nat); ("scratch", 484%nat); ("e820_entries", 488%nat);
    ("eddbuf_entries", 489%nat); ("edd_mbr_sig_buf_entries", 490%nat); ("kbd_status", 491%nat);
    ("secure_boot", 492%nat); ("_pad5", 493%nat); ("sentinel", 495%nat); ("_pad6", 496%nat);
    ("hdr", 497%nat); ("_pad7", 620%nat); ("edd_mbr_sig_buffer", 656%nat);
    ("e820_table", 720%nat); ("_pad8", 3280%nat); ("eddbuf", 3328%nat); ("_pad9", 3820%nat)].

Definition bindgen_tests : list (string * bool) := [
  ("__kernel_fd_set", bindgen_test_layout___kernel_fd_set);
  ("__kernel_fsid_t", bindgen_test_layout___kernel_fsid_t);
  ("screen_info", bindgen_test_layout_screen_info);
  ("apm_bios_info", bindgen_test_layout_apm_bios_info);
  ("edd_device_params", bindgen_test_layout_edd_device_params);
  ("edd_device_params__bindgen_ty_1", bindgen_test_layout_edd_device_params__bindgen_ty_1);
  ("edd_device_params__bindgen_ty_1__bindgen_ty_1", bindgen_test_layout_edd_device_params__bindgen_ty_1__bindgen_ty_1);
  ("edd_device_params__bindgen_ty_1__bindgen_ty_2", bindgen_test_layout_edd_device_params__bindgen_ty_1__bindgen_ty_2);
  ("edd_device_params__bindgen_ty_1__bindgen_ty_3", bindgen_test_layout_edd_device_params__bindgen_ty_1__bindgen_ty_3);
  ("edd_device_params__bindgen_ty_1__bindgen_ty_4", bindgen_test_layout_edd_device_params__bindgen_ty_1__bindgen_ty_4);
  ("edd_device_params__bindgen_ty_1__bindgen_ty_5", bindgen_test_layout_edd_device_params__bindgen_ty_1__bindgen_ty_5);
  ("edd_device_params__bindgen_ty_1__bindgen_ty_6", bindgen_test_layout_edd_device_params__bindgen_ty_1__bindgen_ty_6);
  ("edd_device_params__bindgen_ty_2", bindgen_test_layout_edd_device_params__bindgen_ty_2);
  ("edd_device_params__bindgen_ty_2__bindgen_ty_1", bindgen_test_layout_edd_device_params__bindgen_ty_2__bindgen_ty_1);
  ("edd_device_params__bindgen_ty_2__bindgen_ty_2", bindgen_test_layout_edd_device_params__bindgen_ty_2__bindgen_ty_2);
  ("edd_device_params__bindgen_ty_2__bindgen_ty_3", bindgen_test_layout_edd_device_params__bindgen_ty_2__bindgen_ty_3);
  ("edd_device_params__bindgen_ty_2__bindgen_ty_4", bindgen_test_layout_edd_device_params__bindgen_ty_2__bindgen_ty_4);
  ("edd_device_params__bindgen_ty_2__bindgen_ty_5", bindgen_test_layout_edd_device_params__bindgen_ty_2__bindgen_ty_5);
  ("edd_device_params__bindgen_ty_2__bindgen_ty_6", bindgen_test_layout_edd_device_params__bindgen_ty_2__bindgen_ty_6);
  ("edd_device_params__bindgen_ty_2__bindgen_ty_7", bindgen_test_layout_edd_device_params__bindgen_ty_2__bindgen_ty_7);
  ("edd_device_params__bindgen_ty_2__bindgen_ty_8", bindgen_test_layout_edd_device_params__bindgen_ty_2__bindgen_ty_8);
  ("edd_device_params__bindgen_ty_2__bindgen_ty_9", bindgen_test_layout_edd_device_params__bindgen_ty_2__bindgen_ty_9);
  ("edd_device_params__bindgen_ty_2__bindgen_ty_10", bindgen_test_layout_edd_device_params__bindgen_ty_2__bindgen_ty_10);
  ("edd_info", bindgen_test_layout_edd_info); ("edd", bindgen_test_layout_edd);
  ("ist_info", bindgen_test_layout_ist_info); ("edid_info", bindgen_test_layout_edid_info);
  ("setup_data", bindgen_test_layout_setup_data);
  ("setup_indirect", bindgen_test_layout_setup_indirect);
  ("setup_header", bindgen_test_layout_setup_header);
  ("sys_desc_table", bindgen_test_layout_sys_desc_table);
  ("olpc_ofw_header", bindgen_test_layout_olpc_ofw_header);
  ("efi_info", bindgen_test_layout_efi_info);
  ("boot_e820_entry", bindgen_test_layout_boot_e820_entry);
  ("jailhouse_setup_data", bindgen_test_layout_jailhouse_setup_data);
  ("jailhouse_setup_data__bindgen_ty_1", bindgen_test_layout_jailhouse_setup_data__bindgen_ty_1);
  ("jailhouse_setup_data__bindgen_ty_2", bindgen_test_layout_jailhouse_setup_data__bindgen_ty_2);
  ("jailhouse_setup_data__bindgen_ty_3", bindgen_test_layout_jailhouse_setup_data__bindgen_ty_3);
  ("ima_setup_data", bindgen_test_layout_ima_setup_data);
  ("boot_params", bindgen_test_layout_boot_params)].

End structures.

(** ** Properties *)

Definition failing (tests : list (string * bool)) : list string :=
  map fst (filter (fun t => t.2 = false) tests).

(** The layout computed here is the compiler's: every test of the bindings
    passes where [long] has 8 bytes. *)
Lemma bindgen_tests_pass : failing (bindgen_tests (long:=linux_long)) = [].
Proof. vm_compute. reflexivity. Qed.

(** On Windows, the system the program is for, [long] has 4 bytes and the test
    of [__kernel_fd_set] fails; no other structure depends on it. *)
Lemma bindgen_tests_on_windows : failing (bindgen_tests (long:=windows_long)) = ["__kernel_fd_set"].
Proof. vm_compute. reflexivity. Qed.
