(* ===== verification/Boot.v ===== *)
(** * Boot: loading Linux, [src/linux_boot.rs]

    The kernel file is read, its image is placed in guest memory, the zero
    page, the page tables and the descriptor table are written and the
    registers of the boot processor are set.  All of it works on guest memory
    through the interface [LinuxBootPartition]. *)

From S2P Require Import Prelude Bytes HostMem GuestMem Queue Irqchip Bus VirtioDev Mmio Layout Acpi Partition CLayout BootParams.

(** ** The interface to the partition *)

(* src/linux_boot.rs:60-69, LinuxBootPartition *)
Class LinuxBootPartition (P : Type) : Type := {
  lb_write_code : P -> list Z -> Z -> M hostmem string unit;
  lb_get_memory_size : P -> out string Z;
  lb_device_manager : P -> DeviceManager;
  lb_cpu_manager : P -> CpuManager;
  lb_memory_manager : P -> MemoryManager;
}.

(* src/partition.rs:361-392, LinuxBootPartition for Partition *)
#[export] Instance partition_boot {prof : Profile} {Ev} : LinuxBootPartition (Partition Ev) := {
  lb_write_code := partition_write_code;
  lb_get_memory_size p := get_memory_size (pt_memory p);
  lb_device_manager := pt_device_manager;
  lb_cpu_manager := pt_cpu_manager;
  lb_memory_manager := pt_memory;
}.

(** ** Files

    The contents of a file and the position of the handle. *)
Record File : Type := { f_bytes : list Z; f_pos : Z }.

Definition file_open (contents : option (list Z)) : out string File :=
  match contents with
  | Some bs => Ok {| f_bytes := bs; f_pos := 0 |}
  | None => Err "Failed to open kernel file"%string
  end.

(** [seek(SeekFrom::Start)] accepts a position behind the end. *)
Definition file_seek (pos : Z) (f : File) : File := {| f_bytes := f_bytes f; f_pos := pos |}.

(** [read_exact]: a short read is an error. *)
Definition file_read_exact (n : Z) (f : File) : out string (list Z * File) :=
  if f_pos f + n <=? zlen (f_bytes f)
  then Ok (slice (Z.to_nat (f_pos f)) (Z.to_nat n) (f_bytes f),
           {| f_bytes := f_bytes f; f_pos := f_pos f + n |})
  else if n =? 0 then Ok ([], f)
  else Err "failed to fill whole buffer"%string.

Definition file_read_to_end (f : File) : list Z := drop (Z.to_nat (f_pos f)) (f_bytes f).

(** ** ELF structures *)

(* src/linux_boot.rs:18-18, ELF_MAGIC *)
Definition ELF_MAGIC : list Z := [0x7f; 69; 76; 70].
(* src/linux_boot.rs:21-21, ELFCLASS64 *)
Definition ELFCLASS64 : Z := 2.
(* src/linux_boot.rs:22-22, ELFDATA2LSB *)
Definition ELFDATA2LSB : Z := 1.
(* src/linux_boot.rs:23-23, EM_X86_64 *)
Definition EM_X86_64 : Z := 62.
(* src/linux_boot.rs:24-24, PT_LOAD *)
Definition PT_LOAD : Z := 1.

(** The integer of [n] bytes at offset [i] of a structure. *)
Definition field (i n : nat) (bs : list Z) : Z := le_val (slice i n bs).

(** The fields the code does not read are left out. *)
(* src/linux_boot.rs:26-44, Elf64Ehdr *)
Record Elf64Ehdr : Type := {
  e_ident : list Z;
  e_machine : Z;
  e_entry : Z;
  e_phoff : Z;
  e_phentsize : Z;
  e_phnum : Z;
}.

Definition elf64_ehdr (bs : list Z) : Elf64Ehdr :=
  {| e_ident := slice 0 16 bs; e_machine := field 18 2 bs; e_entry := field 24 8 bs;
     e_phoff := field 32 8 bs; e_phentsize := field 54 2 bs; e_phnum := field 56 2 bs |}.

(* src/linux_boot.rs:46-58, Elf64Phdr *)
Record Elf64Phdr : Type := {
  p_type : Z;
  p_offset : Z;
  p_vaddr : Z;
  p_paddr : Z;
  p_filesz : Z;
  p_memsz : Z;
}.

Definition elf64_phdr (bs : list Z) : Elf64Phdr :=
  {| p_type := field 0 4 bs; p_offset := field 8 8 bs; p_vaddr := field 16 8 bs;
     p_paddr := field 24 8 bs; p_filesz := field 32 8 bs; p_memsz := field 40 8 bs |}.

(** The [repr(C)] sizes. *)
Definition ehdr_size : Z := 64.
Definition phdr_size : Z := 56.

(** The array of headers in the bytes read. *)
Definition elf64_phdrs (n : nat) (bs : list Z) : list Elf64Phdr :=
  map (fun i => elf64_phdr (slice (i * 56) 56 bs)) (seq 0 n).

(** ** The zero page *)

(** [boot_params[offset..offset+n].copy_from_slice(bs)]: the range must be
    inside the buffer. *)
Definition put {E} (offset : Z) (bs buf : list Z) : out E (list Z) :=
  if offset + zlen bs <=? zlen buf then Ok (splice (Z.to_nat offset) bs buf) else Panic.

(* src/linux_boot.rs:296-300, write_e820 *)
Definition write_e820 {E} (boot_params : list Z) (offset mem_addr mem_size mem_type : Z) :
    out E (list Z) :=
  b ← put offset (le_bytes 8 mem_addr) boot_params;
  b ← put (offset + 8) (le_bytes 8 mem_size) b;
  put (offset + 16) (le_bytes 4 mem_type) b.

(** The loops over regions and windows: one entry every 20 bytes. *)
(* src/linux_boot.rs:405-423, fill_boot_params *)
Fixpoint write_e820_entries {E} (boot_params : list Z) (offset : Z) (entries : list (Z * Z * Z)) :
    out E (list Z) :=
  match entries with
  | [] => Ok boot_params
  | (addr, size, ty) :: entries' =>
      b ← write_e820 boot_params offset addr size ty;
      write_e820_entries b (offset + 20) entries'
  end.

(** The bytes of the command line, without the final NUL. *)
Definition CMDLINE : string :=
  "console=hvc0 8250.nr_uarts=0 root=/dev/vda rw loglevel=7 ip=192.168.127.2::192.168.127.1:255.255.255.0:virtio-hostname:eth0:off".
Definition string_bytes (s : string) : list Z :=
  map (fun c => Z.of_N (Ascii.N_of_ascii c)) (String.list_ascii_of_string s).

Section boot.
Context {prof : Profile} {P : Type} `{!LinuxBootPartition P} {Sdt : Type} `{!AcpiTables Sdt}.

(** The entries of the memory map, in the order they are written. *)
(* src/linux_boot.rs:404-428, fill_boot_params *)
Definition e820_entries (partition : P) : out string (list (Z * Z * Z)) :=
  memory_size ← lb_get_memory_size partition;
  let mm := lb_memory_manager partition in
  Ok (map (fun r => (mr_gpa r, mr_size r, 1)) (mm_regions mm)
      ++ (if MEM_32BIT_RESERVED_START <? memory_size
          then [(MEM_32BIT_RESERVED_START, MEM_32BIT_RESERVED_SIZE, 2)] else [])
      ++ map (fun m => (mmio_gpa m, mmio_size m, 2)) (mm_mmio_regions mm)).

(** The result of [create_acpi_tables] is dropped. *)
(* src/linux_boot.rs:366-434, fill_boot_params *)
Definition fill_boot_params (partition : P) (boot_params : list Z) (gpa code32_start : Z) :
    M hostmem string (list Z) :=
  let b := <[Z.to_nat 0x210 := 0xff]> boot_params in
  let b := alter (fun f => Z.lor f 0x81) (Z.to_nat 0x211) b in
  b ← lift (put 0x214 (le_bytes 4 (wrap 32 code32_start)) b);
  b ← lift (put 0x224 (le_bytes 2 0xfe00) b);
  _ ← lb_write_code partition (string_bytes CMDLINE ++ [0]) CMDLINE_START;
  b ← lift (put 0x228 (le_bytes 4 (wrap 32 CMDLINE_START)) b);
  b ← lift (put 0x1e0 (replicate 15 0) b);
  b ← lift (put 0x202 (string_bytes "HdrS") b);
  entries ← lift (e820_entries partition);
  b ← lift (write_e820_entries b 0x2d0 entries);
  let b := <[Z.to_nat 0x1e8 := wrap 8 (zlen entries)]> b in
  _ ← lb_write_code partition b gpa;
  _ ← create_acpi_tables (S:=Sdt) (lb_device_manager partition) (lb_cpu_manager partition)
        (lb_memory_manager partition);
  mret b.

(* src/linux_boot.rs:341-362, setup_elf_boot_params *)
Definition setup_elf_boot_params (partition : P) (gpa code32_start kernel_size : Z) :
    M hostmem string Z :=
  let b := replicate 4096 0 in
  let b := <[Z.to_nat 0x1f1 := 0]> b in
  b ← lift (put 0x202 (string_bytes "HdrS") b);
  b ← lift (put 0x206 (le_bytes 2 0x020f) b);
  rounded ← lift (uadd 64 kernel_size 0xfff);
  let init_size := wrap 32 (Z.land rounded (wnot 64 0xfff)) in
  b ← lift (put 0x260 (le_bytes 4 init_size) b);
  _ ← fill_boot_params partition b gpa code32_start;
  mret init_size.

(* src/linux_boot.rs:306-334, setup_bzimage_boot_params *)
Definition setup_bzimage_boot_params (partition : P) (gpa : Z) (kernel : option (list Z))
    (code32_start : Z) : M hostmem string Z :=
  let b := replicate 4096 0 in
  f ← lift (file_open kernel);
  r ← lift (file_read_exact 1 (file_seek 0x0201 f));
  let '(size_byte, f) := r in
  let setup_header_end := 0x0202 + nth 0 size_byte 0 in
  let setup_header_size := setup_header_end - 0x1f1 in
  r ← lift (file_read_exact setup_header_size (file_seek 0x1f1 f));
  let '(header, f) := r in
  b ← lift (put 0x1f1 header b);
  b ← fill_boot_params partition b gpa code32_start;
  mret (field 0x260 4 b).

(** ** The bzImage kernel *)

(** A field of the [setup_header] read from the file. *)
(* src/linux_boot.rs:110-118, load_bzimage_kernel *)
Definition boot_header_field (boot_header : list Z) (name : string) : Z :=
  default 0 (read_field setup_header [Fld name] boot_header).

(* src/linux_boot.rs:95-155, load_bzimage_kernel *)
Definition load_bzimage_kernel (partition : P) (kernel : option (list Z)) (kernel_file : File) :
    M hostmem string Z :=
  let total_size := zlen (f_bytes kernel_file) in
  r ← lift (file_read_exact (Z.of_nat (size_of setup_header)) (file_seek 0x1f1 kernel_file));
  let '(boot_header, f) := r in
  let fld := boot_header_field boot_header in
  if negb (fld "header" =? 0x53726448) then
    throw "Invalid bzImage: missing HdrS magic"%string
  else if (fld "version" <? 0x0200) || (Z.land (fld "loadflags") 1 =? 0) then
    throw "Unsupported bzImage version"%string
  else
    let setup_size := fld "setup_sects" in
    let setup_size := if setup_size =? 0 then 4 else setup_size in
    let setup_size := (setup_size + 1) * 512 in
    _ ← lift (usub 64 total_size setup_size);
    let payload := file_read_to_end (file_seek setup_size f) in
    _ ← lb_write_code partition payload HIGH_RAM_START;
    _ ← setup_bzimage_boot_params partition ZERO_PAGE_START kernel (fld "code32_start");
    mret (HIGH_RAM_START + 0x200).

(** ** The ELF kernel *)

(** What the loop over the program headers keeps. *)
Record LoadState : Type := {
  ls_lowest_paddr : Z;
  ls_highest_end : Z;
  ls_vaddr_to_paddr_offset : option Z;
}.

(** One turn for a [PT_LOAD] header.  The offset is the [i64] of the
    difference, kept as its 64-bit pattern. *)
(* src/linux_boot.rs:217-252, load_elf_kernel *)
Definition load_segment (partition : P) (f : File) (phdr : Elf64Phdr) (s : LoadState) :
    M hostmem string LoadState :=
  if negb (p_type phdr =? PT_LOAD) then mret s
  else
    let offset := match ls_vaddr_to_paddr_offset s with
                  | Some o => Some o
                  | None => Some (wsub 64 (p_vaddr phdr) (p_paddr phdr))
                  end in
    _ ← (if 0 <? p_filesz phdr then
           r ← lift (file_read_exact (p_filesz phdr) (file_seek (p_offset phdr) f));
           lb_write_code partition r.1 (p_paddr phdr)
         else mret tt);
    end_ ← lift (uadd 64 (p_paddr phdr) (p_memsz phdr));
    mret {| ls_lowest_paddr := Z.min (ls_lowest_paddr s) (p_paddr phdr);
            ls_highest_end := Z.max (ls_highest_end s) end_;
            ls_vaddr_to_paddr_offset := offset |}.

(* src/linux_boot.rs:209-253, load_elf_kernel *)
Fixpoint load_segments (partition : P) (f : File) (phdrs : list Elf64Phdr) (s : LoadState) :
    M hostmem string LoadState :=
  match phdrs with
  | [] => mret s
  | phdr :: phdrs' => s' ← load_segment partition f phdr s; load_segments partition f phdrs' s'
  end.

(* src/linux_boot.rs:264-268, load_elf_kernel *)
Fixpoint entry_is_physical {E} (phdrs : list Elf64Phdr) (entry : Z) : out E bool :=
  match phdrs with
  | [] => Ok false
  | ph :: phdrs' =>
      if (p_type ph =? PT_LOAD) && (p_paddr ph <=? entry) then
        end_ ← uadd 64 (p_paddr ph) (p_memsz ph);
        if entry <? end_ then Ok true else entry_is_physical phdrs' entry
      else entry_is_physical phdrs' entry
  end.

(* src/linux_boot.rs:174-197, load_elf_kernel *)
Definition check_ehdr (ehdr : Elf64Ehdr) : out string unit :=
  if negb (bool_decide (slice 0 4 (e_ident ehdr) = ELF_MAGIC)) then Err "Not a valid ELF file"%string
  else if negb (nth 4 (e_ident ehdr) 0 =? ELFCLASS64) then Err "Not a 64-bit ELF"%string
  else if negb (nth 5 (e_ident ehdr) 0 =? ELFDATA2LSB) then Err "Not a little-endian ELF"%string
  else if negb (e_machine ehdr =? EM_X86_64) then Err "Not an x86_64 ELF"%string
  else if negb (e_phentsize ehdr =? phdr_size) then Err "Unexpected phentsize"%string
  else Ok tt.

(* src/linux_boot.rs:158-294, load_elf_kernel *)
Definition load_elf_kernel (partition : P) (kernel_file : File) : M hostmem string Z :=
  r ← lift (file_read_exact ehdr_size kernel_file);
  let '(bs, f) := r in
  let ehdr := elf64_ehdr bs in
  _ ← lift (check_ehdr ehdr);
  let entry := e_entry ehdr in
  r ← lift (file_read_exact (phdr_size * e_phnum ehdr) (file_seek (e_phoff ehdr) f));
  let '(bs, f) := r in
  let phdrs := elf64_phdrs (Z.to_nat (e_phnum ehdr)) bs in
  s ← load_segments partition f phdrs
        {| ls_lowest_paddr := 2 ^ 64 - 1; ls_highest_end := 0; ls_vaddr_to_paddr_offset := None |};
  if ls_lowest_paddr s =? 2 ^ 64 - 1 then throw "ELF has no PT_LOAD segments"%string
  else
    physical ← lift (entry_is_physical phdrs entry);
    let phys_entry :=
      if physical : bool then entry
      else wsub 64 entry (default 0 (ls_vaddr_to_paddr_offset s)) in
    kernel_size ← lift (usub 64 (ls_highest_end s) (ls_lowest_paddr s));
    _ ← setup_elf_boot_params partition ZERO_PAGE_START (ls_lowest_paddr s) kernel_size;
    mret phys_entry.

(** The file is opened again by the bzImage path. *)
(* src/linux_boot.rs:72-92, load_linux_kernel *)
Definition load_linux_kernel (partition : P) (kernel : option (list Z)) : M hostmem string Z :=
  f ← lift (file_open kernel);
  r ← lift (file_read_exact 4 f);
  let '(magic, f) := r in
  let f := file_seek 0 f in
  if bool_decide (magic = ELF_MAGIC) then load_elf_kernel partition f
  else load_bzimage_kernel partition kernel f.

(** ** Page tables *)

(** The four entries of the loop [for i in 0..4]. *)
Fixpoint write_pdp_entries {E} (n : nat) (i pdpte_offset : Z) (tables : list Z) : out E (list Z) :=
  match n with
  | O => Ok tables
  | S n' =>
      let pdp_entry := Z.lor (Z.shiftl i 30) 0x83 in
      t ← put (pdpte_offset + i * 8) (le_bytes 8 pdp_entry) tables;
      write_pdp_entries n' (i + 1) pdpte_offset t
  end.

(** [kernel_load_addr] and [init_size] only enter sums whose results are not
    used, but which can overflow. *)
(* src/linux_boot.rs:442-475, setup_identity_paging *)
Definition setup_identity_paging (partition : P) (kernel_load_addr init_size : Z) :
    M hostmem string unit :=
  let tables := replicate (Z.to_nat (4096 * 2)) 0 in
  let pml4_entry := Z.lor PDPTE_START 0x3 in
  t ← lift (put 0 (le_bytes 8 pml4_entry) tables);
  kernel_end ← lift (uadd 64 kernel_load_addr init_size);
  let max_addr := Z.max kernel_end (CMDLINE_START + CMDLINE_MAX_SIZE) in
  _ ← lift (uadd 64 max_addr 0x3fffffff);
  let pdpte_offset := PDPTE_START - PML4_START in
  t ← lift (write_pdp_entries 4 0 pdpte_offset t);
  lb_write_code partition t PML4_START.

(** ** Registers *)

Inductive RegName : Type :=
| RegGdtr | RegCr0 | RegCr3 | RegCr4 | RegEfer | RegCs | RegDs | RegEs | RegSs
| RegRip | RegRsi | RegRsp | RegRflags.

Inductive RegValue : Type :=
| Reg64 (v : Z)
| RegTable (base limit : Z)
| RegSegment (selector base limit attributes : Z).

(** What is passed to [WHvSetVirtualProcessorRegisters], after the descriptor
    table is written. *)
(* src/linux_boot.rs:488-599, setup_linux_registers *)
Definition setup_linux_registers (partition : P) (kernel_entry : Z) :
    M hostmem string (list (RegName * RegValue)) :=
  let gdt := [0; 0; 0x00AF9A000000FFFF; 0x00CF93000000FFFF] in
  _ ← lb_write_code partition (concat (map (le_bytes 8) gdt)) BOOT_GDT_START;
  let cs_desc := RegSegment 0x10 0 0xffffffff 0xA09B in
  let ds_desc := RegSegment 0x18 0 0xffffffff 0xC093 in
  mret [(RegGdtr, RegTable BOOT_GDT_START 31);
        (RegCr3, Reg64 PML4_START);
        (RegCr4, Reg64 0x20);
        (RegEfer, Reg64 0x100);
        (RegCr0, Reg64 0x80050033);
        (RegCs, cs_desc);
        (RegDs, ds_desc); (RegEs, ds_desc); (RegSs, ds_desc);
        (RegRip, Reg64 kernel_entry);
        (RegRsi, Reg64 ZERO_PAGE_START);
        (RegRsp, Reg64 BOOT_STACK_POINTER);
        (RegRflags, Reg64 0x2)].

End boot.

(** [init_size] is read from the zero page written before. *)
(* src/partition.rs:256-276, Partition::setup_linux_registers *)
Definition partition_setup_linux_registers {prof : Profile} {Ev} (p : Partition Ev)
    (kernel_entry : Z) : M hostmem string (list (RegName * RegValue)) :=
  boot_params ← reads (fun hm => partition_read_memory p hm ZERO_PAGE_START 4096);
  let init_size :=
    if (0x260 + 4 <? length boot_params)%nat then field 0x260 4 boot_params
    else HIGH_RAM_START in
  _ ← setup_identity_paging p kernel_entry init_size;
  setup_linux_registers p kernel_entry.

(** The low megabyte, where the loader puts its structures. *)
Lemma low_mapped mm q gpa n :
  mm_wf mm -> mapped mm 0 HIGH_RAM_START q -> 0 <= gpa -> 0 <= n -> gpa + n <= HIGH_RAM_START ->
  mapped mm gpa n (q + gpa).
Proof. intros Hwf Hm ???. by apply (mapped_sub mm 0 HIGH_RAM_START q gpa n). Qed.

(** A small machine: 4 MiB of RAM and the program's windows. *)
Definition boot_mm : MemoryManager :=
  {| mm_regions := [ram 0 0x400000 0x10000000]; mm_mmio_regions := machine_windows;
     mm_access_log := []; mm_acpi_address := None |}.

Definition boot_partition : Partition nat :=
  pt_set_managers example_device_manager (set_cpu_count 1 cpu_manager_new)
    (pt_set_memory boot_mm example_partition).

Lemma boot_mm_wf : mm_wf boot_mm.
Proof.
  split.
  - constructor; [|constructor]. unfold region_wf; cbn; lia.
  - intros [|[|i]] [|[|j]]; cbn; intros; simplify_eq; done.
  - intros [|[|i]] [|[|j]]; cbn; intros; simplify_eq; done.
Qed.

Lemma boot_mapped gpa n :
  0 <= gpa -> 0 <= n -> gpa + n < 0x400000 -> mapped boot_mm gpa n (0x10000000 + gpa).
Proof.
  intros. exists (ram 0 0x400000 0x10000000), 0x10000000. split_and!; try done; cbn; try lia.
  unfold region_at, boot_mm. cbn. rewrite decide_True by (unfold region_contains; cbn; lia). done.
Qed.
