(* ===== verification/BootState.v ===== *)
(** * BootState: the state of the boot processor

    The page tables, the descriptor table and the registers that the last step
    of [src/linux_boot.rs] sets up, read back the way the processor reads them:
    a page walk and a descriptor load on guest memory. *)

From S2P Require Import Prelude Bytes HostMem GuestMem Queue Irqchip Bus VirtioDev Mmio Layout Acpi Partition Boot.

(** ** What the processor sees

    The page walk of 64-bit mode as far as 1 GiB pages go: [None] when a table
    is not in guest memory, [Some None] for a page fault (or a walk that goes
    on to smaller pages, which these tables do not have), [Some (Some pa)] for
    the physical address. *)
Definition guest_u64 (mm : MemoryManager) (hm : hostmem) (a : Z) : option Z :=
  le_val <$> guest_bytes mm hm a 8.

Definition page_walk (mm : MemoryManager) (hm : hostmem) (cr3 va : Z) : option (option Z) :=
  pml4e ← guest_u64 mm hm (Z.land cr3 (wnot 64 0xfff) + 8 * (va / 2 ^ 39 mod 512));
  if negb (Z.testbit pml4e 0) then Some None
  else
    pdpte ← guest_u64 mm hm (Z.land pml4e (wnot 64 0xfff) + 8 * (va / 2 ^ 30 mod 512));
    if negb (Z.testbit pdpte 0 && Z.testbit pdpte 7) then Some None
    else Some (Some (Z.land pdpte (wnot 64 (2 ^ 30 - 1)) + va mod 2 ^ 30)).

(** The tables as one literal: the first entry of the PML4, four 1 GiB pages. *)
Definition pdp_entry (i : nat) : Z := Z.lor (Z.shiftl (Z.of_nat i) 30) 0x83.
Definition page_tables : list Z :=
  le_bytes 8 (Z.lor PDPTE_START 3) ++ replicate 4088 0 ++
  concat (map (fun i => le_bytes 8 (pdp_entry i)) (seq 0 4)) ++ replicate 4064 0.

Lemma length_page_tables : length page_tables = Z.to_nat 8192.
Proof. vm_compute. reflexivity. Qed.

Lemma setup_identity_paging_eq {prof : Profile} {P} `{!LinuxBootPartition P} (p : P) entry init hm :
  0 <= entry -> 0 <= init -> entry + init + 2 ^ 30 <= 2 ^ 64 ->
  setup_identity_paging p entry init hm = lb_write_code p page_tables PML4_START hm.
Proof.
  intros He Hi Hb. unfold setup_identity_paging. run_St.
  assert (put (E:=string) 0 (le_bytes 8 (Z.lor PDPTE_START 3)) (replicate (Z.to_nat (4096 * 2)) 0) =
    Ok (le_bytes 8 (Z.lor PDPTE_START 3) ++ replicate (Z.to_nat 8184) 0)) as -> by (vm_compute; reflexivity).
  rewrite uadd_ok by lia. cbv beta iota.
  pose proof (eq_refl : CMDLINE_START + CMDLINE_MAX_SIZE = 0x30000) as Hc.
  rewrite Hc, uadd_ok by lia. cbv beta iota.
  assert (write_pdp_entries (E:=string) 4 0 (PDPTE_START - PML4_START)
    (le_bytes 8 (Z.lor PDPTE_START 3) ++ replicate (Z.to_nat 8184) 0) = Ok page_tables) as ->
    by (vm_compute; reflexivity).
  done.
Qed.

(** The entries of the tables, by evaluation. *)
Lemma page_tables_pml4 (i : nat) :
  (i < 512)%nat ->
  slice (8 * i) 8 page_tables = le_bytes 8 (if (i =? 0)%nat then Z.lor PDPTE_START 3 else 0).
Proof.
  intros Hi.
  assert (forallb (fun i => bool_decide (slice (8 * i) 8 page_tables =
    le_bytes 8 (if (i =? 0)%nat then Z.lor PDPTE_START 3 else 0))) (seq 0 512) = true) as Ha
    by (vm_compute; reflexivity).
  rewrite forallb_forall in Ha. specialize (Ha i).
  rewrite bool_decide_eq_true in Ha. apply Ha. apply in_seq. lia.
Qed.

Lemma page_tables_pdpt (i : nat) :
  (i < 512)%nat ->
  slice (4096 + 8 * i) 8 page_tables = le_bytes 8 (if (i <? 4)%nat then pdp_entry i else 0).
Proof.
  intros Hi.
  assert (forallb (fun i => bool_decide (slice (4096 + 8 * i) 8 page_tables =
    le_bytes 8 (if (i <? 4)%nat then pdp_entry i else 0))) (seq 0 512) = true) as Ha
    by (vm_compute; reflexivity).
  rewrite forallb_forall in Ha. specialize (Ha i).
  rewrite bool_decide_eq_true in Ha. apply Ha. apply in_seq. lia.
Qed.

(** Memory that holds the tables translates 4 GiB one to one and nothing else. *)
Lemma page_walk_identity mm hm va :
  guest_bytes mm hm PML4_START (Z.to_nat 8192) = Some page_tables -> 0 <= va < 2 ^ 48 ->
  page_walk mm hm PML4_START va = Some (if va <? 2 ^ 32 then Some va else None).
Proof.
  intros Ht Hva. unfold page_walk, guest_u64.
  set (i := Z.to_nat (va / 2 ^ 39 mod 512)). set (j := Z.to_nat (va / 2 ^ 30 mod 512)).
  assert (0 <= va / 2 ^ 39 mod 512 < 512) as Hi by (apply Z.mod_pos_bound; lia).
  assert (0 <= va / 2 ^ 30 mod 512 < 512) as Hj by (apply Z.mod_pos_bound; lia).
  replace (Z.land PML4_START (wnot 64 0xfff) + 8 * (va / 2 ^ 39 mod 512))
    with (PML4_START + Z.of_nat (8 * i)).
  2:{ change (Z.land PML4_START (wnot 64 0xfff)) with PML4_START. subst i. lia. }
  rewrite (guest_bytes_slice _ _ _ _ _ _ _ Ht) by (subst i; lia).
  rewrite page_tables_pml4 by (subst i; lia). cbn [fmap option_fmap option_map mbind option_bind].
  rewrite le_val_le_bytes_fits by (destruct (i =? 0)%nat; vm_compute; split; congruence).
  assert (va / 2 ^ 39 < 512) as Hs by (apply Z.div_lt_upper_bound; lia).
  rewrite Z.mod_small in Hi by (split; [apply Z.div_pos|]; lia).
  assert (Hz : (i =? 0)%nat = (va <? 2 ^ 39)).
  { subst i. rewrite Z.mod_small by (split; [apply Z.div_pos|]; lia).
    destruct (Z.ltb_spec va (2 ^ 39)) as [Hl|Hl].
    - by rewrite Z.div_small by lia.
    - apply Nat.eqb_neq. assert (1 <= va / 2 ^ 39) by (apply Z.div_le_lower_bound; lia). lia. }
  rewrite Hz. destruct (Z.ltb_spec va (2 ^ 39)) as [Hl|Hl].
  2:{ cbn [Z.testbit negb]. by rewrite (proj2 (Z.ltb_ge _ _)) by lia. }
  change (negb (Z.testbit (Z.lor PDPTE_START 3) 0)) with false. cbv iota.
  replace (Z.land (Z.lor PDPTE_START 3) (wnot 64 0xfff) + 8 * (va / 2 ^ 30 mod 512))
    with (PML4_START + Z.of_nat (4096 + 8 * j)).
  2:{ change (Z.land (Z.lor PDPTE_START 3) (wnot 64 0xfff)) with (PML4_START + 4096).
      subst j. lia. }
  rewrite (guest_bytes_slice _ _ _ _ _ _ _ Ht) by (subst j; lia).
  rewrite page_tables_pdpt by (subst j; lia). cbn [fmap option_fmap option_map mbind option_bind].
  assert (va / 2 ^ 30 < 512) as Hs' by (apply Z.div_lt_upper_bound; lia).
  assert (0 <= va / 2 ^ 30) as Hp' by (apply Z.div_pos; lia).
  assert (Hj' : Z.of_nat j = va / 2 ^ 30) by (subst j; rewrite Z.mod_small; lia).
  pose proof (Z.div_mod va (2 ^ 30)) as Hdm. pose proof (Z.mod_pos_bound va (2 ^ 30)) as Hmp.
  destruct (Nat.ltb_spec j 4) as [Hj4|Hj4].
  - assert (fits 64 (pdp_entry j) /\ Z.testbit (pdp_entry j) 0 && Z.testbit (pdp_entry j) 7 = true /\
      Z.land (pdp_entry j) (wnot 64 (2 ^ 30 - 1)) = Z.of_nat j * 2 ^ 30) as (Hf & Hb & Hl').
    { do 4 (destruct j as [|j]; [vm_compute; intuition congruence|]). lia. }
    rewrite le_val_le_bytes_fits, Hb, Hl' by done. cbn [negb].
    rewrite (proj2 (Z.ltb_lt _ _)) by lia. do 2 f_equal. lia.
  - cbn [negb Z.testbit]. rewrite (proj2 (Z.ltb_ge _ _)) by lia.
    by rewrite le_val_le_bytes_fits by (split; lia).
Qed.

(** ** Registers and descriptors *)

#[export] Instance reg_name_eq_dec : EqDecision RegName.
Proof. solve_decision. Defined.

Definition reg (regs : list (RegName * RegValue)) (n : RegName) : option RegValue :=
  snd <$> (snd <$> list_find (fun p => p.1 = n) regs).

(** 64-bit mode with paging, interrupts off. *)
Definition long_mode (regs : list (RegName * RegValue)) : Prop :=
  exists cr0 cr4 efer rflags,
    reg regs RegCr0 = Some (Reg64 cr0) /\ reg regs RegCr4 = Some (Reg64 cr4) /\
    reg regs RegEfer = Some (Reg64 efer) /\ reg regs RegRflags = Some (Reg64 rflags) /\
    Z.testbit cr0 0 = true /\ Z.testbit cr0 31 = true /\ Z.testbit cr4 5 = true /\
    Z.testbit efer 8 = true /\ Z.testbit rflags 9 = false.

(** Base, limit and attributes that the processor loads from a descriptor; it
    sets the accessed bit. *)
Definition descriptor_segment (d : Z) : Z * Z * Z :=
  let raw_limit := Z.lor (Z.land d 0xffff) (Z.shiftl (Z.land (Z.shiftr d 48) 0xf) 16) in
  (Z.lor (Z.land (Z.shiftr d 16) 0xffffff) (Z.shiftl (Z.shiftr d 56) 24),
   if Z.testbit d 55 then Z.lor (Z.shiftl raw_limit 12) 0xfff else raw_limit,
   Z.lor (Z.land (Z.shiftr d 40) 0xf0ff) 1).

(** The segment register holds what its selector names in the table. *)
Definition segment_from_gdt (mm : MemoryManager) (hm : hostmem)
    (regs : list (RegName * RegValue)) (n : RegName) (selector : Z) : Prop :=
  exists table limit base seg_limit attributes d,
    reg regs RegGdtr = Some (RegTable table limit) /\
    reg regs n = Some (RegSegment selector base seg_limit attributes) /\
    selector + 7 <= limit /\ guest_u64 mm hm (table + selector) = Some d /\
    descriptor_segment d = (base, seg_limit, attributes).

(** The table as the code writes it. *)
Definition boot_gdt : list Z :=
  concat (map (le_bytes 8) [0; 0; 0x00AF9A000000FFFF; 0x00CF93000000FFFF]).

Lemma boot_gdt_entries mm hm :
  guest_bytes mm hm BOOT_GDT_START (length boot_gdt) = Some boot_gdt ->
  guest_u64 mm hm (BOOT_GDT_START + 0x10) = Some 0x00AF9A000000FFFF /\
  guest_u64 mm hm (BOOT_GDT_START + 0x18) = Some 0x00CF93000000FFFF.
Proof.
  intros G. assert (length boot_gdt = 32%nat) as Lg by reflexivity. unfold guest_u64.
  change 0x10 with (Z.of_nat 16). change 0x18 with (Z.of_nat 24).
  rewrite !(guest_bytes_slice _ _ _ _ _ _ _ G) by lia. split; vm_compute; reflexivity.
Qed.

Lemma field_4_bound off hm q n :
  hostmem_wf hm -> (off + 4 <= n)%nat -> 0 <= field off 4 (host_read hm q n) < 2 ^ 32.
Proof.
  intros Hhm Hn. unfold field. pose proof (le_val_bound (slice off 4 (host_read hm q n))) as B.
  unfold zlen in B. rewrite length_slice in B by (rewrite length_host_read; lia).
  change (256 ^ Z.of_nat 4) with (2 ^ 32) in B. apply B.
  apply bytes_ok_take, bytes_ok_drop, host_read_bytes, Hhm.
Qed.

(** The last step of the boot, for a zero page whose kernel size is a word. *)
Lemma boot_state_ok {prof : Profile} {Ev} (p : Partition Ev) entry hm q :
  let mm := pt_memory p in
  mm_wf mm -> mapped mm 0 HIGH_RAM_START q ->
  0 <= field 0x260 4 (host_read hm (q + ZERO_PAGE_START) 4096) < 2 ^ 32 ->
  0 <= entry -> entry + 2 ^ 32 + 2 ^ 30 <= 2 ^ 64 ->
  exists regs hm', partition_setup_linux_registers p entry hm = (Ok regs, hm') /\
    long_mode regs /\ reg regs RegRip = Some (Reg64 entry) /\
    reg regs RegRsi = Some (Reg64 ZERO_PAGE_START) /\
    (exists cr3, reg regs RegCr3 = Some (Reg64 cr3) /\
       forall va, 0 <= va < 2 ^ 48 ->
         page_walk mm hm' cr3 va = Some (if va <? 2 ^ 32 then Some va else None)) /\
    segment_from_gdt mm hm' regs RegCs 0x10 /\
    Forall (fun s => segment_from_gdt mm hm' regs s 0x18) [RegDs; RegEs; RegSs] /\
    (forall a, ~ BOOT_GDT_START <= a < BOOT_GDT_START + 32 -> ~ PML4_START <= a < PML4_START + 8192 ->
       guest_byte mm hm' a = guest_byte mm hm a).
Proof.
  intros mm Hwf Hm Hinit He Hb.
  pose proof (eq_refl : HIGH_RAM_START = 0x100000) as Vh.
  pose proof (eq_refl : ZERO_PAGE_START = 0x7000) as Vz.
  pose proof (eq_refl : PML4_START = 0xa000) as Vp.
  pose proof (eq_refl : BOOT_GDT_START = 0x500) as Vg.
  assert (zlen page_tables = 8192) as Hl by (unfold zlen; rewrite length_page_tables; lia).
  set (init := field 0x260 4 (host_read hm (q + ZERO_PAGE_START) 4096)) in *.
  destruct (write_mapped mm hm page_tables PML4_START (q + PML4_START) Hwf) as (hm1 & W1 & G1 & F1);
    [apply low_mapped; first [assumption|lia]|].
  assert (zlen boot_gdt = 32) as Zg by reflexivity.
  destruct (write_mapped mm hm1 boot_gdt BOOT_GDT_START (q + BOOT_GDT_START) Hwf) as (hm2 & W2 & G2 & F2);
    [apply low_mapped; first [assumption|rewrite ?Zg; lia]|].
  destruct (boot_gdt_entries mm hm2 G2) as [D1 D2].
  eexists _, hm2. split_and!.
  - unfold partition_setup_linux_registers, partition_read_memory. fold mm. run_St.
    rewrite (mapped_checked_range _ _ _ (q + ZERO_PAGE_START)); [|by apply mm_wf_regions
      |apply low_mapped; first [assumption|lia]|by left]. cbv beta iota. rewrite length_host_read.
    change (0x260 + 4 <? 4096)%nat with true. cbv iota. fold init.
    rewrite setup_identity_paging_eq by lia. cbn [lb_write_code partition_boot].
    unfold partition_write_code. fold mm. rewrite W1.
    unfold setup_linux_registers. run_St. cbn [lb_write_code partition_boot].
    unfold partition_write_code. fold mm boot_gdt. rewrite W2. reflexivity.
  - eexists _, _, _, _. split_and!; reflexivity.
  - reflexivity.
  - reflexivity.
  - exists PML4_START. split; [reflexivity|]. intros va Hva. apply page_walk_identity; [|done].
    rewrite <- length_page_tables. eapply guest_bytes_frame, G1.
    intros a Ha. apply F2. rewrite length_page_tables in Ha. lia.
  - eexists _, _, _, _, _, _. split_and!; [reflexivity..|lia|exact D1|reflexivity].
  - repeat constructor; (eexists _, _, _, _, _, _; split_and!; [reflexivity..|lia|exact D2|reflexivity]).
  - intros a H1 H2. rewrite F2 by lia. apply F1. lia.
Qed.

(** C23: the state in which the boot processor starts.  With RAM below 1 MiB,
    the last step of the boot succeeds; the registers select 64-bit mode with
    paging and interrupts off, [RIP] is the entry point and [RSI] the zero
    page; the page tables written to guest memory map the first 4 GiB one to
    one and fault above, whatever the kernel's address and size; the code and
    data segments are the ones their selectors name in the descriptor table
    written to guest memory; no other guest byte changes. *)
Theorem boot_processor_state {prof : Profile} {Ev} (p : Partition Ev) entry hm q :
  let mm := pt_memory p in
  mm_wf mm -> hostmem_wf hm -> mapped mm 0 HIGH_RAM_START q ->
  0 <= entry -> entry + 2 ^ 32 + 2 ^ 30 <= 2 ^ 64 ->
  exists regs hm', partition_setup_linux_registers p entry hm = (Ok regs, hm') /\
    long_mode regs /\ reg regs RegRip = Some (Reg64 entry) /\
    reg regs RegRsi = Some (Reg64 ZERO_PAGE_START) /\
    (exists cr3, reg regs RegCr3 = Some (Reg64 cr3) /\
       forall va, 0 <= va < 2 ^ 48 ->
         page_walk mm hm' cr3 va = Some (if va <? 2 ^ 32 then Some va else None)) /\
    segment_from_gdt mm hm' regs RegCs 0x10 /\
    Forall (fun s => segment_from_gdt mm hm' regs s 0x18) [RegDs; RegEs; RegSs] /\
    (forall a, ~ BOOT_GDT_START <= a < BOOT_GDT_START + 32 -> ~ PML4_START <= a < PML4_START + 8192 ->
       guest_byte mm hm' a = guest_byte mm hm a).
Proof.
  intros mm Hwf Hhm Hm He Hb. apply boot_state_ok with q; try done. apply field_4_bound; [done|lia].
Qed.

(** ** Witness *)

Lemma boot_processor_state_witness :
  exists regs hm', partition_setup_linux_registers (prof:=dev_profile) boot_partition 0x100200
      (fun _ => 0) = (Ok regs, hm') /\
    long_mode regs /\ reg regs RegRip = Some (Reg64 0x100200).
Proof.
  destruct (boot_processor_state (prof:=dev_profile) boot_partition 0x100200 (fun _ => 0) 0x10000000)
    as (regs & hm' & Hr & Hl & Hip & _).
  - exact boot_mm_wf.
  - intros a. split; [vm_compute; congruence|vm_compute; reflexivity].
  - apply (boot_mapped 0 HIGH_RAM_START); [lia|vm_compute; congruence|vm_compute; reflexivity].
  - lia.
  - lia.
  - exists regs, hm'. by split_and!.
Defined.
