(* ===== verification/ZeroPage.v ===== *)
(** * ZeroPage: the boot parameters

    The bytes of the zero page that [fill_boot_params] of [src/linux_boot.rs]
    leaves in guest memory: the fixed fields, the memory map, the command line. *)

From S2P Require Import Prelude Bytes HostMem GuestMem Queue Irqchip Bus VirtioDev Mmio Layout Acpi Partition Boot.

(** ** Writing into buffers *)

Lemma put_ok {E} off bs (buf : list Z) :
  off + zlen bs <= zlen buf -> put (E:=E) off bs buf = Ok (splice (Z.to_nat off) bs buf).
Proof. intros Hl. unfold put. by rewrite (proj2 (Z.leb_le _ _)). Qed.

Definition e820_bytes (e : Z * Z * Z) : list Z :=
  le_bytes 8 e.1.1 ++ le_bytes 8 e.1.2 ++ le_bytes 4 e.2.

Lemma length_e820_bytes e : length (e820_bytes e) = 20%nat.
Proof. unfold e820_bytes. by rewrite !length_app, !length_le_bytes. Qed.

Lemma length_e820_concat es : length (concat (map e820_bytes es)) = (20 * length es)%nat.
Proof.
  induction es as [|e es IH]; [done|]. cbn [map concat length].
  rewrite length_app, length_e820_bytes, IH. lia.
Qed.

Lemma write_e820_ok {E} b off e :
  0 <= off -> off + 20 <= zlen b ->
  write_e820 (E:=E) b off e.1.1 e.1.2 e.2 = Ok (splice (Z.to_nat off) (e820_bytes e) b).
Proof.
  unfold zlen. intros Ho Hl. unfold write_e820, e820_bytes.
  assert (forall n v, zlen (le_bytes n v) = Z.of_nat n) as Hz
    by (intros; unfold zlen; by rewrite length_le_bytes).
  rewrite put_ok by (rewrite Hz; unfold zlen; lia). cbn [mbind out_bind].
  rewrite put_ok by (rewrite Hz; unfold zlen; rewrite length_splice; rewrite ?length_le_bytes; lia).
  cbn [mbind out_bind].
  replace (Z.to_nat (off + 8)) with (Z.to_nat off + length (le_bytes 8 e.1.1))%nat
    by (rewrite length_le_bytes; lia).
  rewrite splice_splice_app by (rewrite !length_le_bytes; lia).
  rewrite put_ok by (rewrite Hz; unfold zlen; rewrite length_splice;
    rewrite ?length_app, ?length_le_bytes; lia).
  replace (Z.to_nat (off + 16))
    with (Z.to_nat off + length (le_bytes 8 e.1.1 ++ le_bytes 8 e.1.2))%nat
    by (rewrite length_app, !length_le_bytes; lia).
  rewrite splice_splice_app by (rewrite length_app, !length_le_bytes; lia).
  by rewrite <- app_assoc.
Qed.

Lemma write_e820_entries_ok {E} es b off :
  0 <= off -> off + 20 * zlen es <= zlen b ->
  write_e820_entries (E:=E) b off es = Ok (splice (Z.to_nat off) (concat (map e820_bytes es)) b).
Proof.
  revert b off. induction es as [|[[a s] t] es IH]; intros b off Ho Hl.
  - cbn. unfold splice. cbn. by rewrite Nat.add_0_r, take_drop.
  - unfold zlen in *. cbn [length] in Hl. cbn [write_e820_entries map concat].
    rewrite (write_e820_ok b off (a, s, t)) by (unfold zlen; lia). cbn [mbind out_bind].
    rewrite IH by (rewrite ?length_splice; rewrite ?length_e820_bytes; lia).
    replace (Z.to_nat (off + 20)) with (Z.to_nat off + length (e820_bytes (a, s, t)))%nat
      by (rewrite length_e820_bytes; lia).
    rewrite splice_splice_app; [done|]. rewrite length_e820_bytes, length_e820_concat. lia.
Qed.

(** ** The contents of the zero page *)

(** The bytes of the buffer after [fill_boot_params], as the sequence of its
    writes. *)
Definition filled_boot_params (b0 : list Z) (code32_start : Z) (entries : list (Z * Z * Z)) :
    list Z :=
  splice (Z.to_nat 0x1e8) [wrap 8 (zlen entries)]
  (splice (Z.to_nat 0x2d0) (concat (map e820_bytes entries))
  (splice (Z.to_nat 0x202) (string_bytes "HdrS")
  (splice (Z.to_nat 0x1e0) (replicate 15 0)
  (splice (Z.to_nat 0x228) (le_bytes 4 (wrap 32 CMDLINE_START))
  (splice (Z.to_nat 0x224) (le_bytes 2 0xfe00)
  (splice (Z.to_nat 0x214) (le_bytes 4 (wrap 32 code32_start))
  (splice (Z.to_nat 0x211) [Z.lor (nth (Z.to_nat 0x211) b0 0) 0x81]
  (splice (Z.to_nat 0x210) [0xff] b0)))))))).

(** Writes into a page keep its length. *)
Lemma length_splice_page {A} i (bs l : list A) :
  length l = 4096%nat -> (i + length bs <= 4096)%nat -> length (splice i bs l) = 4096%nat.
Proof. intros Hl Hi. rewrite length_splice; lia. Qed.

Lemma put_page {E} off bs (buf : list Z) :
  length buf = 4096%nat -> off + zlen bs <= 4096 ->
  put (E:=E) off bs buf = Ok (splice (Z.to_nat off) bs buf).
Proof. intros Hb Ho. apply put_ok. unfold zlen in *. lia. Qed.

Ltac bytes_len :=
  unfold zlen;
  rewrite ?length_le_bytes, ?length_replicate, ?length_e820_concat, ?length_e820_bytes;
  cbn [length]; try change (length (string_bytes "HdrS")) with 4%nat; lia.
Ltac page_len :=
  lazymatch goal with
  | |- length (splice _ _ _) = _ => apply length_splice_page; [page_len|bytes_len]
  | _ => assumption
  end.

Lemma length_filled b0 c es :
  length b0 = 4096%nat -> (length es <= 128)%nat -> length (filled_boot_params b0 c es) = 4096%nat.
Proof. intros Hb He. unfold filled_boot_params. page_len. Qed.

(** The ACPI tables end below 1 MiB. *)
Definition acpi_fits {Ev} (Sdt : Type) `{!AcpiTables Sdt} (p : Partition Ev) : Prop :=
  exists rsdp tables pointers,
    0 <= rsdp_len (S:=Sdt) /\
    create_acpi_tables_internal (S:=Sdt) (RSDP_POINTER + rsdp_len (S:=Sdt)) (pt_device_manager p)
      (pt_cpu_manager p) = Ok (rsdp, tables, pointers) /\
    RSDP_POINTER + zlen rsdp <= HIGH_RAM_START /\
    RSDP_POINTER + rsdp_len (S:=Sdt) + zlen tables <= HIGH_RAM_START.

(** What the guest must find in the memory map: RAM, the reserved hole when
    there is RAM above it, the windows. *)
Definition machine_e820 (mm : MemoryManager) : list (Z * Z * Z) :=
  map (fun r => (mr_gpa r, mr_size r, 1)) (mm_regions mm)
  ++ (if existsb (fun r => MEM_32BIT_RESERVED_START <? mr_gpa r + mr_size r) (mm_regions mm)
      then [(MEM_32BIT_RESERVED_START, MEM_32BIT_RESERVED_SIZE, 2)] else [])
  ++ map (fun m => (mmio_gpa m, mmio_size m, 2)) (mm_mmio_regions mm).

Section zero_page.
Context {prof : Profile} {Ev : Type} {Sdt : Type} `{!AcpiTables Sdt}.
Implicit Types p : Partition Ev.

Lemma region_ends_ok {E} rs :
  Forall (fun r => mr_gpa r + mr_size r < 2 ^ 64) rs ->
  region_ends (E:=E) rs = Ok (map (fun r => mr_gpa r + mr_size r) rs).
Proof.
  induction 1 as [|r rs Hr _ IH]; [done|]. cbn [region_ends map].
  rewrite uadd_ok by done. cbn [mbind out_bind]. by rewrite IH.
Qed.

Lemma max_above x zs : 0 <= x -> (x <? foldr Z.max 0 zs) = existsb (fun z => x <? z) zs.
Proof.
  intros Hx. induction zs as [|z zs IH]; cbn [foldr existsb]; [by rewrite (proj2 (Z.ltb_ge _ _))|].
  rewrite <- IH. repeat case_Z; cbn; (lia || done).
Qed.

Lemma e820_entries_ok p :
  Forall (fun r => mr_gpa r + mr_size r < 2 ^ 64) (mm_regions (pt_memory p)) ->
  e820_entries p = Ok (machine_e820 (pt_memory p)).
Proof.
  intros Hr. unfold e820_entries, machine_e820. cbn [lb_get_memory_size partition_boot lb_memory_manager].
  unfold get_memory_size. rewrite region_ends_ok by done. cbn [mbind out_bind].
  rewrite max_above by (vm_compute; congruence).
  assert (existsb (fun z => MEM_32BIT_RESERVED_START <? z)
    (map (fun r => mr_gpa r + mr_size r) (mm_regions (pt_memory p))) =
    existsb (fun r => MEM_32BIT_RESERVED_START <? mr_gpa r + mr_size r) (mm_regions (pt_memory p))) as ->.
  { clear. induction (mm_regions (pt_memory p)) as [|r rs IH]; [done|]. cbn [map existsb]. by rewrite IH. }
  done.
Qed.

Lemma create_acpi_frame p hm q :
  mm_wf (pt_memory p) -> mapped (pt_memory p) 0 HIGH_RAM_START q -> acpi_fits Sdt p ->
  exists v hm', create_acpi_tables (S:=Sdt) (pt_device_manager p) (pt_cpu_manager p) (pt_memory p) hm
      = (Ok v, hm') /\
    forall a, ~ RSDP_POINTER <= a < HIGH_RAM_START ->
      guest_byte (pt_memory p) hm' a = guest_byte (pt_memory p) hm a.
Proof.
  intros Hwf Hm (rsdp & tables & ptrs & Hl & Hc & Hf1 & Hf2).
  pose proof (eq_refl : HIGH_RAM_START = 0x100000) as Vh.
  pose proof (eq_refl : RSDP_POINTER = 0xe0000) as Vr.
  pose proof (zlen_nonneg rsdp). pose proof (zlen_nonneg tables).
  destruct (write_mapped (pt_memory p) hm rsdp RSDP_POINTER (q + RSDP_POINTER) Hwf)
    as (hm1 & W1 & _ & F1); [apply low_mapped; first [assumption|lia]|].
  destruct (write_mapped (pt_memory p) hm1 tables (RSDP_POINTER + rsdp_len (S:=Sdt))
    (q + (RSDP_POINTER + rsdp_len (S:=Sdt))) Hwf) as (hm2 & W2 & _ & F2);
    [apply low_mapped; first [assumption|lia]|].
  eexists _, hm2. split.
  - unfold create_acpi_tables, checked_add.
    rewrite (proj2 (Z.ltb_lt _ _)) by lia. run_St. rewrite Hc. cbv beta iota.
    rewrite W1. cbv beta iota. rewrite W2. reflexivity.
  - intros a Ha. rewrite F2, F1 by lia. done.
Qed.

Lemma fill_boot_params_ok p b0 c hm q :
  let mm := pt_memory p in
  mm_wf mm -> mapped mm 0 HIGH_RAM_START q -> acpi_fits Sdt p ->
  Forall (fun r => mr_gpa r + mr_size r < 2 ^ 64) (mm_regions mm) ->
  (length (machine_e820 mm) <= 128)%nat -> length b0 = 4096%nat ->
  let b := filled_boot_params b0 c (machine_e820 mm) in
  exists hm', fill_boot_params (Sdt:=Sdt) p b0 ZERO_PAGE_START c hm = (Ok b, hm') /\
    guest_bytes mm hm' ZERO_PAGE_START 4096 = Some b /\
    guest_bytes mm hm' CMDLINE_START (length (string_bytes CMDLINE ++ [0]))
      = Some (string_bytes CMDLINE ++ [0]) /\
    forall a, ~ ZERO_PAGE_START <= a < ZERO_PAGE_START + 4096 ->
      ~ CMDLINE_START <= a < CMDLINE_START + CMDLINE_MAX_SIZE ->
      ~ RSDP_POINTER <= a < HIGH_RAM_START -> guest_byte mm hm' a = guest_byte mm hm a.
Proof.
  intros mm Hwf Hm Hacpi Hends Hn Hb0 b.
  pose proof (eq_refl : HIGH_RAM_START = 0x100000) as Vh.
  pose proof (eq_refl : ZERO_PAGE_START = 0x7000) as Vz.
  pose proof (eq_refl : CMDLINE_START = 0x20000) as Vc.
  pose proof (eq_refl : CMDLINE_MAX_SIZE = 0x10000) as Vs.
  pose proof (eq_refl : RSDP_POINTER = 0xe0000) as Vr.
  set (cmd := string_bytes CMDLINE ++ [0]).
  assert (zlen cmd = 128) as Hcl by reflexivity.
  assert (length b = 4096%nat) as Hbl by (by apply length_filled).
  destruct (write_mapped mm hm cmd CMDLINE_START (q + CMDLINE_START) Hwf) as (hm1 & W1 & G1 & F1);
    [apply low_mapped; first [assumption|lia]|].
  destruct (write_mapped mm hm1 b ZERO_PAGE_START (q + ZERO_PAGE_START) Hwf) as (hm2 & W2 & G2 & F2);
    [apply low_mapped; first [assumption|unfold zlen; lia]|]. rewrite Hbl in G2.
  destruct (create_acpi_frame p hm2 q Hwf Hm Hacpi) as (v & hm3 & Hac & F3). fold mm in F3, Hac.
  assert (zlen b = 4096) as Hbz by (unfold zlen; lia).
  assert (length cmd = 128%nat) as Hcn by reflexivity.
  exists hm3. split_and!.
  - unfold fill_boot_params. run_St.
    rewrite insert_splice by (rewrite Hb0; lia).
    rewrite alter_splice by (rewrite length_splice_page; [lia|page_len|bytes_len]).
    rewrite !put_page by (page_len || bytes_len).
    cbn [lb_write_code partition_boot lb_device_manager lb_cpu_manager lb_memory_manager].
    unfold partition_write_code. fold mm cmd. rewrite W1. cbv beta iota.
    rewrite e820_entries_ok by done. fold mm.
    rewrite write_e820_entries_ok
      by (lia || (unfold zlen; rewrite length_splice_page; [lia|page_len|bytes_len])).
    rewrite insert_splice by (rewrite length_splice_page; [lia|page_len|bytes_len]).
    assert (nth (Z.to_nat 0x211) (splice (Z.to_nat 0x210) [0xff] b0) 0 =
      nth (Z.to_nat 0x211) b0 0) as ->.
    { rewrite !nth_lookup, lookup_splice by (rewrite Hb0; cbn [length]; lia).
      by rewrite decide_False by (cbn [length]; lia). }
    unfold b, filled_boot_params in W2. rewrite W2, Hac. reflexivity.
  - eapply guest_bytes_frame, G2. intros a Ha. apply F3. lia.
  - eapply guest_bytes_frame, G1. intros a Ha. rewrite F3, F2 by lia. done.
  - intros a H1 H2 H3. rewrite F3, F2, F1 by lia. done.
Qed.

(** Reading an entry of the table back. *)
Definition e820_at (b : list Z) (i : nat) : Z * Z * Z :=
  let o := (Z.to_nat 0x2d0 + 20 * i)%nat in
  (field o 8 b, field (o + 8) 8 b, field (o + 16) 4 b).

Definition e820_fits (e : Z * Z * Z) : Prop := fits 64 e.1.1 /\ fits 64 e.1.2 /\ fits 32 e.2.

Lemma filled_e820 b0 c es i e :
  length b0 = 4096%nat -> (length es <= 128)%nat -> es !! i = Some e -> e820_fits e ->
  e820_at (filled_boot_params b0 c es) i = e.
Proof.
  intros Hb Hn Hi (F1 & F2 & F3). pose proof (lookup_lt_Some _ _ _ Hi) as Hlt.
  assert (slice (Z.to_nat 0x2d0 + 20 * i) 20 (filled_boot_params b0 c es) = e820_bytes e) as Hs.
  { unfold filled_boot_params.
    rewrite slice_splice_disjoint; [|rewrite length_splice_page; [cbn [length]; lia|page_len|bytes_len]
      |cbn [length]; lia].
    rewrite slice_splice_inside; [|rewrite length_splice_page; [bytes_len|page_len|bytes_len]|bytes_len].
    rewrite <- (app_nil_r (concat _)).
    rewrite (slice_concat e820_bytes 20 es [] i e); [done| |done].
    apply length_e820_bytes. }
  unfold e820_at, field. destruct e as [[a s] t]. cbn [fst snd] in *.
  rewrite <- (Nat.add_0_r (Z.to_nat 0x2d0 + 20 * i)) at 1.
  rewrite (slice_slice _ 20 0), (slice_slice _ 20 8), (slice_slice _ 20 16) by lia.
  rewrite Hs. unfold e820_bytes. cbn [fst snd].
  assert (slice 0 8 (le_bytes 8 a ++ le_bytes 8 s ++ le_bytes 4 t) = le_bytes 8 a) as ->
    by (apply (slice_app_mid []); by rewrite ?length_le_bytes).
  assert (slice 8 8 (le_bytes 8 a ++ le_bytes 8 s ++ le_bytes 4 t) = le_bytes 8 s) as ->
    by (apply slice_app_mid; by rewrite ?length_le_bytes).
  assert (slice 16 4 (le_bytes 8 a ++ le_bytes 8 s ++ le_bytes 4 t) = le_bytes 4 t) as ->
    by (rewrite app_assoc; apply slice_app_end; by rewrite ?length_app, ?length_le_bytes).
  by rewrite !le_val_le_bytes_fits.
Qed.

End zero_page.

(** Bounds of ranges of the page. *)
Ltac zp_small :=
  rewrite ?length_le_bytes, ?length_replicate; cbn [length];
  try change (length (string_bytes "HdrS")) with 4%nat; lia.
Ltac zp_page :=
  lazymatch goal with
  | |- length (splice _ _ _) = _ => apply length_splice_page; [zp_page|zp_small]
  | _ => assumption
  end.
Ltac zp :=
  lazymatch goal with
  | |- context [length (splice ?i ?bs ?l)] =>
      rewrite (length_splice_page i bs l); [zp_small|zp_page|zp_small]
  | _ => zp_small
  end.

Section boot_params.
Context {prof : Profile} {Ev : Type} {Sdt : Type} `{!AcpiTables Sdt}.
Implicit Types p : Partition Ev.

(** The fixed fields of the filled page. *)
Lemma filled_fields b0 c es :
  length b0 = 4096%nat -> (length es <= 128)%nat ->
  let b := filled_boot_params b0 c es in
  slice (Z.to_nat 0x1e8) 1 b = [wrap 8 (zlen es)] /\
  slice (Z.to_nat 0x202) 4 b = string_bytes "HdrS" /\
  slice (Z.to_nat 0x228) 4 b = le_bytes 4 (wrap 32 CMDLINE_START) /\
  slice (Z.to_nat 0x214) 4 b = le_bytes 4 (wrap 32 c) /\
  slice (Z.to_nat 0x211) 1 b = [Z.lor (nth (Z.to_nat 0x211) b0 0) 0x81] /\
  slice (Z.to_nat 0x210) 1 b = [0xff] /\
  slice (Z.to_nat 0x206) 2 b = slice (Z.to_nat 0x206) 2 b0 /\
  slice (Z.to_nat 0x260) 4 b = slice (Z.to_nat 0x260) 4 b0.
Proof.
  intros Hb Hn b. subst b. unfold filled_boot_params.
  set (es_bytes := concat (map e820_bytes es)).
  assert (length es_bytes <= 2560)%nat as He by (subst es_bytes; rewrite length_e820_concat; lia).
  generalize dependent es_bytes. generalize (wrap 8 (zlen es)) (wrap 32 c) (wrap 32 CMDLINE_START).
  intros n v w bs He.
  split_and!.
  all: repeat (rewrite slice_splice_disjoint; [|zp|zp]).
  all: try (apply slice_splice_at; [reflexivity|zp]).
  all: done.
Qed.

End boot_params.

(** The page [setup_elf_boot_params] starts from. *)
Definition elf_page_head : list Z :=
  splice (Z.to_nat 0x206) (le_bytes 2 0x020f)
  (splice (Z.to_nat 0x202) (string_bytes "HdrS") (<[Z.to_nat 0x1f1 := 0]> (replicate 4096 0))).

Definition elf_page (init : Z) : list Z :=
  splice (Z.to_nat 0x260) (le_bytes 4 init) elf_page_head.

Lemma length_elf_page_head : length elf_page_head = 4096%nat.
Proof. vm_compute. reflexivity. Qed.

Lemma elf_page_ok init :
  length (elf_page init) = 4096%nat /\
  slice (Z.to_nat 0x206) 2 (elf_page init) = le_bytes 2 0x020f /\
  slice (Z.to_nat 0x260) 4 (elf_page init) = le_bytes 4 init /\
  nth (Z.to_nat 0x211) (elf_page init) 0 = 0.
Proof.
  pose proof length_elf_page_head as Hl. unfold elf_page. split_and!.
  - apply length_splice_page; [done|]. rewrite length_le_bytes. lia.
  - rewrite slice_splice_disjoint by (rewrite ?Hl, ?length_le_bytes; lia).
    vm_compute. reflexivity.
  - apply slice_splice_at; rewrite ?Hl, ?length_le_bytes; (done || lia).
  - rewrite nth_lookup, lookup_splice by (rewrite Hl, length_le_bytes; lia).
    rewrite decide_False by (rewrite length_le_bytes; lia). vm_compute. reflexivity.
Qed.

Lemma machine_e820_fits mm e :
  mm_wf mm -> Forall window_fits (mm_mmio_regions mm) -> 
  Forall (fun r => mr_gpa r + mr_size r < 2 ^ 64) (mm_regions mm) ->
  e ∈ machine_e820 mm -> e820_fits e.
Proof.
  intros [Hr _ _] Hw He. unfold machine_e820. rewrite !elem_of_app. intros [Hin|[Hin|Hin]].
  - apply list_elem_of_fmap in Hin as (r & -> & Hin). 
    unfold regions_wf in Hr. rewrite Forall_forall in Hr, He.
    specialize (He r Hin). destruct (Hr r Hin) as (?&?&?). unfold e820_fits, fits; cbn [fst snd]. lia.
  - destruct (existsb _ _); [|by apply elem_of_nil in Hin].
    apply list_elem_of_singleton in Hin as ->. repeat split; vm_compute; congruence.
  - apply list_elem_of_fmap in Hin as (m & -> & Hin). rewrite Forall_forall in Hw.
    destruct (Hw m Hin) as (?&?&?). unfold e820_fits, fits; cbn [fst snd]. lia.
Qed.

Definition rounded_size (kernel_size : Z) : Z :=
  wrap 32 (Z.land (kernel_size + 0xfff) (wnot 64 0xfff)).

(** The size in whole pages, in the 32 bits of the field. *)
Lemma rounded_size_pages k :
  0 <= k -> k + 0xfff < 2 ^ 64 -> rounded_size k = wrap 32 (4096 * ((k + 4095) / 4096)).
Proof.
  intros Hk Hb. unfold rounded_size. f_equal. change 0xfff with (Z.ones 12) at 2.
  assert (Z.land (k + 4095) (wnot 64 (Z.ones 12)) = Z.ldiff (k + 4095) (Z.ones 12)) as ->.
  { word_bits 64.
    - apply fits_land_l; [lia|split; [lia|done]|]. vm_compute; congruence.
    - split; [apply Z.ldiff_nonneg; lia|]. 
      rewrite Z.ldiff_ones_r, Z.shiftl_mul_pow2, Z.shiftr_div_pow2 by lia. pose proof (Z.mul_div_le (k + 4095) (2 ^ 12)). lia.
    - rewrite Z.land_spec, Z.ldiff_spec. f_equal. rewrite wnot_spec; [done| |lia].
      split; vm_compute; congruence. }
  rewrite Z.ldiff_ones_r, Z.shiftl_mul_pow2, Z.shiftr_div_pow2 by lia. change (2 ^ 12) with 4096. lia.
Qed.

Lemma setup_elf_ok {prof : Profile} {Ev} {Sdt} `{!AcpiTables Sdt} (p : Partition Ev) c k hm q :
  let mm := pt_memory p in
  mm_wf mm -> mapped mm 0 HIGH_RAM_START q -> acpi_fits Sdt p ->
  Forall (fun r => mr_gpa r + mr_size r < 2 ^ 64) (mm_regions mm) ->
  (length (machine_e820 mm) <= 128)%nat -> 0 <= k -> k + 0xfff < 2 ^ 64 ->
  let b := filled_boot_params (elf_page (rounded_size k)) c (machine_e820 mm) in
  exists hm', setup_elf_boot_params (Sdt:=Sdt) p ZERO_PAGE_START c k hm = (Ok (rounded_size k), hm') /\
    guest_bytes mm hm' ZERO_PAGE_START 4096 = Some b /\
    guest_bytes mm hm' CMDLINE_START (length (string_bytes CMDLINE ++ [0]))
      = Some (string_bytes CMDLINE ++ [0]) /\
    forall a, ~ ZERO_PAGE_START <= a < ZERO_PAGE_START + 4096 ->
      ~ CMDLINE_START <= a < CMDLINE_START + CMDLINE_MAX_SIZE ->
      ~ RSDP_POINTER <= a < HIGH_RAM_START -> guest_byte mm hm' a = guest_byte mm hm a.
Proof.
  intros mm Hwf Hm Hacpi Hends Hn Hk0 Hk b.
  destruct (elf_page_ok (rounded_size k)) as (Hl & _).
  destruct (fill_boot_params_ok (Sdt:=Sdt) p (elf_page (rounded_size k)) c hm q Hwf Hm Hacpi Hends Hn Hl)
    as (hm' & Hf & Gb & Gc & Fr). exists hm'. split_and!; [|done..].
  unfold setup_elf_boot_params. run_St.
  rewrite (put_page 0x202) by (by rewrite ?length_insert, ?length_replicate || bytes_len).
  rewrite put_page by (vm_compute; (reflexivity || congruence)).
  rewrite uadd_ok by lia. fold (rounded_size k). fold elf_page_head.
  rewrite put_page by (exact length_elf_page_head || bytes_len).
  cbv beta iota. fold (elf_page (rounded_size k)). by rewrite Hf.
Qed.

(** What the kernel finds in the zero page [b] at its place in guest memory,
    for a load address and a size: the machine's memory map, the signature, the
    fields of the boot protocol and the command line. *)
Record describes_machine (mm : MemoryManager) (hm : hostmem) (b : list Z) (c init : Z) : Prop := {
  zp_bytes : guest_bytes mm hm ZERO_PAGE_START 4096 = Some b;
  zp_e820 : map (e820_at b) (seq 0 (Z.to_nat (field 0x1e8 1 b))) = machine_e820 mm;
  zp_signature : slice 0x202 4 b = string_bytes "HdrS";
  zp_version : field 0x206 2 b = 0x20f;
  zp_loader : field 0x210 1 b = 0xff;
  zp_flags : field 0x211 1 b = 0x81;
  zp_code32 : field 0x214 4 b = wrap 32 c;
  zp_init : field 0x260 4 b = init;
  zp_cmdline_ptr : field 0x228 4 b = CMDLINE_START;
  zp_cmdline : guest_bytes mm hm CMDLINE_START (length (string_bytes CMDLINE ++ [0]))
    = Some (string_bytes CMDLINE ++ [0]);
}.

Lemma filled_page_describes mm hm init c :
  mm_wf mm -> Forall window_fits (mm_mmio_regions mm) ->
  Forall (fun r => mr_gpa r + mr_size r < 2 ^ 64) (mm_regions mm) ->
  (length (machine_e820 mm) <= 128)%nat -> fits 32 init ->
  let b := filled_boot_params (elf_page init) c (machine_e820 mm) in
  guest_bytes mm hm ZERO_PAGE_START 4096 = Some b ->
  guest_bytes mm hm CMDLINE_START (length (string_bytes CMDLINE ++ [0]))
    = Some (string_bytes CMDLINE ++ [0]) ->
  describes_machine mm hm b c init.
Proof.
  intros Hwf Hwin Hends Hn Hinit b Gb Gc.
  destruct (elf_page_ok init) as (Hl & H206 & H260 & H211).
  destruct (filled_fields (elf_page init) c (machine_e820 mm) Hl Hn)
    as (F1 & F2 & F3 & F4 & F5 & F6 & F7 & F8). fold b in F1, F2, F3, F4, F5, F6, F7, F8.
  split; [exact Gb| |exact F2|..|exact Gc]; unfold field.
  - change 0x1e8%nat with (Z.to_nat 0x1e8). rewrite F1. cbn [le_val].
    rewrite wrap_small by (unfold fits, zlen; lia).
    apply list_eq. intros i. rewrite list_lookup_fmap.
    destruct (decide (i < length (machine_e820 mm))%nat) as [Hi|Hi].
    + rewrite lookup_seq_lt by (unfold zlen; lia). cbn [fmap option_fmap option_map Nat.add].
      destruct (lookup_lt_is_Some_2 _ _ Hi) as [e He]. rewrite He. f_equal.
      apply filled_e820; [done..|]. by eapply machine_e820_fits, list_elem_of_lookup_2.
    + rewrite (lookup_ge_None_2 (machine_e820 mm)) by lia.
      rewrite lookup_seq_ge by (unfold zlen; lia). done.
  - change 0x206%nat with (Z.to_nat 0x206). rewrite F7, H206. reflexivity.
  - change 0x210%nat with (Z.to_nat 0x210). by rewrite F6.
  - change 0x211%nat with (Z.to_nat 0x211). rewrite F5, H211. reflexivity.
  - change 0x214%nat with (Z.to_nat 0x214). rewrite F4. apply le_val_le_bytes_fits, wrap_fits. lia.
  - change 0x260%nat with (Z.to_nat 0x260). rewrite F8, H260. by apply le_val_le_bytes_fits.
  - change 0x228%nat with (Z.to_nat 0x228). rewrite F3.
    rewrite le_val_le_bytes_fits by (apply wrap_fits; lia). reflexivity.
Qed.

(** ** Properties *)

(** The zero page the guest finds.  For an ELF kernel the page in guest
    memory describes the machine: reading the memory map back gives exactly
    the RAM regions as usable, the reserved hole when there is RAM above it
    and every MMIO window as reserved, and the count; the signature, the
    loader type, the load flags, the load address, the kernel's size rounded
    to pages and the command line are the ones the boot protocol asks for.  No
    guest byte outside the loader's low structures changes. *)
Theorem zero_page_describes_machine {prof : Profile} {Ev} {Sdt} `{!AcpiTables Sdt}
    (p : Partition Ev) code32_start kernel_size hm q :
  let mm := pt_memory p in
  mm_wf mm -> mapped mm 0 HIGH_RAM_START q -> acpi_fits Sdt p ->
  Forall (fun r => mr_gpa r + mr_size r < 2 ^ 64) (mm_regions mm) ->
  Forall window_fits (mm_mmio_regions mm) -> (length (machine_e820 mm) <= 128)%nat ->
  0 <= kernel_size -> kernel_size + 0xfff < 2 ^ 64 ->
  exists b hm' init_size,
    setup_elf_boot_params (Sdt:=Sdt) p ZERO_PAGE_START code32_start kernel_size hm
      = (Ok init_size, hm') /\
    guest_bytes mm hm' ZERO_PAGE_START 4096 = Some b /\
    map (e820_at b) (seq 0 (Z.to_nat (field 0x1e8 1 b))) = machine_e820 mm /\
    slice 0x202 4 b = string_bytes "HdrS" /\ field 0x206 2 b = 0x20f /\
    field 0x210 1 b = 0xff /\ field 0x211 1 b = 0x81 /\
    field 0x214 4 b = wrap 32 code32_start /\
    init_size = wrap 32 (4096 * ((kernel_size + 4095) / 4096)) /\ field 0x260 4 b = init_size /\
    guest_bytes mm hm' (field 0x228 4 b) (length (string_bytes CMDLINE ++ [0]))
      = Some (string_bytes CMDLINE ++ [0]) /\
    (forall a, ~ ZERO_PAGE_START <= a < ZERO_PAGE_START + 4096 ->
       ~ CMDLINE_START <= a < CMDLINE_START + CMDLINE_MAX_SIZE ->
       ~ RSDP_POINTER <= a < HIGH_RAM_START -> guest_byte mm hm' a = guest_byte mm hm a).
Proof.
  intros mm Hwf Hm Hacpi Hends Hwin Hn Hk0 Hk.
  destruct (setup_elf_ok (Sdt:=Sdt) p code32_start kernel_size hm q Hwf Hm Hacpi Hends Hn Hk0 Hk)
    as (hm' & Hs & Gb & Gc & Fr). fold mm in Hs, Gb, Gc, Fr.
  assert (fits 32 (rounded_size kernel_size)) as Hinit by (apply wrap_fits; lia).
  pose proof (filled_page_describes mm hm' _ code32_start Hwf Hwin Hends Hn Hinit Gb Gc) as D.
  set (b := filled_boot_params (elf_page (rounded_size kernel_size)) code32_start (machine_e820 mm)) in *.
  exists b, hm', (rounded_size kernel_size). clearbody b.
  split; [exact Hs|]. split; [exact Gb|]. split; [exact (zp_e820 _ _ _ _ _ D)|].
  split; [exact (zp_signature _ _ _ _ _ D)|]. split; [exact (zp_version _ _ _ _ _ D)|].
  split; [exact (zp_loader _ _ _ _ _ D)|]. split; [exact (zp_flags _ _ _ _ _ D)|].
  split; [exact (zp_code32 _ _ _ _ _ D)|]. split.
  { unfold rounded_size. rewrite (land_align 12) by (unfold fits; lia). done. }
  split; [exact (zp_init _ _ _ _ _ D)|]. split; [|exact Fr].
  rewrite (zp_cmdline_ptr _ _ _ _ _ D). exact Gc.
Qed.

(** ** Witness *)

Lemma boot_acpi_fits : acpi_fits (list Z) boot_partition.
Proof.
  unfold acpi_fits. eexists _, _, _. split_and!; [vm_compute; congruence|vm_compute; reflexivity|..];
    vm_compute; congruence.
Qed.

Lemma zero_page_describes_machine_witness :
  exists b hm' init_size,
    setup_elf_boot_params (prof:=dev_profile)
      (LinuxBootPartition0:=partition_boot (prof:=dev_profile)) (Sdt:=list Z) boot_partition ZERO_PAGE_START 0x1000000
      0x12345 (fun _ => 0) = (Ok init_size, hm') /\
    guest_bytes boot_mm hm' ZERO_PAGE_START 4096 = Some b /\
    map (e820_at b) (seq 0 (Z.to_nat (field 0x1e8 1 b))) = machine_e820 boot_mm.
Proof.
  destruct (zero_page_describes_machine (prof:=dev_profile) (Sdt:=list Z) boot_partition 0x1000000
    0x12345 (fun _ => 0) 0x10000000) as (b & hm' & i & Hr & Hb & He & _).
  - exact boot_mm_wf.
  - apply (boot_mapped 0 HIGH_RAM_START); [lia|vm_compute; congruence|vm_compute; reflexivity].
  - exact boot_acpi_fits.
  - constructor; [cbn; lia|constructor].
  - repeat constructor; vm_compute; congruence.
  - vm_compute. lia.
  - lia.
  - lia.
  - exists b, hm', i. by split_and!.
Defined.
