(* ===== verification/ElfLoad.v ===== *)
(** * ElfLoad: loading an ELF kernel

    What [load_elf_kernel] of [src/linux_boot.rs] leaves in guest memory for a
    well-formed kernel file, and the entry point it returns. *)

From S2P Require Import Prelude Bytes HostMem GuestMem Queue Irqchip Bus VirtioDev Mmio Layout Acpi Partition Boot ZeroPage.

(** ** Well-formed kernels *)

Definition is_load (ph : Elf64Phdr) : bool := p_type ph =? PT_LOAD.
Definition loads (phdrs : list Elf64Phdr) : list Elf64Phdr := List.filter is_load phdrs.

Definition elf_header (bs : list Z) : Elf64Ehdr := elf64_ehdr (slice 0 64 bs).
Definition elf_headers (bs : list Z) : list Elf64Phdr :=
  let h := elf_header bs in
  elf64_phdrs (Z.to_nat (e_phnum h))
    (slice (Z.to_nat (e_phoff h)) (Z.to_nat (phdr_size * e_phnum h)) bs).

(** The bytes of a segment in the file. *)
Definition segment_bytes (bs : list Z) (ph : Elf64Phdr) : list Z :=
  slice (Z.to_nat (p_offset ph)) (Z.to_nat (p_filesz ph)) bs.

(** A segment that is inside the file and whose place is RAM above 1 MiB. *)
Record segment_ok (mm : MemoryManager) (bs : list Z) (ph : Elf64Phdr) : Prop := {
  so_file : p_offset ph + p_filesz ph <= zlen bs;
  so_high : HIGH_RAM_START <= p_paddr ph;
  so_end : p_paddr ph + p_memsz ph < 2 ^ 64 - 0xfff;
  so_nonneg : 0 <= p_offset ph /\ 0 <= p_filesz ph /\ 0 <= p_memsz ph;
  so_mapped : 0 < p_filesz ph -> exists q, mapped mm (p_paddr ph) (p_filesz ph) q;
}.

Definition segments_disjoint (x y : Elf64Phdr) : Prop :=
  ranges_disjoint (p_paddr x) (p_filesz x) (p_paddr y) (p_filesz y).

Record elf_ok (mm : MemoryManager) (bs : list Z) : Prop := {
  eo_size : 64 <= zlen bs;
  eo_header : check_ehdr (elf_header bs) = Ok tt;
  eo_table : 0 <= e_phoff (elf_header bs) /\ 0 <= e_phnum (elf_header bs) /\
    e_phoff (elf_header bs) + phdr_size * e_phnum (elf_header bs) <= zlen bs;
  eo_segments : Forall (segment_ok mm bs) (loads (elf_headers bs));
  eo_disjoint : ForallOrdPairs segments_disjoint (loads (elf_headers bs));
  eo_some : loads (elf_headers bs) <> [];
}.

(** The entry point: a physical address of a segment as it is, otherwise moved
    by the offset of the first segment. *)
Definition in_segment (e : Z) (ph : Elf64Phdr) : bool :=
  (p_paddr ph <=? e) && (e <? p_paddr ph + p_memsz ph).

Definition elf_entry (phdrs : list Elf64Phdr) (e : Z) : Z :=
  if existsb (in_segment e) (loads phdrs) then e
  else match loads phdrs with
       | ph :: _ => wsub 64 e (wsub 64 (p_vaddr ph) (p_paddr ph))
       | [] => e
       end.

(** ** The loop over the segments *)

(** The loop's variables without the memory. *)
Definition ls_step (s : LoadState) (ph : Elf64Phdr) : LoadState :=
  {| ls_lowest_paddr := Z.min (ls_lowest_paddr s) (p_paddr ph);
     ls_highest_end := Z.max (ls_highest_end s) (p_paddr ph + p_memsz ph);
     ls_vaddr_to_paddr_offset :=
       Some (default (wsub 64 (p_vaddr ph) (p_paddr ph)) (ls_vaddr_to_paddr_offset s)) |}.

Section load.
Context {prof : Profile} {Ev : Type} {Sdt : Type} `{!AcpiTables Sdt}.
Implicit Types p : Partition Ev.

Lemma load_segment_ok p f ph s hm :
  let mm := pt_memory p in
  mm_wf mm -> is_load ph = true -> segment_ok mm (f_bytes f) ph ->
  exists hm', load_segment p f ph s hm = (Ok (ls_step s ph), hm') /\
    guest_bytes mm hm' (p_paddr ph) (Z.to_nat (p_filesz ph)) = Some (segment_bytes (f_bytes f) ph) /\
    forall a, ~ p_paddr ph <= a < p_paddr ph + p_filesz ph ->
      guest_byte mm hm' a = guest_byte mm hm a.
Proof.
  intros mm Hwf Hl [Hf Hh He (Hn1 & Hn2 & Hn3) Hm]. unfold is_load in Hl.
  unfold load_segment. rewrite Hl. cbn [negb].
  assert ((match ls_vaddr_to_paddr_offset s with Some o => Some o
    | None => Some (wsub 64 (p_vaddr ph) (p_paddr ph)) end) =
    Some (default (wsub 64 (p_vaddr ph) (p_paddr ph)) (ls_vaddr_to_paddr_offset s))) as ->
    by (by destruct (ls_vaddr_to_paddr_offset s)).
  assert (length (segment_bytes (f_bytes f) ph) = Z.to_nat (p_filesz ph)) as Hlen
    by (apply length_slice; unfold zlen in Hf; lia).
  destruct (Z.ltb_spec 0 (p_filesz ph)) as [Hpos|Hpos].
  - destruct (Hm Hpos) as [q Hq].
    destruct (write_mapped mm hm (segment_bytes (f_bytes f) ph) (p_paddr ph) q Hwf)
      as (hm' & W & G & F).
    { unfold zlen. rewrite Hlen, Z2Nat.id by lia. done. }
    exists hm'. split_and!.
    + run_St. unfold file_read_exact, file_seek. cbn [f_pos f_bytes].
      rewrite (proj2 (Z.leb_le _ _)) by done. cbn [fst].
      cbn [lb_write_code partition_boot]. unfold partition_write_code. fold mm.
      fold (segment_bytes (f_bytes f) ph). rewrite W. cbv beta iota.
      rewrite uadd_ok by lia. reflexivity.
    + rewrite <- Hlen. exact G.
    + intros a Ha. apply F. unfold zlen. rewrite Hlen. lia.
  - exists hm. assert (p_filesz ph = 0) as Hz by lia. split_and!; [| |done].
    + run_St. rewrite uadd_ok by lia. reflexivity.
    + unfold segment_bytes. rewrite Hz. done.
Qed.

Lemma load_segments_ok p f phdrs : forall s hm,
  let mm := pt_memory p in
  mm_wf mm -> Forall (segment_ok mm (f_bytes f)) (loads phdrs) ->
  ForallOrdPairs segments_disjoint (loads phdrs) ->
  exists hm', load_segments p f phdrs s hm = (Ok (foldl ls_step s (loads phdrs)), hm') /\
    Forall (fun ph => guest_bytes mm hm' (p_paddr ph) (Z.to_nat (p_filesz ph)) =
      Some (segment_bytes (f_bytes f) ph)) (loads phdrs) /\
    forall a, Forall (fun ph => ~ p_paddr ph <= a < p_paddr ph + p_filesz ph) (loads phdrs) ->
      guest_byte mm hm' a = guest_byte mm hm a.
Proof.
  induction phdrs as [|ph phdrs IH]; intros s hm mm Hwf Hok Hd; [by exists hm|].
  cbn [load_segments]. unfold loads in *. cbn [List.filter] in *.
  destruct (is_load ph) eqn:El.
  - inversion Hok as [|? ? Hph Hok']; subst. inversion Hd as [|? ? Hdph Hd']; subst.
    destruct (load_segment_ok p f ph s hm Hwf El Hph) as (hm1 & L1 & G1 & F1).
    destruct (IH (ls_step s ph) hm1 Hwf Hok' Hd') as (hm2 & L2 & G2 & F2).
    exists hm2. split_and!.
    + unfold mbind, M_bind. rewrite L1, L2. reflexivity.
    + constructor; [|done]. eapply guest_bytes_frame, G1. intros a Ha. apply F2.
      rewrite Forall_forall in Hdph |- *. intros x Hx. specialize (Hdph x Hx).
      unfold segments_disjoint, ranges_disjoint in Hdph. lia.
    + intros a Ha. inversion Ha; subst. rewrite F2 by done. by apply F1.
  - destruct (IH s hm Hwf Hok Hd) as (hm2 & L2 & G2 & F2). exists hm2. split_and!; try done.
    unfold mbind, M_bind, load_segment. unfold is_load in El. rewrite El. exact L2.
Qed.

Lemma entry_is_physical_ok {E} phdrs e :
  Forall (fun ph => p_paddr ph + p_memsz ph < 2 ^ 64) (loads phdrs) ->
  entry_is_physical (E:=E) phdrs e = Ok (existsb (in_segment e) (loads phdrs)).
Proof.
  induction phdrs as [|ph phdrs IH]; [done|]. unfold loads in *.
  cbn [entry_is_physical List.filter]. change (p_type ph =? PT_LOAD) with (is_load ph).
  destruct (is_load ph); cbn [andb]; [|exact IH].
  intros Hf. inversion Hf; subst. cbn [existsb]. unfold in_segment at 1.
  destruct (p_paddr ph <=? e); cbn [andb orb]; [|by apply IH].
  rewrite uadd_ok by done. cbn [mbind out_bind]. destruct (e <? _); [done|by apply IH].
Qed.

(** The variables after the loop. *)
Lemma ls_fold_bounds mm bs phs : forall s,
  Forall (segment_ok mm bs) phs -> 0 <= ls_lowest_paddr s -> 0 <= ls_highest_end s < 2 ^ 64 - 0xfff ->
  let s' := foldl ls_step s phs in
  0 <= ls_lowest_paddr s' <= ls_lowest_paddr s /\
  ls_highest_end s <= ls_highest_end s' < 2 ^ 64 - 0xfff /\
  ls_vaddr_to_paddr_offset s' =
    match ls_vaddr_to_paddr_offset s, phs with
    | None, ph :: _ => Some (wsub 64 (p_vaddr ph) (p_paddr ph))
    | o, _ => o
    end.
Proof.
  pose proof (eq_refl : HIGH_RAM_START = 0x100000) as Vh.
  induction phs as [|ph phs IH]; intros s Hok Hl Hh; cbn [foldl].
  - split_and!; try lia. by destruct (ls_vaddr_to_paddr_offset s).
  - inversion Hok as [|? ? [? ? ? (?&?&?) ?] Hok']; subst.
    destruct (IH (ls_step s ph) Hok') as (A & B & C); cbn [ls_step ls_lowest_paddr ls_highest_end] in *;
      [lia..|]. split_and!; try lia.
    rewrite C. cbn [ls_step ls_vaddr_to_paddr_offset]. by destruct (ls_vaddr_to_paddr_offset s).
Qed.

End load.

Lemma read_exact_ok n f :
  f_pos f + n <= zlen (f_bytes f) ->
  file_read_exact n f = Ok (slice (Z.to_nat (f_pos f)) (Z.to_nat n) (f_bytes f),
    {| f_bytes := f_bytes f; f_pos := f_pos f + n |}).
Proof. intros Hl. unfold file_read_exact. by rewrite (proj2 (Z.leb_le _ _)). Qed.

Lemma check_ehdr_spec h :
  check_ehdr h = Ok tt -> slice 0 4 (e_ident h) = ELF_MAGIC /\ e_phentsize h = phdr_size.
Proof.
  unfold check_ehdr. repeat (case_match; try done). intros _. split.
  - by apply negb_false_iff, bool_decide_eq_true in H.
  - by apply negb_false_iff, Z.eqb_eq in H3.
Qed.

Lemma elf_magic_slice bs :
  slice 0 4 (e_ident (elf_header bs)) = ELF_MAGIC -> slice 0 4 bs = ELF_MAGIC.
Proof.
  intros <-. unfold elf_header, elf64_ehdr. cbn [e_ident].
  rewrite <- (slice_slice 0 16 0 4) by lia. by rewrite <- (slice_slice 0 64 0 4) by lia.
Qed.

(** A virtual entry inside the first segment. *)
Lemma elf_entry_virtual mm bs phdrs e ph rest :
  Forall (segment_ok mm bs) (loads phdrs) -> loads phdrs = ph :: rest -> fits 64 (p_vaddr ph) ->
  p_vaddr ph <= e < p_vaddr ph + p_memsz ph -> existsb (in_segment e) (loads phdrs) = false ->
  elf_entry phdrs e = p_paddr ph + (e - p_vaddr ph).
Proof.
  intros Hsegs Hl Hv He Hno. pose proof (eq_refl : HIGH_RAM_START = 0x100000) as Vh.
  unfold elf_entry. rewrite Hno, Hl.
  rewrite Hl in Hsegs. inversion Hsegs as [|? ? [? ? ? (?&?&?) ?] _]; subst.
  unfold wsub. rewrite wrap_sub_r.
  replace (e - (p_vaddr ph - p_paddr ph)) with (p_paddr ph + (e - p_vaddr ph)) by lia.
  apply wrap_small. unfold fits in *. lia.
Qed.

(** The loop over a whole file: the lowest address and the highest end. *)
Definition ls_start : LoadState :=
  {| ls_lowest_paddr := 2 ^ 64 - 1; ls_highest_end := 0; ls_vaddr_to_paddr_offset := None |}.
Definition elf_span (bs : list Z) : LoadState := foldl ls_step ls_start (loads (elf_headers bs)).
Definition elf_size (bs : list Z) : Z := ls_highest_end (elf_span bs) - ls_lowest_paddr (elf_span bs).

Lemma elf_span_bounds mm bs ph rest :
  Forall (segment_ok mm bs) (loads (elf_headers bs)) -> loads (elf_headers bs) = ph :: rest ->
  0 <= ls_lowest_paddr (elf_span bs) < 2 ^ 64 - 1 /\
  ls_lowest_paddr (elf_span bs) <= ls_highest_end (elf_span bs) < 2 ^ 64 - 0xfff /\
  ls_vaddr_to_paddr_offset (elf_span bs) = Some (wsub 64 (p_vaddr ph) (p_paddr ph)).
Proof.
  intros Hsegs Hph. pose proof (eq_refl : HIGH_RAM_START = 0x100000) as Vh.
  unfold elf_span. rewrite Hph in *. cbn [foldl].
  inversion Hsegs as [|? ? [? ? ? (?&?&?) ?] Hrest]; subst.
  destruct (ls_fold_bounds mm bs rest (ls_step ls_start ph) Hrest) as (A & B & C);
    cbn [ls_step ls_start ls_lowest_paddr ls_highest_end] in *; [lia..|].
  split_and!; try lia. rewrite C. done.
Qed.

(** The loader on a well-formed file. *)
Lemma load_elf_ok {prof : Profile} {Ev} {Sdt} `{!AcpiTables Sdt} (p : Partition Ev) bs hm q :
  let mm := pt_memory p in
  let phdrs := elf_headers bs in
  let e := e_entry (elf_header bs) in
  mm_wf mm -> mapped mm 0 HIGH_RAM_START q -> acpi_fits Sdt p ->
  Forall (fun r => mr_gpa r + mr_size r < 2 ^ 64) (mm_regions mm) ->
  (length (machine_e820 mm) <= 128)%nat -> elf_ok mm bs ->
  exists hm',
    load_linux_kernel (Sdt:=Sdt) p (Some bs) hm = (Ok (elf_entry phdrs e), hm') /\
    Forall (fun ph => guest_bytes mm hm' (p_paddr ph) (Z.to_nat (p_filesz ph)) =
      Some (segment_bytes bs ph)) (loads phdrs) /\
    (forall a, HIGH_RAM_START <= a ->
       Forall (fun ph => ~ p_paddr ph <= a < p_paddr ph + p_filesz ph) (loads phdrs) ->
       guest_byte mm hm' a = guest_byte mm hm a) /\
    0 <= elf_size bs /\ elf_size bs + 0xfff < 2 ^ 64 /\
      guest_bytes mm hm' ZERO_PAGE_START 4096 =
        Some (filled_boot_params (elf_page (rounded_size (elf_size bs))) (ls_lowest_paddr (elf_span bs))
          (machine_e820 mm)) /\
      guest_bytes mm hm' CMDLINE_START (length (string_bytes CMDLINE ++ [0]))
        = Some (string_bytes CMDLINE ++ [0]).
Proof.
  intros mm phdrs e Hwf Hm Hacpi Hends Hn [Hsz Hhdr (Ht1 & Ht2 & Ht3) Hsegs Hdis Hsome].
  fold phdrs in Hsegs, Hdis, Hsome.
  pose proof (eq_refl : HIGH_RAM_START = 0x100000) as Vh.
  pose proof (eq_refl : ZERO_PAGE_START = 0x7000) as Vz.
  pose proof (eq_refl : CMDLINE_START = 0x20000) as Vc.
  pose proof (eq_refl : CMDLINE_MAX_SIZE = 0x10000) as Vs.
  destruct (check_ehdr_spec _ Hhdr) as [Hmagic _].
  set (s0 := ls_start).
  set (f := {| f_bytes := bs; f_pos := e_phoff (elf_header bs) + phdr_size * e_phnum (elf_header bs) |}).
  destruct (load_segments_ok p f phdrs s0 hm Hwf Hsegs Hdis) as (hm1 & L1 & G1 & F1). fold mm in G1, F1.
  assert (elf_span bs = foldl ls_step s0 (loads phdrs)) as Hspan by reflexivity.
  unfold elf_size. rewrite Hspan. set (s1 := foldl ls_step s0 (loads phdrs)) in *.
  assert (exists ph rest, loads phdrs = ph :: rest) as (ph & rest & Hph)
    by (destruct (loads phdrs) as [|x l]; [done|by exists x, l]).
  destruct (elf_span_bounds mm bs ph rest Hsegs Hph) as (Hlow & Hhigh & Hoff). rewrite Hspan in Hlow, Hhigh, Hoff.
  fold s1 in Hlow, Hhigh, Hoff.
  destruct (setup_elf_ok (Sdt:=Sdt) p (ls_lowest_paddr s1) (ls_highest_end s1 - ls_lowest_paddr s1) hm1 q
    Hwf Hm Hacpi Hends Hn) as (hm2 & L2 & Gz & Gc & F2); [lia..|]. fold mm in F2.
  assert (forall a, HIGH_RAM_START <= a -> guest_byte mm hm2 a = guest_byte mm hm1 a) as Fhigh
    by (intros a Ha; apply F2; lia).
  exists hm2. split_and!.
  - unfold load_linux_kernel, file_open. run_St.
    rewrite read_exact_ok by (cbn [f_pos f_bytes]; lia). cbn [f_pos f_bytes].
    assert (slice (Z.to_nat 0) (Z.to_nat 4) bs = ELF_MAGIC) as Hm4 by exact (elf_magic_slice bs Hmagic).
    rewrite Hm4, bool_decide_true by done. unfold file_seek. cbn [f_bytes].
    unfold load_elf_kernel. run_St. rewrite read_exact_ok by (cbn [f_pos f_bytes]; unfold ehdr_size; lia).
    cbn [f_pos f_bytes]. change (slice (Z.to_nat 0) (Z.to_nat ehdr_size) bs) with (slice 0 64 bs).
    fold (elf_header bs). rewrite Hhdr. cbv beta iota. unfold file_seek. cbn [f_bytes].
    rewrite read_exact_ok by (cbn [f_pos f_bytes]; lia). cbn [f_pos f_bytes]. fold f.
    change (elf64_phdrs _ _) with phdrs. fold ls_start. fold s0. rewrite L1. cbv beta iota.
    rewrite (proj2 (Z.eqb_neq _ _)) by lia. fold e.
    rewrite entry_is_physical_ok.
    2:{ eapply Forall_impl; [exact Hsegs|]. intros x [? ? ? ? ?]. lia. }
    rewrite usub_ok by lia. rewrite L2. rewrite Hoff. unfold elf_entry. rewrite Hph. reflexivity.
  - rewrite Forall_forall in G1, Hsegs |- *. intros x Hx. eapply guest_bytes_frame, G1, Hx.
    intros a Ha. apply Fhigh. destruct (Hsegs x Hx). lia.
  - intros a Ha Hout. rewrite Fhigh by done. by apply F1.
  - lia.
  - lia.
  - exact Gz.
  - exact Gc.
Qed.

(** ** Properties *)

(** C15: an ELF kernel is loaded.  For a well-formed file, whose segments lie
    inside the file and go to disjoint places of RAM above 1 MiB, on a machine
    whose low memory is RAM, loading succeeds; every loadable segment's bytes
    are in guest memory at its physical address, also after the zero page, the
    command line and the ACPI tables were written, no other guest byte above
    1 MiB changes, and the entry point is [elf_entry]: a physical entry as it
    is, and a virtual entry inside the first segment at its physical place. *)
Theorem elf_kernel_loaded {prof : Profile} {Ev} {Sdt} `{!AcpiTables Sdt} (p : Partition Ev) bs hm q :
  let mm := pt_memory p in
  let phdrs := elf_headers bs in
  let e := e_entry (elf_header bs) in
  mm_wf mm -> mapped mm 0 HIGH_RAM_START q -> acpi_fits Sdt p ->
  Forall (fun r => mr_gpa r + mr_size r < 2 ^ 64) (mm_regions mm) ->
  (length (machine_e820 mm) <= 128)%nat -> elf_ok mm bs ->
  exists hm',
    load_linux_kernel (Sdt:=Sdt) p (Some bs) hm = (Ok (elf_entry phdrs e), hm') /\
    Forall (fun ph => guest_bytes mm hm' (p_paddr ph) (Z.to_nat (p_filesz ph)) =
      Some (segment_bytes bs ph)) (loads phdrs) /\
    (forall a, HIGH_RAM_START <= a ->
       Forall (fun ph => ~ p_paddr ph <= a < p_paddr ph + p_filesz ph) (loads phdrs) ->
       guest_byte mm hm' a = guest_byte mm hm a) /\
    (forall ph rest, loads phdrs = ph :: rest -> fits 64 (p_vaddr ph) ->
       p_vaddr ph <= e < p_vaddr ph + p_memsz ph -> existsb (in_segment e) (loads phdrs) = false ->
       elf_entry phdrs e = p_paddr ph + (e - p_vaddr ph)).
Proof.
  intros mm phdrs e Hwf Hm Hacpi Hends Hn Hok.
  destruct (load_elf_ok (Sdt:=Sdt) p bs hm q Hwf Hm Hacpi Hends Hn Hok) as (hm' & L & G & F & _).
  exists hm'. split_and!; [done..|]. intros ph rest. apply elf_entry_virtual with mm bs. apply Hok.
Qed.

(** ** Witness *)

(** A kernel of one loadable segment of four bytes, linked at 0xffffffff81000000
    and loaded at 1 MiB. *)
Definition example_elf : list Z :=
  (ELF_MAGIC ++ [ELFCLASS64; ELFDATA2LSB; 1; 0] ++ replicate 8 0)
  ++ le_bytes 2 2 ++ le_bytes 2 EM_X86_64 ++ le_bytes 4 1 ++ le_bytes 8 0xffffffff81000002
  ++ le_bytes 8 64 ++ le_bytes 8 0 ++ le_bytes 4 0 ++ le_bytes 2 64 ++ le_bytes 2 56
  ++ le_bytes 2 1 ++ le_bytes 2 0 ++ le_bytes 2 0 ++ le_bytes 2 0
  ++ le_bytes 4 PT_LOAD ++ le_bytes 4 5 ++ le_bytes 8 120 ++ le_bytes 8 0xffffffff81000000
  ++ le_bytes 8 HIGH_RAM_START ++ le_bytes 8 4 ++ le_bytes 8 8192 ++ le_bytes 8 4096
  ++ [0xf4; 0xeb; 0xfd; 0x90].

Definition example_segment : Elf64Phdr :=
  {| p_type := PT_LOAD; p_offset := 120; p_vaddr := 0xffffffff81000000;
     p_paddr := HIGH_RAM_START; p_filesz := 4; p_memsz := 8192 |}.

Lemma example_elf_loads : loads (elf_headers example_elf) = [example_segment].
Proof. vm_compute. reflexivity. Qed.

Lemma example_elf_ok : elf_ok boot_mm example_elf.
Proof.
  split; rewrite ?example_elf_loads; [vm_compute; congruence|vm_compute; reflexivity| | | |done].
  - split_and!; vm_compute; congruence.
  - constructor; [|constructor].
    split; [vm_compute; congruence..|vm_compute; reflexivity|split_and!; vm_compute; congruence|].
    + intros _. exists (0x10000000 + HIGH_RAM_START).
      apply boot_mapped; vm_compute; (congruence || reflexivity).
  - repeat constructor.
Qed.

Lemma elf_kernel_loaded_witness :
  exists hm', load_linux_kernel (prof:=dev_profile)
      (LinuxBootPartition0:=partition_boot (prof:=dev_profile)) (Sdt:=list Z) boot_partition
      (Some example_elf) (fun _ => 0) = (Ok 0x100002, hm').
Proof.
  destruct (elf_kernel_loaded (prof:=dev_profile) (Sdt:=list Z) boot_partition example_elf
    (fun _ => 0) 0x10000000) as (hm' & Hr & _).
  - exact boot_mm_wf.
  - apply (boot_mapped 0 HIGH_RAM_START); [lia|vm_compute; congruence|vm_compute; reflexivity].
  - exact boot_acpi_fits.
  - constructor; [cbn; lia|constructor].
  - vm_compute. lia.
  - exact example_elf_ok.
  - exists hm'. replace (elf_entry (elf_headers example_elf) (e_entry (elf_header example_elf)))
      with 0x100002 in Hr by (vm_compute; reflexivity). exact Hr.
Defined.
