(* ===== verification/BootFields.v ===== *)
(** * BootFields: the zero page as the structure [boot_params]

    The loader writes the zero page at numbered offsets ([src/linux_boot.rs]);
    the kernel reads it as [boot_params] ([src/bootparam.rs]).  Here the page is
    read through the structure: which fields the loader sets, to what, and that
    it sets no other; for an ELF kernel and for a bzImage, whose own header is
    copied into the page. *)

From S2P Require Import Prelude Bytes HostMem GuestMem Queue Irqchip Bus VirtioDev Mmio Layout Acpi Partition CLayout BootParams Boot ZeroPage ElfLoad.

(** ** The fields the loader sets *)

Definition hdr (f : string) : path := [Fld "hdr"; Fld f].
Definition e820_field (i : nat) (f : string) : path := [Fld "e820_table"; Idx i; Fld f].

Definition entry_fields (i : nat) (e : Z * Z * Z) : list (path * Z) :=
  [(e820_field i "addr", e.1.1); (e820_field i "size", e.1.2); (e820_field i "type_", e.2)].

Definition table_fields (es : list (Z * Z * Z)) : list (path * Z) := concat (imap entry_fields es).

(** [flags] are the load flags the page had before. *)
Definition common_fields (flags c : Z) (es : list (Z * Z * Z)) : list (path * Z) :=
  [([Fld "alt_mem_k"], 0); ([Fld "scratch"], 0); ([Fld "e820_entries"], zlen es);
   ([Fld "eddbuf_entries"], 0); ([Fld "edd_mbr_sig_buf_entries"], 0); ([Fld "kbd_status"], 0);
   ([Fld "secure_boot"], 0); ([Fld "_pad5"; Idx 0], 0); ([Fld "_pad5"; Idx 1], 0);
   (hdr "header", 0x53726448); (hdr "type_of_loader", 0xff);
   (hdr "loadflags", Z.lor flags (Z.lor LOADED_HIGH CAN_USE_HEAP));
   (hdr "code32_start", wrap 32 c); (hdr "heap_end_ptr", 0xfe00);
   (hdr "cmd_line_ptr", CMDLINE_START)].

Definition loader_fields (flags c : Z) (es : list (Z * Z * Z)) : list (path * Z) :=
  common_fields flags c es ++ table_fields es.

(** A page holds given fields; a path meets none of them. *)
Definition has_fields (fs : list (path * Z)) (b : list Z) : Prop :=
  Forall (fun x => read_field boot_params x.1 b = Some x.2) fs.

Definition apart_from (fs : list (path * Z)) (q : path) : Prop :=
  Forall (fun x => parts boot_params x.1 q = true) fs.

(** ** Places *)

Lemma read_place t p o n bs : place t p = Some (o, TInt n) -> read_field t p bs = Some (field o n bs).
Proof. intros Hp. unfold read_field. by rewrite Hp. Qed.

Lemma hdr_place f : place boot_params (Fld "hdr" :: f) =
  '(o, t) ← place setup_header f; Some ((0x1f1 + o)%nat, t).
Proof.
  change (Fld "hdr" :: f) with ([Fld "hdr"] ++ f). rewrite place_app.
  assert (place boot_params [Fld "hdr"] = Some (0x1f1%nat, setup_header)) as ->
    by (vm_compute; reflexivity). done.
Qed.

Lemma e820_place i f o n :
  (i < E820_MAX_ENTRIES_ZEROPAGE)%nat -> step_place boot_e820_entry (Fld f) = Some (o, TInt n) ->
  place boot_params (e820_field i f) = Some ((0x2d0 + (20 * i + o))%nat, TInt n).
Proof.
  intros Hi Hf. change (e820_field i f) with ([Fld "e820_table"] ++ [Idx i; Fld f]).
  rewrite place_app.
  assert (place boot_params [Fld "e820_table"] = Some (0x2d0%nat, TArray boot_e820_entry 128)) as ->
    by (vm_compute; reflexivity).
  cbn [mbind option_bind place]. cbn [step_place].
  rewrite bool_decide_true by exact Hi. cbn [mbind option_bind].
  rewrite Hf. cbn [mbind option_bind]. f_equal. f_equal.
  change (size_of boot_e820_entry) with 20%nat. lia.
Qed.

(** Two ranges of bytes that do not meet. *)
Definition clear (o m a n : nat) : Prop := (o + m <= a \/ a + n <= o)%nat.

Lemma parts_clear p q o n o' m :
  parts boot_params p q = true -> place boot_params p = Some (o, TInt n) ->
  place boot_params q = Some (o', TInt m) -> clear o' m o n.
Proof.
  intros Hpq Hp Hq. pose proof (place_disjoint _ _ _ _ _ _ _ Hpq Hp Hq) as H. cbn [size_of] in H.
  unfold clear. lia.
Qed.

(** A range that meets no entry of the memory map meets no byte of its used part. *)
Lemma table_clear o m n :
  (0 < m)%nat -> (0 < n)%nat -> (forall i, (i < n)%nat -> clear o m (0x2d0 + 20 * i) 20) ->
  clear o m 0x2d0 (20 * n).
Proof.
  intros Hm Hn. induction n as [|[|n] IH]; intros Hi; [lia|exact (Hi 0%nat ltac:(lia))|].
  assert (clear o m 0x2d0 (20 * S n)) as H1 by (apply IH; [lia|]; intros i Hlt; apply Hi; lia).
  assert (clear o m (0x2d0 + 20 * S n) 20) as H2 by (apply Hi; lia).
  unfold clear in H1, H2 |- *. lia.
Qed.

Lemma table_field_in es i e x :
  es !! i = Some e -> x ∈ entry_fields i e -> x ∈ table_fields es.
Proof.
  intros Hi Hx. unfold table_fields. apply list_elem_of_In, in_concat.
  exists (entry_fields i e). split; [|by apply list_elem_of_In].
  apply list_elem_of_In, list_elem_of_lookup. exists i. by rewrite list_lookup_imap, Hi.
Qed.

(** ** The page [fill_boot_params] leaves *)

Ltac const_place :=
  lazymatch goal with
  | |- context [read_field ?t ?p ?b] =>
      let x := eval vm_compute in (place t p) in
      lazymatch x with
      | Some (?o, TInt ?n) =>
          rewrite (read_place t p o n b ltac:(vm_compute; reflexivity)); unfold field
      end
  end.

Section page.
Variables (b0 : list Z) (c : Z) (es : list (Z * Z * Z)).
Hypothesis Hb0 : length b0 = 4096%nat.
Hypothesis Hes : (length es <= 128)%nat.
Let b := filled_boot_params b0 c es.

(** The bytes outside the loader's fields are those the page had. *)
Lemma filled_frame o m :
  (0 < m)%nat -> clear o m 0x1e0 15 -> clear o m 0x202 4 -> clear o m 0x210 2 -> clear o m 0x214 4 ->
  clear o m 0x224 2 -> clear o m 0x228 4 -> (forall i, (i < length es)%nat -> clear o m (0x2d0 + 20 * i) 20) ->
  slice o m b = slice o m b0.
Proof.
  intros Hm H1 H2 H3 H4 H5 H6 Hi.
  assert (concat (map e820_bytes es) = [] \/ clear o m 0x2d0 (length (concat (map e820_bytes es)))) as Ht.
  { rewrite length_e820_concat. destruct es as [|e es']; [by left|right].
    apply table_clear; [done|cbn; lia|done]. }
  pose proof (length_e820_concat es) as Hl. clear Hi.
  subst b. unfold filled_boot_params. unfold clear in *.
  generalize dependent (concat (map e820_bytes es)). intros bs [-> | Ht] Hl.
  - unfold splice at 2. cbn [app length]. rewrite Nat.add_0_r, take_drop.
    by repeat (rewrite slice_splice_disjoint; [|zp|zp]).
  - by repeat (rewrite slice_splice_disjoint; [|zp|zp]).
Qed.

(** A field apart from the loader's. *)
Lemma apart_clear q o m flags :
  apart_from (loader_fields flags c es) q -> place boot_params q = Some (o, TInt m) -> (0 < m)%nat ->
  clear o m 0x1e0 15 /\ clear o m 0x202 4 /\ clear o m 0x210 2 /\ clear o m 0x214 4 /\
  clear o m 0x224 2 /\ clear o m 0x228 4 /\
  forall i, (i < length es)%nat -> clear o m (0x2d0 + 20 * i) 20.
Proof.
  intros [Hc Ht]%Forall_app Hq Hm.
  assert (forall p a n, place boot_params p = Some (a, TInt n) -> parts boot_params p q = true ->
    clear o m a n) as P by (intros; by eapply parts_clear).
  unfold common_fields in Hc.
  repeat match goal with H : Forall _ (_ :: _) |- _ => apply Forall_cons in H as [? H] end.
  cbn [fst] in *.
  repeat match goal with
  | H : parts boot_params ?p q = true |- _ =>
      let x := eval vm_compute in (place boot_params p) in
      lazymatch x with
      | Some (?a, TInt ?n) => apply (P p a n ltac:(vm_compute; reflexivity)) in H
      end
  end.
  split_and!; [unfold clear in *; lia..|].
  intros i Hi. destruct (lookup_lt_is_Some_2 _ _ Hi) as [e He].
  assert (forall f x k n, (e820_field i f, x) ∈ entry_fields i e ->
    step_place boot_e820_entry (Fld f) = Some (k, TInt n) -> clear o m (0x2d0 + (20 * i + k)) n) as T.
  { intros f x k n Hin Hf. eapply P; [apply e820_place; [unfold E820_MAX_ENTRIES_ZEROPAGE; lia|done]|].
    unfold apart_from in Ht. rewrite Forall_forall in Ht.
    exact (Ht _ (table_field_in _ _ _ _ He Hin)). }
  pose proof (T "addr" _ 0%nat 8%nat (list_elem_of_here _ _) eq_refl).
  pose proof (T "size" _ 8%nat 8%nat (list_elem_of_further _ _ _ (list_elem_of_here _ _)) eq_refl).
  pose proof (T "type_" _ 16%nat 4%nat
    (list_elem_of_further _ _ _ (list_elem_of_further _ _ _ (list_elem_of_here _ _))) eq_refl).
  unfold clear in *. lia.
Qed.

(** ... keeps its value. *)
Lemma filled_other q flags v :
  apart_from (loader_fields flags c es) q -> read_field boot_params q b0 = Some v ->
  read_field boot_params q b = Some v.
Proof.
  intros Ha (o & m & Hq & ->)%read_field_place. rewrite (read_place _ _ _ _ _ Hq). f_equal. unfold field.
  destruct (decide (m = 0%nat)) as [->|Hm]; [done|]. f_equal.
  destruct (apart_clear q o m flags Ha Hq) as (?&?&?&?&?&?&?); [lia|]. apply filled_frame; [lia|done..].
Qed.

(** The bytes that are cleared. *)
Lemma filled_zeros o n :
  (n < 8)%nat -> (0x1e0 <= o)%nat -> (o + n <= 0x1ef)%nat -> clear o n 0x1e8 1 ->
  le_val (slice o n b) = 0.
Proof.
  intros Hn H1 H2 H3. pose proof (length_e820_concat es) as Hl.
  assert (slice o n b = slice (o - 0x1e0) n (replicate 15 0)) as ->.
  { subst b. unfold filled_boot_params, clear in *.
    generalize dependent (concat (map e820_bytes es)). intros bs Hl.
    repeat (rewrite slice_splice_disjoint; [|zp|zp]).
    replace o with (Z.to_nat 0x1e0 + (o - 0x1e0))%nat at 1 by lia.
    apply slice_splice_inside; zp. }
  unfold slice. rewrite drop_replicate, take_replicate. 
  clear. induction (Init.Nat.min n (15 - (o - 480))) as [|k IH]; [done|]. cbn [replicate le_val]. by rewrite IH.
Qed.

(** The entries of the memory map. *)
Lemma filled_entry i e :
  es !! i = Some e -> e820_fits e -> has_fields (entry_fields i e) b.
Proof.
  intros Hi Hfit. pose proof (filled_e820 b0 c es i e Hb0 Hes Hi Hfit) as He. fold b in He.
  pose proof (lookup_lt_Some _ _ _ Hi) as Hlt. unfold e820_at in He.
  assert (i < E820_MAX_ENTRIES_ZEROPAGE)%nat as Hmax by (unfold E820_MAX_ENTRIES_ZEROPAGE; lia).
  unfold has_fields, entry_fields.
  pose proof (e820_place i "addr" 0 8 Hmax eq_refl) as Pa.
  pose proof (e820_place i "size" 8 8 Hmax eq_refl) as Ps.
  pose proof (e820_place i "type_" 16 4 Hmax eq_refl) as Pt.
  repeat (apply Forall_cons; split); [..|by apply Forall_nil]; cbn [fst snd];
    rewrite ?(read_place _ _ _ _ _ Pa), ?(read_place _ _ _ _ _ Ps), ?(read_place _ _ _ _ _ Pt), <- He;
    cbn [fst snd]; do 2 f_equal; lia.
Qed.

Lemma filled_heap_end : slice (Z.to_nat 0x224) 2 b = le_bytes 2 0xfe00.
Proof.
  pose proof (length_e820_concat es) as Hl. subst b. unfold filled_boot_params.
  generalize dependent (concat (map e820_bytes es)). intros bs Hl.
  repeat (rewrite slice_splice_disjoint; [|zp|zp]). apply slice_splice_at; [reflexivity|zp].
Qed.

(** The loader's fields. *)
Lemma filled_has_fields :
  Forall e820_fits es -> has_fields (loader_fields (nth 0x211 b0 0) c es) b.
Proof.
  intros Hfit. apply Forall_app. split.
  - destruct (filled_fields b0 c es Hb0 Hes) as (F1 & F2 & F3 & F4 & F5 & F6 & _).
    fold b in F1, F2, F3, F4, F5, F6. unfold common_fields.
    repeat (apply Forall_cons; split); [..|by apply Forall_nil]; cbn [fst snd]; const_place; f_equal.
    all: try (apply filled_zeros; unfold clear; lia).
    + etransitivity; [exact (f_equal le_val F1)|]. cbn [le_val].
      rewrite wrap_small by (unfold fits, zlen; lia). lia.
    + exact (f_equal le_val F2).
    + exact (f_equal le_val F6).
    + etransitivity; [exact (f_equal le_val F5)|]. cbn [le_val]. unfold LOADED_HIGH, CAN_USE_HEAP.
      change (Z.to_nat 0x211) with 0x211%nat. change (Z.lor 1 128) with 129. lia.
    + etransitivity; [exact (f_equal le_val F4)|]. apply le_val_le_bytes_fits, wrap_fits. lia.
    + etransitivity; [exact (f_equal le_val filled_heap_end)|]. reflexivity.
    + exact (f_equal le_val F3).
  - apply Forall_forall. intros x Hx. unfold table_fields in Hx.
    apply list_elem_of_In, in_concat in Hx as (l & Hl & Hx). apply list_elem_of_In in Hl, Hx.
    apply elem_of_lookup_imap in Hl as (i & e & -> & Hi).
    pose proof (filled_entry i e Hi) as He. rewrite Forall_forall in Hfit.
    specialize (He (Hfit _ (list_elem_of_lookup_2 _ _ _ Hi))). unfold has_fields in He.
    rewrite Forall_forall in He. by apply He.
Qed.
End page.

(** ** The page of an ELF kernel *)

Lemma le_val_zeros n : le_val (replicate n 0) = 0.
Proof. induction n as [|n IH]; [done|]. cbn [replicate le_val]. by rewrite IH. Qed.

Lemma slice_zeros o m n : exists k, slice o m (replicate n 0) = replicate k 0.
Proof. unfold slice. rewrite drop_replicate, take_replicate. eauto. Qed.

Lemma field_zeros o m n : field o m (replicate n 0) = 0.
Proof. unfold field. destruct (slice_zeros o m n) as [k ->]. apply le_val_zeros. Qed.

(** What [setup_elf_boot_params] sets before. *)
Definition elf_fields (init : Z) : list (path * Z) :=
  [(hdr "header", 0x53726448); (hdr "version", 0x20f); (hdr "init_size", init)].

Lemma elf_page_zero init q v :
  apart_from (elf_fields init) q -> read_field boot_params q (elf_page init) = Some v -> v = 0.
Proof.
  intros Ha (o & m & Hq & ->)%read_field_place. destruct (decide (m = 0%nat)) as [->|Hm]; [done|].
  unfold elf_fields, apart_from in Ha.
  repeat match goal with H : Forall _ (_ :: _) |- _ => apply Forall_cons in H as [? H] end.
  cbn [fst] in *.
  assert (forall p a n, place boot_params p = Some (a, TInt n) -> parts boot_params p q = true ->
    clear o m a n) as P by (intros; by eapply parts_clear).
  pose proof (P (hdr "header") 0x202%nat 4%nat ltac:(vm_compute; reflexivity) ltac:(assumption)).
  pose proof (P (hdr "version") 0x206%nat 2%nat ltac:(vm_compute; reflexivity) ltac:(assumption)).
  pose proof (P (hdr "init_size") 0x260%nat 4%nat ltac:(vm_compute; reflexivity) ltac:(assumption)).
  pose proof length_elf_page_head as Hl. unfold elf_page, clear in *.
  rewrite slice_splice_disjoint by (rewrite ?Hl, ?length_le_bytes; lia). unfold elf_page_head.
  rewrite list_insert_id by (vm_compute; reflexivity).
  do 2 (rewrite slice_splice_disjoint; [|zp|zp]). apply (field_zeros o m 4096).
Qed.

(** The fields of the page [b] that the loader of an ELF kernel leaves. *)
Definition elf_boot_fields (c init : Z) (es : list (Z * Z * Z)) : list (path * Z) :=
  [(hdr "version", 0x20f); (hdr "init_size", init)] ++ loader_fields 0 c es.

Lemma elf_page_fields init c es :
  (length es <= 128)%nat -> Forall e820_fits es -> fits 32 init ->
  let b := filled_boot_params (elf_page init) c es in
  has_fields (elf_boot_fields c init es) b /\
  forall q v, apart_from (elf_boot_fields c init es) q -> read_field boot_params q b = Some v -> v = 0.
Proof.
  intros Hn Hf Hi b. destruct (elf_page_ok init) as (Hl & H206 & H260 & H211).
  destruct (filled_fields (elf_page init) c es Hl Hn) as (_ & _ & _ & _ & _ & _ & F7 & F8).
  fold b in F7, F8. split.
  - apply Forall_app. split.
    + repeat (apply Forall_cons; split); [..|by apply Forall_nil]; cbn [fst snd]; const_place;
        apply (f_equal Some).
      * etransitivity; [exact (f_equal le_val F7)|]. rewrite H206. reflexivity.
      * etransitivity; [exact (f_equal le_val F8)|]. rewrite H260. by apply le_val_le_bytes_fits.
    + pose proof (filled_has_fields (elf_page init) c es Hl Hn Hf) as H.
      change 0x211%nat with (Z.to_nat 0x211) in H. by rewrite H211 in H.
  - intros q v [Hv Hq]%Forall_app Hr.
    assert (apart_from (elf_fields init) q) as He.
    { unfold loader_fields, common_fields in Hq. unfold apart_from, elf_fields.
      apply Forall_app in Hq as [Hq _]. rewrite Forall_forall in Hq, Hv.
      repeat (apply Forall_cons; split); [..|by apply Forall_nil].
      - apply (Hq (hdr "header", 0x53726448)), (list_elem_of_lookup_2 _ 9). reflexivity.
      - apply (Hv (hdr "version", 0x20f)), (list_elem_of_lookup_2 _ 0). reflexivity.
      - apply (Hv (hdr "init_size", init)), (list_elem_of_lookup_2 _ 1). reflexivity. }
    destruct (read_field_place _ _ _ _ Hr) as (o & m & Hp & ->).
    eapply elf_page_zero; [exact He|]. rewrite (read_place _ _ _ _ _ Hp). f_equal.
    pose proof (filled_other (elf_page init) c es Hl Hn q 0 _ Hq (read_place _ _ _ _ _ Hp)) as H.
    rewrite (read_place _ _ _ _ _ Hp) in H. fold b in H. unfold field in *. congruence.
Qed.

Lemma machine_e820_all_fit mm :
  mm_wf mm -> Forall window_fits (mm_mmio_regions mm) ->
  Forall (fun r => mr_gpa r + mr_size r < 2 ^ 64) (mm_regions mm) -> Forall e820_fits (machine_e820 mm).
Proof. intros. apply Forall_forall. intros e. by apply machine_e820_fits. Qed.

(** ** Properties *)

(** C21: the kernel reads the loader's page through its own structure.  For an
    ELF kernel, on a machine whose low memory is RAM, the 4096 bytes at the
    zero page read as [boot_params] have every field the boot protocol asks
    for: the signature and version of the header, the loader's type and flags,
    the load address, the size in whole pages, the heap end, the pointer to the command line,
    the number of entries of the memory map and, entry by entry, the machine's
    RAM and reserved ranges; and every other integer of the structure, wherever
    it is, is zero. *)
Theorem kernel_reads_boot_params {prof : Profile} {Ev} {Sdt} `{!AcpiTables Sdt}
    (p : Partition Ev) code32_start kernel_size hm q :
  let mm := pt_memory p in
  mm_wf mm -> mapped mm 0 HIGH_RAM_START q -> acpi_fits Sdt p ->
  Forall (fun r => mr_gpa r + mr_size r < 2 ^ 64) (mm_regions mm) ->
  Forall window_fits (mm_mmio_regions mm) -> (length (machine_e820 mm) <= 128)%nat ->
  0 <= kernel_size -> kernel_size + 0xfff < 2 ^ 64 ->
  let init := wrap 32 (4096 * ((kernel_size + 4095) / 4096)) in
  exists hm' b,
    setup_elf_boot_params (Sdt:=Sdt) p ZERO_PAGE_START code32_start kernel_size hm = (Ok init, hm') /\
    guest_bytes mm hm' ZERO_PAGE_START (size_of boot_params) = Some b /\
    has_fields (elf_boot_fields code32_start init (machine_e820 mm)) b /\
    forall path v, apart_from (elf_boot_fields code32_start init (machine_e820 mm)) path ->
      read_field boot_params path b = Some v -> v = 0.
Proof.
  intros mm Hwf Hm Hacpi Hends Hwin Hn Hk0 Hk init.
  assert (init = rounded_size kernel_size) as -> by (symmetry; by apply rounded_size_pages).
  destruct (setup_elf_ok (Sdt:=Sdt) p code32_start kernel_size hm q Hwf Hm Hacpi Hends Hn Hk0 Hk)
    as (hm' & Hs & Gb & _). fold mm in Hs, Gb.
  destruct (elf_page_fields (rounded_size kernel_size) code32_start (machine_e820 mm) Hn)
    as [Hf Ho]; [by apply machine_e820_all_fit|apply wrap_fits; lia|].
  exists hm'. eexists. split; [exact Hs|]. split; [exact Gb|]. by split.
Qed.

(** ** Witness *)

Lemma kernel_reads_boot_params_witness :
  exists hm' b,
    setup_elf_boot_params (prof:=dev_profile)
      (LinuxBootPartition0:=partition_boot (prof:=dev_profile)) (Sdt:=list Z) boot_partition ZERO_PAGE_START 0x1000000
      0x12345 (fun _ => 0) = (Ok 0x13000, hm') /\
    guest_bytes boot_mm hm' ZERO_PAGE_START 4096 = Some b /\
    read_field boot_params (hdr "header") b = Some 0x53726448 /\
    read_field boot_params (e820_field 0 "size") b = Some 0x400000 /\
    read_field boot_params [Fld "sentinel"] b = Some 0.
Proof.
  destruct (kernel_reads_boot_params (prof:=dev_profile) (Sdt:=list Z) boot_partition 0x1000000
    0x12345 (fun _ => 0) 0x10000000) as (hm' & b & Hr & Hb & Hf & Ho).
  - exact boot_mm_wf.
  - apply (boot_mapped 0 HIGH_RAM_START); [lia|vm_compute; congruence|vm_compute; reflexivity].
  - exact boot_acpi_fits.
  - constructor; [cbn; lia|constructor].
  - repeat constructor; vm_compute; congruence.
  - vm_compute. lia.
  - lia.
  - lia.
  - exists hm', b. split; [exact Hr|]. split; [exact Hb|].
    unfold has_fields in Hf. rewrite Forall_forall in Hf. split_and!.
    + apply (Hf (hdr "header", 0x53726448)), (list_elem_of_lookup_2 _ 11). reflexivity.
    + apply (Hf (e820_field 0 "size", 0x400000)), (list_elem_of_lookup_2 _ 18). reflexivity.
    + pose proof (read_place boot_params [Fld "sentinel"] 495 1 b ltac:(vm_compute; reflexivity)) as Hs.
      rewrite Hs. f_equal. eapply Ho, Hs. repeat constructor; vm_compute; reflexivity.
Defined.
