(* ===== verification/BzImage.v ===== *)
(** * BzImage: loading a bzImage kernel

    What [load_bzimage_kernel] and [setup_bzimage_boot_params] of
    [src/linux_boot.rs] leave in guest memory for a well-formed file: the
    protected-mode code at 1 MiB and a zero page with the file's own header,
    overridden by the loader's fields. *)

From S2P Require Import Prelude Bytes HostMem GuestMem Queue Irqchip Bus VirtioDev Mmio Layout Acpi Partition CLayout BootParams Boot ZeroPage ElfLoad BootFields.

(** ** Well-formed files *)

(** The header in the file ends where the jump before its signature goes. *)
Definition bz_header_len (bs : list Z) : nat := Z.to_nat (17 + nth 0x201 bs 0).
Definition bz_header (bs : list Z) : list Z := slice 0x1f1 (bz_header_len bs) bs.

(** A field of the header, and what the loader takes from it. *)
Definition bz_field (bs : list Z) (name : string) : Z :=
  boot_header_field (slice 0x1f1 123 bs) name.

Definition bz_setup_size (bs : list Z) : Z :=
  ((if bz_field bs "setup_sects" =? 0 then 4 else bz_field bs "setup_sects") + 1) * 512.

Definition bz_payload (bs : list Z) : list Z := drop (Z.to_nat (bz_setup_size bs)) bs.

(** The load flags the page has before the loader adds its own. *)
Definition bz_flags (bs : list Z) : Z := nth 0x20 (bz_header bs) 0.

Record bzimage_ok (mm : MemoryManager) (bs : list Z) : Prop := {
  bo_bytes : bytes_ok bs;
  bo_not_elf : slice 0 4 bs <> ELF_MAGIC;
  bo_struct : 0x1f1 + Z.of_nat (size_of setup_header) <= zlen bs;
  bo_magic : bz_field bs "header" = 0x53726448;
  bo_version : 0x200 <= bz_field bs "version";
  bo_high : Z.land (bz_field bs "loadflags") LOADED_HIGH <> 0;
  bo_header : 0x1f1 + Z.of_nat (bz_header_len bs) <= zlen bs;
  bo_setup : bz_setup_size bs <= zlen bs;
  bo_payload : exists q, mapped mm HIGH_RAM_START (zlen (bz_payload bs)) q;
}.

(** The page before the loader's fields: zeros and the file's header. *)
Definition bz_page (bs : list Z) : list Z := splice 0x1f1 (bz_header bs) (replicate 4096 0).

(** ** The page *)

Section page.
Variables (mm : MemoryManager) (bs : list Z).
Hypothesis Hok : bzimage_ok mm bs.

Lemma jump_byte : 0 <= nth 0x201 bs 0 < 256.
Proof.
  destruct Hok as [Hb _ Hs _ _ _ _ _ _]. unfold zlen in Hs.
  change (Z.of_nat (size_of setup_header)) with 123 in Hs.
  unfold bytes_ok in Hb. rewrite Forall_forall in Hb. apply Hb.
  rewrite nth_lookup. destruct (lookup_lt_is_Some_2 bs 0x201%nat) as [x Hx]; [lia|].
  rewrite Hx. by eapply list_elem_of_lookup_2.
Qed.

Lemma length_bz_header : length (bz_header bs) = bz_header_len bs.
Proof. pose proof (bo_header _ _ Hok). apply length_slice. unfold zlen in *. lia. Qed.

Lemma bz_header_len_small : (17 <= bz_header_len bs <= 272)%nat.
Proof. pose proof jump_byte. unfold bz_header_len. lia. Qed.

Lemma length_bz_page : length (bz_page bs) = 4096%nat.
Proof.
  pose proof bz_header_len_small. apply length_splice_page; [done|].
  rewrite length_bz_header. lia.
Qed.

Lemma bz_page_flags : nth 0x211 (bz_page bs) 0 = bz_flags bs.
Proof.
  pose proof bz_header_len_small as Hl. unfold bz_page, bz_flags.
  rewrite !nth_lookup, lookup_splice by (rewrite length_bz_header, length_replicate; lia).
  rewrite length_bz_header. case_decide as Hd; [done|].
  rewrite (lookup_ge_None_2 (bz_header bs)) by (rewrite length_bz_header; lia).
  by rewrite lookup_replicate_2 by lia.
Qed.

(** A field of the file's header, read in the page. *)
Lemma bz_page_header f o n :
  place setup_header f = Some (o, TInt n) -> (o + n <= bz_header_len bs)%nat ->
  read_field boot_params (Fld "hdr" :: f) (bz_page bs) = read_field setup_header f (drop 0x1f1 bs).
Proof.
  intros Hf Hn. pose proof bz_header_len_small as Hl.
  rewrite (read_place _ _ _ _ _ Hf), (read_place _ (_ :: _) (0x1f1 + o) n).
  2:{ rewrite hdr_place, Hf. done. }
  f_equal. unfold field, bz_page.
  rewrite slice_splice_inside by (rewrite ?length_bz_header, ?length_replicate; lia).
  unfold bz_header. rewrite <- slice_slice by lia. unfold slice. by rewrite drop_drop.
Qed.

(** Outside the header there is nothing. *)
Lemma bz_page_zero q o n :
  place boot_params q = Some (o, TInt n) -> clear o n 0x1f1 (bz_header_len bs) ->
  read_field boot_params q (bz_page bs) = Some 0.
Proof.
  intros Hq Hc. pose proof bz_header_len_small as Hl. rewrite (read_place _ _ _ _ _ Hq).
  apply (f_equal Some). unfold field, bz_page, clear in *.
  rewrite slice_splice_disjoint by (rewrite ?length_bz_header, ?length_replicate; lia).
  apply (field_zeros o n 4096).
Qed.

End page.

(** ** Loading *)

Section load.
Context {prof : Profile} {Ev : Type} {Sdt : Type} `{!AcpiTables Sdt}.

Lemma setup_bzimage_ok (p : Partition Ev) bs c hm q :
  let mm := pt_memory p in
  mm_wf mm -> mapped mm 0 HIGH_RAM_START q -> acpi_fits Sdt p ->
  Forall (fun r => mr_gpa r + mr_size r < 2 ^ 64) (mm_regions mm) ->
  (length (machine_e820 mm) <= 128)%nat -> bzimage_ok mm bs ->
  let b := filled_boot_params (bz_page bs) c (machine_e820 mm) in
  exists hm', setup_bzimage_boot_params (Sdt:=Sdt) p ZERO_PAGE_START (Some bs) c hm
      = (Ok (field 0x260 4 b), hm') /\
    guest_bytes mm hm' ZERO_PAGE_START 4096 = Some b /\
    guest_bytes mm hm' CMDLINE_START (length (string_bytes CMDLINE ++ [0]))
      = Some (string_bytes CMDLINE ++ [0]) /\
    forall a, HIGH_RAM_START <= a -> guest_byte mm hm' a = guest_byte mm hm a.
Proof.
  intros mm Hwf Hm Hacpi Hends Hn Hok b.
  pose proof (eq_refl : HIGH_RAM_START = 0x100000) as Vh.
  pose proof (eq_refl : ZERO_PAGE_START = 0x7000) as Vz.
  pose proof (eq_refl : CMDLINE_START = 0x20000) as Vc.
  pose proof (eq_refl : CMDLINE_MAX_SIZE = 0x10000) as Vs.
  pose proof (bz_header_len_small mm bs Hok) as Hl.
  destruct (fill_boot_params_ok (Sdt:=Sdt) p (bz_page bs) c hm q Hwf Hm Hacpi Hends Hn
    (length_bz_page mm bs Hok)) as (hm' & Hf & Gb & Gc & Fr). fold mm in Hf, Gb, Gc, Fr.
  exists hm'. split_and!; [|done..|intros a Ha; apply Fr; lia].
  pose proof (bo_header _ _ Hok) as Hhl.
  assert (17 + nth 0x201 bs 0 = Z.of_nat (bz_header_len bs)) as Hsz
    by (pose proof (jump_byte mm bs Hok); unfold bz_header_len; lia).
  unfold setup_bzimage_boot_params, file_open. run_St. unfold file_seek. cbn [f_bytes].
  rewrite read_exact_ok by (cbn [f_pos f_bytes]; lia). cbn [f_pos f_bytes].
  assert (nth 0 (slice (Z.to_nat 0x201) (Z.to_nat 1) bs) 0 = nth 0x201 bs 0) as ->.
  { rewrite !nth_lookup, lookup_slice, decide_True by lia. done. }
  replace (0x202 + nth 0x201 bs 0 - 0x1f1) with (Z.of_nat (bz_header_len bs)) by lia.
  rewrite read_exact_ok by (cbn [f_pos f_bytes]; lia). cbn [f_pos f_bytes].
  rewrite Nat2Z.id. change (slice (Z.to_nat 0x1f1) (bz_header_len bs) bs) with (bz_header bs).
  rewrite put_page by (done || (unfold zlen; rewrite (length_bz_header mm bs Hok); lia)).
  cbv beta iota. change (splice _ (bz_header bs) _) with (bz_page bs).
  rewrite Hf. reflexivity.
Qed.

Lemma load_bzimage_ok (p : Partition Ev) bs hm q :
  let mm := pt_memory p in
  mm_wf mm -> mapped mm 0 HIGH_RAM_START q -> acpi_fits Sdt p ->
  Forall (fun r => mr_gpa r + mr_size r < 2 ^ 64) (mm_regions mm) ->
  (length (machine_e820 mm) <= 128)%nat -> bzimage_ok mm bs ->
  let b := filled_boot_params (bz_page bs) (bz_field bs "code32_start") (machine_e820 mm) in
  exists hm', load_linux_kernel (Sdt:=Sdt) p (Some bs) hm = (Ok (HIGH_RAM_START + 0x200), hm') /\
    guest_bytes mm hm' HIGH_RAM_START (length (bz_payload bs)) = Some (bz_payload bs) /\
    (forall a, HIGH_RAM_START + zlen (bz_payload bs) <= a -> guest_byte mm hm' a = guest_byte mm hm a) /\
    guest_bytes mm hm' ZERO_PAGE_START 4096 = Some b /\
    guest_bytes mm hm' CMDLINE_START (length (string_bytes CMDLINE ++ [0]))
      = Some (string_bytes CMDLINE ++ [0]).
Proof.
  intros mm Hwf Hm Hacpi Hends Hn Hok b.
  destruct Hok as [Hb He Hs Hmag Hver Hhi Hhdr Hset [qp Hq]] eqn:Eok.
  destruct (write_mapped mm hm (bz_payload bs) HIGH_RAM_START qp Hwf Hq) as (hm1 & W & G & F).
  destruct (setup_bzimage_ok p bs (bz_field bs "code32_start") hm1 q Hwf Hm Hacpi Hends Hn Hok)
    as (hm' & L & Gb & Gc & Fr). fold mm in L, Gb, Gc, Fr. clear Eok.
  pose proof (eq_refl : Z.of_nat (size_of setup_header) = 123) as Vs.
  exists hm'. split_and!; [| | |exact Gb|exact Gc].
  - unfold load_linux_kernel, file_open. run_St.
    rewrite read_exact_ok by (cbn [f_pos f_bytes]; lia). cbn [f_pos f_bytes].
    rewrite bool_decide_false by exact He. unfold file_seek. cbn [f_bytes].
    unfold load_bzimage_kernel. run_St. unfold file_seek. cbn [f_bytes].
    rewrite read_exact_ok by (cbn [f_pos f_bytes]; lia). cbn [f_pos f_bytes].
    change (slice (Z.to_nat 0x1f1) (Z.to_nat (Z.of_nat (size_of setup_header))) bs)
      with (slice 0x1f1 123 bs).
    fold (bz_field bs "header") (bz_field bs "version") (bz_field bs "loadflags")
      (bz_field bs "setup_sects") (bz_field bs "code32_start").
    rewrite Hmag. cbn [negb Z.eqb Pos.eqb].
    rewrite (proj2 (Z.ltb_ge _ _)) by exact Hver. rewrite (proj2 (Z.eqb_neq _ _)) by exact Hhi.
    cbn [orb]. fold (bz_setup_size bs). rewrite usub_ok by exact Hset.
    unfold file_read_to_end. cbn [f_pos f_bytes]. fold (bz_payload bs).
    cbn [lb_write_code partition_boot]. unfold partition_write_code. fold mm. rewrite W.
    cbv beta iota. rewrite L. reflexivity.
  - eapply guest_bytes_frame, G. intros a Ha. apply Fr. lia.
  - intros a Ha. pose proof (zlen_nonneg (bz_payload bs)). rewrite Fr by lia. apply F. lia.
Qed.

End load.

(** ** Properties *)

(** C22: a bzImage kernel is loaded.  For a well-formed file, on a machine whose
    low memory is RAM, loading succeeds and returns the 64-bit entry behind
    1 MiB; the protected-mode code, the file without its setup sectors, is in
    guest memory at 1 MiB and nothing above it changes; and the zero page, read
    as [boot_params], has the loader's fields, for the rest of its header the
    fields of the file's own [setup_header] as far as the file declares it, and
    zero everywhere else. *)
Theorem bzimage_kernel_loaded {prof : Profile} {Ev} {Sdt} `{!AcpiTables Sdt}
    (p : Partition Ev) bs hm q :
  let mm := pt_memory p in
  let fields := loader_fields (bz_flags bs) (bz_field bs "code32_start") (machine_e820 mm) in
  mm_wf mm -> mapped mm 0 HIGH_RAM_START q -> acpi_fits Sdt p ->
  Forall (fun r => mr_gpa r + mr_size r < 2 ^ 64) (mm_regions mm) ->
  Forall window_fits (mm_mmio_regions mm) -> (length (machine_e820 mm) <= 128)%nat ->
  bzimage_ok mm bs ->
  exists hm' b,
    load_linux_kernel (Sdt:=Sdt) p (Some bs) hm = (Ok (HIGH_RAM_START + 0x200), hm') /\
    guest_bytes mm hm' HIGH_RAM_START (length (bz_payload bs)) = Some (bz_payload bs) /\
    (forall a, HIGH_RAM_START + zlen (bz_payload bs) <= a -> guest_byte mm hm' a = guest_byte mm hm a) /\
    guest_bytes mm hm' ZERO_PAGE_START (size_of boot_params) = Some b /\ has_fields fields b /\
    (forall path o n, place setup_header path = Some (o, TInt n) -> (o + n <= bz_header_len bs)%nat ->
       apart_from fields (Fld "hdr" :: path) ->
       read_field boot_params (Fld "hdr" :: path) b = read_field setup_header path (drop 0x1f1 bs)) /\
    (forall path o n, place boot_params path = Some (o, TInt n) -> clear o n 0x1f1 (bz_header_len bs) ->
       apart_from fields path -> read_field boot_params path b = Some 0).
Proof.
  intros mm fields Hwf Hm Hacpi Hends Hwin Hn Hok.
  destruct (load_bzimage_ok (Sdt:=Sdt) p bs hm q Hwf Hm Hacpi Hends Hn Hok) as (hm' & L & G & F & Gz & _).
  fold mm in L, G, F, Gz. pose proof (length_bz_page mm bs Hok) as Hl.
  eexists hm', _. split; [exact L|]. split; [exact G|]. split; [exact F|]. split; [exact Gz|]. split_and!.
  - unfold fields. rewrite <- (bz_page_flags mm bs Hok).
    apply filled_has_fields; [done..|by apply machine_e820_all_fit].
  - intros path o n Hp Hh Ha. rewrite <- (bz_page_header mm bs Hok path o n Hp Hh).
    rewrite (read_place _ (_ :: _) (0x1f1 + o) n (bz_page bs)) by (by rewrite hdr_place, Hp).
    eapply filled_other; [done..|exact Ha|]. apply read_place. by rewrite hdr_place, Hp.
  - intros path o n Hp Hc Ha. eapply filled_other; [done..|exact Ha|].
    by apply (bz_page_zero mm bs Hok path o n).
Qed.

(** ** Witness *)

(** One setup sector, a header of protocol 2.15 and four bytes of code. *)
Definition example_bzimage : list Z :=
  splice 0x1f1 [1] (splice 0x201 [0x6a] (splice 0x202 (string_bytes "HdrS") (splice 0x206 (le_bytes 2 0x20f)
  (splice 0x211 [1] (splice 0x214 (le_bytes 4 0x100000) (splice 0x230 (le_bytes 4 0x200000)
  (splice 0x260 (le_bytes 4 0x3000) (replicate 1024 0))))))))
  ++ [0xf4; 0xeb; 0xfd; 0x90].

Lemma example_bzimage_ok : bzimage_ok boot_mm example_bzimage.
Proof.
  split; [by apply bytes_okb_ok; vm_compute|by vm_compute|by vm_compute..|].
  exists (0x10000000 + HIGH_RAM_START). apply boot_mapped; vm_compute; (congruence || reflexivity).
Qed.

Lemma bzimage_kernel_loaded_witness :
  exists hm' b, load_linux_kernel (prof:=dev_profile)
      (LinuxBootPartition0:=partition_boot (prof:=dev_profile)) (Sdt:=list Z) boot_partition
      (Some example_bzimage) (fun _ => 0) = (Ok 0x100200, hm') /\
    guest_bytes boot_mm hm' HIGH_RAM_START 4 = Some [0xf4; 0xeb; 0xfd; 0x90] /\
    read_field boot_params (hdr "loadflags") b = Some 0x81 /\
    read_field boot_params (hdr "kernel_alignment") b = Some 0x200000.
Proof.
  destruct (bzimage_kernel_loaded (prof:=dev_profile) (Sdt:=list Z) boot_partition example_bzimage
    (fun _ => 0) 0x10000000) as (hm' & b & Hr & Hp & _ & _ & Hf & Hh & _).
  - exact boot_mm_wf.
  - apply (boot_mapped 0 HIGH_RAM_START); [lia|vm_compute; congruence|vm_compute; reflexivity].
  - exact boot_acpi_fits.
  - constructor; [cbn; lia|constructor].
  - repeat constructor; vm_compute; congruence.
  - vm_compute. lia.
  - exact example_bzimage_ok.
  - exists hm', b. split; [exact Hr|]. split; [exact Hp|]. split.
    + unfold has_fields in Hf. rewrite Forall_forall in Hf.
      apply (Hf (hdr "loadflags", 0x81)), (list_elem_of_lookup_2 _ 11). vm_compute. reflexivity.
    + etransitivity; [apply (Hh [Fld "kernel_alignment"] 63%nat 4%nat);
        [vm_compute; reflexivity|vm_compute; lia|repeat constructor; vm_compute; reflexivity]|].
      vm_compute. reflexivity.
Defined.
