(* ===== verification/KernelImage.v ===== *)
(** * KernelImage: what a kernel file asks for

    The two formats the loader knows, ELF and bzImage, seen alike: pieces of
    the file at their places in guest memory, an entry point, and the fields of
    the zero page.  [kernel_loaded] is what the loading of either promises to
    the start of the machine. *)

From S2P Require Import Prelude Bytes HostMem GuestMem Queue Irqchip Bus VirtioDev Mmio Layout Acpi Partition CLayout BootParams Boot ZeroPage ElfLoad BootFields BzImage.

Record Image : Type := {
  im_entry : Z;
  im_pieces : list (Z * list Z);
  im_fields : list (path * Z);
}.

Definition elf_image (mm : MemoryManager) (bs : list Z) : Image :=
  {| im_entry := elf_entry (elf_headers bs) (e_entry (elf_header bs));
     im_pieces := map (fun ph => (p_paddr ph, segment_bytes bs ph)) (loads (elf_headers bs));
     im_fields := elf_boot_fields (ls_lowest_paddr (elf_span bs)) (rounded_size (elf_size bs))
       (machine_e820 mm) |}.

Definition bz_image (mm : MemoryManager) (bs : list Z) : Image :=
  {| im_entry := HIGH_RAM_START + 0x200;
     im_pieces := [(HIGH_RAM_START, bz_payload bs)];
     im_fields := loader_fields (bz_flags bs) (bz_field bs "code32_start") (machine_e820 mm) |}.

(** A well-formed kernel file for a machine. *)
Inductive kernel_image (mm : MemoryManager) (bs : list Z) : Image -> Prop :=
| image_elf : elf_ok mm bs -> kernel_image mm bs (elf_image mm bs)
| image_bz : bzimage_ok mm bs -> kernel_image mm bs (bz_image mm bs).

(** The pieces lie above the loader's structures. *)
Lemma image_high mm bs im x :
  kernel_image mm bs im -> x ∈ im_pieces im -> HIGH_RAM_START <= x.1.
Proof.
  intros [Hok|Hok]; cbn [im_pieces elf_image bz_image].
  - intros (ph & -> & Hph)%list_elem_of_fmap. pose proof (eo_segments _ _ Hok) as Hs.
    rewrite Forall_forall in Hs. apply (so_high _ _ _ (Hs ph Hph)).
  - intros ->%list_elem_of_singleton. done.
Qed.

(** ** The bytes of the page *)

Lemma bytes_ok_splice i bs l : bytes_ok bs -> bytes_ok l -> bytes_ok (splice i bs l).
Proof. intros Hb Hl. unfold splice. rewrite !bytes_ok_app. auto using bytes_ok_take, bytes_ok_drop. Qed.

Lemma bytes_ok_zeros n : bytes_ok (replicate n 0).
Proof. apply Forall_replicate. unfold is_byte. lia. Qed.

Lemma bytes_ok_e820 es : bytes_ok (concat (map e820_bytes es)).
Proof.
  induction es as [|e es IH]; [constructor|]. cbn [map concat]. unfold e820_bytes.
  rewrite !bytes_ok_app. auto using le_bytes_ok.
Qed.

Lemma bytes_ok_one b : 0 <= b < 256 -> bytes_ok [b].
Proof. intros Hb. by constructor. Qed.

Lemma filled_bytes_ok b0 c es : bytes_ok b0 -> bytes_ok (filled_boot_params b0 c es).
Proof.
  intros Hb. unfold filled_boot_params.
  repeat apply bytes_ok_splice; try apply le_bytes_ok; try apply bytes_ok_zeros; try done.
  - apply bytes_ok_one, wrap_fits. lia.
  - apply bytes_ok_e820.
  - by apply bytes_okb_ok.
  - apply bytes_ok_one. change 256 with (2 ^ 8). apply fits_lor; [lia|..|unfold fits; lia].
    rewrite nth_lookup. destruct (b0 !! _) as [x|] eqn:Hx; cbn; [|unfold fits; lia].
    unfold bytes_ok in Hb. rewrite Forall_forall in Hb. by eapply Hb, list_elem_of_lookup_2.
  - by apply bytes_okb_ok.
Qed.

Lemma elf_page_bytes init : bytes_ok (elf_page init).
Proof.
  apply bytes_ok_splice; [apply le_bytes_ok|]. apply bytes_okb_ok. vm_compute. reflexivity.
Qed.

Lemma bz_page_bytes bs : bytes_ok bs -> bytes_ok (bz_page bs).
Proof.
  intros Hb. apply bytes_ok_splice; [|apply bytes_ok_zeros].
  by apply bytes_ok_take, bytes_ok_drop.
Qed.

(** ** Loading *)

(** What is in guest memory after the kernel was loaded. *)
Record kernel_loaded (mm : MemoryManager) (im : Image) (hm : hostmem) : Prop := {
  kl_pieces : Forall (fun x => guest_bytes mm hm x.1 (length x.2) = Some x.2) (im_pieces im);
  kl_page : exists b, guest_bytes mm hm ZERO_PAGE_START (size_of boot_params) = Some b /\
    has_fields (im_fields im) b /\ bytes_ok b;
  kl_cmdline : guest_bytes mm hm CMDLINE_START (length (string_bytes CMDLINE ++ [0]))
    = Some (string_bytes CMDLINE ++ [0]);
}.

Lemma image_loaded {prof : Profile} {Ev} {Sdt} `{!AcpiTables Sdt} (p : Partition Ev) bs im hm q :
  let mm := pt_memory p in
  mm_wf mm -> mapped mm 0 HIGH_RAM_START q -> acpi_fits Sdt p ->
  Forall (fun r => mr_gpa r + mr_size r < 2 ^ 64) (mm_regions mm) ->
  Forall window_fits (mm_mmio_regions mm) -> (length (machine_e820 mm) <= 128)%nat ->
  kernel_image mm bs im ->
  exists hm', load_linux_kernel (Sdt:=Sdt) p (Some bs) hm = (Ok (im_entry im), hm') /\
    kernel_loaded mm im hm'.
Proof.
  intros mm Hwf Hm Hacpi Hends Hwin Hn Him.
  pose proof (machine_e820_all_fit mm Hwf Hwin Hends) as Hfit. destruct Him as [Hok|Hok].
  - destruct (load_elf_ok (Sdt:=Sdt) p bs hm q Hwf Hm Hacpi Hends Hn Hok)
      as (hm' & L & G & _ & Hk0 & Hk & Gz & Gc). exists hm'. split; [exact L|]. split; [| |exact Gc].
    + cbn [im_pieces elf_image]. apply Forall_map. pose proof (eo_segments _ _ Hok) as Hs.
      rewrite Forall_forall in G, Hs |- *. intros ph Hph. cbn [fst snd].
      destruct (Hs ph Hph) as [Hf _ _ (? & ? & _) _].
      unfold segment_bytes at 1. rewrite length_slice by (unfold zlen in Hf; lia). by apply G.
    + eexists. split; [exact Gz|]. split; [|apply filled_bytes_ok, elf_page_bytes].
      apply elf_page_fields; [done..|]. apply wrap_fits. lia.
  - destruct (load_bzimage_ok (Sdt:=Sdt) p bs hm q Hwf Hm Hacpi Hends Hn Hok)
      as (hm' & L & G & _ & Gz & Gc). exists hm'. split; [exact L|]. split; [| |exact Gc].
    + by constructor.
    + eexists. split; [exact Gz|]. split; [|apply filled_bytes_ok, bz_page_bytes; apply Hok].
      cbn [im_fields bz_image]. rewrite <- (bz_page_flags mm bs Hok).
      apply filled_has_fields; [by eapply length_bz_page|done..].
Qed.

(** Writes elsewhere leave the loaded kernel in place. *)
Lemma kernel_loaded_frame mm bs im hm hm' :
  kernel_image mm bs im ->
  (forall a, ZERO_PAGE_START <= a < ZERO_PAGE_START + 4096 \/
     CMDLINE_START <= a < CMDLINE_START + CMDLINE_MAX_SIZE \/ HIGH_RAM_START <= a ->
     guest_byte mm hm' a = guest_byte mm hm a) ->
  kernel_loaded mm im hm -> kernel_loaded mm im hm'.
Proof.
  intros Him Hf [Gp (b & Gz & Hb) Gc].
  pose proof (eq_refl : length (string_bytes CMDLINE ++ [0]) = 128%nat) as Lc.
  pose proof (eq_refl : CMDLINE_MAX_SIZE = 0x10000) as Vs.
  pose proof (eq_refl : size_of boot_params = 4096%nat) as Lz. split.
  - rewrite Forall_forall in Gp |- *. intros x Hx. eapply guest_bytes_frame, Gp, Hx.
    intros a Ha. apply Hf. pose proof (image_high _ _ _ _ Him Hx). lia.
  - exists b. split; [|exact Hb]. eapply guest_bytes_frame, Gz. intros a Ha. apply Hf. lia.
  - eapply guest_bytes_frame, Gc. intros a Ha. apply Hf. rewrite Lc in Ha. lia.
Qed.

(** The size of the kernel as the start of the processor reads it. *)
Lemma init_size_bound b : bytes_ok b -> length b = 4096%nat -> 0 <= field 0x260 4 b < 2 ^ 32.
Proof.
  intros Hb Hl. unfold field. pose proof (le_val_bound (slice 0x260 4 b)) as H.
  unfold zlen in H. rewrite length_slice in H by lia. apply H. by apply bytes_ok_take, bytes_ok_drop.
Qed.
