(* ===== verification/Worker.v ===== *)
(** * Worker: what the device workers share

    The four workers run on their own thread: they wait for an event, drain a
    queue with notifications switched off, and signal the driver.  The state
    of a worker holds its queues, host memory, the interrupt handle (shared
    with the transport) and the worker's own part.  Two loops of the workers
    have no bound in the code; they take fuel here. *)

From S2P Require Import Prelude Bytes HostMem GuestMem Queue FileTraits DescUtils Irqchip VirtioDev Mmio.

(** ** State *)

Record Worker (C Ev Q X : Type) : Type := {
  wk_queues : Q;
  wk_hm : hostmem;
  wk_interrupt : InterruptTransport C Ev;
  wk_ext : X;
}.
Arguments wk_queues {C Ev Q X}.
Arguments wk_hm {C Ev Q X}.
Arguments wk_interrupt {C Ev Q X}.
Arguments wk_ext {C Ev Q X}.
Arguments Build_Worker {C Ev Q X}.

(** Which of the worker's queues is meant. *)
Record QLens (Q : Type) : Type := { ql_get : Q -> Queue; ql_set : Queue -> Q -> Q }.
Arguments ql_get {Q}.
Arguments ql_set {Q}.

Definition the_queue : QLens Queue := {| ql_get q := q; ql_set q _ := q |}.

(** The receive and the transmit queue of console and net. *)
Record RxTx : Type := { rx_queue : Queue; tx_queue : Queue }.
Definition rx_lens : QLens RxTx :=
  {| ql_get := rx_queue; ql_set q s := {| rx_queue := q; tx_queue := tx_queue s |} |}.
Definition tx_lens : QLens RxTx :=
  {| ql_get := tx_queue; ql_set q s := {| rx_queue := rx_queue s; tx_queue := q |} |}.

Class QLensLaws {Q} (l : QLens Q) : Prop := {
  ql_get_set q s : ql_get l (ql_set l q s) = q;
  ql_set_get s : ql_set l (ql_get l s) s = s;
  ql_set_set q q' s : ql_set l q (ql_set l q' s) = ql_set l q s;
}.
#[export] Instance the_queue_laws : QLensLaws the_queue.
Proof. by split. Qed.
#[export] Instance rx_lens_laws : QLensLaws rx_lens.
Proof. split; by intros; try destruct s. Qed.
#[export] Instance tx_lens_laws : QLensLaws tx_lens.
Proof. split; by intros; try destruct s. Qed.

Section worker.
Context {prof : Profile} {C Ev Q X : Type} `{!IrqChipT C Ev} `{!WinEvent Ev}.
Variable mm : MemoryManager.

#[local] Abbreviation W := (Worker C Ev Q X).

Definition wk_set_queue_mem (l : QLens Q) (s : Queue * hostmem) (w : W) : W :=
  {| wk_queues := ql_set l s.1 (wk_queues w); wk_hm := s.2; wk_interrupt := wk_interrupt w;
     wk_ext := wk_ext w |}.
Definition wk_set_mem_ext (s : hostmem * X) (w : W) : W :=
  {| wk_queues := wk_queues w; wk_hm := s.1; wk_interrupt := wk_interrupt w; wk_ext := s.2 |}.
Definition wk_set_interrupt (i : InterruptTransport C Ev) (w : W) : W :=
  {| wk_queues := wk_queues w; wk_hm := wk_hm w; wk_interrupt := i; wk_ext := wk_ext w |}.

(** A method of a queue. *)
Definition wk_q {A} (l : QLens Q) (m : QM A) : M W QueueError A :=
  zoom (fun w => (ql_get l (wk_queues w), wk_hm w)) (wk_set_queue_mem l) m.

(** [pop] has no error result. *)
Definition wk_pop {E} (l : QLens Q) : M W E (option DescriptorChain) :=
  Munwrap (wk_q l (q_pop mm)).

(** [if let Err(e) = queue.add_used(..)]: the error is logged. *)
Definition wk_add_used {E} (l : QLens Q) (head len : Z) : M W E unit :=
  _ ← Mtry (wk_q l (q_add_used mm head len)); mret tt.

(** [if let Err(e) = self.interrupt.try_signal_used_queue()] *)
Definition wk_signal {E} : M W E unit :=
  _ ← Mtry (zoom wk_interrupt wk_set_interrupt it_try_signal_used_queue); mret tt.

(** The end of a batch: one interrupt, unless the driver asked for none. *)
Definition wk_finish {E} (l : QLens Q) (used_any : bool) : M W E unit :=
  if used_any then
    n ← Munwrap (wk_q l (q_needs_notification mm));
    if (n : bool) then wk_signal else mret tt
  else mret tt.

(** The loop around [process_queue] that the workers repeat: notifications
    off, drain, notifications on, and again if something arrived meanwhile. *)
Fixpoint drain_loop (fuel : nat) (l : QLens Q) (process_queue : M W string unit) :
    M W string unit :=
  match fuel with
  | O => lift NoFuel
  | S fuel' =>
      _ ← Munwrap (wk_q l (q_disable_notification mm));
      _ ← process_queue;
      more ← Munwrap (wk_q l (q_enable_notification mm));
      if (more : bool) then drain_loop fuel' l process_queue else mret tt
  end.

(** The loop around [WaitForMultipleObjects], on the sequence of its results;
    [true] when the thread ends, [false] while it waits for the next one.  The
    stop event is the last handle, [WAIT_FAILED] ends the loop, and an
    unexpected result is only logged. *)
Definition WAIT_OBJECT_0 : Z := 0.
Definition WAIT_FAILED : Z := 0xffffffff.

Fixpoint work_loop (handlers : list (M W string unit)) (results : list Z) : M W string bool :=
  match results with
  | [] => mret false
  | r :: results' =>
      match handlers !! Z.to_nat (r - WAIT_OBJECT_0) with
      | Some handler => _ ← handler; work_loop handlers results'
      | None =>
          if r =? WAIT_OBJECT_0 + zlen handlers then mret true
          else if r =? WAIT_FAILED then mret true
          else work_loop handlers results'
      end
  end.

End worker.

(** ** Lemmas *)

Section lemmas.
Context {prof : Profile} {C Ev Q X : Type} `{!IrqChipT C Ev} `{!WinEvent Ev}.
Context (mm : MemoryManager) (Hmm : mm_wf mm).
Context (l : QLens Q) {Hl : QLensLaws l}.
Variables (pd pa pu : Z).

#[local] Abbreviation W := (Worker C Ev Q X).

(** The queue of the worker is set up, and host memory is sound. *)
Record worker_ready (w : W) : Prop := {
  wr_wf : queue_wf (ql_get l (wk_queues w));
  wr_rings : rings_mapped mm (ql_get l (wk_queues w)) pd pa pu;
  wr_hm : hostmem_wf (wk_hm w);
}.

Lemma wk_pop_mapped {E} (w : W) :
  worker_ready w ->
  let r := pop_result pd pa (ql_get l (wk_queues w)) (wk_hm w) in
  wk_pop (E:=E) mm l w = (Ok r.1, wk_set_queue_mem l (r.2, wk_hm w) w).
Proof using Hmm.
  intros [Hw Hr Hh] r. unfold wk_pop, wk_q. run_St.
  by rewrite (pop_mapped mm Hmm pd pa pu).
Qed.

Lemma wk_add_used_mapped {E} (w : W) head len :
  worker_ready w -> 0 <= head < q_size (ql_get l (wk_queues w)) ->
  let q := ql_get l (wk_queues w) in
  wk_add_used (E:=E) mm l head len w =
    (Ok tt, wk_set_queue_mem l
      (q_set_used (wadd 16 (q_next_used q) 1) (wadd 16 (q_num_added q) 1) q,
       used_write pu q (wk_hm w) head len) w).
Proof using Hmm.
  intros [Hw Hr Hh] Hhead q. unfold wk_add_used, wk_q. run_St.
  by rewrite (add_used_mapped mm Hmm pd pa pu).
Qed.

(** Setting back what is there. *)
Lemma wk_set_queue_mem_id (w : W) : wk_set_queue_mem l (ql_get l (wk_queues w), wk_hm w) w = w.
Proof using Hl. unfold wk_set_queue_mem. cbn. rewrite ql_set_get. by destruct w. Qed.

(** ** A head the device refuses

    [pop] returns [None] and leaves the head in the ring, but
    [enable_notification] still sees an unconsumed entry: the drain loop goes
    round for ever. *)
Record stuck (w : W) : Prop := {
  st_ready : worker_ready w;
  st_pending : avail_ring_idx (wk_hm w) pa <> q_next_avail (ql_get l (wk_queues w));
  st_bad : let q := ql_get l (wk_queues w) in
    head_ok q (wk_hm w) pd (avail_ring_entry (wk_hm w) pa (q_next_avail q mod q_size q)) = false;
  st_apart_avail : let q := ql_get l (wk_queues w) in
    pa + (6 + 2 * q_size q) <= pu \/ pu + (6 + 8 * q_size q) <= pa;
  st_apart_desc : let q := ql_get l (wk_queues w) in
    pd + 16 * q_size q <= pu \/ pu + (6 + 8 * q_size q) <= pd;
}.

Lemma stuck_pop {E} (w : W) : stuck w -> wk_pop (E:=E) mm l w = (Ok None, w).
Proof using Hmm Hl.
  intros [Hr Hp Hb _ _]. rewrite wk_pop_mapped by done. cbv zeta in *. unfold pop_result.
  rewrite (proj2 (Z.eqb_neq _ _) Hp), Hb. cbn. by rewrite wk_set_queue_mem_id.
Qed.

Lemma stuck_notification (w : W) enable :
  stuck w ->
  stuck (wk_set_queue_mem l (ql_get l (wk_queues w),
           notification_write pu (ql_get l (wk_queues w)) (wk_hm w) enable) w).
Proof using Hmm Hl.
  intros [[Hq Hr Hh] Hp Hb Ha Hd]. cbv zeta in *. pose proof Hq as [].
  destruct (notification_write_frame pu (ql_get l (wk_queues w)) (wk_hm w) enable Hh Hq)
    as [Hwf Hfr].
  unfold wk_set_queue_mem. cbn [fst snd].
  assert (forall i, 0 <= i < q_size (ql_get l (wk_queues w)) ->
    avail_ring_entry (notification_write pu (ql_get l (wk_queues w)) (wk_hm w) enable) pa i =
      avail_ring_entry (wk_hm w) pa i) as Hent
    by (intros i Hi; unfold avail_ring_entry; rewrite Hfr; [done|lia]).
  assert (0 <= q_next_avail (ql_get l (wk_queues w)) mod q_size (ql_get l (wk_queues w))
            < q_size (ql_get l (wk_queues w))) as Hm by (apply Z.mod_pos_bound; lia).
  split; cbn [wk_queues wk_hm]; rewrite ?ql_get_set; try done.
  - split; cbn [wk_queues wk_hm]; by rewrite ?ql_get_set.
  - unfold avail_ring_idx. rewrite Hfr by lia. done.
  - rewrite Hent by done. revert Hb. unfold head_ok.
    set (i := avail_ring_entry _ _ _). rewrite actual_size_wf by done.
    destruct (Z.ltb_spec i (q_size (ql_get l (wk_queues w)))); [|done]. cbn [andb].
    unfold table_chain. rewrite Hfr; [done|].
    assert (0 <= i) by (apply le_val_fits_16; done). lia.
Qed.

(** The loop never ends when each round leaves a stuck queue. *)
Lemma drain_loop_stuck (process_queue : M W string unit) fuel w :
  (forall w, stuck w -> process_queue w = (Ok tt, w)) -> stuck w ->
  (drain_loop mm fuel l process_queue w).1 = NoFuel.
Proof using Hmm Hl.
  intros Hpq. revert w. induction fuel as [|fuel IH]; intros w Hs; [done|].
  cbn [drain_loop]. unfold q_disable_notification, q_enable_notification, wk_q.
  run_St. pose proof Hs as [[Hq Hr Hh] _ _ _ _].
  rewrite (set_notification_mapped mm Hmm pd pa pu) by done. run_St.
  pose proof (stuck_notification w false Hs) as Hs1.
  set (w1 := wk_set_queue_mem l _ w) in *. rewrite (Hpq w1 Hs1).
  pose proof Hs1 as [[Hq1 Hr1 Hh1] _ _ _ _].
  rewrite (set_notification_mapped mm Hmm pd pa pu) by done. run_St.
  pose proof (stuck_notification w1 true Hs1) as Hs2.
  set (hm2 := notification_write pu (ql_get l (wk_queues w1)) (wk_hm w1) true) in *.
  rewrite (avail_idx_mapped mm Hmm pd pa pu) by done. run_St.
  set (w2 := wk_set_queue_mem l _ w1) in *.
  assert ((avail_ring_idx hm2 pa =? q_next_avail (ql_get l (wk_queues w1))) = false) as ->.
  { apply Z.eqb_neq. pose proof (st_pending w2 Hs2) as Hp. unfold w2, wk_set_queue_mem in Hp.
    cbn [wk_queues wk_hm fst snd] in Hp. by rewrite ql_get_set in Hp. }
  cbn [negb]. by apply IH.
Qed.

End lemmas.
