(* ===== verification/Batch.v ===== *)
(** * Batch: one round of a worker serves everything that is pending

    The workers share one shape: a loop that pops chains and serves each one,
    inside the drain loop of [Worker].  This file proves, once for all of them,
    that the loops refine a sequential service: given what serving one chain
    does ([serves]), a round ends, serves every published chain exactly once
    and in ring order, and returns each to the driver.  The two loops have no
    bound in the code; one unit of fuel more than there are pending chains is
    enough.  The driver does not publish further chains meanwhile. *)

From S2P Require Import Prelude Bytes HostMem GuestMem Queue FileTraits DescUtils Irqchip VirtioDev Mmio Worker.

(** ** The areas of a queue in host memory *)

Definition in_desc (pd : Z) (q : Queue) (a : Z) : Prop := pd <= a < pd + 16 * q_size q.
Definition in_avail (pa : Z) (q : Queue) (a : Z) : Prop := pa <= a < pa + (6 + 2 * q_size q).
Definition in_used (pu : Z) (q : Queue) (a : Z) : Prop := pu <= a < pu + (6 + 8 * q_size q).

(** The bytes the driver owns: the device only reads them. *)
Definition in_driver (pd pa : Z) (q : Queue) (a : Z) : Prop := in_desc pd q a \/ in_avail pa q a.

Definition agree (P : Z -> Prop) (hm hm' : hostmem) : Prop := forall a, P a -> hm' a = hm a.

Lemma agree_refl P hm : agree P hm hm.
Proof. by intros a. Qed.
Lemma agree_trans P hm1 hm2 hm3 : agree P hm1 hm2 -> agree P hm2 hm3 -> agree P hm1 hm3.
Proof. intros H1 H2 a Ha. by rewrite H2, H1. Qed.
Lemma agree_weaken (P P' : Z -> Prop) hm hm' :
  (forall a, P' a -> P a) -> agree P hm hm' -> agree P' hm hm'.
Proof. intros Hp H a Ha. by apply H, Hp. Qed.
Lemma agree_sym P hm hm' : agree P hm hm' -> agree P hm' hm.
Proof. intros H a Ha. by rewrite H. Qed.
#[export] Instance agree_equivalence P : Equivalence (agree P).
Proof. split; [exact (agree_refl P)|exact (agree_sym P)|exact (agree_trans P)]. Qed.

Lemma agree_read P hm hm' p n :
  agree P hm hm' -> (forall a, p <= a < p + Z.of_nat n -> P a) ->
  host_read hm' p n = host_read hm p n.
Proof. intros H Hp. apply host_read_ext. intros a Ha. by apply H, Hp. Qed.

Lemma agree_stream_read P hm hm' l :
  agree P hm hm' -> (forall a, a ∈ l -> P a) -> stream_read hm' l = stream_read hm l.
Proof.
  intros H Hp. unfold stream_read. apply map_ext_in. intros a Ha.
  by apply H, Hp, list_elem_of_In.
Qed.

(** A queue as the device leaves it: only its counters have changed. *)
Definition moved (q0 q : Queue) : Prop :=
  exists na nu n, q = q_set_used nu n (q_set_next_avail na q0).

Lemma moved_refl q : moved q q.
Proof. exists (q_next_avail q), (q_next_used q), (q_num_added q). by destruct q. Qed.
Lemma moved_used q0 q nu n : moved q0 q -> moved q0 (q_set_used nu n q).
Proof. intros (na & u & m & ->). by exists na, nu, n. Qed.
Lemma moved_next_avail q0 q na : moved q0 q -> moved q0 (q_set_next_avail na q).
Proof. intros (a & u & m & ->). by exists na, u, m. Qed.

Lemma moved_size q0 q : moved q0 q -> q_size q = q_size q0.
Proof. by intros (a & u & m & ->). Qed.
Lemma moved_chain q0 q hm pd i : moved q0 q -> table_chain q hm pd i = table_chain q0 hm pd i.
Proof. by intros (a & u & m & ->). Qed.
Lemma moved_head q0 q hm pd i : moved q0 q -> head_ok q hm pd i = head_ok q0 hm pd i.
Proof. by intros (a & u & m & ->). Qed.
Lemma moved_rings mm q0 q pd pa pu :
  moved q0 q -> rings_mapped mm q pd pa pu -> rings_mapped mm q0 pd pa pu.
Proof. intros (a & u & m & ->) []. by split. Qed.
Lemma moved_wf q0 q :
  moved q0 q -> queue_wf q0 -> fits 16 (q_next_avail q) -> fits 16 (q_next_used q) ->
  fits 16 (q_num_added q) -> queue_wf q.
Proof. intros (a & u & m & ->) [] ???. by split. Qed.

(** ** Reading the driver's bytes *)

Section driver.
Context {prof : Profile} (mm : MemoryManager) (Hmm : mm_wf mm).
Variables (pd pa pu : Z) (q : Queue).
Hypothesis (Hq : queue_wf q).

Lemma avail_idx_agree hm hm' :
  agree (in_driver pd pa q) hm hm' -> avail_ring_idx hm' pa = avail_ring_idx hm pa.
Proof using Hq.
  intros H. unfold avail_ring_idx. f_equal. eapply agree_read; [done|].
  intros a Ha. right. unfold in_avail. destruct Hq. lia.
Qed.

Lemma avail_entry_agree hm hm' i :
  agree (in_driver pd pa q) hm hm' -> 0 <= i < q_size q ->
  avail_ring_entry hm' pa i = avail_ring_entry hm pa i.
Proof using Hq.
  intros H Hi. unfold avail_ring_entry. f_equal. eapply agree_read; [done|].
  intros a Ha. right. unfold in_avail. lia.
Qed.

Lemma table_chain_agree hm hm' i :
  agree (in_driver pd pa q) hm hm' -> 0 <= i < q_size q ->
  table_chain q hm' pd i = table_chain q hm pd i.
Proof using Hq.
  intros H Hi. unfold table_chain.
  rewrite (agree_read (in_driver pd pa q) hm hm' (pd + i * 16) 16); [done..|].
  intros a Ha. left. unfold in_desc. lia.
Qed.

Lemma head_ok_agree hm hm' i :
  agree (in_driver pd pa q) hm hm' -> 0 <= i -> head_ok q hm' pd i = head_ok q hm pd i.
Proof using Hq.
  intros H Hi. unfold head_ok. rewrite actual_size_wf by done.
  destruct (Z.ltb_spec i (q_size q)); [|done]. by rewrite (table_chain_agree hm hm').
Qed.

Lemma nth_chain_agree hm hm' i :
  hostmem_wf hm -> agree (in_driver pd pa q) hm hm' ->
  head_ok q hm pd (dc_index (nth_chain pd pa q hm i)) = true ->
  nth_chain pd pa q hm' i = nth_chain pd pa q hm i.
Proof using Hq.
  intros Hhm H Hok. unfold nth_chain in *. cbn [dc_index table_chain] in Hok.
  pose proof Hq as [? _ _ _ _ _ _ _].
  set (k := wadd 16 (q_next_avail q) (Z.of_nat i) mod q_size q) in *.
  assert (0 <= k < q_size q) by (apply Z.mod_pos_bound; lia).
  rewrite (avail_entry_agree hm hm') by done. apply table_chain_agree; [done|].
  pose proof (le_val_fits_16 hm (pa + (4 + 2 * k)) Hhm) as Hf.
  unfold head_ok in Hok. rewrite actual_size_wf in Hok by done.
  apply andb_prop in Hok as [Hlt%Z.ltb_lt _]. split; [apply Hf|done].
Qed.

Hypothesis (Hr : rings_mapped mm q pd pa pu).

Lemma collect_agree {E} hm hm' fuel c :
  hostmem_wf hm -> agree (in_driver pd pa q) hm hm' ->
  dc_desc_table c = q_desc_table q -> dc_queue_size c = q_actual_size q -> 0 <= dc_next c ->
  desc_iter_collect (E:=E) fuel mm hm' (Some c) = desc_iter_collect fuel mm hm (Some c).
Proof using Hmm Hq Hr.
  intros Hhm H. revert c. induction fuel as [|fuel IH]; intros c Ht Hs Hn; [done|].
  cbn [desc_iter_collect desc_iter_next].
  rewrite !(next_descriptor_mapped mm Hmm pd pa pu q) by done.
  rewrite (head_ok_agree hm hm') by done. run_M.
  destruct (chain_has_next c); [cbn [andb]|by destruct fuel].
  destruct (head_ok q hm pd (dc_next c)) eqn:Eh; [|by destruct fuel].
  unfold head_ok in Eh. rewrite actual_size_wf in Eh by done.
  apply andb_prop in Eh as [Hlt%Z.ltb_lt _].
  rewrite (table_chain_agree hm hm') by done.
  rewrite IH; [done..|]. by apply table_next_nonneg.
Qed.

Lemma reader_writer_agree hm hm' i :
  hostmem_wf hm -> agree (in_driver pd pa q) hm hm' ->
  reader_new mm hm' (table_chain q hm pd i) = reader_new mm hm (table_chain q hm pd i) /\
  writer_new mm hm' (table_chain q hm pd i) = writer_new mm hm (table_chain q hm pd i).
Proof using Hmm Hq Hr.
  intros Hhm H. unfold reader_new, writer_new, chain_into_iter.
  by rewrite (collect_agree hm hm') by (done || by apply table_next_nonneg).
Qed.

End driver.

(** ** Slots of the used ring *)

Definition used_slot (pu : Z) (q : Queue) (i : nat) : Z :=
  pu + (4 + 8 * (wadd 16 (q_next_used q) (Z.of_nat i) mod q_size q)).

(** What [n] calls of [add_used] write. *)
Definition touched (pu : Z) (q : Queue) (n : nat) (a : Z) : Prop :=
  (0 < n)%nat /\ pu + 2 <= a < pu + 4 \/
  exists i, (i < n)%nat /\ used_slot pu q i <= a < used_slot pu q i + 8.

Lemma wrap_mod w a n : (n | 2 ^ w) -> wrap w a mod n = a mod n.
Proof. intros Hdiv. by apply Z.mod_mod_divide. Qed.

Lemma mod_window n a i j : 0 <= i < j -> j < n -> (a + i) mod n <> (a + j) mod n.
Proof.
  intros Hi Hj E. assert ((j - i) mod n = 0) as E0.
  { replace (j - i) with ((a + j) - (a + i)) by lia.
    rewrite Zminus_mod, E, Z.sub_diag. apply Z.mod_0_l. lia. }
  rewrite Z.mod_small in E0 by lia. lia.
Qed.

Lemma used_slots_distinct pu q i j :
  0 < q_size q -> (q_size q | 2 ^ 16) -> (i < j)%nat -> Z.of_nat j < q_size q ->
  used_slot pu q i + 8 <= used_slot pu q j \/ used_slot pu q j + 8 <= used_slot pu q i.
Proof.
  intros Hs Hdiv Hi Hj. unfold used_slot, wadd. rewrite !wrap_mod by (done || lia).
  pose proof (mod_window (q_size q) (q_next_used q) (Z.of_nat i) (Z.of_nat j)
    ltac:(lia) ltac:(lia)). lia.
Qed.

Lemma used_slot_range pu q i :
  0 < q_size q ->
  pu + 4 <= used_slot pu q i /\ used_slot pu q i + 8 <= pu + (6 + 8 * q_size q) - 2.
Proof.
  intros Hs. unfold used_slot.
  pose proof (Z.mod_pos_bound (wadd 16 (q_next_used q) (Z.of_nat i)) (q_size q) Hs). lia.
Qed.

Lemma touched_used pu q n a : 0 < q_size q -> touched pu q n a -> in_used pu q a.
Proof.
  intros Hs [[_ Ha]|(i & _ & Ha)]; unfold in_used; [lia|].
  pose proof (used_slot_range pu q i Hs). lia.
Qed.

Lemma used_slot_next pu q na n i :
  used_slot pu (q_set_used (wadd 16 (q_next_used q) 1) n (q_set_next_avail na q)) i =
    used_slot pu q (S i).
Proof.
  unfold used_slot. cbn. unfold wadd. rewrite wrap_add_l.
  by replace (q_next_used q + 1 + Z.of_nat i) with (q_next_used q + Z.of_nat (S i)) by lia.
Qed.

Lemma used_slot_first pu q :
  fits 16 (q_next_used q) -> used_slot pu q 0 = pu + (4 + 8 * (q_next_used q mod q_size q)).
Proof. intros Hf. unfold used_slot, wadd. by rewrite Z.add_0_r, wrap_small. Qed.

(** The element that [used_write] leaves, and the bytes it leaves alone. *)
Definition used_elem_bytes (head len : Z) : list Z := le_bytes 4 head ++ le_bytes 4 len.

Lemma length_used_elem head len : length (used_elem_bytes head len) = 8%nat.
Proof. unfold used_elem_bytes. by autorewrite with buffer_len. Qed.

Lemma used_write_element pu q hm head len :
  queue_wf q -> host_read (used_write pu q hm head len) (used_slot pu q 0) 8 =
                  used_elem_bytes head len.
Proof.
  intros []. unfold used_write. rewrite used_slot_first by done.
  pose proof (Z.mod_pos_bound (q_next_used q) (q_size q) ltac:(lia)).
  rewrite host_read_write_disjoint by (unfold zlen; rewrite length_le_bytes; lia).
  fold (used_elem_bytes head len). rewrite <- (length_used_elem head len).
  apply host_read_write.
Qed.

Lemma used_write_index pu q hm head len :
  le_val (host_read (used_write pu q hm head len) (pu + 2) 2) = wadd 16 (q_next_used q) 1.
Proof.
  unfold used_write. set (v := wadd 16 (q_next_used q) 1).
  pose proof (host_read_write (host_write hm (pu + (4 + 8 * (q_next_used q mod q_size q)))
    (le_bytes 4 head ++ le_bytes 4 len)) (pu + 2) (le_bytes 2 v)) as E.
  rewrite length_le_bytes in E. rewrite E. apply le_val_le_bytes_fits. apply wadd_fits. lia.
Qed.

Lemma used_write_frame pu q hm head len :
  queue_wf q -> agree (fun a => ~ touched pu q 1 a) hm (used_write pu q hm head len).
Proof.
  intros [] a Ha. unfold used_write.
  assert (~ (used_slot pu q 0 <= a < used_slot pu q 0 + 8)) as Hs
    by (intros Hin; apply Ha; right; exists 0%nat; split; [lia|done]).
  rewrite used_slot_first in Hs by done.
  assert (~ (pu + 2 <= a < pu + 4)) as Hi by (intros Hin; apply Ha; left; split; [lia|done]).
  rewrite !host_write_out; [done| |]; unfold zlen; autorewrite with buffer_len; lia.
Qed.

Lemma used_write_wf pu q hm head len :
  hostmem_wf hm -> hostmem_wf (used_write pu q hm head len).
Proof.
  intros Hhm. unfold used_write. repeat apply host_write_wf; auto using le_bytes_ok.
  apply bytes_ok_app. split; apply le_bytes_ok.
Qed.

(** ** Pending chains *)

Section batch.
Context {prof : Profile} {C Ev Q X : Type} `{!IrqChipT C Ev} `{!WinEvent Ev}.
Context (mm : MemoryManager) (Hmm : mm_wf mm).
Context (l : QLens Q) {Hl : QLensLaws l}.
Variables (pd pa pu : Z).

#[local] Abbreviation W := (Worker C Ev Q X).
#[local] Abbreviation ready := (worker_ready mm l pd pa pu).
#[local] Abbreviation queue_of w := (ql_get l (wk_queues w)).

(** [cs] are the chains the driver has published and the device has not
    popped; all heads are acceptable. *)
Record pending (q : Queue) (hm : hostmem) (cs : list DescriptorChain) : Prop := {
  pn_count : zlen cs = wsub 16 (avail_ring_idx hm pa) (q_next_avail q);
  pn_chain i c : cs !! i = Some c ->
    c = nth_chain pd pa q hm i /\ head_ok q hm pd (dc_index c) = true;
}.

Lemma nth_chain_first q hm :
  queue_wf q ->
  nth_chain pd pa q hm 0 =
    table_chain q hm pd (avail_ring_entry hm pa (q_next_avail q mod q_size q)).
Proof using.
  intros []. unfold nth_chain, wadd. rewrite Z.add_0_r. by rewrite wrap_small.
Qed.

Lemma pending_pop {E} (w : W) c cs :
  ready w -> pending (queue_of w) (wk_hm w) (c :: cs) ->
  wk_pop (E:=E) mm l w =
    (Ok (Some c), wk_set_queue_mem l
       (q_set_next_avail (wadd 16 (q_next_avail (queue_of w)) 1) (queue_of w), wk_hm w) w).
Proof using Hmm.
  intros Hw [Hn Hc]. pose proof (wr_wf _ _ _ _ _ _ Hw) as Hq.
  destruct (Hc 0%nat c eq_refl) as [-> Hok]. rewrite nth_chain_first in Hok |- * by done.
  rewrite (wk_pop_mapped mm Hmm l pd pa pu) by done. cbv zeta. unfold pop_result.
  cbn [dc_index table_chain] in Hok. rewrite Hok.
  destruct (Z.eqb_spec (avail_ring_idx (wk_hm w) pa) (q_next_avail (queue_of w))) as [E0|]; [|done].
  rewrite E0 in Hn. unfold wsub in Hn. rewrite Z.sub_diag in Hn.
  change (wrap 16 0) with 0 in Hn. unfold zlen in Hn. cbn in Hn. lia.
Qed.

Lemma pending_nil q hm :
  hostmem_wf hm -> queue_wf q -> pending q hm [] -> avail_ring_idx hm pa = q_next_avail q.
Proof using.
  intros Hhm Hq [Hn _]. pose proof (avail_idx_fits hm pa Hhm) as Hf. destruct Hq as [_ _ Hna _ _ _ _ _].
  assert (wadd 16 (q_next_avail q) 0 = avail_ring_idx hm pa) as E.
  { change 0 with (zlen (A:=DescriptorChain) []). rewrite Hn. unfold wadd, wsub.
    rewrite wrap_add_r. rewrite Z.add_comm, Z.sub_add. by apply wrap_small. }
  rewrite <- E. unfold wadd. rewrite Z.add_0_r. by apply wrap_small.
Qed.

Lemma pop_nothing {E} (w : W) :
  ready w -> pending (queue_of w) (wk_hm w) [] -> wk_pop (E:=E) mm l w = (Ok None, w).
Proof using Hmm Hl.
  intros Hw Hp. pose proof Hw as [Hq _ Hhm]. rewrite (wk_pop_mapped mm Hmm l pd pa pu) by done.
  unfold pop_result. rewrite (pending_nil _ _ Hhm Hq Hp), Z.eqb_refl. cbn [fst snd].
  by rewrite (wk_set_queue_mem_id l).
Qed.

Lemma pending_tail q hm hm' nu n c cs :
  queue_wf q -> hostmem_wf hm -> pending q hm (c :: cs) -> agree (in_driver pd pa q) hm hm' ->
  pending (q_set_used nu n (q_set_next_avail (wadd 16 (q_next_avail q) 1) q)) hm' cs.
Proof using.
  intros Hq Hhm [Hn Hc] Ha. split.
  - rewrite (avail_idx_agree pd pa q Hq hm hm') by done. cbn [q_next_avail q_set_used q_set_next_avail].
    unfold wsub, wadd in *. rewrite wrap_sub_r, Z.sub_add_distr, <- wrap_sub_l, <- Hn.
    pose proof (wrap_fits 16 (avail_ring_idx hm pa - q_next_avail q) ltac:(lia)) as Hw.
    rewrite <- Hn in Hw. unfold zlen in *. cbn [length] in *. unfold fits in Hw.
    rewrite wrap_small; [lia|]. unfold fits. lia.
  - intros i c' Hi. destruct (Hc (S i) c' Hi) as [-> Hok]. split.
    + rewrite <- (nth_chain_agree pd pa q Hq hm hm') by done.
      unfold nth_chain. cbn [q_next_avail q_size q_set_used q_set_next_avail].
      unfold wadd. rewrite wrap_add_l.
      by replace (q_next_avail q + 1 + Z.of_nat i) with (q_next_avail q + Z.of_nat (S i)) by lia.
    + change (head_ok q hm' pd (dc_index (nth_chain pd pa q hm (S i))) = true).
      rewrite (head_ok_agree pd pa q Hq hm hm'); [done|done|].
      by apply le_val_fits_16.
Qed.

Lemma pending_index q hm c cs :
  queue_wf q -> hostmem_wf hm -> pending q hm (c :: cs) -> 0 <= dc_index c < q_size q.
Proof using.
  intros Hq Hhm [_ Hc]. destruct (Hc 0%nat c eq_refl) as [-> Hok].
  unfold head_ok in Hok. rewrite actual_size_wf in Hok by done.
  apply andb_prop in Hok as [Hlt%Z.ltb_lt _]. split; [|done]. by apply le_val_fits_16.
Qed.

(** ** Service of one chain, and of a batch *)

(** The loop as the workers write it out, on the body [serve]; each worker's
    loop is this one by computation. *)
Section loop.
Variable serve : DescriptorChain -> M W string bool.

Fixpoint serve_loop (fuel : nat) (used_any : bool) : M W string bool :=
  match fuel with
  | O => lift NoFuel
  | S fuel' =>
      head ← wk_pop mm l;
      match head with
      | None => mret used_any
      | Some head =>
          served ← serve head;
          serve_loop fuel' (used_any || served)
      end
  end.

End loop.

(** The worker after it returned [c] with length [len]: the request left host
    memory [hm] and its own state [x], then the element was added. *)
Definition w_served (w : W) (hm : hostmem) (x : X) (c : DescriptorChain) (len : Z) : W :=
  let q := queue_of w in
  {| wk_queues := ql_set l (q_set_used (wadd 16 (q_next_used q) 1) (wadd 16 (q_num_added q) 1) q)
                    (wk_queues w);
     wk_hm := used_write pu q hm (dc_index c) len;
     wk_interrupt := wk_interrupt w; wk_ext := x |}.

(** The queue after [n] chains were popped and returned. *)
Definition q_advance (n : Z) (q : Queue) : Queue :=
  q_set_used (wadd 16 (q_next_used q) n) (wadd 16 (q_num_added q) n)
    (q_set_next_avail (wadd 16 (q_next_avail q) n) q).

Definition w_advance (n : Z) (hm : hostmem) (x : X) (w : W) : W :=
  {| wk_queues := ql_set l (q_advance n (queue_of w)) (wk_queues w); wk_hm := hm;
     wk_interrupt := wk_interrupt w; wk_ext := x |}.

Section service.
Variables (serve : DescriptorChain -> M W string bool).
Variables (q0 : Queue) (hm0 : hostmem).
(** the bytes that no request changes; what the worker's own state keeps; the
    bytes a chain's request may change; what the request does: the state it
    starts from, the length it reports, the state and the memory it leaves *)
Variables (keep : Z -> Prop) (I : X -> Prop) (foot : DescriptorChain -> list Z)
  (R : DescriptorChain -> X -> Z -> X -> hostmem -> Prop).

Definition serves (c : DescriptorChain) : Prop := forall w,
  ready w -> moved q0 (queue_of w) -> agree keep hm0 (wk_hm w) -> I (wk_ext w) ->
  exists hm x len, serve c w = (Ok true, w_served w hm x c len) /\ hostmem_wf hm /\ I x /\
    agree (fun a => a ∉ foot c) (wk_hm w) hm /\ R c (wk_ext w) len x hm.

Record service (cs : list DescriptorChain) : Prop := {
  sv_serves c : c ∈ cs -> serves c;
  sv_local c x len x' m m' :
    R c x len x' m -> agree (fun a => a ∈ foot c) m m' -> R c x len x' m';
  sv_driver a : in_driver pd pa q0 a -> keep a;
  sv_keep a : keep a -> ~ in_used pu q0 a;
  sv_foot c a : c ∈ cs -> a ∈ foot c -> ~ keep a /\ ~ in_used pu q0 a;
  sv_apart i j c d a : (i < j)%nat -> cs !! i = Some c -> cs !! j = Some d ->
    a ∈ foot c -> a ∉ foot d;
}.

(** The requests one after the other; [m] is the memory at the end. *)
Inductive batch_steps (m : hostmem) : list DescriptorChain -> X -> list Z -> X -> Prop :=
| batch_steps_nil x : batch_steps m [] x [] x
| batch_steps_cons c cs x len x1 lens x2 :
    R c x len x1 m -> batch_steps m cs x1 lens x2 -> batch_steps m (c :: cs) x (len :: lens) x2.

(** What a batch does to memory and to the worker's own state. *)
Record batch_mem (q : Queue) (hm : hostmem) (cs : list DescriptorChain) (x : X)
    (lens : list Z) (x' : X) (hm' : hostmem) : Prop := {
  bm_wf : hostmem_wf hm';
  bm_len : length lens = length cs;
  bm_steps : batch_steps hm' cs x lens x';
  bm_frame : agree (fun a => ~ touched pu q (length cs) a /\ forall c, c ∈ cs -> a ∉ foot c) hm hm';
  bm_elems i c len : cs !! i = Some c -> lens !! i = Some len ->
    host_read hm' (used_slot pu q i) 8 = used_elem_bytes (dc_index c) len;
  bm_index : cs <> [] ->
    le_val (host_read hm' (pu + 2) 2) = wadd 16 (q_next_used q) (zlen cs);
}.

Lemma service_tail c cs : service (c :: cs) -> service cs.
Proof using.
  intros []. split; eauto using list_elem_of_further.
  intros i j c' d a Hij Hi Hj. by apply (sv_apart0 (S i) (S j)); [lia|..].
Qed.

Lemma service_head_apart c cs d a :
  service (c :: cs) -> d ∈ cs -> a ∈ foot c -> a ∉ foot d.
Proof using.
  intros Hs Hd. apply list_elem_of_lookup in Hd as [j Hj].
  by apply (sv_apart _ Hs 0 (S j)); [lia|..].
Qed.

Lemma batch_mem_nil q hm x : hostmem_wf hm -> batch_mem q hm [] x [] x hm.
Proof using. intros Hhm. split; [done|done|constructor|apply agree_refl|done|done]. Qed.

Lemma touched_next q na n k a :
  touched pu (q_set_used (wadd 16 (q_next_used q) 1) n (q_set_next_avail na q)) k a ->
  touched pu q (S k) a.
Proof using.
  intros [[_ Ha]|(i & Hi & Ha)]; [left; split; [lia|done]|]. right. exists (S i). rewrite used_slot_next in Ha.
  split; [lia|done].
Qed.

(** What the rest of the batch leaves of the first chain. *)
Lemma batch_mem_keeps q q1 na n hm hm' c cs x lens x' a :
  q1 = q_set_used (wadd 16 (q_next_used q) 1) n (q_set_next_avail na q) ->
  queue_wf q -> moved q0 q -> (q_size q | 2 ^ 16) -> Z.of_nat (length cs) < q_size q ->
  service (c :: cs) -> batch_mem q1 hm cs x lens x' hm' ->
  a ∈ foot c \/ used_slot pu q 0 <= a < used_slot pu q 0 + 8 -> hm' a = hm a.
Proof using.
  intros -> [Hsz _ _ _ _ _ _ _] Hm Hdiv Hn Hs Hb Ha. apply (bm_frame _ _ _ _ _ _ _ Hb).
  pose proof (moved_size _ _ Hm) as Hsize. split.
  - intros Ht. destruct Ha as [Ha|Ha].
    + apply (sv_foot _ Hs c a); [left|done|]. unfold in_used. rewrite <- Hsize.
      apply touched_next in Ht. apply touched_used in Ht; [|lia]. done.
    + pose proof (used_slot_range pu q 0 ltac:(lia)). destruct Ht as [Ht|(i & Hi & Ht)]; [lia|].
      rewrite used_slot_next in Ht.
      pose proof (used_slots_distinct pu q 0 (S i) ltac:(lia) Hdiv ltac:(lia) ltac:(lia)). lia.
  - intros d Hd. destruct Ha as [Ha|Ha]; [by eapply service_head_apart|]. intros Hf.
    apply (sv_foot _ Hs d a); [by right|done|]. unfold in_used. rewrite <- Hsize.
    pose proof (used_slot_range pu q 0 ltac:(lia)). lia.
Qed.

Lemma batch_mem_cons q q1 na n hm hm1 hm' c cs x len x1 lens x' :
  q1 = q_set_used (wadd 16 (q_next_used q) 1) n (q_set_next_avail na q) ->
  queue_wf q -> moved q0 q -> (q_size q | 2 ^ 16) -> Z.of_nat (length cs) < q_size q ->
  service (c :: cs) -> agree (fun a => a ∉ foot c) hm hm1 -> R c x len x1 hm1 ->
  batch_mem q1 (used_write pu q hm1 (dc_index c) len) cs x1 lens x' hm' ->
  batch_mem q hm (c :: cs) x (len :: lens) x' hm'.
Proof using.
  intros Hq1 Hq Hm Hdiv Hn Hs Hhm1 HR Hb. pose proof Hq as [Hsz _ _ _ _ _ _ _].
  set (hm2 := used_write pu q hm1 (dc_index c) len) in *.
  pose proof (fun a => batch_mem_keeps q q1 na n hm2 hm' c cs x1 lens x' a
    Hq1 Hq Hm Hdiv Hn Hs Hb) as Hkeep.
  pose proof (used_write_frame pu q hm1 (dc_index c) len Hq) as Huw. fold hm2 in Huw.
  destruct Hb as [Hwf Hlen Hst Hfr Hel Hidx]. split.
  - done.
  - cbn. by rewrite Hlen.
  - econstructor; [|exact Hst]. apply (sv_local _ Hs c x len x1 hm1); [done|].
    intros a Ha. rewrite Hkeep by (by left). apply Huw. intros Ht.
    apply touched_used in Ht; [|lia]. apply (sv_foot _ Hs c a); [left|done|].
    unfold in_used in *. by rewrite <- (moved_size _ _ Hm).
  - intros a [Ht Hf]. rewrite Hfr.
    + rewrite Huw; [apply Hhm1, Hf; left|]. intros Ht1. apply Ht.
      destruct Ht1 as [[_ Ht1]|(i & Hi & Ht1)]; [left|right; exists i]; (split; [cbn; lia|done]).
    + split; [|intros d Hd; apply Hf; by right]. intros Ht1. apply Ht. subst q1.
      by eapply touched_next.
  - intros [|i] d len' Hd Hlen'; [injection Hd as <-; injection Hlen' as <-|].
    + rewrite <- (used_write_element pu q hm1 (dc_index c) len Hq). fold hm2.
      symmetry. apply host_read_ext. intros a Ha. symmetry. apply Hkeep. right. lia.
    + subst q1. rewrite <- (used_slot_next pu q na n). by apply Hel.
  - intros _. destruct cs as [|d cs].
    + change (zlen [c]) with 1. rewrite <- (used_write_index pu q hm1 (dc_index c) len). fold hm2.
      f_equal. apply host_read_ext. intros a _. apply Hfr. split.
      * intros [[? _]|(i & ? & _)]; cbn in *; lia.
      * intros d Hd. by apply not_elem_of_nil in Hd.
    + rewrite Hidx by done. subst q1. cbn [q_next_used q_set_used q_set_next_avail].
      unfold wadd. rewrite wrap_add_l. f_equal. unfold zlen. cbn [length]. lia.
Qed.

Lemma q_advance_moved n q : moved q (q_advance n q).
Proof using. by eexists _, _, _. Qed.

Lemma q_advance_0 q : queue_wf q -> q_advance 0 q = q.
Proof using.
  intros []. unfold q_advance, wadd. rewrite !Z.add_0_r, !wrap_small by done. by destruct q.
Qed.

Lemma q_advance_add n q : q_advance n (q_advance 1 q) = q_advance (1 + n) q.
Proof using.
  unfold q_advance. cbn. unfold wadd. rewrite !wrap_add_l.
  by rewrite <- !Z.add_assoc.
Qed.

Lemma q_advance_wf n q : queue_wf q -> queue_wf (q_advance n q).
Proof using.
  intros []. unfold q_advance. by split; cbn; try apply wadd_fits.
Qed.

Lemma q_advance_rings n q :
  rings_mapped mm q pd pa pu -> rings_mapped mm (q_advance n q) pd pa pu.
Proof using. intros []. by split. Qed.

Lemma ready_advance n hm x (w : W) :
  ready w -> hostmem_wf hm -> ready (w_advance n hm x w).
Proof using Hl.
  intros [Hq Hr _] Hhm. split; cbn [w_advance wk_queues wk_hm]; rewrite ?ql_get_set;
    auto using q_advance_wf, q_advance_rings.
Qed.

(** Popping and returning a chain is an advance by one. *)
Lemma w_served_advance (w : W) hm x c len :
  w_served (wk_set_queue_mem l
      (q_set_next_avail (wadd 16 (q_next_avail (queue_of w)) 1) (queue_of w), wk_hm w) w)
      hm x c len =
    w_advance 1 (used_write pu (queue_of w) hm (dc_index c) len) x w.
Proof using Hl.
  unfold w_served, w_advance, wk_set_queue_mem, used_write. cbn [wk_queues wk_interrupt fst snd].
  by rewrite !ql_get_set, !ql_set_set.
Qed.

Lemma w_advance_add n hm hm' x x' (w : W) :
  w_advance n hm x (w_advance 1 hm' x' w) = w_advance (1 + n) hm x w.
Proof using Hl.
  unfold w_advance. cbn [wk_queues wk_interrupt]. by rewrite ql_get_set, ql_set_set, q_advance_add.
Qed.

Lemma serve_loop_batch cs (w : W) fuel used_any :
  ready w -> moved q0 (queue_of w) -> agree keep hm0 (wk_hm w) -> I (wk_ext w) ->
  pending (queue_of w) (wk_hm w) cs -> service cs ->
  (q_size q0 | 2 ^ 16) -> zlen cs <= q_size q0 -> (length cs < fuel)%nat ->
  exists hm x lens,
    serve_loop serve fuel used_any w =
      (Ok (used_any || negb (bool_decide (cs = []))), w_advance (zlen cs) hm x w) /\
    I x /\ batch_mem (queue_of w) (wk_hm w) cs (wk_ext w) lens x hm.
Proof using Hmm Hl.
  revert w fuel used_any. induction cs as [|c cs IH];
    intros w [|fuel] used_any Hw Hm Hk HI Hp Hs Hdiv Hn Hf; try (cbn in Hf; lia).
  - exists (wk_hm w), (wk_ext w), []. split_and!; [|done|apply batch_mem_nil, Hw].
    cbn [serve_loop]. unfold mbind at 1, M_bind at 1. rewrite pop_nothing by done.
    unfold w_advance. change (zlen []) with 0. rewrite q_advance_0 by apply Hw.
    rewrite ql_set_get, bool_decide_true by done. cbn. rewrite orb_false_r. by destruct w.
  - pose proof Hw as [Hq Hr Hhm]. pose proof (moved_size _ _ Hm) as Hsz.
    cbn [serve_loop]. unfold mbind at 1, M_bind at 1. rewrite (pending_pop w c cs) by done.
    set (w1 := wk_set_queue_mem l _ w).
    assert (Hq1 : queue_of w1 =
      q_set_next_avail (wadd 16 (q_next_avail (queue_of w)) 1) (queue_of w))
      by (unfold w1, wk_set_queue_mem; cbn; by rewrite ql_get_set).
    destruct (sv_serves _ Hs c ltac:(left) w1) as (hm1 & x1 & len & Hsrv & Hwf1 & HI1 & Hfr1 & HR).
    { split; rewrite ?Hq1; [|by apply rings_mapped_next_avail|done].
      apply queue_wf_next_avail; [done|]. apply wadd_fits. lia. }
    { rewrite Hq1. by apply moved_next_avail. } { done. } { done. }
    unfold mbind at 1, M_bind at 1. rewrite Hsrv. unfold w1. rewrite w_served_advance.
    set (hm2 := used_write pu (queue_of w) hm1 (dc_index c) len).
    assert (Hk1 : agree keep (wk_hm w) hm2).
    { intros a Ha. unfold hm2. rewrite used_write_frame, Hfr1; [done| |done|].
      - intros Hin. destruct (sv_foot _ Hs c a) as [Hnk _]; [left|done|]. by apply Hnk.
      - intros Ht. apply touched_used in Ht; [|by destruct Hq; lia]. apply (sv_keep _ Hs a Ha).
        unfold in_used in *. by rewrite <- Hsz. }
    destruct (IH (w_advance 1 hm2 x1 w) fuel (used_any || true)) as (hm' & x' & lens & Hrun & HI' & Hb).
    + apply ready_advance; [done|by apply used_write_wf].
    + cbn. rewrite ql_get_set. by apply moved_used, moved_next_avail.
    + cbn. by rewrite <- Hk1.
    + done.
    + cbn. rewrite ql_get_set. eapply (pending_tail (queue_of w) (wk_hm w) _ _ _ c cs); [done..|].
      eapply agree_weaken; [|exact Hk1]. intros a Ha. apply (sv_driver _ Hs a).
      unfold in_driver, in_desc, in_avail in *. by rewrite <- Hsz.
    + by eapply service_tail.
    + done.
    + unfold zlen in *. cbn [length] in Hn. lia.
    + cbn in Hf. lia.
    + exists hm', x', (len :: lens). split_and!; [|done|].
      * rewrite Hrun, w_advance_add, (bool_decide_false (c :: cs = [])) by done.
        cbn [negb]. rewrite orb_true_r. do 2 f_equal.
        unfold zlen. cbn [length]. lia.
      * cbn in Hb. rewrite ql_get_set in Hb. eapply batch_mem_cons; [reflexivity|..|exact Hb]; try done.
        -- by rewrite Hsz.
        -- rewrite Hsz. unfold zlen in Hn. cbn [length] in Hn. lia.
Qed.


(** *** The end of a batch, and the loop around it *)

(** Signalling comes back, with success or with an error that is logged. *)
Definition signal_returns (i : InterruptTransport C Ev) : Prop :=
  match (it_try_signal_used_queue i).1 with Ok _ | Err _ => True | Panic | NoFuel => False end.

(** What [finish] does after a batch: it signals the driver once when a chain
    was returned and [wants] says so, and may reset the count of additions. *)
Definition finishes (wants : Queue -> hostmem -> bool) (finish : bool -> M W string unit) : Prop :=
  forall w used_any, ready w -> signal_returns (wk_interrupt w) ->
    exists n, fits 16 n /\ finish used_any w =
      (Ok tt,
       {| wk_queues := ql_set l (q_set_used (q_next_used (queue_of w)) n (queue_of w)) (wk_queues w);
          wk_hm := wk_hm w;
          wk_interrupt :=
            if used_any && wants (queue_of w) (wk_hm w)
            then (it_try_signal_used_queue (wk_interrupt w)).2 else wk_interrupt w;
          wk_ext := wk_ext w |}).

(** The round that found the chains [cs] pending in [w]. *)
Record batch_done (wants : Queue -> hostmem -> bool) (w : W) (cs : list DescriptorChain)
    (lens : list Z) (w' : W) : Prop := {
  bd_queue : exists n, wk_queues w' =
    ql_set l (q_set_used (wadd 16 (q_next_used (queue_of w)) (zlen cs)) n
                (q_set_next_avail (avail_ring_idx (wk_hm w) pa) (queue_of w))) (wk_queues w);
  bd_wf : hostmem_wf (wk_hm w');
  bd_inv : I (wk_ext w');
  bd_len : length lens = length cs;
  bd_steps : batch_steps (wk_hm w') cs (wk_ext w) lens (wk_ext w');
  bd_elems i c len : cs !! i = Some c -> lens !! i = Some len ->
    host_read (wk_hm w') (used_slot pu (queue_of w) i) 8 = used_elem_bytes (dc_index c) len;
  bd_index : cs <> [] ->
    le_val (host_read (wk_hm w') (pu + 2) 2) = wadd 16 (q_next_used (queue_of w)) (zlen cs);
  bd_frame : agree (fun a => ~ in_used pu (queue_of w) a /\ forall c, c ∈ cs -> a ∉ foot c)
               (wk_hm w) (wk_hm w');
  bd_interrupt : wk_interrupt w' =
    if negb (bool_decide (cs = [])) && wants (q_advance (zlen cs) (queue_of w)) (wk_hm w)
    then (it_try_signal_used_queue (wk_interrupt w)).2 else wk_interrupt w;
}.

Lemma pending_agree q hm hm' cs :
  queue_wf q -> hostmem_wf hm -> agree (in_driver pd pa q) hm hm' -> pending q hm cs ->
  pending q hm' cs.
Proof using.
  intros Hq Hhm Ha [Hn Hc]. split.
  - by rewrite (avail_idx_agree pd pa q Hq hm hm').
  - intros i c Hi. destruct (Hc i c Hi) as [-> Hok].
    rewrite (nth_chain_agree pd pa q Hq hm hm') by done. split; [done|].
    rewrite (head_ok_agree pd pa q Hq hm hm'); [done|done|]. by apply le_val_fits_16.
Qed.

Lemma pending_end q hm cs :
  queue_wf q -> hostmem_wf hm -> pending q hm cs ->
  wadd 16 (q_next_avail q) (zlen cs) = avail_ring_idx hm pa.
Proof using.
  intros Hq Hhm [Hn _]. rewrite Hn. unfold wadd, wsub. rewrite wrap_add_r, Z.add_comm, Z.sub_add.
  apply wrap_small. by apply avail_idx_fits.
Qed.

(** Switching notifications off or on touches no chain and no element. *)
Definition w_set_hm (hm : hostmem) (w : W) : W :=
  {| wk_queues := wk_queues w; wk_hm := hm; wk_interrupt := wk_interrupt w; wk_ext := wk_ext w |}.
Definition off_switch (q : Queue) (a : Z) : Prop :=
  ~ pu <= a < pu + 2 /\ ~ pu + (4 + 8 * q_size q) <= a < pu + (6 + 8 * q_size q).

Lemma notification_write_agree q hm enable :
  hostmem_wf hm -> queue_wf q ->
  hostmem_wf (notification_write pu q hm enable) /\
  agree (off_switch q) hm (notification_write pu q hm enable).
Proof using.
  intros Hhm Hq. split; [by apply notification_write_frame|]. destruct Hq.
  intros a [Ha1 Ha2]. unfold notification_write. repeat case_match; try done;
    apply host_write_out; unfold zlen; rewrite length_le_bytes; lia.
Qed.

Lemma wk_disable {E} (w : W) :
  ready w ->
  exists hm, Munwrap (F:=E) (wk_q l (q_disable_notification mm)) w = (Ok tt, w_set_hm hm w) /\
    hostmem_wf hm /\ agree (off_switch (queue_of w)) (wk_hm w) hm.
Proof using Hmm Hl.
  intros [Hq Hr Hhm]. exists (notification_write pu (queue_of w) (wk_hm w) false).
  split; [|by apply notification_write_agree].
  unfold wk_q, q_disable_notification. run_St.
  rewrite (set_notification_mapped mm Hmm pd pa pu) by done.
  unfold wk_set_queue_mem. cbn [fst snd]. by rewrite ql_set_get.
Qed.

Lemma wk_enable {E} (w : W) :
  ready w ->
  exists hm, Munwrap (F:=E) (wk_q l (q_enable_notification mm)) w =
      (Ok (negb (avail_ring_idx hm pa =? q_next_avail (queue_of w))), w_set_hm hm w) /\
    hostmem_wf hm /\ agree (off_switch (queue_of w)) (wk_hm w) hm.
Proof using Hmm Hl.
  intros [Hq Hr Hhm]. exists (notification_write pu (queue_of w) (wk_hm w) true).
  split; [|by apply notification_write_agree].
  unfold wk_q, q_enable_notification. run_St.
  rewrite (set_notification_mapped mm Hmm pd pa pu) by done. run_St.
  rewrite (avail_idx_mapped mm Hmm pd pa pu) by done. run_St.
  unfold wk_set_queue_mem. cbn [fst snd]. by rewrite ql_set_get.
Qed.

(** The batch between the two switches. *)
Definition process (finish : bool -> M W string unit) (fuel : nat) : M W string unit :=
  used_any ← serve_loop serve fuel false;
  finish used_any.

Lemma process_batch wants finish cs (w : W) fuel :
  (forall q hm hm', queue_wf q -> agree (in_driver pd pa q) hm hm' -> wants q hm' = wants q hm) ->
  finishes wants finish -> signal_returns (wk_interrupt w) ->
  ready w -> moved q0 (queue_of w) -> agree keep hm0 (wk_hm w) -> I (wk_ext w) ->
  pending (queue_of w) (wk_hm w) cs -> service cs ->
  (q_size q0 | 2 ^ 16) -> zlen cs <= q_size q0 -> (length cs < fuel)%nat ->
  exists hm x lens n, process finish fuel w =
      (Ok tt,
       {| wk_queues := ql_set l (q_set_used (wadd 16 (q_next_used (queue_of w)) (zlen cs)) n
            (q_set_next_avail (avail_ring_idx (wk_hm w) pa) (queue_of w))) (wk_queues w);
          wk_hm := hm;
          wk_interrupt :=
            if negb (bool_decide (cs = [])) && wants (q_advance (zlen cs) (queue_of w)) (wk_hm w)
            then (it_try_signal_used_queue (wk_interrupt w)).2 else wk_interrupt w;
          wk_ext := x |}) /\
    fits 16 n /\ I x /\ batch_mem (queue_of w) (wk_hm w) cs (wk_ext w) lens x hm.
Proof using Hmm Hl.
  intros Hwants Hfin Hsig Hw Hm Hk HI Hp Hs Hdiv Hn Hf. pose proof Hw as [Hq Hr Hhm].
  destruct (serve_loop_batch cs w fuel false) as (hm & x & lens & Hrun & HI' & Hb); [done..|].
  pose proof (ready_advance (zlen cs) hm x w Hw (bm_wf _ _ _ _ _ _ _ Hb)) as Hw2.
  destruct (Hfin (w_advance (zlen cs) hm x w) (negb (bool_decide (cs = []))) Hw2 Hsig)
    as (n & Hfn & Hrun2).
  exists hm, x, lens, n. split_and!; [|done..].
  unfold process, mbind at 1, M_bind at 1. rewrite Hrun. cbn [orb]. rewrite Hrun2.
  cbn [w_advance wk_queues wk_hm wk_interrupt wk_ext]. rewrite ql_get_set, ql_set_set.
  rewrite (Hwants _ (wk_hm w) hm); [|by apply q_advance_wf|].
  - unfold q_advance at 1 2. rewrite (pending_end _ _ _ Hq Hhm Hp). done.
  - intros a Ha. apply (bm_frame _ _ _ _ _ _ _ Hb).
    pose proof (moved_size _ _ Hm) as Hsz. assert (keep a) as Hka.
    { apply (sv_driver _ Hs). unfold in_driver, in_desc, in_avail in *. cbn in Ha. by rewrite <- Hsz. }
    split.
    + intros Ht. apply touched_used in Ht; [|by destruct Hq; lia]. apply (sv_keep _ Hs a Hka).
      unfold in_used in *. by rewrite <- Hsz.
    + intros c Hc Hin. by destruct (sv_foot _ Hs c a Hc Hin).
Qed.

Lemma batch_steps_local m m' cs x lens x' :
  service cs -> batch_steps m cs x lens x' ->
  (forall c, c ∈ cs -> agree (fun a => a ∈ foot c) m m') -> batch_steps m' cs x lens x'.
Proof using.
  intros Hs Hst Ha. induction Hst as [x|c cs x len x1 lens x2 HR Hst IH]; [constructor|].
  econstructor.
  - apply (sv_local _ Hs _ _ _ _ m); [done|]. apply Ha. left.
  - apply IH; [by eapply service_tail|]. intros d Hd. apply Ha. by right.
Qed.

Lemma off_used q a : queue_wf q -> ~ in_used pu q a -> off_switch q a.
Proof using. intros [] H. unfold in_used, off_switch in *. lia. Qed.

Lemma off_slot q i a :
  queue_wf q -> used_slot pu q i <= a < used_slot pu q i + 8 -> off_switch q a.
Proof using.
  intros [] H. pose proof (used_slot_range pu q i ltac:(lia)). unfold off_switch. lia.
Qed.

Lemma batch_done_intro wants cs (w w' : W) hm1 hm2 lens :
  (exists n, wk_queues w' =
    ql_set l (q_set_used (wadd 16 (q_next_used (queue_of w)) (zlen cs)) n
                (q_set_next_avail (avail_ring_idx (wk_hm w) pa) (queue_of w))) (wk_queues w)) ->
  wk_interrupt w' =
    (if negb (bool_decide (cs = [])) && wants (q_advance (zlen cs) (queue_of w)) (wk_hm w)
     then (it_try_signal_used_queue (wk_interrupt w)).2 else wk_interrupt w) ->
  queue_wf (queue_of w) -> q0 = queue_of w -> service cs -> I (wk_ext w') ->
  hostmem_wf (wk_hm w') -> agree (off_switch (queue_of w)) (wk_hm w) hm1 ->
  batch_mem (queue_of w) hm1 cs (wk_ext w) lens (wk_ext w') hm2 ->
  agree (off_switch (queue_of w)) hm2 (wk_hm w') ->
  batch_done wants w cs lens w'.
Proof using.
  intros Hqs Hint Hq Hq0 Hs HI Hwf Ha1 [Hwf2 Hlen Hst Hfr Hel Hidx] Ha3.
  pose proof Hq as [Hsz _ _ _ _ _ _ _]. split; try done.
  - apply (batch_steps_local hm2); [done..|]. intros c Hc a Ha. apply Ha3, off_used; [done|].
    rewrite <- Hq0. by apply (sv_foot _ Hs c).
  - intros i c len Hi Hl'. rewrite <- (Hel i c len) by done. eapply agree_read; [exact Ha3|].
    intros a Ha. by apply (off_slot _ i).
  - intros Hne. rewrite <- Hidx by done. f_equal. eapply agree_read; [exact Ha3|].
    intros a Ha. unfold off_switch. lia.
  - intros a [Hu Hf]. rewrite Ha3, Hfr, Ha1; [done|by apply off_used| |by apply off_used].
    split; [|done]. intros Ht. apply Hu. apply touched_used in Ht; [done|lia].
Qed.

Lemma drain_batch wants finish (body : M W string unit) cs (w : W) fuel :
  (forall w, I (wk_ext w) -> body w = process finish fuel w) ->
  (forall q hm hm', queue_wf q -> agree (in_driver pd pa q) hm hm' -> wants q hm' = wants q hm) ->
  finishes wants finish -> signal_returns (wk_interrupt w) ->
  ready w -> q0 = queue_of w -> hm0 = wk_hm w -> I (wk_ext w) ->
  pending (queue_of w) (wk_hm w) cs -> service cs ->
  (q_size q0 | 2 ^ 16) -> zlen cs <= q_size q0 -> (length cs < fuel)%nat ->
  exists w' lens, drain_loop mm fuel l body w = (Ok tt, w') /\
    batch_done wants w cs lens w'.
Proof using Hmm Hl.
  intros Hbody Hwants Hfin Hsig Hw Hq0 Hh0 HI Hp Hs Hdiv Hn Hf. pose proof Hw as [Hq Hr Hhm].
  assert (forall a, in_driver pd pa (queue_of w) a -> off_switch (queue_of w) a) as Hdrv.
  { intros a Ha. rewrite <- Hq0 in *. apply off_used; [done|]. by apply (sv_keep _ Hs), (sv_driver _ Hs). }
  destruct fuel as [|fuel]; [lia|]. cbn [drain_loop]. set (fuel' := S fuel) in *.
  destruct (wk_disable (E:=string) w Hw) as (hm1 & Hrun1 & Hwf1 & Ha1).
  assert (Hd1 : agree (in_driver pd pa (queue_of w)) (wk_hm w) hm1) by (by eapply agree_weaken).
  destruct (process_batch wants finish cs (w_set_hm hm1 w) fuel') as
    (hm2 & x & lens & n & Hrun2 & Hfn & HI2 & Hb); try done.
  { rewrite Hq0. apply moved_refl. }
  { rewrite Hh0. eapply agree_weaken; [|exact Ha1]. intros a Ha. rewrite <- Hq0 in *.
    apply off_used; [done|]. by apply (sv_keep _ Hs). }
  { by apply (pending_agree _ (wk_hm w)). }
  cbn [w_set_hm wk_queues wk_hm wk_interrupt wk_ext] in Hrun2, Hb.
  rewrite (avail_idx_agree pd pa _ Hq (wk_hm w) hm1), (Hwants _ (wk_hm w) hm1) in Hrun2
    by (done || by apply q_advance_wf).
  set (w2 := Build_Worker _ hm2 _ _) in Hrun2.
  destruct (wk_enable (E:=string) w2) as (hm3 & Hrun3 & Hwf3 & Ha3).
  { split; cbn [w2 wk_queues wk_hm]; rewrite ?ql_get_set; [|by destruct Hr; split|apply Hb].
    apply queue_wf_used; [|by apply wadd_fits|done]. apply queue_wf_next_avail; [done|].
    by apply avail_idx_fits. }
  exists (w_set_hm hm3 w2), lens. split.
  - unfold mbind at 1, M_bind at 1. rewrite Hrun1. unfold mbind at 1, M_bind at 1.
    rewrite Hbody, Hrun2 by done.
    unfold mbind at 1, M_bind at 1. rewrite Hrun3. cbn [w2 wk_queues]. rewrite ql_get_set.
    cbn [w2 wk_queues] in Ha3. rewrite ql_get_set in Ha3.
    rewrite (avail_idx_agree pd pa _ Hq (wk_hm w) hm3); [by rewrite Z.eqb_refl|].
    transitivity hm1; [done|]. transitivity hm2; [|by eapply agree_weaken].
    eapply agree_weaken; [|apply (bm_frame _ _ _ _ _ _ _ Hb)]. intros a Ha.
    rewrite <- Hq0 in *. apply (sv_driver _ Hs) in Ha. split.
    + intros Ht. apply touched_used in Ht; [|by destruct Hq; lia]. by apply (sv_keep _ Hs a Ha).
    + intros c Hc Hin. by destruct (sv_foot _ Hs c a Hc Hin).
  - cbn [w2 wk_queues] in Ha3. rewrite ql_get_set in Ha3.
    eapply batch_done_intro; [by eexists|done|..|exact Hb|]; done.
Qed.

End service.

(** *** The two ways a worker ends a batch *)

Lemma wk_signal_returns {E} (w : W) :
  signal_returns (wk_interrupt w) ->
  wk_signal (E:=E) w =
    (Ok tt, wk_set_interrupt (it_try_signal_used_queue (wk_interrupt w)).2 w).
Proof using.
  intros Hs. unfold signal_returns in Hs. unfold wk_signal. run_St.
  by destruct (it_try_signal_used_queue (wk_interrupt w)) as [[] i].
Qed.

Lemma notification_wanted_agree q hm hm' :
  queue_wf q -> agree (in_driver pd pa q) hm hm' ->
  notification_wanted pa q hm' = notification_wanted pa q hm.
Proof using.
  intros Hq Ha. unfold notification_wanted.
  rewrite (agree_read _ hm hm' (pa + (4 + 2 * q_size q)) 2 Ha); [done|].
  intros a Hin. right. unfold in_avail. destruct Hq. lia.
Qed.

Lemma q_set_used_id q : q_set_used (q_next_used q) (q_num_added q) q = q.
Proof using. by destruct q. Qed.

(** Asking the driver first. *)
Lemma wk_finish_finishes : finishes (notification_wanted pa) (wk_finish mm l).
Proof using Hmm Hl.
  intros w used_any Hw Hs. pose proof Hw as [Hq Hr Hhm].
  exists (if used_any && q_event_idx_enabled (queue_of w) then 0 else q_num_added (queue_of w)).
  split; [case_match; [unfold fits; lia|by destruct Hq]|].
  unfold wk_finish. destruct used_any; cbn [andb].
  - unfold wk_q. run_St. rewrite (needs_notification_mapped mm Hmm pd pa pu) by done.
    set (q' := if q_event_idx_enabled _ then _ else _). set (w1 := wk_set_queue_mem l _ w).
    assert (w1 = {| wk_queues := ql_set l (q_set_used (q_next_used (queue_of w))
        (if q_event_idx_enabled (queue_of w) then 0 else q_num_added (queue_of w)) (queue_of w))
        (wk_queues w); wk_hm := wk_hm w; wk_interrupt := wk_interrupt w; wk_ext := wk_ext w |}) as ->.
    { unfold w1, wk_set_queue_mem, q'. cbn [fst snd]. f_equal.
      by destruct (q_event_idx_enabled _), (queue_of w). }
    destruct (notification_wanted pa (queue_of w) (wk_hm w)); [|done].
    by rewrite wk_signal_returns.
  - rewrite q_set_used_id, ql_set_get. by destruct w.
Qed.

(** Without asking. *)
Lemma signal_finishes :
  finishes (fun _ _ => true) (fun used_any => if used_any then wk_signal else mret tt).
Proof using Hl.
  intros w used_any Hw Hs. exists (q_num_added (queue_of w)). split; [by destruct (wr_wf _ _ _ _ _ _ Hw)|].
  rewrite q_set_used_id, ql_set_get.
  destruct used_any; [|by destruct w]. by rewrite wk_signal_returns.
Qed.

End batch.
