(* ===== verification/StoreBuffer.v ===== *)
(** * StoreBuffer: when the stores of a thread become visible

    The device's threads and the guest's processors share memory.  A store of
    the rings ([Ordering::Relaxed] and [Ordering::Release] on x86) enters the
    store buffer of its thread: the thread itself reads it back at once, the
    others see it only when it leaves the buffer, in order.  A fence
    ([Ordering::SeqCst]) waits until the buffer is empty.  The files [Wakeup]
    and [Completion] interleave the two sides of a queue on this memory. *)

From S2P Require Import Prelude Bytes HostMem GuestMem Queue FileTraits DescUtils Irqchip VirtioDev Mmio Worker Batch.

(** ** Stores *)

(** The host address and the bytes. *)
Definition Store : Type := Z * list Z.

Definition store_to (hm : hostmem) (s : Store) : hostmem := host_write hm s.1 s.2.

(** Memory as the thread that owns the buffer reads it; the oldest store comes
    first. *)
Definition through (ss : list Store) (hm : hostmem) : hostmem := fold_left store_to ss hm.

(** The addresses of a store. *)
Definition stored (s : Store) (a : Z) : Prop := s.1 <= a < s.1 + zlen s.2.

(** A store that leaves the addresses [P] alone. *)
Definition spares (P : Z -> Prop) (s : Store) : Prop :=
  bytes_ok s.2 /\ forall a, stored s a -> ~ P a.

(** A field of [n] bytes read as an integer. *)
Definition word (hm : hostmem) (p : Z) (n : nat) : Z := le_val (host_read hm p n).

(** A queue that the device accepts, the rings of which are apart. *)
Record rings_ok (mm : MemoryManager) (pd pa pu : Z) (q : Queue) : Prop := {
  ro_wf : queue_wf q;
  ro_mapped : rings_mapped mm q pd pa pu;
  ro_size : (q_size q | 2 ^ 16);
  ro_apart a : in_driver pd pa q a -> ~ in_used pu q a;
}.

(** ** Lemmas *)

Lemma through_app ss ss' hm : through (ss ++ ss') hm = through ss' (through ss hm).
Proof. apply fold_left_app. Qed.

Lemma store_to_spares P s hm : spares P s -> agree P hm (store_to hm s).
Proof.
  intros [_ Hs] a Ha. apply host_write_out. specialize (Hs a). unfold stored in Hs.
  destruct (decide (s.1 <= a < s.1 + zlen s.2)); [by destruct Hs|lia].
Qed.

Lemma through_spares P ss hm : Forall (spares P) ss -> agree P hm (through ss hm).
Proof.
  intros H. revert hm. induction H as [|s ss Hs _ IH]; intros hm; [apply agree_refl|].
  cbn. eapply agree_trans; [by apply store_to_spares|apply IH].
Qed.

(** What agrees below a buffer agrees through it. *)
Lemma through_agree P ss hm hm' : agree P hm hm' -> agree P (through ss hm) (through ss hm').
Proof.
  revert hm hm'. induction ss as [|s ss IH]; intros hm hm' H; [done|].
  cbn. apply IH. intros a Ha. by apply host_write_ext, H.
Qed.

Lemma through_wf ss hm :
  Forall (fun s => bytes_ok s.2) ss -> hostmem_wf hm -> hostmem_wf (through ss hm).
Proof.
  intros H. revert hm. induction H as [|s ss Hs _ IH]; intros hm Hhm; [done|].
  cbn. by apply IH, host_write_wf.
Qed.

Lemma spares_bytes P ss : Forall (spares P) ss -> Forall (fun s => bytes_ok s.2) ss.
Proof. intros H. eapply Forall_impl; [exact H|]. by intros s [Hb _]. Qed.

Lemma spares_weaken (P P' : Z -> Prop) ss :
  (forall a, P' a -> P a) -> Forall (spares P) ss -> Forall (spares P') ss.
Proof.
  intros HP H. eapply Forall_impl; [exact H|]. intros s [Hb Hs]. split; [done|].
  intros a Ha HPa. by apply (Hs a Ha), HP.
Qed.

Lemma word_agree P hm hm' p n :
  agree P hm hm' -> (forall a, p <= a < p + Z.of_nat n -> P a) -> word hm' p n = word hm p n.
Proof. intros H Hp. unfold word. f_equal. by apply (agree_read P). Qed.

Lemma word_store hm p n v :
  fits (8 * Z.of_nat n) v -> word (host_write hm p (le_bytes n v)) p n = v.
Proof.
  intros Hv. unfold word. rewrite host_read_write_at by (by rewrite length_le_bytes).
  by apply le_val_le_bytes_fits.
Qed.

Lemma moved_rings_mapped mm q0 q pd pa pu :
  moved q0 q -> rings_mapped mm q0 pd pa pu -> rings_mapped mm q pd pa pu.
Proof. intros (na & nu & n & ->) []. by split. Qed.

Lemma moved_event q0 q : moved q0 q -> q_event_idx_enabled q = q_event_idx_enabled q0.
Proof. by intros (na & nu & n & ->). Qed.

(** Two counters at most a queue apart are equal when their low halves are. *)
Lemma counters_eq q a b :
  queue_wf q -> b <= a <= b + q_size q -> wrap 16 a = wrap 16 b -> a = b.
Proof.
  intros [] Hab E. unfold wrap in E.
  apply (f_equal (fun z => (z - b mod 2 ^ 16) mod 2 ^ 16)) in E.
  rewrite Z.sub_diag, <- Zminus_mod, Z.mod_0_l, Z.mod_small in E by lia. lia.
Qed.

(** ** Runs that come to an end *)

Section runs.
Context {A : Type} (R : A -> A -> Prop).

(** No step is left. *)
Definition finished (a : A) : Prop := forall b, ~ R a b.

(** Every run from [a] ends. *)
Definition ends (a : A) : Prop := Acc (fun b a => R a b) a.

(** Runs end when each step decreases a pair of numbers in lexicographic
    order. *)
Lemma ends_by (I : A -> Prop) (f g : A -> nat) a :
  (forall x y, R x y -> I x -> I y) ->
  (forall x y, R x y -> I x -> (f y < f x)%nat \/ f y = f x /\ (g y < g x)%nat) ->
  I a -> ends a.
Proof.
  intros HI Hfg. remember (f a) as n eqn:En. revert a En.
  induction n as [n IHn] using lt_wf_ind. intros a En. remember (g a) as m eqn:Em. revert a En Em.
  induction m as [m IHm] using lt_wf_ind. intros a -> -> Ha. constructor. intros b Hb.
  destruct (Hfg a b Hb Ha) as [Hlt|[Heq Hlt]].
  - by eapply (IHn (f b)); [|reflexivity|eapply HI].
  - by eapply (IHm (g b)); [|symmetry; exact Heq|reflexivity|eapply HI].
Qed.

Lemma steps_subrel (R' : A -> A -> Prop) a b :
  (forall x y, R x y -> R' x y) -> steps R a b -> steps R' a b.
Proof. intros HR. induction 1; [constructor|]. eapply steps_cons; eauto. Qed.

End runs.

(** ** An example *)

(** A queue of four entries with event indices, its rings cleared. *)
Definition cleared_queue : Queue :=
  {| q_max_size := 256; q_size := 4; q_ready := true; q_desc_table := 4096;
     q_avail_ring := 8192; q_used_ring := 12288; q_next_avail := 0; q_next_used := 0;
     q_event_idx_enabled := true; q_num_added := 0 |}.

Lemma cleared_rings : rings_ok example_mm 1048576 1052672 1056768 cleared_queue.
Proof.
  split.
  - split; cbn; unfold fits; lia.
  - split; [apply (example_mapped 4096)|apply (example_mapped 8192)|apply (example_mapped 12288)];
      cbn; lia.
  - exists 16384. done.
  - intros a. unfold in_driver, in_desc, in_avail, in_used. cbn. lia.
Qed.
