(* ===== verification/Wakeup.v ===== *)
(** * Wakeup: the driver's notifications while a worker goes to sleep

    A worker switches notifications off while it drains its queue, switches
    them on and looks once more before it waits ([process_virtio_queues] in
    [src/devices/virtio/*/worker.rs], [enable_notification] in
    [src/devices/virtio/queue.rs]).  The driver publishes chains meanwhile, and
    leaves the notification out when the device has asked for none.  Both run
    here step by step on shared memory with a store buffer for the worker:
    whatever the interleaving, a worker that waits has not missed a chain, and
    it is the fence of [enable_notification] that makes it so. *)

From S2P Require Import Prelude Bytes HostMem GuestMem Queue FileTraits DescUtils Irqchip VirtioDev Mmio Worker Batch StoreBuffer.

(** ** State *)

(** Where the worker is: in [WaitForMultipleObjects]; about to disable
    notifications, to pop; with a chain to serve; about to enable
    notifications, at the fence, about to read the index again. *)
Inductive WorkerPc : Type :=
| Waiting | Disabling | Popping | Serving (c : DescriptorChain) | Enabling | Fencing | Checking.

(** The three counters have no bound; what memory and the queue hold are their
    low 16 bits. *)
Record Sides : Type := {
  sd_hm : hostmem;
  (** the worker: its store buffer, its queue, how many chains it has popped *)
  sd_buffer : list Store;
  sd_queue : Queue;
  sd_worker : WorkerPc;
  sd_popped : Z;
  (** the queue's event, which wakes one wait *)
  sd_event : bool;
  (** the driver: how many chains it has published, for how many of them it
      has decided whether to notify, and its notifications on their way *)
  sd_published : Z;
  sd_decided : Z;
  sd_kicks : nat;
}.

Definition sd_at (pc : WorkerPc) (t : Sides) : Sides :=
  {| sd_hm := sd_hm t; sd_buffer := sd_buffer t; sd_queue := sd_queue t; sd_worker := pc;
     sd_popped := sd_popped t; sd_event := sd_event t; sd_published := sd_published t;
     sd_decided := sd_decided t; sd_kicks := sd_kicks t |}.
Definition sd_with_memory (hm : hostmem) (ss : list Store) (t : Sides) : Sides :=
  {| sd_hm := hm; sd_buffer := ss; sd_queue := sd_queue t; sd_worker := sd_worker t;
     sd_popped := sd_popped t; sd_event := sd_event t; sd_published := sd_published t;
     sd_decided := sd_decided t; sd_kicks := sd_kicks t |}.
Definition sd_with_queue (q : Queue) (popped : Z) (t : Sides) : Sides :=
  {| sd_hm := sd_hm t; sd_buffer := sd_buffer t; sd_queue := q; sd_worker := sd_worker t;
     sd_popped := popped; sd_event := sd_event t; sd_published := sd_published t;
     sd_decided := sd_decided t; sd_kicks := sd_kicks t |}.
Definition sd_with_event (b : bool) (t : Sides) : Sides :=
  {| sd_hm := sd_hm t; sd_buffer := sd_buffer t; sd_queue := sd_queue t; sd_worker := sd_worker t;
     sd_popped := sd_popped t; sd_event := b; sd_published := sd_published t;
     sd_decided := sd_decided t; sd_kicks := sd_kicks t |}.
Definition sd_with_driver (published decided : Z) (kicks : nat) (t : Sides) : Sides :=
  {| sd_hm := sd_hm t; sd_buffer := sd_buffer t; sd_queue := sd_queue t; sd_worker := sd_worker t;
     sd_popped := sd_popped t; sd_event := sd_event t; sd_published := published;
     sd_decided := decided; sd_kicks := kicks |}.

(** Memory as the worker reads it. *)
Definition sd_view (t : Sides) : hostmem := through (sd_buffer t) (sd_hm t).

(** The stores of a step join the buffer. *)
Definition sd_stores (ss : list Store) (t : Sides) : Sides :=
  sd_with_memory (sd_hm t) (sd_buffer t ++ ss) t.

Section wakeup.
Context {prof : Profile} (mm : MemoryManager).
Variables (pd pa pu : Z) (q0 : Queue).
Implicit Types t : Sides.

(** ** The field that asks for notifications *)

(** [avail_event] with event indices, the flags of the used ring without. *)
Definition control_field : Z :=
  if q_event_idx_enabled q0 then pu + (4 + 8 * q_size q0) else pu.
Definition in_control (a : Z) : Prop := control_field <= a < control_field + 2.
Definition control (hm : hostmem) : Z := word hm control_field 2.

(** What the device asks for, when it asks for a notification of the next
    chain. *)
Definition armed (popped : Z) : Z := if q_event_idx_enabled q0 then wrap 16 popped else 0.

(** A chain that is served touches neither the driver's rings nor that field;
    [add_used] is an example. *)
Definition harmless : Store -> Prop := spares (fun a => in_driver pd pa q0 a \/ in_control a).

(** What [set_notification] stores, if anything: that field. *)
Inductive control_stores : list Store -> Prop :=
| control_none : control_stores []
| control_one bs : bytes_ok bs -> length bs = 2%nat -> control_stores [(control_field, bs)].

(** ** The worker *)

(** A wait resets the event (it is created with [bManualReset] false).  The
    operations of the queue act on the worker's view of memory, and their
    stores go into its buffer.  The fence passes when the buffer is empty;
    [fenced] is true in the program. *)
(* src/devices/virtio/block/worker.rs:146-158, BlockWorker::process_virtio_queues *)
Inductive worker_step (fenced : bool) : Sides -> Sides -> Prop :=
| step_wake t :
    sd_worker t = Waiting -> sd_event t = true ->
    worker_step fenced t (sd_at Disabling (sd_with_event false t))
| step_disable t ss q :
    sd_worker t = Disabling -> control_stores ss ->
    q_disable_notification mm (sd_queue t, sd_view t) = (Ok tt, (q, through ss (sd_view t))) ->
    worker_step fenced t (sd_at Popping (sd_with_queue q (sd_popped t) (sd_stores ss t)))
| step_pop t c q :
    sd_worker t = Popping -> q_pop mm (sd_queue t, sd_view t) = (Ok (Some c), (q, sd_view t)) ->
    worker_step fenced t (sd_at (Serving c) (sd_with_queue q (sd_popped t + 1) t))
| step_drained t q :
    sd_worker t = Popping -> q_pop mm (sd_queue t, sd_view t) = (Ok None, (q, sd_view t)) ->
    worker_step fenced t (sd_at Enabling (sd_with_queue q (sd_popped t) t))
| step_serve t c ss nu n :
    sd_worker t = Serving c -> Forall harmless ss -> fits 16 nu -> fits 16 n ->
    worker_step fenced t
      (sd_at Popping (sd_with_queue (q_set_used nu n (sd_queue t)) (sd_popped t) (sd_stores ss t)))
| step_enable t ss q :
    sd_worker t = Enabling -> control_stores ss ->
    q_set_notification mm true (sd_queue t, sd_view t) = (Ok tt, (q, through ss (sd_view t))) ->
    worker_step fenced t (sd_at Fencing (sd_with_queue q (sd_popped t) (sd_stores ss t)))
| step_fence t :
    sd_worker t = Fencing -> sd_buffer t = [] \/ fenced = false ->
    worker_step fenced t (sd_at Checking t)
| step_check t idx :
    sd_worker t = Checking -> q_avail_idx mm (sd_queue t) (sd_view t) = Ok idx ->
    worker_step fenced t
      (sd_at (if idx =? q_next_avail (sd_queue t) then Waiting else Disabling) t)
| step_drain t s ss :
    sd_buffer t = s :: ss ->
    worker_step fenced t (sd_with_memory (store_to (sd_hm t) s) ss t).

(** ** The driver

    The rules are those of the virtio specification.  The driver has a fence
    of its own between publishing and deciding, so that its index is in memory
    when it reads what the device asks for. *)

(** [n] more chains: the index moves, the chains that the device has not popped
    are acceptable, and the used ring is the device's. *)
Record publishes (t : Sides) (n : Z) (hm : hostmem) : Prop := {
  pb_wf : hostmem_wf hm;
  pb_idx : avail_ring_idx hm pa = wrap 16 (sd_published t + n);
  pb_heads i : sd_popped t <= i < sd_published t + n ->
    head_ok q0 hm pd (avail_ring_entry hm pa (i mod q_size q0)) = true;
  pb_used : agree (in_used pu q0) (sd_hm t) hm;
  pb_room : 0 <= n /\ sd_published t + n <= sd_popped t + q_size q0;
}.

(** A notification must be sent when the device has asked for one of a chain
    published since the last decision, and when its flags are clear. *)
Definition must_notify (t : Sides) : Prop :=
  if q_event_idx_enabled q0
  then exists i, sd_decided t <= i < sd_published t /\ wrap 16 i = control (sd_hm t)
  else sd_decided t < sd_published t /\ control (sd_hm t) = 0.

(** A notification is a write to the register [QueueNotify], which signals the
    event of the queue.  Other agents write memory outside the rings. *)
(* src/devices/virtio/mmio.rs:496-503, MmioTransport::write *)
Inductive driver_step : Sides -> Sides -> Prop :=
| step_publish t n hm :
    publishes t n hm ->
    driver_step t (sd_with_driver (sd_published t + n) (sd_decided t) (sd_kicks t)
                     (sd_with_memory hm (sd_buffer t) t))
| step_notify t :
    driver_step t (sd_with_driver (sd_published t) (sd_published t) (S (sd_kicks t)) t)
| step_silent t :
    ~ must_notify t ->
    driver_step t (sd_with_driver (sd_published t) (sd_published t) (sd_kicks t) t)
| step_kick t n :
    sd_kicks t = S n ->
    driver_step t (sd_with_event true (sd_with_driver (sd_published t) (sd_decided t) n t))
| step_elsewhere t hm :
    hostmem_wf hm -> agree (fun a => in_driver pd pa q0 a \/ in_used pu q0 a) (sd_hm t) hm ->
    driver_step t (sd_with_memory hm (sd_buffer t) t).

Definition side_step (fenced : bool) (t t' : Sides) : Prop :=
  worker_step fenced t t' \/ driver_step t t'.

(** The worker has been started on an empty queue, whose rings the driver has
    cleared. *)
Record at_activation (t : Sides) : Prop := {
  aa_queue : sd_queue t = q0;
  aa_next : q_next_avail q0 = 0;
  aa_hm : hostmem_wf (sd_hm t);
  aa_idx : avail_ring_idx (sd_hm t) pa = 0;
  aa_control : control (sd_hm t) = 0;
  aa_buffer : sd_buffer t = [];
  aa_worker : sd_worker t = Waiting;
  aa_counts : sd_popped t = 0 /\ sd_published t = 0 /\ sd_decided t = 0;
}.

(** Nothing of the driver's is under way. *)
Definition driver_idle (t : Sides) : Prop :=
  sd_decided t = sd_published t /\ sd_kicks t = O.

(** ** The invariant *)

(** After enabling notifications; after the fence. *)
Definition asks (pc : WorkerPc) : bool :=
  match pc with Fencing | Checking | Waiting => true | _ => false end.
Definition fenced_off (pc : WorkerPc) : bool :=
  match pc with Checking | Waiting => true | _ => false end.

Record sides_ok (t : Sides) : Prop := {
  so_moved : moved q0 (sd_queue t);
  so_wf : queue_wf (sd_queue t);
  so_next : q_next_avail (sd_queue t) = wrap 16 (sd_popped t);
  so_hm : hostmem_wf (sd_hm t);
  so_buffer : Forall (spares (in_driver pd pa q0)) (sd_buffer t);
  so_counts : sd_popped t <= sd_published t <= sd_popped t + q_size q0;
  so_decided : sd_decided t <= sd_published t;
  so_idx : avail_ring_idx (sd_hm t) pa = wrap 16 (sd_published t);
  so_heads i : sd_popped t <= i < sd_published t ->
    head_ok q0 (sd_hm t) pd (avail_ring_entry (sd_hm t) pa (i mod q_size q0)) = true;
  so_asks : asks (sd_worker t) = true -> control (sd_view t) = armed (sd_popped t);
  so_empty : fenced_off (sd_worker t) = true -> sd_buffer t = [];
  (** a worker that sleeps with nothing on its way to it *)
  so_asleep : sd_worker t = Waiting -> sd_event t = false -> sd_kicks t = O ->
    sd_decided t <= sd_popped t;
}.

Context (Hmm : mm_wf mm) (Hok : rings_ok mm pd pa pu q0).

Lemma in_control_used a : in_control a -> in_used pu q0 a.
Proof using Hok.
  destruct Hok as [[] _ _ _]. unfold in_control, control_field, in_used.
  destruct (q_event_idx_enabled q0); lia.
Qed.

Lemma control_agree hm hm' : agree in_control hm hm' -> control hm' = control hm.
Proof using. intros H. by apply (word_agree in_control). Qed.

(** A store to the field is no store to the rings of the driver. *)
Lemma control_stores_spare ss : control_stores ss -> Forall (spares (in_driver pd pa q0)) ss.
Proof using Hok.
  intros [|bs Hb Hl]; [done|]. constructor; [|done]. split; [done|].
  unfold stored, zlen. cbn. rewrite Hl. intros a Ha Hd. eapply (ro_apart _ _ _ _ _ Hok a Hd).
  by apply in_control_used.
Qed.

Lemma harmless_driver ss : Forall harmless ss -> Forall (spares (in_driver pd pa q0)) ss.
Proof using. apply spares_weaken. auto. Qed.

Lemma harmless_control ss : Forall harmless ss -> Forall (spares in_control) ss.
Proof using. apply spares_weaken. auto. Qed.

Lemma view_driver t : sides_ok t -> agree (in_driver pd pa q0) (sd_hm t) (sd_view t).
Proof using. intros H. by apply through_spares, (so_buffer t H). Qed.

Lemma view_wf t : sides_ok t -> hostmem_wf (sd_view t).
Proof using. intros H. apply through_wf, (so_hm t H). by eapply spares_bytes, (so_buffer t H). Qed.

Lemma view_idx t : sides_ok t -> avail_ring_idx (sd_view t) pa = wrap 16 (sd_published t).
Proof using Hok.
  intros H. rewrite (avail_idx_agree pd pa q0 (ro_wf _ _ _ _ _ Hok) (sd_hm t)) by by apply view_driver.
  apply (so_idx t H).
Qed.

Lemma view_stores ss t : sd_view (sd_stores ss t) = through ss (sd_view t).
Proof using. unfold sd_view. cbn. apply through_app. Qed.

Lemma view_drain s ss t :
  sd_buffer t = s :: ss -> sd_view (sd_with_memory (store_to (sd_hm t) s) ss t) = sd_view t.
Proof using. intros E. unfold sd_view. cbn. by rewrite E. Qed.

Lemma queue_mapped t : sides_ok t -> rings_mapped mm (sd_queue t) pd pa pu.
Proof using Hok.
  intros H. eapply moved_rings_mapped; [by apply so_moved|]. apply (ro_mapped _ _ _ _ _ Hok).
Qed.

(** ** Operations on the view *)

(** [pop] takes a chain exactly when one is published. *)
Lemma sides_pop t :
  sides_ok t ->
  if decide (sd_published t = sd_popped t)
  then q_pop mm (sd_queue t, sd_view t) = (Ok None, (sd_queue t, sd_view t))
  else exists c, q_pop mm (sd_queue t, sd_view t) =
    (Ok (Some c), (q_set_next_avail (wrap 16 (sd_popped t + 1)) (sd_queue t), sd_view t)).
Proof using Hmm Hok.
  intros H. pose proof (so_counts t H). pose proof (ro_wf _ _ _ _ _ Hok) as Hq0. pose proof (qwf_size q0 Hq0).
  rewrite (pop_mapped mm Hmm pd pa pu) by first
    [by apply view_wf|by apply (so_wf t)|by apply queue_mapped].
  unfold pop_result. rewrite (view_idx t H), (so_next t H), (moved_size q0 _ (so_moved t H)).
  rewrite wrap_mod by apply (ro_size _ _ _ _ _ Hok).
  pose proof (Z.mod_pos_bound (sd_popped t) (q_size q0) ltac:(lia)).
  case_decide as E; [by rewrite E, Z.eqb_refl|].
  destruct (Z.eqb_spec (wrap 16 (sd_published t)) (wrap 16 (sd_popped t))) as [E'|_];
    [by apply (counters_eq q0) in E'; [|apply (ro_wf _ _ _ _ _ Hok)|]|].
  rewrite (avail_entry_agree pd pa q0 Hq0 (sd_hm t) (sd_view t)) by (done || by apply view_driver).
  rewrite (moved_head q0) by apply (so_moved t H).
  rewrite (head_ok_agree pd pa q0 Hq0 (sd_hm t) (sd_view t)); [|by apply view_driver|].
  - rewrite (so_heads t H) by lia. eexists. unfold wadd. by rewrite wrap_add_l.
  - by apply le_val_fits_16, (so_hm t).
Qed.

(** [set_notification] makes at most one store, to the field. *)
Lemma sides_notification t enable :
  sides_ok t ->
  exists ss, control_stores ss /\
    q_set_notification mm enable (sd_queue t, sd_view t) =
      (Ok tt, (sd_queue t, through ss (sd_view t))).
Proof using Hmm Hok.
  intros H. rewrite (set_notification_mapped mm Hmm pd pa pu) by
    first [by apply (so_wf t)|by apply queue_mapped].
  unfold notification_write. rewrite (moved_event _ _ (so_moved t H)), (moved_size _ _ (so_moved t H)).
  assert (forall v, control_stores [(control_field, le_bytes 2 v)]) as Hone.
  { intros v. constructor; [apply le_bytes_ok|apply length_le_bytes]. }
  unfold control_field in Hone. destruct (q_event_idx_enabled q0); [destruct enable|].
  - eexists. split; [apply Hone|done].
  - exists []. split; [constructor|done].
  - eexists. split; [apply Hone|done].
Qed.

(** Enabling stores the request for the next chain. *)
Lemma sides_enable t ss q :
  sides_ok t ->
  q_set_notification mm true (sd_queue t, sd_view t) = (Ok tt, (q, through ss (sd_view t))) ->
  q = sd_queue t /\ control (through ss (sd_view t)) = armed (sd_popped t).
Proof using Hmm Hok.
  intros H E. rewrite (set_notification_mapped mm Hmm pd pa pu) in E by
    first [by apply (so_wf t)|by apply queue_mapped].
  injection E as <- <-. split; [done|]. unfold notification_write, control, control_field, armed.
  rewrite (moved_event _ _ (so_moved t H)), (moved_size _ _ (so_moved t H)), (so_next t H).
  destruct (q_event_idx_enabled q0); apply word_store; [apply wrap_fits; lia|by split].
Qed.

Lemma sides_disable t ss q :
  sides_ok t ->
  q_disable_notification mm (sd_queue t, sd_view t) = (Ok tt, (q, through ss (sd_view t))) ->
  q = sd_queue t.
Proof using Hmm Hok.
  intros H E. unfold q_disable_notification in E.
  rewrite (set_notification_mapped mm Hmm pd pa pu) in E by
    first [by apply (so_wf t)|by apply queue_mapped].
  by injection E.
Qed.

Lemma sides_idx t :
  sides_ok t -> q_avail_idx mm (sd_queue t) (sd_view t) = Ok (wrap 16 (sd_published t)).
Proof using Hmm Hok.
  intros H. rewrite (avail_idx_mapped mm Hmm pd pa pu) by
    first [by apply (so_wf t)|by apply queue_mapped].
  by rewrite view_idx.
Qed.

(** ** Preservation *)

(** A step of the worker that neither pops nor waits: what it leaves of the
    invariant to show. *)
Lemma sides_ok_worker t t' :
  sides_ok t ->
  sd_hm t' = sd_hm t /\ sd_popped t' = sd_popped t /\ sd_published t' = sd_published t /\
  sd_decided t' = sd_decided t ->
  moved q0 (sd_queue t') /\ queue_wf (sd_queue t') /\ q_next_avail (sd_queue t') = q_next_avail (sd_queue t) ->
  Forall (spares (in_driver pd pa q0)) (sd_buffer t') ->
  (asks (sd_worker t') = true -> control (sd_view t') = armed (sd_popped t)) ->
  (fenced_off (sd_worker t') = true -> sd_buffer t' = []) ->
  (sd_worker t' = Waiting -> sd_event t' = false -> sd_kicks t' = O -> sd_decided t <= sd_popped t) ->
  sides_ok t'.
Proof using.
  intros [] (Eh & Ep & Ea & Ed) (Hm & Hw & En) Hb Has Hem Haw.
  split; rewrite ?Eh, ?Ep, ?Ea, ?Ed, ?En; done.
Qed.

Lemma sides_ok_disable t ss q :
  sides_ok t -> control_stores ss ->
  q_disable_notification mm (sd_queue t, sd_view t) = (Ok tt, (q, through ss (sd_view t))) ->
  sides_ok (sd_at Popping (sd_with_queue q (sd_popped t) (sd_stores ss t))).
Proof using Hmm Hok.
  intros H Hc E. apply sides_disable in E as ->; [|done].
  apply (sides_ok_worker t); [done|done|split_and!; [apply H|apply H|done]| |done..].
  apply Forall_app. split; [apply (so_buffer t H)|by apply control_stores_spare].
Qed.

Lemma sides_ok_enable t ss q :
  sides_ok t -> control_stores ss ->
  q_set_notification mm true (sd_queue t, sd_view t) = (Ok tt, (q, through ss (sd_view t))) ->
  sides_ok (sd_at Fencing (sd_with_queue q (sd_popped t) (sd_stores ss t))).
Proof using Hmm Hok.
  intros H Hc E. apply sides_enable in E as [-> Ha]; [|done].
  apply (sides_ok_worker t); [done|done|split_and!; [apply H|apply H|done]| | |done..].
  - apply Forall_app. split; [apply (so_buffer t H)|by apply control_stores_spare].
  - intros _. rewrite <- Ha. f_equal. apply (view_stores ss t).
Qed.

Lemma sides_ok_pop t c q :
  sides_ok t -> q_pop mm (sd_queue t, sd_view t) = (Ok (Some c), (q, sd_view t)) ->
  sides_ok (sd_at (Serving c) (sd_with_queue q (sd_popped t + 1) t)).
Proof using Hmm Hok.
  intros H E. pose proof (sides_pop t H) as Hp. pose proof (so_counts t H).
  case_decide as Ed; [by rewrite Hp in E|]. destruct Hp as (c' & Hp). rewrite Hp in E.
  injection E as _ <-. pose proof (ro_wf _ _ _ _ _ Hok) as [].
  split; cbn [sd_at sd_with_queue sd_hm sd_queue sd_popped sd_published sd_decided sd_buffer
    sd_worker sd_event sd_kicks asks fenced_off]; try (apply H); try done; try lia.
  - apply moved_next_avail, H.
  - apply queue_wf_next_avail; [apply H|]. apply wrap_fits. lia.
  - intros i Hi. apply (so_heads t H). lia.
Qed.

Lemma sides_ok_serve t c ss nu n :
  sides_ok t -> sd_worker t = Serving c -> Forall harmless ss -> fits 16 nu -> fits 16 n ->
  sides_ok
    (sd_at Popping (sd_with_queue (q_set_used nu n (sd_queue t)) (sd_popped t) (sd_stores ss t))).
Proof using.
  intros H Ec Hss Hnu Hn. apply (sides_ok_worker t); try done.
  - split_and!; [apply moved_used, H|apply queue_wf_used; [apply H|done..]|done].
  - apply Forall_app. split; [apply (so_buffer t H)|by apply harmless_driver].
Qed.

(** Reading an index other than its own, the worker goes round again; having
    read its own, it has popped everything. *)
Lemma sides_ok_check t idx :
  sides_ok t -> sd_worker t = Checking -> q_avail_idx mm (sd_queue t) (sd_view t) = Ok idx ->
  sides_ok (sd_at (if idx =? q_next_avail (sd_queue t) then Waiting else Disabling) t).
Proof using Hmm Hok.
  intros H Ec E. rewrite (sides_idx t H) in E. injection E as <-. rewrite (so_next t H).
  destruct (Z.eqb_spec (wrap 16 (sd_published t)) (wrap 16 (sd_popped t))) as [E|_].
  - apply (counters_eq q0) in E; [|apply (ro_wf _ _ _ _ _ Hok)|apply (so_counts t H)].
    apply (sides_ok_worker t); [done|done|split_and!; [apply H|apply H|done]|apply H| | |].
    + intros _. apply (so_asks t H). by rewrite Ec.
    + intros _. apply (so_empty t H). by rewrite Ec.
    + intros _ _ _. rewrite <- E. apply (so_decided t H).
  - apply (sides_ok_worker t); [done|done|split_and!; [apply H|apply H|done]|apply H|done..].
Qed.

(** A store that becomes visible leaves the worker's view as it is. *)
Lemma sides_ok_drain t s ss :
  sides_ok t -> sd_buffer t = s :: ss ->
  sides_ok (sd_with_memory (store_to (sd_hm t) s) ss t).
Proof using Hok.
  intros H E. pose proof (so_buffer t H) as Hb. rewrite E in Hb.
  apply Forall_cons in Hb as [Hs Hss].
  assert (agree (in_driver pd pa q0) (sd_hm t) (store_to (sd_hm t) s)) as Ha
    by by apply store_to_spares.
  pose proof (ro_wf _ _ _ _ _ Hok) as Hq0. pose proof (qwf_size q0 Hq0).
  split; cbn [sd_with_memory sd_hm sd_queue sd_popped sd_published sd_decided sd_buffer
    sd_worker sd_event sd_kicks]; try (apply H); try done.
  - apply host_write_wf; [apply H|apply Hs].
  - rewrite (avail_idx_agree pd pa q0 Hq0 (sd_hm t)) by done. apply H.
  - intros i Hi. rewrite (avail_entry_agree pd pa q0 Hq0 (sd_hm t)) by
      first [done|by apply Z.mod_pos_bound; lia].
    rewrite (head_ok_agree pd pa q0 Hq0 (sd_hm t)); [by apply (so_heads t H)|done|].
    by apply le_val_fits_16, (so_hm t).
  - intros Has. change (control (sd_view (sd_with_memory (store_to (sd_hm t) s) ss t)) =
      armed (sd_popped t)). rewrite (view_drain s ss t E). by apply (so_asks t H).
  - intros Hf. apply (so_empty t H) in Hf. by rewrite E in Hf.
Qed.

Lemma worker_step_ok t t' : worker_step true t t' -> sides_ok t -> sides_ok t'.
Proof using Hmm Hok.
  intros Hs H. destruct Hs.
  - apply (sides_ok_worker t); [done|done|split_and!; [apply H|apply H|done]|apply H|done..].
  - by apply sides_ok_disable.
  - by apply sides_ok_pop.
  - assert (q = sd_queue t) as ->.
    { pose proof (sides_pop t H) as Hp. case_decide; [by rewrite Hp in *; simplify_eq|].
      destruct Hp as (c & Hp). by rewrite Hp in *. }
    apply (sides_ok_worker t); [done|done|split_and!; [apply H|apply H|done]|apply H|done..].
  - by eapply sides_ok_serve.
  - by apply sides_ok_enable.
  - destruct H1 as [Hb|]; [|done].
    apply (sides_ok_worker t); [done|done|split_and!; [apply H|apply H|done]|apply H| |done..].
    intros _. apply (so_asks t H). by rewrite H0.
  - by apply sides_ok_check.
  - by apply sides_ok_drain.
Qed.

(** What the driver and other agents do leaves the field alone. *)
Lemma sides_view_control t hm :
  agree (in_used pu q0) (sd_hm t) hm ->
  control (through (sd_buffer t) hm) = control (sd_view t).
Proof using Hok.
  intros Ha. apply control_agree, through_agree. eapply agree_weaken; [|exact Ha].
  apply in_control_used.
Qed.

(** A driver that may stay silent has nothing to tell a sleeping worker. *)
Lemma silent_asleep t :
  sides_ok t -> ~ must_notify t -> sd_worker t = Waiting -> sd_event t = false ->
  sd_kicks t = O -> sd_published t <= sd_popped t.
Proof using.
  intros H Hn Hw He Hk. pose proof (so_asleep t H Hw He Hk). pose proof (so_counts t H).
  pose proof (so_asks t H) as Ha. rewrite Hw in Ha. specialize (Ha eq_refl).
  unfold sd_view in Ha. rewrite (so_empty t H) in Ha by by rewrite Hw. cbn in Ha.
  destruct (decide (sd_published t <= sd_popped t)); [done|]. exfalso. apply Hn.
  unfold must_notify, armed in *. destruct (q_event_idx_enabled q0).
  - exists (sd_popped t). split; [lia|done].
  - split; [lia|done].
Qed.

Lemma driver_step_ok t t' : driver_step t t' -> sides_ok t -> sides_ok t'.
Proof using Hok.
  intros Hs H. pose proof (so_decided t H). pose proof (so_counts t H).
  destruct Hs as [t n hm [Hwf Hi Hh Hu Hroom]|t|t Hn|t n Hk|t hm Hwf Ha];
    (split; cbn [sd_with_memory sd_with_driver sd_with_event sd_hm sd_queue sd_popped sd_published
      sd_decided sd_buffer sd_worker sd_event sd_kicks]; try (apply H); try done; try lia).
  - intros Has. by rewrite <- (so_asks t H Has), <- (sides_view_control t hm).
  - intros Hw He Hk. by apply silent_asleep.
  - rewrite (avail_idx_agree pd pa q0 (ro_wf _ _ _ _ _ Hok) (sd_hm t)); [apply H|].
    eapply agree_weaken; [|exact Ha]. by left.
  - assert (agree (in_driver pd pa q0) (sd_hm t) hm) as Hd
      by (eapply agree_weaken; [|exact Ha]; by left).
    pose proof (qwf_size q0 (ro_wf _ _ _ _ _ Hok)). intros i Hi.
    rewrite (avail_entry_agree pd pa q0 (ro_wf _ _ _ _ _ Hok) (sd_hm t)) by
      first [done|by apply Z.mod_pos_bound; lia].
    rewrite (head_ok_agree pd pa q0 (ro_wf _ _ _ _ _ Hok) (sd_hm t)); [by apply (so_heads t H)|done|].
    by apply le_val_fits_16, (so_hm t).
  - intros Has. rewrite <- (so_asks t H Has), <- (sides_view_control t hm); [done|].
    eapply agree_weaken; [|exact Ha]. by right.
Qed.

Lemma activation_ok t : at_activation t -> sides_ok t.
Proof using Hok.
  intros [Eq En Hhm Hi Hc Hb Hw (Ep & Ea & Ed)]. pose proof (ro_wf _ _ _ _ _ Hok) as [].
  split; rewrite ?Eq, ?Ep, ?Ea, ?Ed, ?Hb, ?En; try done; try lia.
  - apply moved_refl.
  - intros _. unfold sd_view. rewrite Hb. cbn [through fold_left]. rewrite Hc. unfold armed.
    by destruct (q_event_idx_enabled q0).
Qed.

Lemma reachable_sides t0 t : at_activation t0 -> steps (side_step true) t0 t -> sides_ok t.
Proof using Hmm Hok.
  intros H0 Hs. eapply (steps_invariant (side_step true) sides_ok); [|exact Hs|by apply activation_ok].
  intros x y [Hw|Hd]; [by apply worker_step_ok|by apply driver_step_ok].
Qed.

(** ** Progress *)

(** The rounds that the worker still makes while the driver is silent; a
    store that leaves the buffer is no round. *)
Definition rounds_left (t : Sides) : nat :=
  let p := Z.to_nat (sd_published t - sd_popped t) in
  (if sd_event t then 3 * p + 7 else 0) +
  match sd_worker t with
  | Waiting => 0
  | Disabling => 3 * p + 6
  | Popping => 3 * p + 5
  | Serving _ => 3 * p + 6
  | Enabling => if decide (p = 0)%nat then 4 else 3 * p + 9
  | Fencing => if decide (p = 0)%nat then 3 else 3 * p + 8
  | Checking => if decide (p = 0)%nat then 2 else 3 * p + 7
  end.

Lemma worker_step_progress t t' :
  worker_step true t t' -> sides_ok t ->
  (rounds_left t' < rounds_left t)%nat \/
  rounds_left t' = rounds_left t /\ (length (sd_buffer t') < length (sd_buffer t))%nat.
Proof using Hmm Hok.
  intros Hs H. pose proof (so_counts t H).
  destruct Hs as [t Ew Ee|t ss q Ew Hc E|t c q Ew E|t q Ew E|t c ss nu n Ew|t ss q Ew Hc E|t Ew Hb
    |t idx Ew E|t s ss E]; [left..|right; split; [done|rewrite E; cbn; lia]];
    unfold rounds_left; cbn [sd_at sd_with_queue sd_with_event sd_stores sd_with_memory sd_event
      sd_published sd_popped sd_worker]; rewrite Ew; try lia.
  - rewrite Ee. lia.
  - pose proof (sides_pop t H) as Hp. case_decide as Ed; [by rewrite Hp in E|].
    destruct (sd_event t); lia.
  - pose proof (sides_pop t H) as Hp.
    case_decide as Ed; [|destruct Hp as (c & Hp); by rewrite Hp in E].
    rewrite decide_True; lia.
  - case_decide; lia.
  - case_decide; lia.
  - rewrite (sides_idx t H) in E. injection E as <-. rewrite (so_next t H).
    destruct (Z.eqb_spec (wrap 16 (sd_published t)) (wrap 16 (sd_popped t))) as [E'|E'].
    + case_decide; lia.
    + rewrite decide_False; [lia|]. intros E0. apply E'. f_equal. lia.
Qed.

(** A worker that cannot step waits, and its stores are in memory. *)
Lemma finished_waits t :
  sides_ok t -> finished (worker_step true) t ->
  sd_worker t = Waiting /\ sd_event t = false /\ sd_buffer t = [].
Proof using Hmm Hok.
  intros H Hf. assert (sd_buffer t = []) as Hb.
  { destruct (sd_buffer t) as [|s ss] eqn:Eb; [done|]. destruct (Hf _ (step_drain true t s ss Eb)). }
  destruct (sd_worker t) eqn:Ew.
  - split_and!; [done| |done]. destruct (sd_event t) eqn:Ee; [|done].
    destruct (Hf _ (step_wake true t Ew Ee)).
  - destruct (sides_notification t false H) as (ss & Hc & E).
    destruct (Hf _ (step_disable true t ss _ Ew Hc E)).
  - pose proof (sides_pop t H) as Hp. case_decide.
    + destruct (Hf _ (step_drained true t _ Ew Hp)).
    + destruct Hp as (c & Hp). destruct (Hf _ (step_pop true t c _ Ew Hp)).
  - assert (fits 16 0) by (split; lia).
    destruct (Hf _ (step_serve true t c [] 0 0 Ew ltac:(done) ltac:(done) ltac:(done))).
  - destruct (sides_notification t true H) as (ss & Hc & E).
    destruct (Hf _ (step_enable true t ss _ Ew Hc E)).
  - destruct (Hf _ (step_fence true t Ew (or_introl Hb))).
  - destruct (Hf _ (step_check true t _ Ew (sides_idx t H))).
Qed.

Lemma worker_steps_ok t t' : steps (worker_step true) t t' -> sides_ok t -> sides_ok t'.
Proof using Hmm Hok. intros Hs. apply (steps_invariant _ _ _ _ worker_step_ok Hs). Qed.

(** The worker leaves the driver's part alone. *)
Lemma worker_step_driver t t' :
  worker_step true t t' ->
  sd_published t' = sd_published t /\ sd_decided t' = sd_decided t /\ sd_kicks t' = sd_kicks t.
Proof using. by destruct 1. Qed.

Lemma worker_steps_driver t t' :
  steps (worker_step true) t t' ->
  sd_published t' = sd_published t /\ sd_decided t' = sd_decided t /\ sd_kicks t' = sd_kicks t.
Proof using.
  induction 1 as [|a b c Hs _ IH]; [done|]. destruct IH as (-> & -> & ->).
  by apply worker_step_driver.
Qed.

(** *** The operations in steps *)

(** The whole buffer becomes visible. *)
Lemma drain_all fenced t :
  steps (worker_step fenced) t (sd_with_memory (sd_view t) [] t).
Proof using.
  unfold sd_view. remember (sd_buffer t) as ss eqn:E. revert t E.
  induction ss as [|s ss IH]; intros t E; cbn [through fold_left].
  - destruct t. cbn in *. subst. constructor.
  - eapply steps_cons; [by apply step_drain|].
    exact (IH (sd_with_memory (store_to (sd_hm t) s) ss t) eq_refl).
Qed.

(** Undisturbed, the three steps from [Enabling] on are [enable_notification],
    and the worker goes round when it answers [true]. *)
Lemma enable_notification_steps t :
  sides_ok t -> sd_worker t = Enabling ->
  exists more hm, q_enable_notification mm (sd_queue t, sd_view t) = (Ok more, (sd_queue t, hm)) /\
    steps (worker_step true) t
      (sd_at (if more then Disabling else Waiting) (sd_with_memory hm [] t)).
Proof using Hmm Hok.
  intros H Ew. destruct (sides_notification t true H) as (ss & Hc & E).
  pose proof (sides_ok_enable t ss _ H Hc E) as H1.
  set (t1 := sd_at Fencing (sd_with_queue (sd_queue t) (sd_popped t) (sd_stores ss t))) in *.
  assert (sides_ok (sd_with_memory (sd_view t1) [] t1)) as H2.
  { eapply worker_steps_ok; [apply (drain_all true)|done]. }
  assert (sd_view t1 = through ss (sd_view t)) as Ev by apply (view_stores ss t).
  pose proof (sides_idx _ H2) as Hi. rewrite Ev in Hi, H2.
  change (q_avail_idx mm (sd_queue t) (through ss (sd_view t)) =
    Ok (wrap 16 (sd_published t))) in Hi.
  do 2 eexists. split.
  - unfold q_enable_notification. unfold mbind at 1, M_bind at 1. rewrite E. run_St.
    by rewrite Hi.
  - eapply steps_cons; [by apply (step_enable true t ss)|]. fold t1.
    eapply steps_trans; [apply (drain_all true)|]. rewrite Ev.
    eapply steps_cons; [by apply step_fence; [done|left]|].
    eapply steps_cons; [by apply (step_check true _ (wrap 16 (sd_published t)))|].
    change (sd_queue (sd_at Checking _)) with (sd_queue t).
    by destruct (wrap 16 (sd_published t) =? q_next_avail (sd_queue t)); apply steps_refl.
Qed.

(** [add_used] is the part of serving a chain that every worker has. *)
Lemma add_used_harmless t head len :
  sides_ok t -> 0 <= head < q_size q0 ->
  exists ss nu n, Forall harmless ss /\ fits 16 nu /\ fits 16 n /\
    q_add_used mm head len (sd_queue t, sd_view t) =
      (Ok tt, (q_set_used nu n (sd_queue t), through ss (sd_view t))).
Proof using Hmm Hok.
  intros H Hh. pose proof (moved_size _ _ (so_moved t H)) as Es.
  pose proof (ro_wf _ _ _ _ _ Hok) as []. set (i := q_next_used (sd_queue t) mod q_size q0).
  assert (0 <= i < q_size q0) as Hi by (apply Z.mod_pos_bound; lia).
  exists [(pu + (4 + 8 * i), le_bytes 4 head ++ le_bytes 4 len);
          (pu + 2, le_bytes 2 (wadd 16 (q_next_used (sd_queue t)) 1))].
  do 2 eexists. split_and!; [|apply wadd_fits; lia|apply wadd_fits; lia|].
  - assert (forall p bs, bytes_ok bs -> pu + 2 <= p -> p + zlen bs <= pu + (4 + 8 * q_size q0) ->
      harmless (p, bs)) as Hs.
    { intros p bs Hb Hp He. split; [done|]. unfold stored. cbn [fst snd]. intros a Ha [Hd|Hc].
      - eapply (ro_apart _ _ _ _ _ Hok a Hd). unfold in_used. lia.
      - unfold in_control, control_field in Hc. destruct (q_event_idx_enabled q0); lia. }
    constructor; [|constructor; [|done]]; apply Hs; unfold zlen; autorewrite with buffer_len;
      try lia; [|apply le_bytes_ok].
    apply bytes_ok_app. split; apply le_bytes_ok.
  - rewrite (add_used_mapped mm Hmm pd pa pu); [|by apply (so_wf t)|by apply queue_mapped|].
    + unfold used_write, i. by rewrite Es.
    + by rewrite Es.
Qed.

(** ** A chain is never left behind *)

(** C9: no notification is lost, although the driver leaves notifications out
    and stores take time to become visible.  However the worker and the driver
    are interleaved, from the state they have reached the worker alone comes
    to rest after finitely many steps, waiting; and once the driver has
    published, decided and notified as it must, a worker at rest has popped
    every chain that was published. *)
Theorem no_wakeup_is_lost t0 t :
  at_activation t0 -> steps (side_step true) t0 t ->
  ends (worker_step true) t /\
  forall t', steps (worker_step true) t t' -> finished (worker_step true) t' ->
    sd_worker t' = Waiting /\ (driver_idle t -> sd_popped t' = sd_published t).
Proof using Hmm Hok.
  intros H0 Hs. pose proof (reachable_sides t0 t H0 Hs) as H. split.
  - apply (ends_by _ sides_ok rounds_left (fun t => length (sd_buffer t))); [| |done].
    + intros x y. apply worker_step_ok.
    + apply worker_step_progress.
  - intros t' Hw Hf. pose proof (worker_steps_ok t t' Hw H) as H'.
    destruct (finished_waits t' H' Hf) as (Ew & Ee & _). split; [done|]. intros [Ed Ek].
    destruct (worker_steps_driver t t' Hw) as (Ea' & Ed' & Ek').
    pose proof (so_asleep t' H' Ew Ee ltac:(congruence)). pose proof (so_counts t' H'). lia.
Qed.

End wakeup.

(** *** A concrete run *)

#[local] Abbreviation hpd := 1048576.
#[local] Abbreviation hpa := 1052672.
#[local] Abbreviation hpu := 1056768.

(** [n] chains published, all of them the descriptor 0. *)
Definition wakeup_hm (n : Z) : hostmem := host_write (fun _ => 0) (hpa + 2) (le_bytes 2 n).

Definition wakeup_start : Sides :=
  {| sd_hm := wakeup_hm 0; sd_buffer := []; sd_queue := cleared_queue; sd_worker := Waiting;
     sd_popped := 0; sd_event := false; sd_published := 0; sd_decided := 0; sd_kicks := 0 |}.

Lemma wakeup_hm_wf n : hostmem_wf (wakeup_hm n).
Proof. apply host_write_wf; [intros a; unfold is_byte; lia|apply le_bytes_ok]. Qed.

Lemma wakeup_activated : at_activation hpa hpu cleared_queue wakeup_start.
Proof. split; try done. apply wakeup_hm_wf. Qed.

(** The first chain is published and notified. *)
Definition wakeup_kicked : Sides :=
  {| sd_hm := wakeup_hm 1; sd_buffer := []; sd_queue := cleared_queue; sd_worker := Waiting;
     sd_popped := 0; sd_event := true; sd_published := 1; sd_decided := 1; sd_kicks := 0 |}.

Lemma wakeup_publishes t n :
  sd_popped t = n -> sd_published t = n -> sd_hm t = wakeup_hm n -> n = 0 \/ n = 1 ->
  publishes hpd hpa hpu cleared_queue t 1 (wakeup_hm (n + 1)).
Proof.
  intros Ep Ea Eh Hn. split; rewrite ?Ep, ?Ea, ?Eh.
  - apply wakeup_hm_wf.
  - destruct Hn as [->| ->]; reflexivity.
  - intros i Hi. replace i with n by lia. destruct Hn as [->| ->]; vm_compute; reflexivity.
  - intros a Ha. unfold in_used in Ha. unfold wakeup_hm.
    rewrite !host_write_out; [done| |]; unfold zlen; rewrite length_le_bytes; lia.
  - cbn. lia.
Qed.

Lemma wakeup_kicked_reached fenced :
  steps (side_step (prof:=dev_profile) example_mm hpd hpa hpu cleared_queue fenced)
    wakeup_start wakeup_kicked.
Proof.
  eapply steps_cons; [right; apply (step_publish hpd hpa hpu cleared_queue wakeup_start 1 (wakeup_hm 1))|].
  { by apply (wakeup_publishes wakeup_start 0); [..|left]. }
  eapply steps_cons; [right; apply step_notify|].
  eapply steps_cons; [right; by apply (step_kick _ _ _ _ _ O)|]. apply steps_refl.
Qed.

Lemma no_wakeup_is_lost_witness :
  ends (worker_step (prof:=dev_profile) example_mm hpd hpa hpu cleared_queue true) wakeup_kicked /\
  forall t', steps (worker_step (prof:=dev_profile) example_mm hpd hpa hpu cleared_queue true)
               wakeup_kicked t' ->
    finished (worker_step (prof:=dev_profile) example_mm hpd hpa hpu cleared_queue true) t' ->
    sd_worker t' = Waiting /\ (driver_idle wakeup_kicked -> sd_popped t' = 1).
Proof.
  apply (no_wakeup_is_lost (prof:=dev_profile) example_mm hpd hpa hpu cleared_queue
           example_mm_wf cleared_rings wakeup_start wakeup_kicked).
  - apply wakeup_activated.
  - apply wakeup_kicked_reached.
Defined.

(** *** Without the fence *)

(** The worker has gone to sleep again; its request for a notification of the
    second chain is still in its buffer. *)
Definition wakeup_asleep : Sides :=
  {| sd_hm := wakeup_hm 1; sd_buffer := [(hpu + 36, le_bytes 2 1)];
     sd_queue := q_set_next_avail 1 cleared_queue; sd_worker := Waiting;
     sd_popped := 1; sd_event := false; sd_published := 1; sd_decided := 1; sd_kicks := 0 |}.

(** The second chain is published; the driver has found no request for it. *)
Definition wakeup_lost : Sides :=
  {| sd_hm := store_to (wakeup_hm 2) (hpu + 36, le_bytes 2 1); sd_buffer := [];
     sd_queue := q_set_next_avail 1 cleared_queue; sd_worker := Waiting;
     sd_popped := 1; sd_event := false; sd_published := 2; sd_decided := 2; sd_kicks := 0 |}.

Lemma wakeup_asleep_reached :
  steps (worker_step (prof:=dev_profile) example_mm hpd hpa hpu cleared_queue false)
    wakeup_kicked wakeup_asleep.
Proof.
  eapply steps_cons; [by apply step_wake|].
  eapply steps_cons; [by apply (step_disable _ _ _ _ _ _ _ [] cleared_queue); [|constructor|]|].
  eapply steps_cons;
    [by apply (step_pop _ _ _ _ _ _ _ (table_chain cleared_queue (wakeup_hm 1) hpd 0)
                 (q_set_next_avail 1 cleared_queue))|].
  eapply steps_cons;
    [by apply (step_serve _ _ _ _ _ _ _ (table_chain cleared_queue (wakeup_hm 1) hpd 0) [] 0 0)|].
  eapply steps_cons; [by apply (step_drained _ _ _ _ _ _ _ (q_set_next_avail 1 cleared_queue))|].
  eapply steps_cons;
    [by apply (step_enable _ _ _ _ _ _ _ [(hpu + 36, le_bytes 2 1)]
                 (q_set_next_avail 1 cleared_queue));
       [|constructor; [apply le_bytes_ok|]|]|].
  eapply steps_cons; [by apply step_fence; [|right]|].
  eapply steps_cons; [by apply (step_check _ _ _ _ _ _ _ 1)|].
  apply steps_refl.
Qed.

Lemma wakeup_lost_reached :
  steps (side_step (prof:=dev_profile) example_mm hpd hpa hpu cleared_queue false)
    wakeup_asleep wakeup_lost.
Proof.
  eapply steps_cons; [right; apply (step_publish hpd hpa hpu cleared_queue wakeup_asleep 1 (wakeup_hm 2))|].
  { by apply (wakeup_publishes wakeup_asleep 1); [..|right]. }
  eapply steps_cons; [right; apply step_silent|].
  { intros (i & Hi & E). cbn in Hi. assert (i = 1) as -> by lia. vm_compute in E. done. }
  eapply steps_cons; [left; by apply step_drain|]. apply steps_refl.
Qed.

(** The fence is needed: if the read of the index could overtake the store of
    the request, a chain could be published that nobody is told of.  The
    worker sleeps for good although the driver kept its rules. *)
Theorem unfenced_wakeup_is_lost :
  exists t, steps (side_step (prof:=dev_profile) example_mm hpd hpa hpu cleared_queue false)
              wakeup_start t /\
    finished (worker_step (prof:=dev_profile) example_mm hpd hpa hpu cleared_queue false) t /\
    driver_idle t /\ sd_popped t < sd_published t.
Proof.
  exists wakeup_lost. split_and!; [|intros t' Hs; by inversion Hs|done|done].
  eapply steps_trans; [apply wakeup_kicked_reached|].
  eapply steps_trans; [|apply wakeup_lost_reached].
  eapply steps_subrel; [|apply wakeup_asleep_reached]. by left.
Qed.
