(* ===== verification/Completion.v ===== *)
(** * Completion: the device's interrupts while the driver goes to sleep

    The other direction of [Wakeup]: a worker returns chains through the used
    ring and, at the end of a round, asks [needs_notification]
    ([src/devices/virtio/queue.rs]) whether the driver wants an interrupt; a
    driver that has found the ring empty names the next chain it waits for
    ([used_event]), looks once more and sleeps.  As long as a round returns
    fewer than 65536 chains no interrupt is missing; the wrapping count of a
    longer round hides chains from the question. *)

From S2P Require Import Prelude Bytes HostMem GuestMem Queue FileTraits DescUtils Irqchip VirtioDev Mmio Worker Batch StoreBuffer.

(** ** State *)

(** Where the worker is in a round: between the chains, at the fence of
    [needs_notification], about to read [used_event], about to interrupt. *)
Inductive RoundPc : Type := Returning | Completing | Asking | Interrupting.

(** The driver looks for returned chains; has named the one it waits for; has
    found none and sleeps. *)
Inductive DriverPc : Type := Looking | Naming | Asleep.

Record Returns : Type := {
  rt_hm : hostmem;
  (** the worker: its buffer and queue, whether the round has returned a chain,
      how many were returned, and how many when it last asked *)
  rt_buffer : list Store;
  rt_queue : Queue;
  rt_worker : RoundPc;
  rt_used_any : bool;
  rt_returned : Z;
  rt_asked : Z;
  rt_interrupt : bool;
  (** the driver, and how many chains it has taken back *)
  rt_driver : DriverPc;
  rt_taken : Z;
}.

Definition rt_at (pc : RoundPc) (used_any : bool) (asked : Z) (t : Returns) : Returns :=
  {| rt_hm := rt_hm t; rt_buffer := rt_buffer t; rt_queue := rt_queue t; rt_worker := pc;
     rt_used_any := used_any; rt_returned := rt_returned t; rt_asked := asked;
     rt_interrupt := rt_interrupt t; rt_driver := rt_driver t; rt_taken := rt_taken t |}.
Definition rt_with_memory (hm : hostmem) (ss : list Store) (t : Returns) : Returns :=
  {| rt_hm := hm; rt_buffer := ss; rt_queue := rt_queue t; rt_worker := rt_worker t;
     rt_used_any := rt_used_any t; rt_returned := rt_returned t; rt_asked := rt_asked t;
     rt_interrupt := rt_interrupt t; rt_driver := rt_driver t; rt_taken := rt_taken t |}.
Definition rt_with_queue (q : Queue) (returned : Z) (t : Returns) : Returns :=
  {| rt_hm := rt_hm t; rt_buffer := rt_buffer t; rt_queue := q; rt_worker := rt_worker t;
     rt_used_any := rt_used_any t; rt_returned := returned; rt_asked := rt_asked t;
     rt_interrupt := rt_interrupt t; rt_driver := rt_driver t; rt_taken := rt_taken t |}.
Definition rt_with_driver (pc : DriverPc) (taken : Z) (interrupt : bool) (t : Returns) : Returns :=
  {| rt_hm := rt_hm t; rt_buffer := rt_buffer t; rt_queue := rt_queue t; rt_worker := rt_worker t;
     rt_used_any := rt_used_any t; rt_returned := rt_returned t; rt_asked := rt_asked t;
     rt_interrupt := interrupt; rt_driver := pc; rt_taken := taken |}.

(** Memory as the worker reads it. *)
Definition rt_view (t : Returns) : hostmem := through (rt_buffer t) (rt_hm t).

Section completion.
Context {prof : Profile} (mm : MemoryManager).
Variables (pd pa pu : Z) (q0 : Queue).
Implicit Types t : Returns.

(** The index of the used ring, and the driver's [used_event]. *)
Definition in_index (a : Z) : Prop := pu + 2 <= a < pu + 4.
Definition used_index (hm : hostmem) : Z := word hm (pu + 2) 2.
Definition event_field : Z := pa + (4 + 2 * q_size q0).
Definition event_of (hm : hostmem) : Z := word hm event_field 2.

(** The stores of [add_used]: an element, then the index. *)
Inductive return_stores : list Store -> Prop :=
| return_both slot elem idx :
    pu + 4 <= slot -> slot + 8 <= pu + (4 + 8 * q_size q0) -> bytes_ok elem -> length elem = 8%nat ->
    bytes_ok idx -> length idx = 2%nat ->
    return_stores [(slot, elem); (pu + 2, idx)].

(** The stores of serving a chain spare the driver's rings and the index. *)
Definition inner : Store -> Prop := spares (fun a => in_driver pd pa q0 a \/ in_index a).

(** ** The worker *)

(** [short]: no round returns 65536 chains.  At most a queue of chains is with
    the device. *)
(* src/devices/virtio/block/worker.rs:160-217, BlockWorker::process_queue *)
Inductive round_step (short : bool) : Returns -> Returns -> Prop :=
| step_return t head len ss q :
    rt_worker t = Returning -> return_stores ss -> 0 <= head < q_size q0 ->
    q_add_used mm head len (rt_queue t, rt_view t) = (Ok tt, (q, through ss (rt_view t))) ->
    rt_returned t < rt_taken t + q_size q0 ->
    (short = true -> rt_returned t + 1 < rt_asked t + 2 ^ 16) ->
    round_step short t
      (rt_at Returning true (rt_asked t)
         (rt_with_queue q (rt_returned t + 1) (rt_with_memory (rt_hm t) (rt_buffer t ++ ss) t)))
| step_inner t ss :
    rt_worker t = Returning -> Forall inner ss ->
    round_step short t (rt_with_memory (rt_hm t) (rt_buffer t ++ ss) t).

(** What is left of a round once its last chain has been returned: an
    interrupt if a chain was returned and [needs_notification] says so. *)
(* src/devices/virtio/block/worker.rs:209-216, BlockWorker::process_queue *)
Inductive finish_step : Returns -> Returns -> Prop :=
| step_complete t :
    rt_worker t = Returning -> rt_used_any t = true ->
    finish_step t (rt_at Completing (rt_used_any t) (rt_asked t) t)
| step_fence t :
    rt_worker t = Completing -> rt_buffer t = [] ->
    finish_step t (rt_at Asking (rt_used_any t) (rt_asked t) t)
| step_ask t b q :
    rt_worker t = Asking ->
    q_needs_notification mm (rt_queue t, rt_view t) = (Ok b, (q, rt_view t)) ->
    finish_step t
      (rt_at (if b then Interrupting else Returning) false (rt_returned t)
         (rt_with_queue q (rt_returned t) t))
| step_interrupt t :
    rt_worker t = Interrupting ->
    finish_step t
      (rt_at Returning (rt_used_any t) (rt_asked t)
         (rt_with_driver (rt_driver t) (rt_taken t) true t))
| step_drain t s ss :
    rt_buffer t = s :: ss -> finish_step t (rt_with_memory (store_to (rt_hm t) s) ss t).

(** ** The driver

    As the virtio specification has it; between naming the chain and looking
    again the driver has a fence. *)
Inductive taker_step : Returns -> Returns -> Prop :=
| step_take t :
    rt_driver t = Looking -> used_index (rt_hm t) <> wrap 16 (rt_taken t) ->
    taker_step t (rt_with_driver Looking (rt_taken t + 1) (rt_interrupt t) t)
| step_name t :
    rt_driver t = Looking ->
    taker_step t
      (rt_with_driver Naming (rt_taken t) (rt_interrupt t)
         (rt_with_memory
            (if q_event_idx_enabled q0
             then host_write (rt_hm t) event_field (le_bytes 2 (wrap 16 (rt_taken t)))
             else rt_hm t) (rt_buffer t) t))
| step_look t :
    rt_driver t = Naming ->
    taker_step t
      (rt_with_driver
         (if used_index (rt_hm t) =? wrap 16 (rt_taken t) then Asleep else Looking)
         (rt_taken t) (rt_interrupt t) t)
| step_interrupted t :
    rt_interrupt t = true -> taker_step t (rt_with_driver Looking (rt_taken t) false t)
| step_elsewhere t hm :
    hostmem_wf hm ->
    agree (fun a => event_field <= a < event_field + 2 \/ in_used pu q0 a) (rt_hm t) hm ->
    taker_step t (rt_with_memory hm (rt_buffer t) t).

Definition return_step (short : bool) (t t' : Returns) : Prop :=
  round_step short t t' \/ finish_step t t' \/ taker_step t t'.

(** The rings have been cleared and nothing returned yet. *)
Record returns_start (t : Returns) : Prop := {
  ra_queue : rt_queue t = q0;
  ra_used : q_next_used q0 = 0 /\ q_num_added q0 = 0;
  ra_hm : hostmem_wf (rt_hm t);
  ra_index : used_index (rt_hm t) = 0;
  ra_buffer : rt_buffer t = [];
  ra_worker : rt_worker t = Returning /\ rt_used_any t = false;
  ra_driver : rt_driver t = Looking;
  ra_counts : rt_returned t = 0 /\ rt_asked t = 0 /\ rt_taken t = 0;
}.

(** The worker has finished its round. *)
Definition at_rest (t : Returns) : Prop := rt_worker t = Returning /\ rt_used_any t = false.

(** ** The invariant *)

(** The indices in a buffer count up from [v] to [u]. *)
Inductive buffered : Z -> list Store -> Z -> Prop :=
| buffered_nil v : buffered v [] v
| buffered_index v u bs ss :
    bytes_ok bs -> length bs = 2%nat -> le_val bs = wrap 16 (v + 1) -> buffered (v + 1) ss u ->
    buffered v ((pu + 2, bs) :: ss) u
| buffered_other v u s ss : spares in_index s -> buffered v ss u -> buffered v (s :: ss) u.

Record returns_ok (t : Returns) : Prop := {
  rk_moved : moved q0 (rt_queue t);
  rk_wf : queue_wf (rt_queue t);
  rk_used : q_next_used (rt_queue t) = wrap 16 (rt_returned t);
  rk_added : q_event_idx_enabled q0 = true ->
    q_num_added (rt_queue t) = rt_returned t - rt_asked t;
  rk_asked : rt_asked t <= rt_returned t;
  rk_hm : hostmem_wf (rt_hm t);
  rk_buffer : Forall (spares (in_driver pd pa q0)) (rt_buffer t);
  (** what the driver sees: every chain up to the last question *)
  rk_visible : exists v, used_index (rt_hm t) = wrap 16 v /\ buffered v (rt_buffer t) (rt_returned t) /\
    rt_taken t <= v /\ rt_asked t <= v <= rt_returned t;
  rk_room : rt_returned t <= rt_taken t + q_size q0;
  rk_fenced : rt_worker t = Asking -> rt_buffer t = [];
  rk_round : rt_worker t = Interrupting \/ at_rest t ->
    rt_asked t = rt_returned t /\ rt_used_any t = false;
  (** a driver that named a chain *)
  rk_named : rt_driver t <> Looking -> q_event_idx_enabled q0 = true ->
    event_of (rt_hm t) = wrap 16 (rt_taken t);
  (** a driver that sleeps with no interrupt on its way *)
  rk_asleep : rt_driver t = Asleep -> rt_interrupt t = false -> rt_worker t <> Interrupting ->
    rt_asked t <= rt_taken t;
}.

Context (Hmm : mm_wf mm) (Hok : rings_ok mm pd pa pu q0).

Lemma rings_wf : queue_wf q0.
Proof using Hok. apply Hok. Qed.

Lemma event_in_driver a : event_field <= a < event_field + 2 -> in_driver pd pa q0 a.
Proof using Hok. pose proof rings_wf as []. right. unfold in_avail, event_field in *. lia. Qed.

Lemma event_agree hm hm' : agree (in_driver pd pa q0) hm hm' -> event_of hm' = event_of hm.
Proof using Hok. intros H. apply (word_agree _ _ _ _ _ H). apply event_in_driver. Qed.

Lemma index_agree hm hm' : agree in_index hm hm' -> used_index hm' = used_index hm.
Proof using. intros H. apply (word_agree _ _ _ _ _ H). unfold in_index. lia. Qed.

Lemma buffered_app v ss w ss' u :
  buffered v ss w -> buffered w ss' u -> buffered v (ss ++ ss') u.
Proof using. induction 1; intros H'; cbn; [done|by constructor; auto|by apply buffered_other; auto]. Qed.

Lemma buffered_spares v ss : Forall (spares in_index) ss -> buffered v ss v.
Proof using. induction 1; [constructor|by apply buffered_other]. Qed.

(** The whole buffer holds the last index. *)
Lemma buffered_through v ss u hm :
  buffered v ss u -> used_index hm = wrap 16 v -> used_index (through ss hm) = wrap 16 u.
Proof using.
  intros H. revert hm. induction H as [v|v u bs ss Hb Hl Hv _ IH|v u s ss Hs _ IH]; intros hm E; [done|..];
    cbn [through fold_left]; apply IH.
  - unfold used_index, word, store_to. cbn [fst snd].
    by rewrite host_read_write_at by done.
  - rewrite <- E. apply index_agree. by apply store_to_spares.
Qed.

Lemma returns_view_driver t : returns_ok t -> agree (in_driver pd pa q0) (rt_hm t) (rt_view t).
Proof using. intros H. by apply through_spares, (rk_buffer t H). Qed.

Lemma returns_mapped t : returns_ok t -> rings_mapped mm (rt_queue t) pd pa pu.
Proof using Hok. intros H. eapply moved_rings_mapped; [by apply rk_moved|]. apply Hok. Qed.

Lemma in_used_driver (P : Z -> Prop) s :
  bytes_ok s.2 -> (forall a, stored s a -> in_used pu q0 a) -> spares (in_driver pd pa q0) s.
Proof using Hok.
  intros Hb Hs. split; [done|]. intros a Ha Hd. eapply (ro_apart _ _ _ _ _ Hok a Hd). by apply Hs.
Qed.

(** The stores of [add_used]: outside the driver's rings, and one index. *)
Lemma return_stores_spare ss :
  return_stores ss -> Forall (spares (in_driver pd pa q0)) ss.
Proof using Hok.
  intros [slot elem idx Hlo Hhi He Hle Hi Hli]. pose proof (qwf_size q0 rings_wf).
  constructor; [|constructor; [|done]]; apply (in_used_driver (fun _ => True)); try done;
    intros a; unfold stored, zlen, in_used; cbn [fst snd]; rewrite ?Hle, ?Hli; lia.
Qed.

Lemma return_stores_buffered t ss u :
  return_stores ss -> le_val (host_read (through ss (rt_view t)) (pu + 2) 2) = wrap 16 (u + 1) ->
  buffered u ss (u + 1).
Proof using.
  intros [slot elem idx Hlo Hhi He Hle Hi Hli] E. apply buffered_other.
  - split; [done|]. intros a. unfold stored, in_index, zlen. cbn [fst snd]. rewrite Hle. lia.
  - apply buffered_index; [done|done| |constructor].
    rewrite <- E. cbn [through fold_left]. unfold store_to. cbn [fst snd].
    by rewrite host_read_write_at by done.
Qed.

(** ** Operations on the view *)

(** Returning a chain moves the counters of the queue and stores the new
    index. *)
Lemma returns_add_used t head len ss q :
  returns_ok t -> 0 <= head < q_size q0 ->
  q_add_used mm head len (rt_queue t, rt_view t) = (Ok tt, (q, through ss (rt_view t))) ->
  q = q_set_used (wrap 16 (rt_returned t + 1)) (wadd 16 (q_num_added (rt_queue t)) 1) (rt_queue t) /\
  le_val (host_read (through ss (rt_view t)) (pu + 2) 2) = wrap 16 (rt_returned t + 1).
Proof using Hmm Hok.
  intros H Hh E. rewrite (add_used_mapped mm Hmm pd pa pu) in E;
    [|by apply (rk_wf t)|by apply returns_mapped|by rewrite (moved_size q0) by apply (rk_moved t H)].
  injection E as <- <-. rewrite used_write_index, (rk_used t H).
  unfold wadd. by rewrite !wrap_add_l.
Qed.

(** What the question computes of two counters. *)
Lemma counters_gap a b :
  0 < a - b <= 2 ^ 16 -> wsub 16 (wsub 16 (wrap 16 a) (wrap 16 b)) 1 = a - b - 1.
Proof using.
  intros H. unfold wsub. rewrite wrap_sub_l.
  replace (wrap 16 a - wrap 16 b - 1) with (wrap 16 a - (wrap 16 b + 1)) by lia.
  rewrite wrap_sub_l. replace (a - (wrap 16 b + 1)) with (a - 1 - wrap 16 b) by lia.
  rewrite wrap_sub_r. rewrite wrap_small by (split; lia). lia.
Qed.

(** The question is answered with yes whenever the driver waits for a chain
    returned since the last one. *)
Lemma returns_ask t b q :
  returns_ok t -> q_needs_notification mm (rt_queue t, rt_view t) = (Ok b, (q, rt_view t)) ->
  moved q0 q /\ queue_wf q /\ q_next_used q = q_next_used (rt_queue t) /\
  (q_event_idx_enabled q0 = true -> q_num_added q = 0) /\
  (b = false -> rt_asked t <= rt_taken t -> rt_driver t <> Looking ->
   rt_returned t = rt_taken t).
Proof using Hmm Hok.
  intros H E. rewrite (needs_notification_mapped mm Hmm pd pa pu) in E by
    first [by apply (rk_wf t)|by apply returns_mapped].
  pose proof (rk_moved t H) as Hm. pose proof (rk_wf t H) as Hwf. pose proof rings_wf as [].
  set (wanted := notification_wanted pa (rt_queue t) (rt_view t)) in E.
  rewrite (moved_event q0 _ Hm) in E. injection E as <- <-.
  assert (wanted = notification_wanted pa (rt_queue t) (rt_view t)) as Ew by done.
  clearbody wanted. unfold notification_wanted in Ew. rewrite (moved_event q0 _ Hm) in Ew.
  destruct (q_event_idx_enabled q0) eqn:Ee; [|by subst; split_and!].
  split_and!; [by apply moved_used| |done|done|].
  { apply queue_wf_used; [done|apply Hwf|split; lia]. }
  rewrite Ew. intros Hb%Z.ltb_ge Hle Hd. rewrite (moved_size q0 _ Hm), (rk_used t H), (rk_added t H Ee) in Hb.
  change (le_val (host_read (rt_view t) (pa + (4 + 2 * q_size q0)) 2)) with
    (event_of (rt_view t)) in Hb.
  rewrite (event_agree (rt_hm t)), (rk_named t H Hd Ee) in Hb by by apply returns_view_driver.
  destruct (rk_visible t H) as (v & _ & _ & Hv & _ & Hvu). pose proof (rk_room t H).
  destruct (decide (rt_returned t = rt_taken t)); [done|].
  rewrite (counters_gap (rt_returned t) (rt_taken t)) in Hb by lia. lia.
Qed.

Lemma returns_question t :
  returns_ok t ->
  exists b q, q_needs_notification mm (rt_queue t, rt_view t) = (Ok b, (q, rt_view t)).
Proof using Hmm Hok.
  intros H. do 2 eexists. apply (needs_notification_mapped mm Hmm pd pa pu);
    [by apply (rk_wf t)|by apply returns_mapped].
Qed.

(** ** Preservation *)

#[local] Ltac fields := cbn [rt_at rt_with_memory rt_with_queue rt_with_driver rt_hm rt_buffer
  rt_queue rt_worker rt_used_any rt_returned rt_asked rt_interrupt rt_driver rt_taken].

Lemma returns_ok_return t head len ss q :
  returns_ok t -> rt_worker t = Returning -> return_stores ss -> 0 <= head < q_size q0 ->
  q_add_used mm head len (rt_queue t, rt_view t) = (Ok tt, (q, through ss (rt_view t))) ->
  rt_returned t < rt_taken t + q_size q0 -> rt_returned t + 1 < rt_asked t + 2 ^ 16 ->
  returns_ok
    (rt_at Returning true (rt_asked t)
       (rt_with_queue q (rt_returned t + 1) (rt_with_memory (rt_hm t) (rt_buffer t ++ ss) t))).
Proof using Hmm Hok.
  intros H Ew Hss Hh E Hroom Hshort. pose proof (rk_asked t H).
  apply returns_add_used in E as [-> Hi]; [|done..].
  destruct (rk_visible t H) as (v & Hv & Hb & Ht).
  split; fields; try (apply H); try done; try lia.
  - apply moved_used, H.
  - apply queue_wf_used; [apply H|apply wrap_fits; lia|apply wadd_fits; lia].
  - intros Ee. cbn [q_num_added q_set_used]. rewrite (rk_added t H Ee). unfold wadd.
    rewrite wrap_small by (split; lia). lia.
  - apply Forall_app. split; [apply H|by apply return_stores_spare].
  - exists v. split_and!; [done| |lia..]. eapply buffered_app; [exact Hb|].
    by apply (return_stores_buffered t).
  - by intros [|[_ ?]].
  - intros Hd Hirq _. apply (rk_asleep t H Hd Hirq). by rewrite Ew.
Qed.

Lemma round_step_ok t t' : round_step true t t' -> returns_ok t -> returns_ok t'.
Proof using Hmm Hok.
  intros Hs H. destruct Hs as [t head len ss q Ew Hss Hh E Hroom Hshort|t ss Ew Hss].
  - eapply returns_ok_return; eauto.
  - destruct (rk_visible t H) as (v & Hv & Hb & Ht).
    split; fields; try (apply H); try (rewrite Ew; done).
    + apply Forall_app. split; [apply H|]. eapply spares_weaken; [|exact Hss]. by left.
    + exists v. split_and!; [done| |lia..]. eapply buffered_app; [exact Hb|].
      apply buffered_spares. eapply spares_weaken; [|exact Hss]. by right.
Qed.

Lemma returns_ok_ask t b q :
  returns_ok t -> rt_worker t = Asking ->
  q_needs_notification mm (rt_queue t, rt_view t) = (Ok b, (q, rt_view t)) ->
  returns_ok (rt_at (if b then Interrupting else Returning) false (rt_returned t)
                (rt_with_queue q (rt_returned t) t)).
Proof using Hmm Hok.
  intros H Ew E. apply returns_ask in E as (Hm & Hwf & Hu & Ha & Hb); [|done].
  destruct (rk_visible t H) as (v & Hv & Hbuf & Ht & Hav).
  rewrite (rk_fenced t H Ew) in Hbuf.
  assert (v = rt_returned t) as -> by by inversion Hbuf.
  split; fields; try (apply H); try done; try lia.
  - rewrite Hu. apply H.
  - intros Ee. rewrite (Ha Ee). lia.
  - exists (rt_returned t). rewrite (rk_fenced t H Ew). split_and!; [done|constructor|lia..].
  - by destruct b.
  - intros Hd Hirq Hn. destruct b; [done|]. rewrite (Hb eq_refl); [lia| |by rewrite Hd].
    apply (rk_asleep t H Hd Hirq). by rewrite Ew.
Qed.

Lemma returns_ok_drain t s ss :
  returns_ok t -> rt_buffer t = s :: ss ->
  returns_ok (rt_with_memory (store_to (rt_hm t) s) ss t).
Proof using Hok.
  intros H E. pose proof (rk_buffer t H) as Hb. rewrite E in Hb.
  apply Forall_cons in Hb as [Hs Hss]. pose proof (rk_visible t H) as (v & Hv & Hbuf & Ht & Hav).
  rewrite E in Hbuf. split; fields; try (apply H); try done.
  - apply host_write_wf; [apply H|apply Hs].
  - remember (s :: ss) as l eqn:El. destruct Hbuf as [|v u bs ss' Hok' Hl Hle Hb|v u s' ss' Hsp Hb];
      [done|injection El as <- ->..].
    + exists (v + 1). assert (v + 1 <= u) by (clear -Hb; by induction Hb; lia).
      split_and!; [|done|lia..]. rewrite <- Hle. unfold used_index, word, store_to. cbn [fst snd].
      by rewrite host_read_write_at.
    + exists v. split_and!; [|done|lia..]. rewrite <- Hv. apply index_agree.
      by apply store_to_spares.
  - intros Ew. apply (rk_fenced t H) in Ew. by rewrite E in Ew.
  - intros Hd Ee. rewrite <- (rk_named t H Hd Ee). apply event_agree.
    by apply store_to_spares.
Qed.

Lemma finish_step_ok t t' : finish_step t t' -> returns_ok t -> returns_ok t'.
Proof using Hmm Hok.
  intros Hs H. destruct Hs as [t Ew Eu|t Ew Eb|t b q Ew E|t Ew|t s ss E].
  - split; fields; try (apply H); try done.
    + by intros [|[]].
    + intros Hd Hirq _. apply (rk_asleep t H Hd Hirq). by rewrite Ew.
  - split; fields; try (apply H); try done.
    + by intros [|[]].
    + intros Hd Hirq _. apply (rk_asleep t H Hd Hirq). by rewrite Ew.
  - by apply returns_ok_ask.
  - split; fields; try (apply H); try done.
    intros _. apply (rk_round t H). by left.
  - by apply returns_ok_drain.
Qed.

Lemma returns_ok_elsewhere t hm :
  hostmem_wf hm -> agree (fun a => event_field <= a < event_field + 2 \/ in_used pu q0 a) (rt_hm t) hm ->
  returns_ok t -> returns_ok (rt_with_memory hm (rt_buffer t) t).
Proof using Hok.
  intros Hwf Ha H. destruct (rk_visible t H) as (v & Hv & Hbuf).
  pose proof (qwf_size q0 rings_wf). split; fields; try (apply H); try done.
  - exists v. split; [|done]. rewrite <- Hv. apply index_agree.
    eapply agree_weaken; [|exact Ha]. unfold in_index, in_used. intros a Hin. lia.
  - intros Hd Ee. rewrite <- (rk_named t H Hd Ee). apply (word_agree _ _ _ _ _ Ha). auto.
Qed.

(** A driver that looks again after naming the chain it waits for falls
    asleep only when it has taken everything that it can see. *)
Lemma returns_ok_look t :
  returns_ok t -> rt_driver t = Naming ->
  returns_ok
    (rt_with_driver (if used_index (rt_hm t) =? wrap 16 (rt_taken t) then Asleep else Looking)
       (rt_taken t) (rt_interrupt t) t).
Proof using Hok.
  intros H Ed. destruct (rk_visible t H) as (v & Hv & Hbuf & Ht & Hav). pose proof (rk_room t H).
  destruct (Z.eqb_spec (used_index (rt_hm t)) (wrap 16 (rt_taken t))) as [E|E];
    (split; fields; try (apply H); try done).
  - intros _. apply (rk_named t H). by rewrite Ed.
  - intros _ _ _. rewrite Hv in E. apply (counters_eq q0) in E; [lia|apply rings_wf|lia].
Qed.

Lemma returns_ok_name t :
  returns_ok t -> rt_driver t = Looking ->
  returns_ok
    (rt_with_driver Naming (rt_taken t) (rt_interrupt t)
       (rt_with_memory
          (if q_event_idx_enabled q0
           then host_write (rt_hm t) event_field (le_bytes 2 (wrap 16 (rt_taken t)))
           else rt_hm t) (rt_buffer t) t)).
Proof using Hok.
  intros H Ed. destruct (rk_visible t H) as (v & Hv & Hbuf). pose proof (qwf_size q0 rings_wf).
  destruct (q_event_idx_enabled q0) eqn:Ee; (split; fields; try (apply H); try done).
  - apply host_write_wf; [apply H|apply le_bytes_ok].
  - exists v. split; [|done]. rewrite <- Hv. apply index_agree.
    apply (store_to_spares in_index (event_field, le_bytes 2 (wrap 16 (rt_taken t)))).
    split; [apply le_bytes_ok|]. unfold stored, zlen. cbn [fst snd]. rewrite length_le_bytes.
    intros a Ha Hi. eapply (ro_apart _ _ _ _ _ Hok a).
    + apply event_in_driver. lia.
    + unfold in_index in Hi. unfold in_used. lia.
  - intros _ _. apply word_store. apply wrap_fits. lia.
  - intros _ E. by rewrite Ee in E.
Qed.

Lemma taker_step_ok t t' : taker_step t t' -> returns_ok t -> returns_ok t'.
Proof using Hok.
  intros Hs H. destruct Hs as [t Ed Hn|t Ed|t Ed|t Ei|t hm Hwf Ha].
  - destruct (rk_visible t H) as (v & Hv & Hbuf & Ht & Hav). pose proof (rk_room t H).
    assert (rt_taken t <> v) by (intros E; by rewrite Hv, E in Hn).
    split; fields; try (apply H); try done; try lia. exists v. split_and!; done || lia.
  - by apply returns_ok_name.
  - by apply returns_ok_look.
  - by split; fields; try (apply H).
  - by apply returns_ok_elsewhere.
Qed.

Lemma returns_start_ok t : returns_start t -> returns_ok t.
Proof using Hok.
  intros [Eq [En Ea] Hhm Hi Hb [Ew Eu] Ed (Er & Eas & Et)]. pose proof rings_wf as [].
  split; rewrite ?Eq, ?Er, ?Eas, ?Et, ?Hb, ?Ed, ?Ew, ?En, ?Ea; try done; try lia.
  - apply moved_refl.
  - exists 0. split_and!; [done|constructor|lia..].
Qed.

Lemma reachable_returns t0 t :
  returns_start t0 -> steps (return_step true) t0 t -> returns_ok t.
Proof using Hmm Hok.
  intros H0 Hs. eapply (steps_invariant (return_step true) returns_ok);
    [|exact Hs|by apply returns_start_ok].
  intros x y [Hr|[Hf|Hd]]; [by apply round_step_ok|by apply finish_step_ok|by apply taker_step_ok].
Qed.

(** ** Progress *)

Definition round_left (t : Returns) : nat :=
  match rt_worker t with
  | Returning => if rt_used_any t then 4 else 0
  | Completing => 3 | Asking => 2 | Interrupting => 1
  end.

Lemma finish_step_progress t t' :
  finish_step t t' -> returns_ok t ->
  (round_left t' < round_left t)%nat \/
  round_left t' = round_left t /\ (length (rt_buffer t') < length (rt_buffer t))%nat.
Proof using.
  intros Hs H. destruct Hs as [t Ew Eu|t Ew Eb|t b q Ew E|t Ew|t s ss E];
    [left..|right; split; [done|rewrite E; cbn; lia]]; unfold round_left; fields; rewrite Ew.
  - rewrite Eu. lia.
  - lia.
  - destruct b; lia.
  - rewrite (proj2 (rk_round t H (or_introl Ew))). lia.
Qed.

Lemma finished_rests t :
  returns_ok t -> finished finish_step t -> at_rest t /\ rt_buffer t = [].
Proof using Hmm Hok.
  intros H Hf. assert (rt_buffer t = []) as Hb.
  { destruct (rt_buffer t) as [|s ss] eqn:Eb; [done|]. destruct (Hf _ (step_drain t s ss Eb)). }
  split; [|done]. unfold at_rest. destruct (rt_worker t) eqn:Ew.
  - split; [done|]. destruct (rt_used_any t) eqn:Eu; [|done].
    destruct (Hf _ (step_complete t Ew Eu)).
  - destruct (Hf _ (step_fence t Ew Hb)).
  - destruct (returns_question t H) as (b & q & E). destruct (Hf _ (step_ask t b q Ew E)).
  - destruct (Hf _ (step_interrupt t Ew)).
Qed.

(** C10: no interrupt is missing, although the device leaves interrupts out
    where the driver asked for none.  In rounds of fewer than 65536 chains,
    however the worker and the driver are interleaved, the worker brings the
    round to an end after finitely many steps, and then a driver that sleeps
    either has an interrupt on its way or has taken back every chain that was
    returned. *)
Theorem no_interrupt_is_missing t0 t :
  returns_start t0 -> steps (return_step true) t0 t ->
  ends finish_step t /\
  forall t', steps finish_step t t' -> finished finish_step t' ->
    at_rest t' /\
    (rt_driver t' = Asleep -> rt_interrupt t' = true \/ rt_taken t' = rt_returned t').
Proof using Hmm Hok.
  intros H0 Hs. pose proof (reachable_returns t0 t H0 Hs) as H. split.
  - apply (ends_by _ returns_ok round_left (fun t => length (rt_buffer t))); [| |done].
    + intros x y. apply finish_step_ok.
    + apply finish_step_progress.
  - intros t' Hf Hend. assert (returns_ok t') as H'
      by by apply (steps_invariant _ _ _ _ finish_step_ok Hf).
    destruct (finished_rests t' H' Hend) as [Hr _]. split; [done|]. intros Hd.
    destruct (rt_interrupt t') eqn:Ei; [by left|right].
    pose proof (rk_asleep t' H' Hd Ei) as Ha. destruct (rk_round t' H' (or_intror Hr)) as [Er _].
    destruct Hr as [Ew _]. rewrite Ew in Ha. specialize (Ha ltac:(done)).
    destruct (rk_visible t' H') as (v & _ & _ & Hv & _ & Hvu). lia.
Qed.

(** ** A round of 65536 chains *)

Context (Hevent : q_event_idx_enabled q0 = true).
Context (Hfresh : q_next_used q0 = 0 /\ q_num_added q0 = 0).

(** [n] chains returned in one round. *)
Record in_round (n : Z) (t : Returns) : Prop := {
  ir_queue : rt_queue t = q_set_used (wrap 16 n) (wrap 16 n) q0;
  ir_worker : rt_worker t = Returning /\ rt_buffer t = [];
  ir_counts : rt_returned t = n /\ rt_asked t = 0;
  ir_interrupt : rt_interrupt t = false;
  ir_hm : hostmem_wf (rt_hm t);
  ir_index : used_index (rt_hm t) = wrap 16 n;
}.

(** One more chain is returned, and its stores become visible. *)
Lemma round_return n t :
  in_round n t -> n < rt_taken t + q_size q0 ->
  exists t', steps (return_step false) t t' /\ in_round (n + 1) t' /\ rt_used_any t' = true /\
    rt_driver t' = rt_driver t /\ rt_taken t' = rt_taken t /\
    event_of (rt_hm t') = event_of (rt_hm t).
Proof using Hmm Hok.
  intros [Eq [Ew Eb] [Er Ea] Ei Hhm Hidx] Hn. pose proof rings_wf as [].
  set (q := q_set_used (wrap 16 n) (wrap 16 n) q0) in *.
  assert (queue_wf q) as Hq by (apply queue_wf_used; [apply rings_wf|apply wrap_fits; lia..]).
  assert (rings_mapped mm q pd pa pu) as Hr.
  { eapply moved_rings_mapped; [|apply Hok]. apply moved_used, moved_refl. }
  pose proof (add_used_mapped mm Hmm pd pa pu q (rt_hm t) 0 0 Hq Hr ltac:(cbn; lia)) as E.
  pose proof (Z.mod_pos_bound (q_next_used q) (q_size q0) ltac:(lia)) as Hm.
  set (slot := (pu + (4 + 8 * (q_next_used q mod q_size q0)), le_bytes 4 0 ++ le_bytes 4 0) : Store).
  set (idx := (pu + 2, le_bytes 2 (wadd 16 (q_next_used q) 1)) : Store).
  assert (return_stores [slot; idx]) as Hss.
  { constructor; try done; try lia; [|apply le_bytes_ok]. apply bytes_ok_app. split; apply le_bytes_ok. }
  eexists. split; [|split; [|split_and!]].
  - eapply steps_cons.
    { left. apply (step_return _ t 0 0 [slot; idx]); [done..|lia| |lia|done].
      unfold rt_view. rewrite Eb, Eq. exact E. }
    eapply steps_cons; [right; left; apply (step_drain _ slot [idx]); fields; by rewrite Eb|].
    eapply steps_cons; [right; left; by apply (step_drain _ idx [])|]. apply steps_refl.
  - split; fields; try done.
    + unfold wadd. cbn [q q_next_used q_num_added q_set_used]. by rewrite !wrap_add_l.
    + by rewrite Er.
    + repeat (apply host_write_wf; [|by repeat (apply bytes_ok_app; split); apply le_bytes_ok]). done.
    + unfold idx. rewrite (wrap_add_l 16 n 1 : wadd 16 (q_next_used q) 1 = _).
      apply (word_store _ (pu + 2) 2), wrap_fits. lia.
  - done.
  - done.
  - done.
  - fields. assert (forall hm, event_of (through [slot; idx] hm) = event_of hm) as Hev; [|apply Hev].
    intros hm. apply event_agree, through_spares. by apply return_stores_spare.
Qed.

(** A driver that takes the chains back as they come keeps the round going. *)
Lemma round_goes_on t0 (n : nat) :
  returns_start t0 -> rt_interrupt t0 = false ->
  exists t, steps (return_step false) t0 t /\ in_round (Z.of_nat n) t /\
    rt_driver t = Looking /\ rt_taken t = Z.of_nat n.
Proof using Hmm Hok Hfresh Hevent.
  intros [Eq _ Hhm Hi Hb [Ew Eu] Ed (Er & Eas & Et)] Ei. induction n as [|n IH].
  - exists t0. split_and!; [apply steps_refl| |done|done]. destruct Hfresh as [Eu0 Ea0].
    split; rewrite ?Hi; try done. rewrite Eq. unfold q_set_used. destruct q0; cbn in *. by subst.
  - destruct IH as (t & Hs & Hr & Hd & Htk). pose proof (qwf_size q0 rings_wf) as Hsz.
    pose proof (qwf_max q0 rings_wf).
    destruct (round_return _ t Hr ltac:(lia)) as (t1 & Hs1 & Hr1 & _ & Ed1 & Etk1 & _).
    exists (rt_with_driver Looking (rt_taken t1 + 1) (rt_interrupt t1) t1). split_and!.
    + eapply steps_trans; [exact Hs|]. eapply steps_trans; [exact Hs1|]. apply steps_one.
      right; right. apply step_take; [congruence|]. rewrite (ir_index _ t1 Hr1), Etk1, Htk.
      intros E. apply (counters_eq q0) in E; [lia|apply rings_wf|lia].
    + destruct Hr1. replace (Z.of_nat (S n)) with (Z.of_nat n + 1) by lia. by split.
    + done.
    + fields. lia.
Qed.

(** In the middle of a round a driver that has taken everything falls asleep. *)
Lemma round_sleep n t :
  in_round n t -> rt_driver t = Looking -> rt_taken t = n ->
  exists t', steps (return_step false) t t' /\ in_round n t' /\ rt_driver t' = Asleep /\
    rt_taken t' = n.
Proof using Hok Hevent.
  intros [Eq Ew Er Ei Hhm Hidx] Hd Ht. pose proof (qwf_size q0 rings_wf) as Hsz.
  set (hm := host_write (rt_hm t) event_field (le_bytes 2 (wrap 16 (rt_taken t)))).
  assert (used_index hm = wrap 16 n) as Hi.
  { rewrite <- Hidx. apply index_agree. intros a Ha. apply host_write_out. unfold zlen.
    rewrite length_le_bytes. destruct (decide (event_field <= a < event_field + 2)); [|lia].
    exfalso. eapply (ro_apart _ _ _ _ _ Hok a); [by apply event_in_driver|].
    unfold in_index in Ha. unfold in_used. lia. }
  eexists. split; [|split].
  - eapply steps_cons; [right; right; by apply step_name|]. rewrite Hevent. fold hm.
    eapply steps_cons; [right; right; by apply step_look|]. fields. rewrite Hi, <- Ht, Z.eqb_refl.
    apply steps_refl.
  - split; fields; try done. apply host_write_wf; [done|apply le_bytes_ok].
  - done.
Qed.

(** A question at the end of such a round is answered with no. *)
Lemma round_unanswered t :
  in_round (2 ^ 16) t -> rt_used_any t = true ->
  steps finish_step t
    (rt_at Returning false (rt_returned t)
       (rt_with_queue (q_set_used 0 0 q0) (rt_returned t) t)).
Proof using Hmm Hok Hevent.
  intros [Eq [Ew Eb] [Er Ea] Ei Hhm Hidx] Hu.
  assert (q_needs_notification mm (rt_queue t, rt_view t) =
    (Ok false, (q_set_used 0 0 q0, rt_view t))) as E.
  { rewrite (needs_notification_mapped mm Hmm pd pa pu); rewrite Eq.
    - unfold notification_wanted. cbn [q_event_idx_enabled q_set_used q_num_added]. rewrite Hevent.
      replace (_ <? _) with false; [done|]. symmetry. apply Z.ltb_ge.
      change (wrap 16 (2 ^ 16)) with 0. apply wrap_fits. lia.
    - apply queue_wf_used; [apply rings_wf|by split..].
    - eapply moved_rings_mapped; [|apply Hok]. apply moved_used, moved_refl. }
  eapply steps_cons; [by apply step_complete|].
  eapply steps_cons; [by apply step_fence|].
  eapply steps_cons; [by apply (step_ask _ false (q_set_used 0 0 q0))|].
  apply steps_refl.
Qed.

(** In a round of 65536 chains the count of the chains added wraps to 0, and
    the answer is no whatever the driver waits for: a driver that went to
    sleep in the middle of the round is not woken for what follows. *)
Theorem long_round_loses_interrupt t0 :
  returns_start t0 -> rt_interrupt t0 = false ->
  exists t, steps (return_step false) t0 t /\ finished finish_step t /\ at_rest t /\
    rt_driver t = Asleep /\ rt_interrupt t = false /\ rt_taken t < rt_returned t.
Proof using Hmm Hok Hevent Hfresh.
  intros H0 Hi0. destruct (round_goes_on t0 (Z.to_nat 65535) H0 Hi0)
    as (t1 & Hs1 & Hr1 & Hd1 & Ht1). rewrite Z2Nat.id in Hr1, Ht1 by lia.
  destruct (round_sleep _ t1 Hr1 Hd1 Ht1) as (t2 & Hs2 & Hr2 & Hd2 & Ht2).
  pose proof (qwf_size q0 rings_wf).
  destruct (round_return _ t2 Hr2 ltac:(lia)) as (t3 & Hs3 & Hr3 & Hu3 & Hd3 & Ht3 & _).
  pose proof (round_unanswered t3 Hr3 Hu3) as Hs4. destruct Hr3 as [_ [_ Hb3] [Hc3 _] Hi3 _ _].
  eexists. split; [|split_and!].
  - eapply steps_trans; [exact Hs1|]. eapply steps_trans; [exact Hs2|].
    eapply steps_trans; [exact Hs3|]. eapply steps_subrel; [|exact Hs4]. by right; left.
  - intros t' Hs. inversion Hs; simplify_eq/=; congruence.
  - done.
  - fields. congruence.
  - done.
  - fields. lia.
Qed.

End completion.

(** *** Concrete runs *)

#[local] Abbreviation hpd := 1048576.
#[local] Abbreviation hpa := 1052672.
#[local] Abbreviation hpu := 1056768.

Definition returns_cleared : Returns :=
  {| rt_hm := fun _ => 0; rt_buffer := []; rt_queue := cleared_queue; rt_worker := Returning;
     rt_used_any := false; rt_returned := 0; rt_asked := 0; rt_interrupt := false;
     rt_driver := Looking; rt_taken := 0 |}.

Lemma returns_cleared_start : returns_start hpu cleared_queue returns_cleared.
Proof. by split. Qed.

(** The driver sleeps; the worker returns a chain. *)
Definition returns_asleep : Returns :=
  {| rt_hm := host_write (fun _ => 0) (hpa + 12) (le_bytes 2 0); rt_buffer := [];
     rt_queue := cleared_queue; rt_worker := Returning;
     rt_used_any := false; rt_returned := 0; rt_asked := 0; rt_interrupt := false;
     rt_driver := Asleep; rt_taken := 0 |}.
Definition first_return : list Store := [(hpu + 4, repeat 0 8); (hpu + 2, [1; 0])].
Definition returns_one : Returns :=
  {| rt_hm := host_write (fun _ => 0) (hpa + 12) (le_bytes 2 0); rt_buffer := first_return;
     rt_queue := q_set_used 1 1 cleared_queue; rt_worker := Returning;
     rt_used_any := true; rt_returned := 1; rt_asked := 0; rt_interrupt := false;
     rt_driver := Asleep; rt_taken := 0 |}.

Lemma returns_one_reached short :
  steps (return_step (prof:=dev_profile) example_mm hpd hpa hpu cleared_queue short)
    returns_cleared returns_one.
Proof.
  apply (steps_trans _ _ returns_asleep).
  { eapply steps_cons; [right; right; by apply step_name|].
    eapply steps_cons; [right; right; by apply step_look|]. apply steps_refl. }
  apply steps_one. left.
  apply (step_return _ _ _ _ _ _ returns_asleep 0 0 first_return (q_set_used 1 1 cleared_queue));
    try done; try (cbn; lia).
  constructor; try done; try (cbn; lia); repeat constructor; unfold is_byte; lia.
Qed.

Lemma no_interrupt_is_missing_witness :
  ends (finish_step (prof:=dev_profile) example_mm) returns_one /\
  forall t', steps (finish_step (prof:=dev_profile) example_mm) returns_one t' ->
    finished (finish_step (prof:=dev_profile) example_mm) t' ->
    at_rest t' /\
    (rt_driver t' = Asleep -> rt_interrupt t' = true \/ rt_taken t' = rt_returned t').
Proof.
  apply (no_interrupt_is_missing (prof:=dev_profile) example_mm hpd hpa hpu cleared_queue
           example_mm_wf cleared_rings returns_cleared returns_one).
  - apply returns_cleared_start.
  - apply returns_one_reached.
Defined.

Lemma long_round_loses_interrupt_witness :
  exists t, steps (return_step (prof:=dev_profile) example_mm hpd hpa hpu cleared_queue false)
              returns_cleared t /\
    finished (finish_step (prof:=dev_profile) example_mm) t /\ at_rest t /\
    rt_driver t = Asleep /\ rt_interrupt t = false /\ rt_taken t < rt_returned t.
Proof.
  apply (long_round_loses_interrupt (prof:=dev_profile) example_mm hpd hpa hpu cleared_queue
           example_mm_wf cleared_rings eq_refl (conj eq_refl eq_refl) returns_cleared).
  - apply returns_cleared_start.
  - reflexivity.
Defined.
