(* ===== verification/GoodDriver.v ===== *)
(** * GoodDriver: a batch as a driver that keeps the rules publishes it

    The hypotheses under which the theorems on whole batches hold, with a check
    that evaluates them on a concrete queue, and what follows from them: the
    buffers of every chain are found unchanged when its turn comes. *)

From S2P Require Import Prelude Bytes HostMem GuestMem Queue FileTraits DescUtils Irqchip VirtioDev Mmio Worker Batch.

(** ** The chains of a batch *)

(** The guest bytes a chain lets the device read, and those it lets it write. *)
Definition chain_reads {prof : Profile} (mm : MemoryManager) (hm : hostmem) (c : DescriptorChain) :
    list Z :=
  match reader_new mm hm c with Ok rd => consumer_stream rd | _ => [] end.
Definition chain_writes {prof : Profile} (mm : MemoryManager) (hm : hostmem) (c : DescriptorChain) :
    list Z :=
  match writer_new mm hm c with Ok wr => consumer_stream wr | _ => [] end.

(** What no request of the batch [cs] changes. *)
Definition untouched {prof : Profile} mm pu q hm (cs : list DescriptorChain) (a : Z) : Prop :=
  ~ in_used pu q a /\ forall c, c ∈ cs -> a ∉ chain_writes mm hm c.

(** A driver that plays by the rules: rings apart, a queue size that divides
    the index space, no more chains than entries, and buffers to write that
    overlap neither the queue, nor each other, nor the buffers to read. *)
Record good_batch {prof : Profile} (mm : MemoryManager) (pd pa pu : Z) (q : Queue) (hm : hostmem)
    (cs : list DescriptorChain) : Prop := {
  gb_size : (q_size q | 2 ^ 16);
  gb_pending : pending pd pa q hm cs;
  gb_count : zlen cs <= q_size q;
  gb_rings a : in_driver pd pa q a -> ~ in_used pu q a;
  gb_reader c : c ∈ cs -> exists rd, reader_new mm hm c = Ok rd /\ consumer_wf rd;
  gb_writer c : c ∈ cs -> exists wr, writer_new mm hm c = Ok wr /\ consumer_wf wr /\
    NoDup (consumer_stream wr) /\ zlen (consumer_stream wr) < 2 ^ 32;
  gb_writes c a : c ∈ cs -> a ∈ chain_writes mm hm c ->
    ~ in_driver pd pa q a /\ ~ in_used pu q a /\ forall d, d ∈ cs -> a ∉ chain_reads mm hm d;
  gb_apart i j c d a : (i < j)%nat -> cs !! i = Some c -> cs !! j = Some d ->
    a ∈ chain_writes mm hm c -> a ∉ chain_writes mm hm d;
  gb_reads c a : c ∈ cs -> a ∈ chain_reads mm hm c -> ~ in_used pu q a;
}.

Section good.
Context {prof : Profile} {C Ev Q X : Type} `{!IrqChipT C Ev} `{!WinEvent Ev}.
Context (mm : MemoryManager) (Hmm : mm_wf mm) (l : QLens Q) {Hl : QLensLaws l}.
Variables (pd pa pu : Z).
Variables (serve : DescriptorChain -> M (Worker C Ev Q X) string bool).
Variables (I : X -> Prop) (R : DescriptorChain -> X -> Z -> X -> hostmem -> Prop).

(** For such a driver the service of each chain is what is left to show. *)
Lemma good_service q hm cs :
  good_batch mm pd pa pu q hm cs ->
  (forall c x len x' m m', R c x len x' m ->
     agree (fun a => a ∈ chain_writes mm hm c) m m' -> R c x len x' m') ->
  (forall c, c ∈ cs ->
     serves mm l pd pa pu serve q hm (untouched mm pu q hm cs) I (chain_writes mm hm) R c) ->
  service mm l pd pa pu serve q hm (untouched mm pu q hm cs) I (chain_writes mm hm) R cs.
Proof using.
  intros [] Hlocal Hserves. split; try done.
  - intros a Ha. split; [by apply gb_rings0|]. intros c Hc Hin.
    by destruct (gb_writes0 c a Hc Hin).
  - by intros a [].
  - intros c a Hc Hin. split; [|by apply (gb_writes0 c)]. intros [_ Hn]. by apply (Hn c).
Qed.

(** The chains of the batch are chains of the table. *)
Lemma good_chain q hm cs c :
  queue_wf q -> hostmem_wf hm -> good_batch mm pd pa pu q hm cs -> c ∈ cs ->
  c = table_chain q hm pd (dc_index c) /\ 0 <= dc_index c < q_size q.
Proof using.
  intros Hq Hhm Hg Hc. apply list_elem_of_lookup in Hc as [i Hi].
  destruct (pn_chain _ _ _ _ _ (gb_pending _ _ _ _ _ _ _ Hg) i c Hi) as [-> Hok].
  split; [done|]. split; [by apply le_val_fits_16|].
  unfold head_ok in Hok. rewrite actual_size_wf in Hok by done.
  by apply andb_prop in Hok as [Hlt%Z.ltb_lt _].
Qed.

(** Their buffers are found again, whatever the batch did before. *)
Lemma good_reader_writer q hm cs c (w : Worker C Ev Q X) :
  queue_wf q -> hostmem_wf hm -> rings_mapped mm q pd pa pu ->
  good_batch mm pd pa pu q hm cs -> c ∈ cs -> agree (untouched mm pu q hm cs) hm (wk_hm w) ->
  reader_new mm (wk_hm w) c = reader_new mm hm c /\
  writer_new mm (wk_hm w) c = writer_new mm hm c.
Proof using Hmm.
  intros Hq Hhm Hr Hg Hc Ha. destruct (good_chain q hm cs c Hq Hhm Hg Hc) as [-> Hi].
  apply (reader_writer_agree mm Hmm pd pa pu q Hq Hr); [done|].
  eapply agree_weaken; [|exact Ha]. intros a Hin. split; [by apply (gb_rings _ _ _ _ _ _ _ Hg)|].
  intros d Hd Hw. by destruct (gb_writes _ _ _ _ _ _ _ Hg d a Hd Hw).
Qed.

(** What the device reads of a chain is still what the driver wrote. *)
Lemma good_reads q hm cs c hm' l0 :
  good_batch mm pd pa pu q hm cs -> c ∈ cs -> agree (untouched mm pu q hm cs) hm hm' ->
  (forall a, a ∈ l0 -> a ∈ chain_reads mm hm c) -> stream_read hm' l0 = stream_read hm l0.
Proof using.
  intros Hg Hc Ha Hl0. eapply agree_stream_read; [exact Ha|]. intros a Hin%Hl0.
  split; [by apply (gb_reads _ _ _ _ _ _ _ Hg c)|]. intros d Hd Hwd.
  by destruct (gb_writes _ _ _ _ _ _ _ Hg d a Hd Hwd) as (_ & _ & Hn); apply (Hn c Hc).
Qed.

End good.

(** *** Checking a concrete batch *)

(** The chains in the ring that the device has not popped. *)
Definition published (pd pa : Z) (q : Queue) (hm : hostmem) : list DescriptorChain :=
  map (nth_chain pd pa q hm) (seq 0 (Z.to_nat (wsub 16 (avail_ring_idx hm pa) (q_next_avail q)))).

Definition in_usedb (pu : Z) (q : Queue) (a : Z) : bool :=
  (pu <=? a) && (a <? pu + (6 + 8 * q_size q)).
Definition in_driverb (pd pa : Z) (q : Queue) (a : Z) : bool :=
  (pd <=? a) && (a <? pd + 16 * q_size q) || (pa <=? a) && (a <? pa + (6 + 2 * q_size q)).

Definition consumer_wfb (c : Consumer) : bool :=
  forallb (fun v => (0 <=? vs_addr v) && (0 <=? vs_size v) && (vs_addr v + vs_size v <? 2 ^ 64))
    (c_buffers c)
  && (0 <=? c_bytes_consumed c) && (zlen (consumer_stream c) + c_bytes_consumed c <? 2 ^ 64).

Definition good_batchb {prof : Profile} (mm : MemoryManager) (pd pa pu : Z) (q : Queue)
    (hm : hostmem) : bool :=
  let cs := published pd pa q hm in
  let writes := map (chain_writes mm hm) cs in
  let reads := concat (map (chain_reads mm hm) cs) in
  (2 ^ 16 mod q_size q =? 0) && (0 <? q_size q) && (zlen cs <=? q_size q)
  && forallb (fun c => head_ok q hm pd (dc_index c)) cs
  && ((pd + 16 * q_size q <=? pu) || (pu + (6 + 8 * q_size q) <=? pd))
  && ((pa + (6 + 2 * q_size q) <=? pu) || (pu + (6 + 8 * q_size q) <=? pa))
  && forallb (fun c => match reader_new mm hm c with Ok rd => consumer_wfb rd | _ => false end) cs
  && forallb (fun c => match writer_new mm hm c with
                       | Ok wr => consumer_wfb wr && (zlen (consumer_stream wr) <? 2 ^ 32)
                       | _ => false
                       end) cs
  && forallb (fun a => negb (in_usedb pu q a)) reads
  && forallb (fun a => negb (in_usedb pu q a) && negb (in_driverb pd pa q a)
                       && negb (existsb (Z.eqb a) reads)) (concat writes)
  && bool_decide (NoDup (concat writes)).

Lemma consumer_wfb_wf c : consumer_wfb c = true -> consumer_wf c.
Proof.
  intros H. apply andb_prop in H as [[Hb H0%Z.leb_le]%andb_prop Ht%Z.ltb_lt]. split; [|done|done].
  apply List.Forall_forall. rewrite forallb_forall in Hb. intros v Hv. specialize (Hb v Hv).
  unfold slice_wf. lia.
Qed.

Lemma published_pending pd pa q hm :
  hostmem_wf hm -> (forall c, c ∈ published pd pa q hm -> head_ok q hm pd (dc_index c) = true) ->
  pending pd pa q hm (published pd pa q hm).
Proof.
  intros Hhm Hok. split.
  - unfold published, zlen. rewrite length_map, length_seq, Z2Nat.id; [done|].
    apply wrap_fits. lia.
  - intros i c Hi. split; [|by apply Hok; eapply list_elem_of_lookup_2].
    unfold published in Hi. apply list_lookup_fmap_Some in Hi as (j & -> & Hj).
    by apply lookup_seq in Hj as [-> _].
Qed.

(** Lists without a common element, cut out of one without duplicates. *)
Lemma NoDup_concat_apart {A} (ls : list (list A)) i j l l' a :
  NoDup (concat ls) -> (i < j)%nat -> ls !! i = Some l -> ls !! j = Some l' -> a ∈ l -> a ∉ l'.
Proof.
  revert i j. induction ls as [|l0 ls IH]; intros i j Hnd Hij Hi Hj Ha; [done|].
  cbn in Hnd. apply NoDup_app in Hnd as (_ & Hdis & Hnd).
  destruct i as [|i], j as [|j]; cbn in *; [lia| |lia|by apply (IH i j); [|lia|..]].
  injection Hi as ->. intros Ha'. apply (Hdis a Ha).
  apply list_elem_of_In, in_concat. exists l'.
  split; apply list_elem_of_In; [by eapply list_elem_of_lookup_2|done].
Qed.

Lemma NoDup_concat_part {A} (ls : list (list A)) l : NoDup (concat ls) -> l ∈ ls -> NoDup l.
Proof.
  induction ls as [|l0 ls IH]; intros Hnd Hl; [by apply not_elem_of_nil in Hl|].
  cbn in Hnd. apply NoDup_app in Hnd as (H1 & _ & H2).
  apply elem_of_cons in Hl as [->|Hl]; [done|by apply IH].
Qed.

Lemma elem_of_concat_map {A B} (f : A -> list B) l x b : x ∈ l -> b ∈ f x -> b ∈ concat (map f l).
Proof.
  intros Hx Hb. apply list_elem_of_In, in_concat. exists (f x).
  split; [|by apply list_elem_of_In]. apply in_map_iff. exists x. split; [done|by apply list_elem_of_In].
Qed.

Lemma forallb_elem {A} (f : A -> bool) l x : forallb f l = true -> x ∈ l -> f x = true.
Proof. rewrite forallb_forall. intros H Hx. by apply H, list_elem_of_In. Qed.

Lemma good_batchb_good {prof : Profile} mm pd pa pu q hm :
  hostmem_wf hm -> good_batchb mm pd pa pu q hm = true ->
  good_batch mm pd pa pu q hm (published pd pa q hm).
Proof.
  intros Hhm H. unfold good_batchb in H. set (cs := published pd pa q hm) in *.
  apply andb_prop in H as [H Hnd%bool_decide_eq_true_1].
  apply andb_prop in H as [H Hwr]. apply andb_prop in H as [H Hrd].
  apply andb_prop in H as [H Hwn]. apply andb_prop in H as [H Hrn].
  apply andb_prop in H as [H Hpa]. apply andb_prop in H as [H Hpd].
  apply andb_prop in H as [H Hok]. apply andb_prop in H as [H Hle].
  apply andb_prop in H as [Hdiv Hpos].
  assert (forall c a, c ∈ cs -> a ∈ chain_writes mm hm c ->
    negb (in_usedb pu q a) && negb (in_driverb pd pa q a)
      && negb (existsb (Z.eqb a) (concat (map (chain_reads mm hm) cs))) = true) as Hw.
  { intros c a Hc Ha. eapply (forallb_elem _ _ a Hwr). by eapply elem_of_concat_map. }
  split.
  - apply Z.mod_divide; lia.
  - apply published_pending; [done|]. intros c Hc. exact (forallb_elem _ cs c Hok Hc).
  - lia.
  - unfold in_driver, in_desc, in_avail, in_used. lia.
  - intros c Hc. pose proof (forallb_elem _ cs c Hrn Hc) as E. cbv beta in E.
    destruct (reader_new mm hm c) as [rd| | |]; try done. exists rd. split; [done|by apply consumer_wfb_wf].
  - intros c Hc. pose proof (forallb_elem _ cs c Hwn Hc) as E. cbv beta in E.
    assert (NoDup (chain_writes mm hm c)) as Hnd1.
    { eapply NoDup_concat_part; [exact Hnd|]. by apply list_elem_of_fmap_2. }
    unfold chain_writes in Hnd1. destruct (writer_new mm hm c) as [wr| | |]; try done.
    apply andb_prop in E as [E1 E2]. exists wr.
    split_and!; [done|by apply consumer_wfb_wf|done|by apply Z.ltb_lt].
  - intros c a Hc Ha. pose proof (Hw c a Hc Ha) as E.
    apply andb_prop in E as [[E1 E2]%andb_prop E3]. unfold in_usedb, in_driverb in *.
    unfold in_driver, in_desc, in_avail, in_used. split_and!; [lia|lia|].
    intros d Hd Hin. apply negb_true_iff in E3. apply not_true_iff_false in E3. apply E3.
    apply existsb_exists. exists a. split; [|apply Z.eqb_refl].
    apply list_elem_of_In. by eapply elem_of_concat_map.
  - intros i k c d a Hik Hi Hk. apply (NoDup_concat_apart (map (chain_writes mm hm) cs) i k);
      [done|done|by rewrite list_lookup_fmap, Hi|by rewrite list_lookup_fmap, Hk].
  - intros c a Hc Ha. assert (negb (in_usedb pu q a) = true) as E.
    { apply (forallb_elem (fun a => negb (in_usedb pu q a)) _ a Hrd). by eapply elem_of_concat_map. }
    unfold in_usedb, in_used in *. lia.
Qed.
