(* ===== verification/BlockWorker.v ===== *)
(** * BlockWorker: the worker of the block device,
      [src/devices/virtio/block/worker.rs]

    One request is a chain: a header, data buffers, a status byte.  The disk
    image is the [imago] crate's: its operations are the class [ImageOps], on a
    state of its own, and the laws that the theorems use are [ImageLaws]. *)

From S2P Require Import Prelude Bytes HostMem GuestMem Queue FileTraits DescUtils Irqchip VirtioDev Mmio Worker.

(** ** The image *)

Class ImageOps (X : Type) : Type := {
  iovec_len : list VolatileSlice -> Z;
  img_readv : list VolatileSlice -> Z -> M (hostmem * X) IoError unit;
  img_writev : list VolatileSlice -> Z -> M (hostmem * X) IoError unit;
  img_flush : M X IoError unit;
  img_sync : M X IoError unit;
  img_discard_to_any : Z -> Z -> M X IoError unit;
  img_discard_to_zero : Z -> Z -> M X IoError unit;
  img_write_zeroes : Z -> Z -> M X IoError unit;
}.

(** ** Requests *)

(* src/devices/virtio/block/worker.rs:24-35, RequestError *)
Inductive RequestError : Type :=
| ReDiscarding (e : IoError)
| ReDiscardingToZero (e : IoError)
| ReFlushingToDisk (e : IoError)
| ReInvalidDataLength
| ReReadingFromDescriptor (e : IoError)
| ReWritingToDescriptor (e : IoError)
| ReWritingZeroes (e : IoError)
| ReUnknownRequest.

(* src/devices/virtio/block/worker.rs:37-54, RequestHeader *)
Record RequestHeader : Type := { rh_request_type : Z; rh_reserved : Z; rh_sector : Z }.

#[export] Instance request_header_pod : Pod RequestHeader := {
  pod_size := 16;
  pod_of bs := {| rh_request_type := le_val (slice 0 4 bs); rh_reserved := le_val (slice 4 4 bs);
                  rh_sector := le_val (slice 8 8 bs) |};
  pod_to h := le_bytes 4 (rh_request_type h) ++ le_bytes 4 (rh_reserved h)
              ++ le_bytes 8 (rh_sector h);
}.

(* src/devices/virtio/block/worker.rs:56-64, DiscardWriteData *)
Record DiscardWriteData : Type := { dw_sector : Z; dw_num_sectors : Z; dw_flags : Z }.

#[export] Instance discard_write_data_pod : Pod DiscardWriteData := {
  pod_size := 16;
  pod_of bs := {| dw_sector := le_val (slice 0 8 bs); dw_num_sectors := le_val (slice 8 4 bs);
                  dw_flags := le_val (slice 12 4 bs) |};
  pod_to d := le_bytes 8 (dw_sector d) ++ le_bytes 4 (dw_num_sectors d)
              ++ le_bytes 4 (dw_flags d);
}.

(** The worker's own part: the disk image. *)
(* src/devices/virtio/block/worker.rs:66-72, BlockWorker *)
Definition BlockWorker (C Ev X : Type) : Type := Worker C Ev Queue X.

(** The end of the disk's last user: a write-back image is flushed, then
    synchronised, whatever the outcome of the flush. *)
(* src/devices/virtio/block/device.rs:139-157, DiskProperties::drop *)
Definition disk_drop {X E} `{!ImageOps X} (disk : DiskProperties) : M X E unit :=
  match dp_cache_type disk with
  | CacheWriteback => _ ← Mtry img_flush; _ ← Mtry img_sync; mret tt
  | CacheUnsafe => mret tt
  end.

Section block.
Context {prof : Profile} {C Ev X : Type} `{!IrqChipT C Ev} `{!WinEvent Ev} `{!VirtioConsts}
  `{!ImageOps X}.
Variables (mm : MemoryManager) (disk : DiskProperties).

(** The state of one request. *)
Record Request : Type := {
  br_reader : Consumer;
  br_writer : Consumer;
  br_hm : hostmem;
  br_disk : X;
}.

#[local] Abbreviation R := (M Request RequestError).

Definition br_put (r w : Consumer) (hm : hostmem) (x : X) : Request :=
  {| br_reader := r; br_writer := w; br_hm := hm; br_disk := x |}.

(** A method of the reader or of the writer, or of the image. *)
Definition br_read {E A} (m : M (Consumer * hostmem) E A) : M Request E A :=
  zoom (fun s => (br_reader s, br_hm s))
       (fun '(c, hm) s => br_put c (br_writer s) hm (br_disk s)) m.
Definition br_write {E A} (m : M (Consumer * hostmem) E A) : M Request E A :=
  zoom (fun s => (br_writer s, br_hm s))
       (fun '(c, hm) s => br_put (br_reader s) c hm (br_disk s)) m.
Definition br_read_disk {E A} (m : M (Consumer * (hostmem * X)) E A) : M Request E A :=
  zoom (fun s => (br_reader s, (br_hm s, br_disk s)))
       (fun '(c, (hm, x)) s => br_put c (br_writer s) hm x) m.
Definition br_write_disk {E A} (m : M (Consumer * (hostmem * X)) E A) : M Request E A :=
  zoom (fun s => (br_writer s, (br_hm s, br_disk s)))
       (fun '(c, (hm, x)) s => br_put (br_reader s) c hm x) m.
Definition br_image {E A} (m : M X E A) : M Request E A :=
  zoom br_disk (fun x s => br_put (br_reader s) (br_writer s) (br_hm s) x) m.

(* src/devices/virtio/block/worker.rs:219-312, BlockWorker::process_request *)
Definition process_request (h : RequestHeader) : R Z :=
  s ← gets id;
  if rh_request_type h =? VIRTIO_BLK_T_IN then
    avail ← lift (writer_available_bytes (br_writer s));
    data_len ← lift (usub 64 avail 1);
    if negb (is_multiple_of data_len 512) then throw ReInvalidDataLength
    else
      off ← lift (umul 64 (rh_sector h) 512);
      Mmap_err ReWritingToDescriptor (br_write_disk
        (writer_write_from_at (disk_read_vectored_at_volatile iovec_len img_readv) data_len off))
  else if rh_request_type h =? VIRTIO_BLK_T_OUT then
    data_len ← lift (reader_available_bytes (br_reader s));
    if negb (is_multiple_of data_len 512) then throw ReInvalidDataLength
    else
      off ← lift (umul 64 (rh_sector h) 512);
      Mmap_err ReReadingFromDescriptor (br_read_disk
        (reader_read_to_at (disk_write_vectored_at_volatile iovec_len img_writev) data_len off))
  else if rh_request_type h =? VIRTIO_BLK_T_FLUSH then
    match dp_cache_type disk with
    | CacheWriteback =>
        _ ← Mmap_err ReFlushingToDisk (br_image img_flush);
        _ ← Mmap_err ReFlushingToDisk (br_image img_sync);
        mret 0
    | CacheUnsafe => mret 0
    end
  else if rh_request_type h =? VIRTIO_BLK_T_GET_ID then
    data_len ← lift (writer_available_bytes (br_writer s));
    if data_len <? zlen (dp_image_id disk) then throw ReInvalidDataLength
    else
      _ ← Mmap_err ReWritingToDescriptor (br_write (writer_write_all (dp_image_id disk)));
      mret (zlen (dp_image_id disk))
  else if rh_request_type h =? VIRTIO_BLK_T_DISCARD then
    d ← Mmap_err ReReadingFromDescriptor (br_read (reader_read_obj (T:=DiscardWriteData)));
    off ← lift (umul 64 (dw_sector d) 512);
    len ← lift (umul 64 (dw_num_sectors d) 512);
    _ ← Mmap_err ReDiscarding (br_image (img_discard_to_any off len));
    mret 0
  else if rh_request_type h =? VIRTIO_BLK_T_WRITE_ZEROES then
    d ← Mmap_err ReReadingFromDescriptor (br_read (reader_read_obj (T:=DiscardWriteData)));
    off ← lift (umul 64 (dw_sector d) 512);
    len ← lift (umul 64 (dw_num_sectors d) 512);
    let unmap := negb (Z.land (dw_flags d) VIRTIO_BLK_WRITE_ZEROES_FLAG_UNMAP =? 0) in
    _ ← (if unmap then Mmap_err ReDiscardingToZero (br_image (img_discard_to_zero off len))
         else Mmap_err ReWritingZeroes (br_image (img_write_zeroes off len)));
    mret 0
  else throw ReUnknownRequest.

(** [try_into().unwrap()] to [u8]. *)
Definition status_u8 {E} (v : Z) : out E Z :=
  if (0 <=? v) && (v <? 256) then Ok v else Panic.

(** One chain after its reader and writer are built: [None] when the header
    cannot be read, else the length to report. *)
(* src/devices/virtio/block/worker.rs:178-197, BlockWorker::process_queue *)
Definition serve_request : M Request string (option Z) :=
  h ← Mtry (br_read (reader_read_obj (T:=RequestHeader)));
  match h with
  | inr _ => mret None
  | inl request_header =>
      r ← Mtry (process_request request_header);
      s_l ← (match r with
             | inl l => s ← lift (status_u8 VIRTIO_BLK_S_OK); mret (s, l)
             | inr _ => s ← lift (status_u8 VIRTIO_BLK_S_IOERR); mret (s, 0)
             end);
      _ ← Mtry (br_write (writer_write_all (le_bytes 1 s_l.1)));
      mret (Some s_l.2)
  end.

#[local] Abbreviation W := (BlockWorker C Ev X).

(** The body of the loop: whether the chain was returned to the driver. *)
(* src/devices/virtio/block/worker.rs:163-208, BlockWorker::process_queue *)
Definition block_serve_chain (head : DescriptorChain) : M W string bool :=
  w ← gets id;
  match reader_new mm (wk_hm w) head, writer_new mm (wk_hm w) head with
  | Ok r, Ok wr =>
      served ← zoom (fun w => br_put r wr (wk_hm w) (wk_ext w))
                    (fun s => wk_set_mem_ext (br_hm s, br_disk s)) serve_request;
      match served with
      | None => mret false
      | Some len =>
          len1 ← lift (uadd 64 len 1);
          _ ← wk_add_used mm the_queue (dc_index head) (wrap 32 len1);
          mret true
      end
  | Err _, _ | Ok _, Err _ => mret false
  | Panic, _ | Ok _, Panic => lift Panic
  | NoFuel, _ | Ok _, NoFuel => lift NoFuel
  end.

Fixpoint block_process_loop (fuel : nat) (used_any : bool) : M W string bool :=
  match fuel with
  | O => lift NoFuel
  | S fuel' =>
      head ← wk_pop mm the_queue;
      match head with
      | None => mret used_any
      | Some head =>
          served ← block_serve_chain head;
          block_process_loop fuel' (used_any || served)
      end
  end.

(* src/devices/virtio/block/worker.rs:160-217, BlockWorker::process_queue *)
Definition block_process_queue (fuel : nat) : M W string unit :=
  used_any ← block_process_loop fuel false;
  wk_finish mm the_queue used_any.

(* src/devices/virtio/block/worker.rs:146-158, BlockWorker::process_virtio_queues *)
Definition block_process_virtio_queues (fuel : nat) : M W string unit :=
  drain_loop mm fuel the_queue (block_process_queue fuel).

(* src/devices/virtio/block/worker.rs:139-144, BlockWorker::process_queue_event *)
Definition block_process_queue_event (fuel : nat) : M W string unit :=
  block_process_virtio_queues fuel.

(* src/devices/virtio/block/worker.rs:98-137, BlockWorker::work *)
Definition block_work (fuel : nat) (results : list Z) : M W string bool :=
  work_loop [block_process_queue_event fuel] results.

End block.
Arguments Request : clear implicits.

(** ** The laws of the image *)

(** [img_bytes] is the guest-visible content.  Within it, a vectored read
    fills all the buffers and a vectored write stores all of them. *)
Class ImageLaws (X : Type) `{!ImageOps X} (img_bytes : X -> list Z) : Prop := {
  iovec_len_total bufs : bufs_wf bufs -> iovec_len bufs = zlen (stream bufs);
  img_readv_fills bufs off hm x :
    bufs_wf bufs -> 0 <= off -> off + zlen (stream bufs) <= zlen (img_bytes x) ->
    exists hm', img_readv bufs off (hm, x) = (Ok tt, (hm', x)) /\
      forall a, hm' a = stream_write hm (stream bufs)
                  (slice (Z.to_nat off) (length (stream bufs)) (img_bytes x)) a;
  img_writev_stores bufs off hm x :
    bufs_wf bufs -> 0 <= off -> off + zlen (stream bufs) <= zlen (img_bytes x) ->
    exists x', img_writev bufs off (hm, x) = (Ok tt, (hm, x')) /\
      img_bytes x' = splice (Z.to_nat off) (stream_read hm (stream bufs)) (img_bytes x);
}.

(** ** Lemmas *)

#[export] Instance request_header_laws :
  PodLaws RequestHeader (fun h =>
    fits 32 (rh_request_type h) /\ fits 32 (rh_reserved h) /\ fits 64 (rh_sector h)).
Proof.
  split; cbn -[le_bytes].
  - intros h. rewrite !length_app, !length_le_bytes. done.
  - intros h. rewrite !bytes_ok_app. split_and!; apply le_bytes_ok.
  - intros [t r s] (Ht & Hr & Hs); cbn -[le_bytes] in *. unfold slice.
    f_equal; [|rewrite drop_app_length' by (by rewrite length_le_bytes)
              |rewrite app_assoc, drop_app_length'
                 by (by rewrite length_app, !length_le_bytes)].
    + rewrite drop_0, take_app_length' by (by rewrite length_le_bytes).
      by apply le_val_le_bytes_fits.
    + rewrite take_app_length' by (by rewrite length_le_bytes). by apply le_val_le_bytes_fits.
    + rewrite take_ge by (rewrite length_le_bytes; lia). by apply le_val_le_bytes_fits.
Qed.

Lemma select_app_stream bufs bufs' count buflen :
  bufs_wf bufs -> count - buflen = zlen (stream bufs) ->
  stream (consume_select (bufs ++ bufs') count buflen) = stream bufs /\
  bufs_wf (consume_select (bufs ++ bufs') count buflen).
Proof.
  intros Hb. revert buflen. induction bufs as [|vs bufs IH]; intros buflen Hc.
  - change (zlen (stream [])) with 0 in Hc. cbn [app]. destruct bufs' as [|v b']; [by split|].
    cbn [consume_select]. rewrite (proj2 (Z.leb_le count buflen)) by lia. by split.
  - apply Forall_cons in Hb as [Hvs Hb]. rewrite zlen_stream_cons in Hc by done.
    pose proof Hvs as (?&?&?). pose proof (zlen_nonneg (stream bufs)).
    cbn [app consume_select]. destruct (Z.leb_spec count buflen).
    + split; [|constructor]. symmetry. apply nil_length_inv. rewrite stream_cons, length_app.
      pose proof (length_slice_stream vs ltac:(done)). unfold zlen in *. lia.
    + unfold vs_len. rewrite (proj2 (Z.ltb_ge (count - buflen) (vs_size vs))) by lia.
      destruct (IH Hb (buflen + vs_size vs)) as [Hs Hw]; [lia|].
      rewrite !stream_cons, Hs. split; [done|by constructor].
Qed.

Section lemmas.
Context {prof : Profile} {X : Type} `{!VirtioConsts} `{!ImageOps X}.
Variable img_bytes : X -> list Z.
Context `{!ImageLaws X img_bytes}.

Implicit Types s : Request X.

(** The bytes of the header, and the rest of the readable buffers. *)
Definition req_header s : RequestHeader :=
  pod_of (stream_read (br_hm s) (take 16 (consumer_stream (br_reader s)))).
Definition req_payload s : list Z := drop 16 (consumer_stream (br_reader s)).

Lemma br_header s :
  consumer_wf (br_reader s) -> 16 <= zlen (consumer_stream (br_reader s)) ->
  exists r', br_read (reader_read_obj (T:=RequestHeader)) s =
      (Ok (req_header s), br_put r' (br_writer s) (br_hm s) (br_disk s)) /\
    consumer_wf r' /\ consumer_stream r' = req_payload s.
Proof using.
  intros Hw Hl. unfold br_read, reader_read_obj. run_St.
  destruct (reader_read_exact_stream (br_reader s) (br_hm s) (replicate 16 0) Hw) as (c' & Hc & Hr).
  change (zlen (replicate 16 0)) with 16 in Hr. rewrite (proj2 (Z.leb_le 16 _) Hl) in Hr.
  change (length (replicate 16 0)) with 16%nat in Hr. destruct Hr as (Hr & Hs & _).
  change (pod_size RequestHeader) with 16%nat. rewrite Hr. run_St.
  by exists c'.
Qed.

(** The write of the status byte. *)
Lemma br_status s v a rest :
  consumer_wf (br_writer s) -> consumer_stream (br_writer s) = a :: rest ->
  exists c' hm', br_write (writer_write_all (le_bytes 1 v)) s =
      (Ok tt, br_put (br_reader s) c' hm' (br_disk s)) /\
    forall x, hm' x = if x =? a then v mod 256 else br_hm s x.
Proof using.
  intros Hw Hs. unfold br_write. run_St.
  destruct (writer_write_all_stream (br_writer s) (br_hm s) (le_bytes 1 v) Hw)
    as (c' & hm' & _ & Hr & _ & _ & Hhm).
  rewrite Hs in Hr, Hhm. change (zlen (le_bytes 1 v)) with 1 in *.
  assert (1 <= zlen (a :: rest)) by (unfold zlen; cbn; lia).
  rewrite (proj2 (Z.leb_le 1 (zlen (a :: rest)))) in Hr by done.
  rewrite Z.min_l in Hhm by done. exists c', hm'. rewrite Hr. split; [done|].
  intros x. rewrite Hhm. done.
Qed.

(** A request after its header: the request is processed, then the status is
    written where the writer stands. *)
Lemma serve_request_eq disk s :
  consumer_wf (br_reader s) -> 16 <= zlen (consumer_stream (br_reader s)) ->
  exists r', consumer_wf r' /\ consumer_stream r' = req_payload s /\
    serve_request disk s =
      (let s1 := br_put r' (br_writer s) (br_hm s) (br_disk s) in
       match process_request disk (req_header s) s1 with
       | (Ok l, s2) =>
           (v ← lift (status_u8 VIRTIO_BLK_S_OK);
            _ ← Mtry (F:=string) (br_write (writer_write_all (le_bytes 1 v))); mret (Some l)) s2
       | (Err _, s2) =>
           (v ← lift (status_u8 VIRTIO_BLK_S_IOERR);
            _ ← Mtry (F:=string) (br_write (writer_write_all (le_bytes 1 v))); mret (Some 0)) s2
       | (Panic, s2) => (Panic, s2)
       | (NoFuel, s2) => (NoFuel, s2)
       end).
Proof using.
  intros Hw Hl. destruct (br_header s Hw Hl) as (r' & Hr & Hc & Hs).
  exists r'. split_and!; [done|done|]. unfold serve_request. run_St. rewrite Hr. run_St.
  destruct (process_request disk (req_header s) _) as [[] s2]; try done;
    destruct (status_u8 _); done.
Qed.

Lemma finish_status s (k v a : Z) rest :
  consumer_wf (br_writer s) -> consumer_stream (br_writer s) = a :: rest -> is_byte v ->
  exists s', (v ← lift (status_u8 v);
     _ ← Mtry (F:=string) (br_write (writer_write_all (le_bytes 1 v))); mret (Some k)) s =
       (Ok (Some k), s') /\ br_disk s' = br_disk s /\
     forall x, br_hm s' x = if x =? a then v else br_hm s x.
Proof using.
  intros Hw Hs Hv. destruct (br_status s v a rest Hw Hs) as (c' & hm' & Hb & Hhm).
  unfold is_byte in Hv. unfold status_u8.
  rewrite (proj2 (Z.leb_le 0 v)), (proj2 (Z.ltb_lt v 256)) by lia. cbn [andb].
  run_St. rewrite Hb. run_St. eexists. split; [done|]. split; [done|].
  intros x. cbn. rewrite Hhm, Z.mod_small by lia. done.
Qed.

(** Everything available is selected. *)
Lemma select_all c :
  consumer_wf c ->
  let sel := consume_select (c_buffers c) (zlen (consumer_stream c)) 0 in
  stream sel = consumer_stream c /\ bufs_wf sel.
Proof using.
  intros Hc. destruct (select_app_stream (c_buffers c) [] (zlen (consumer_stream c)) 0) as [Hs Hb];
    [apply Hc|unfold consumer_stream; lia|]. rewrite app_nil_r in Hs, Hb. done.
Qed.

(** [consume_ok], also when nothing is selected. *)
Lemma consume_exact {St} count (f : list VolatileSlice -> M St IoError Z) c st n st' :
  consumer_wf c -> f [] st = (Ok 0, st) ->
  f (consume_select (c_buffers c) count 0) st = (Ok n, st') ->
  0 <= n <= zlen (consumer_stream c) ->
  exists c', consume count f (c, st) = (Ok n, (c', st')) /\ consumer_wf c' /\
    consumer_stream c' = drop (Z.to_nat n) (consumer_stream c).
Proof using.
  intros Hc H0 Hf Hn.
  destruct (decide (consume_select (c_buffers c) count 0 = [])) as [E|E].
  - rewrite E in Hf. rewrite Hf in H0. injection H0 as -> ->.
    unfold consume. run_St. rewrite E. by exists c.
  - destruct (consume_ok count f c st n st') as (c' & ? & ? & ? & _); eauto.
Qed.

(** The disk operations move all of the selected bytes. *)
Lemma img_writev_total sel off hm x :
  bufs_wf sel -> 0 <= off -> off + zlen (stream sel) <= zlen (img_bytes x) ->
  exists x', disk_write_vectored_at_volatile iovec_len img_writev sel off (hm, x) =
      (Ok (zlen (stream sel)), (hm, x')) /\
    img_bytes x' = splice (Z.to_nat off) (stream_read hm (stream sel)) (img_bytes x).
Proof using All.
  intros Hb Ho Hr. unfold disk_write_vectored_at_volatile. destruct sel as [|v sel].
  - exists x. split; [done|]. unfold splice. cbn. by rewrite Nat.add_0_r, take_drop.
  - destruct (img_writev_stores (v :: sel) off hm x) as (x' & Hw & Hx); [done..|].
    exists x'. run_St. rewrite Hw. run_St. by rewrite iovec_len_total.
Qed.

Lemma img_readv_total sel off hm x :
  bufs_wf sel -> 0 <= off -> off + zlen (stream sel) <= zlen (img_bytes x) ->
  exists hm', disk_read_vectored_at_volatile iovec_len img_readv sel off (hm, x) =
      (Ok (zlen (stream sel)), (hm', x)) /\
    forall a, hm' a = stream_write hm (stream sel)
                (slice (Z.to_nat off) (length (stream sel)) (img_bytes x)) a.
Proof using All.
  intros Hb Ho Hr. unfold disk_read_vectored_at_volatile. destruct sel as [|v sel].
  - exists hm. done.
  - destruct (img_readv_fills (v :: sel) off hm x) as (hm' & Hw & Hx); [done..|].
    exists hm'. run_St. rewrite Hw. run_St. by rewrite iovec_len_total.
Qed.

Lemma is_multiple_512 n : (512 | n) -> is_multiple_of n 512 = true.
Proof using. intros Hdiv. unfold is_multiple_of. cbn [Z.eqb]. apply Z.eqb_eq, Z.mod_divide; [lia|done]. Qed.

Lemma serve_out disk s a rest :
  consumer_wf (br_reader s) -> consumer_wf (br_writer s) ->
  16 <= zlen (consumer_stream (br_reader s)) ->
  rh_request_type (req_header s) = VIRTIO_BLK_T_OUT -> VIRTIO_BLK_T_OUT <> VIRTIO_BLK_T_IN ->
  is_byte VIRTIO_BLK_S_OK ->
  (512 | zlen (req_payload s)) ->
  0 <= rh_sector (req_header s) ->
  rh_sector (req_header s) * 512 + zlen (req_payload s) <= zlen (img_bytes (br_disk s)) < 2 ^ 64 ->
  consumer_stream (br_writer s) = a :: rest ->
  exists s', serve_request disk s = (Ok (Some (zlen (req_payload s))), s') /\
    img_bytes (br_disk s') = splice (Z.to_nat (rh_sector (req_header s) * 512))
      (stream_read (br_hm s) (req_payload s)) (img_bytes (br_disk s)) /\
    forall x, br_hm s' x = if x =? a then VIRTIO_BLK_S_OK else br_hm s x.
Proof using All.
  intros Hr Hw Hl Hty Hne Hok Hdiv Hsec Hrange Hst. pose proof (zlen_nonneg (req_payload s)) as Hp.
  destruct (serve_request_eq disk s Hr Hl) as (r' & Hr' & Hs' & ->). cbv zeta.
  set (s1 := br_put r' (br_writer s) (br_hm s) (br_disk s)).
  set (off := rh_sector (req_header s) * 512) in *.
  assert (exists c' x', process_request disk (req_header s) s1 =
      (Ok (zlen (req_payload s)), br_put c' (br_writer s) (br_hm s) x') /\
    img_bytes x' = splice (Z.to_nat off) (stream_read (br_hm s) (req_payload s))
      (img_bytes (br_disk s))) as (c' & x' & -> & Hx').
  { unfold process_request. run_St. rewrite Hty, (proj2 (Z.eqb_neq _ _) Hne), Z.eqb_refl. run_St.
    change (br_reader s1) with r'. unfold reader_available_bytes.
    rewrite available_bytes_stream, Hs' by done. run_St.
    rewrite is_multiple_512 by done. cbn [negb]. run_St. rewrite umul_ok by lia. run_St. fold off.
    unfold br_read_disk, zoom. run_St. change (br_reader s1) with r'. change (br_hm s1) with (br_hm s).
    change (br_disk s1) with (br_disk s). unfold reader_read_to_at.
    destruct (select_all r' Hr') as [Esel Hbw]. rewrite Hs' in Esel, Hbw.
    set (sel := consume_select (c_buffers r') (zlen (req_payload s)) 0) in *.
    destruct (img_writev_total sel off (br_hm s) (br_disk s)) as (x' & Hwv & Hx');
      [done|lia|rewrite Esel; lia|]. rewrite Esel in Hwv, Hx'.
    destruct (consume_exact (zlen (req_payload s))
      (fun bufs => disk_write_vectored_at_volatile iovec_len img_writev bufs off)
      r' (br_hm s, br_disk s) (zlen (req_payload s)) (br_hm s, x')) as (c' & Hcons & _);
      [done|done|done|rewrite Hs'; lia|].
    rewrite Hcons. by exists c', x'. }
  destruct (finish_status (br_put c' (br_writer s) (br_hm s) x') (zlen (req_payload s))
    VIRTIO_BLK_S_OK a rest) as (s' & He & Hd & Hh); [done|done|done|].
  exists s'. split; [exact He|]. rewrite Hd. done.
Qed.

Lemma serve_in disk s data a :
  consumer_wf (br_reader s) -> consumer_wf (br_writer s) ->
  16 <= zlen (consumer_stream (br_reader s)) ->
  rh_request_type (req_header s) = VIRTIO_BLK_T_IN -> is_byte VIRTIO_BLK_S_OK ->
  c_buffers (br_writer s) = data ++ [vs_with_bitmap a 1] ->
  (512 | zlen (stream data)) ->
  0 <= rh_sector (req_header s) ->
  rh_sector (req_header s) * 512 + zlen (stream data) <= zlen (img_bytes (br_disk s)) < 2 ^ 64 ->
  exists s', serve_request disk s = (Ok (Some (zlen (stream data))), s') /\
    br_disk s' = br_disk s /\
    forall x, br_hm s' x = if x =? a then VIRTIO_BLK_S_OK else
      stream_write (br_hm s) (stream data)
        (slice (Z.to_nat (rh_sector (req_header s) * 512)) (length (stream data))
           (img_bytes (br_disk s))) x.
Proof using All.
  intros Hr Hw Hl Hty Hok Hbuf Hdiv Hsec Hrange. pose proof (zlen_nonneg (stream data)) as Hp.
  destruct (serve_request_eq disk s Hr Hl) as (r' & Hr' & Hs' & ->). cbv zeta.
  set (s1 := br_put r' (br_writer s) (br_hm s) (br_disk s)).
  set (off := rh_sector (req_header s) * 512) in *.
  assert (consumer_stream (br_writer s) = stream data ++ [a]) as Hst
    by (unfold consumer_stream; rewrite Hbuf, stream_app; done).
  assert (bufs_wf data) as Hbd.
  { pose proof (cwf_bufs _ Hw) as Hb. rewrite Hbuf in Hb. by apply Forall_app in Hb as [? _]. }
  assert (exists c' hm', process_request disk (req_header s) s1 =
      (Ok (zlen (stream data)), br_put r' c' hm' (br_disk s)) /\
    consumer_wf c' /\ consumer_stream c' = [a] /\
    forall x, hm' x = stream_write (br_hm s) (stream data)
      (slice (Z.to_nat off) (length (stream data)) (img_bytes (br_disk s))) x)
    as (c' & hm' & -> & Hc' & Hcs & Hhm).
  { unfold process_request. run_St. rewrite Hty, Z.eqb_refl. run_St.
    change (br_writer s1) with (br_writer s). unfold writer_available_bytes.
    rewrite available_bytes_stream, Hst, zlen_app by done. run_St. change (zlen [a]) with 1.
    rewrite usub_ok, Z.add_simpl_r by lia. run_St.
    rewrite is_multiple_512 by done. cbn [negb]. run_St. rewrite umul_ok by lia. run_St. fold off.
    unfold br_write_disk, zoom. run_St. change (br_writer s1) with (br_writer s).
    change (br_hm s1) with (br_hm s). change (br_disk s1) with (br_disk s).
    unfold writer_write_from_at.
    destruct (select_app_stream data [vs_with_bitmap a 1] (zlen (stream data)) 0)
      as [Esel Hbw]; [done|lia|]. rewrite <- Hbuf in Esel, Hbw.
    set (sel := consume_select (c_buffers (br_writer s)) (zlen (stream data)) 0) in *.
    destruct (img_readv_total sel off (br_hm s) (br_disk s)) as (hm' & Hrv & Hx);
      [done|lia|rewrite Esel; lia|]. rewrite Esel in Hrv, Hx.
    destruct (consume_exact (zlen (stream data))
      (fun bufs => disk_read_vectored_at_volatile iovec_len img_readv bufs off)
      (br_writer s) (br_hm s, br_disk s) (zlen (stream data)) (hm', br_disk s))
      as (c' & Hcons & Hc' & Hcs);
      [done|done|done|rewrite Hst, zlen_app; change (zlen [a]) with 1; lia|].
    rewrite Hcons. exists c', hm'. split_and!; [done|done| |done].
    rewrite Hcs, Hst. unfold zlen. by rewrite Nat2Z.id, drop_app_length. }
  destruct (finish_status (br_put r' c' hm' (br_disk s)) (zlen (stream data))
    VIRTIO_BLK_S_OK a []) as (s' & He & Hd & Hh); [done|done|done|].
  exists s'. split_and!; [exact He|done|]. intros x. rewrite Hh. destruct (x =? a); [done|apply Hhm].
Qed.

End lemmas.

(** ** An example image: the bytes in memory *)

#[export] Instance ram_image : ImageOps (list Z) := {
  iovec_len bufs := zlen (stream bufs);
  img_readv bufs off := fun '(hm, x) =>
    if off + zlen (stream bufs) <=? zlen x
    then (Ok tt, (stream_write hm (stream bufs)
                    (slice (Z.to_nat off) (length (stream bufs)) x), x))
    else (Err IoUnexpectedEof, (hm, x));
  img_writev bufs off := fun '(hm, x) =>
    if off + zlen (stream bufs) <=? zlen x
    then (Ok tt, (hm, splice (Z.to_nat off) (stream_read hm (stream bufs)) x))
    else (Err IoWriteZero, (hm, x));
  img_flush := mret tt;
  img_sync := mret tt;
  img_discard_to_any _ _ := mret tt;
  img_discard_to_zero off len :=
    modify (splice (Z.to_nat off) (replicate (Z.to_nat len) 0));
  img_write_zeroes off len :=
    modify (splice (Z.to_nat off) (replicate (Z.to_nat len) 0));
}.

#[export] Instance ram_image_laws : ImageLaws (list Z) id.
Proof.
  split.
  - done.
  - intros bufs off hm x Hb Ho Hr. eexists. cbn. by rewrite (proj2 (Z.leb_le _ (zlen x))).
  - intros bufs off hm x Hb Ho Hr. eexists. cbn. by rewrite (proj2 (Z.leb_le _ (zlen x))).
Qed.

(** ** Properties *)

Section properties.
Context {prof : Profile} {X : Type} `{!VirtioConsts} `{!ImageOps X}.
Variable img_bytes : X -> list Z.
Context `{!ImageLaws X img_bytes}.

(** A request with readable header and status byte at [st], within the image. *)
Record request_wf (s : Request X) : Prop := {
  rq_reader : consumer_wf (br_reader s);
  rq_writer : consumer_wf (br_writer s);
  rq_header : 16 <= zlen (consumer_stream (br_reader s));
  rq_sector : 0 <= rh_sector (req_header s);
  rq_image : zlen (img_bytes (br_disk s)) < 2 ^ 64;
}.

Definition within_image (s : Request X) (n : Z) : Prop :=
  rh_sector (req_header s) * 512 + n <= zlen (img_bytes (br_disk s)).

(** C19: what a write request stores, a read request returns.  A write of whole
    sectors completes with status OK, its bytes are exactly what the image
    holds at the sector afterwards, and a later read request of the same
    sector and length completes with status OK in the last writable byte and
    exactly those bytes in its data buffers, however the buffers are split;
    the rest of memory and the image are unchanged. *)
Theorem block_write_read_roundtrip disk (s1 : Request X) st1 rest1 :
  request_wf s1 -> rh_request_type (req_header s1) = VIRTIO_BLK_T_OUT ->
  VIRTIO_BLK_T_OUT <> VIRTIO_BLK_T_IN -> is_byte VIRTIO_BLK_S_OK ->
  (512 | zlen (req_payload s1)) -> within_image s1 (zlen (req_payload s1)) ->
  consumer_stream (br_writer s1) = st1 :: rest1 ->
  exists s1', serve_request disk s1 = (Ok (Some (zlen (req_payload s1))), s1') /\
    br_hm s1' st1 = VIRTIO_BLK_S_OK /\
    forall (s2 : Request X) data st2,
      request_wf s2 -> rh_request_type (req_header s2) = VIRTIO_BLK_T_IN ->
      br_disk s2 = br_disk s1' -> rh_sector (req_header s2) = rh_sector (req_header s1) ->
      c_buffers (br_writer s2) = data ++ [vs_with_bitmap st2 1] ->
      zlen (stream data) = zlen (req_payload s1) -> NoDup (stream data ++ [st2]) ->
      exists s2', serve_request disk s2 = (Ok (Some (zlen (stream data))), s2') /\
        br_disk s2' = br_disk s2 /\
        stream_read (br_hm s2') (stream data) = stream_read (br_hm s1) (req_payload s1) /\
        br_hm s2' st2 = VIRTIO_BLK_S_OK /\
        forall x, x ∉ stream data ++ [st2] -> br_hm s2' x = br_hm s2 x.
Proof using All.
  intros [Hr1 Hw1 Hh1 Hs1 Hi1] Hty1 Hne Hok Hdiv Hin1 Hst1. unfold within_image in Hin1.
  destruct (serve_out img_bytes disk s1 st1 rest1) as (s1' & Hrun1 & Himg & Hhm1); [done..|].
  exists s1'. split_and!; [done|by rewrite Hhm1, Z.eqb_refl|].
  intros s2 data st2 [Hr2 Hw2 Hh2 Hs2 Hi2] Hty2 Hd Hsec Hbuf Hlen Hnd.
  set (off := Z.to_nat (rh_sector (req_header s1) * 512)) in *.
  assert (length (stream_read (br_hm s1) (req_payload s1)) = length (stream data)) as Hl
    by (unfold stream_read; rewrite length_map; unfold zlen in Hlen; lia).
  assert (off + length (stream_read (br_hm s1) (req_payload s1))
            <= length (img_bytes (br_disk s1)))%nat as Hfit
    by (rewrite Hl; unfold zlen in *; lia).
  destruct (serve_in img_bytes disk s2 data st2) as (s2' & Hrun2 & Hd2 & Hhm2); [try done..|].
  - by rewrite Hlen.
  - rewrite Hsec, Hd, Himg, Hlen. split; [|by rewrite <- Himg, <- Hd].
    unfold zlen at 2. rewrite length_splice; done.
  - exists s2'. apply NoDup_app in Hnd as (Hnd & Hdis & _).
    assert (st2 ∉ stream data) as Hni by (intros Hin; apply (Hdis _ Hin); set_solver).
    rewrite Hsec, Hd, Himg in Hhm2. fold off in Hhm2.
    rewrite <- Hl, slice_splice in Hhm2 by done.
    split_and!; [done|done| |by rewrite Hhm2, Z.eqb_refl|].
    + rewrite <- (stream_read_write (br_hm s2) (stream data)
        (stream_read (br_hm s1) (req_payload s1))) by (done || lia).
      apply map_ext_in. intros x Hx. rewrite Hhm2. destruct (Z.eqb_spec x st2) as [->|]; [|done].
      exfalso. apply Hni. by apply list_elem_of_In.
    + intros x Hx. rewrite Hhm2. destruct (Z.eqb_spec x st2); [set_solver|].
      apply stream_write_notin. set_solver.
Qed.

(** A failed read puts its status in the wrong place.  When a read request
    is refused (its data is not whole sectors), the chain is still completed
    with length 1, but the error code goes into the first byte of the data
    buffers, where the writer still stands; the status byte, the last
    writable one, keeps what it held. *)
Theorem block_error_status_misplaced disk (s : Request X) a data st :
  request_wf s -> rh_request_type (req_header s) = VIRTIO_BLK_T_IN ->
  is_byte VIRTIO_BLK_S_IOERR ->
  consumer_stream (br_writer s) = a :: data ++ [st] -> NoDup (a :: data ++ [st]) ->
  ~ (512 | zlen (a :: data)) ->
  exists s', serve_request disk s = (Ok (Some 0), s') /\ br_disk s' = br_disk s /\
    br_hm s' a = VIRTIO_BLK_S_IOERR /\ br_hm s' st = br_hm s st.
Proof using All.
  intros [Hr Hw Hh _ _] Hty Herr Hst Hnd Hdiv.
  destruct (serve_request_eq disk s Hr Hh) as (r' & Hr' & Hs' & ->). cbv zeta.
  set (s1 := br_put r' (br_writer s) (br_hm s) (br_disk s)).
  assert (process_request disk (req_header s) s1 = (Err ReInvalidDataLength, s1)) as ->.
  { unfold process_request. run_St. rewrite Hty, Z.eqb_refl. run_St.
    change (br_writer s1) with (br_writer s). unfold writer_available_bytes.
    rewrite available_bytes_stream, Hst by done. run_St.
    rewrite app_comm_cons, zlen_app. change (zlen [st]) with 1.
    pose proof (zlen_nonneg (a :: data)). rewrite usub_ok, Z.add_simpl_r by lia. run_St.
    unfold is_multiple_of. cbn [Z.eqb].
    destruct (Z.eqb_spec (zlen (a :: data) mod 512) 0) as [E|]; [|done].
    exfalso. apply Hdiv. apply Z.mod_divide; [lia|done]. }
  destruct (finish_status s1 0 VIRTIO_BLK_S_IOERR a (data ++ [st])) as (s' & He & Hd & Hhm);
    [done|done|done|].
  exists s'. split_and!; [exact He|done|by rewrite Hhm, Z.eqb_refl|].
  rewrite Hhm. rewrite (proj2 (Z.eqb_neq st a)); [done|].
  intros ->. apply NoDup_cons in Hnd as [Hn _]. set_solver.
Qed.

End properties.

(** A head that the device refuses stops the worker for good.  If the
    entry at the front of the available ring is out of range, or its link is,
    [pop] returns [None] without consuming it and [enable_notification]
    reports the same entry as new work: the drain loop of the worker never
    ends, with any fuel, and with it all service of the device. *)
Theorem block_worker_spins_on_bad_head {prof : Profile} {C Ev X} `{!IrqChipT C Ev} `{!WinEvent Ev}
    `{!VirtioConsts} `{!ImageOps X} mm disk pd pa pu (w : BlockWorker C Ev X) fuel :
  mm_wf mm -> stuck mm the_queue pd pa pu w ->
  (block_process_virtio_queues mm disk fuel w).1 = NoFuel.
Proof.
  intros Hmm Hs. unfold block_process_virtio_queues. destruct fuel as [|fuel]; [done|].
  apply (drain_loop_stuck mm Hmm the_queue pd pa pu); [|done].
  intros w' Hw'. unfold block_process_queue. cbn [block_process_loop].
  unfold mbind at 1, M_bind at 1. unfold mbind at 1, M_bind at 1.
  by rewrite (stuck_pop mm Hmm the_queue pd pa pu).
Qed.

(** ** Witnesses *)

(** A header of type [t] for sector 1 at host address 1000, everything else
    holding sevens. *)
Definition example_request_mem (t : Z) : hostmem :=
  host_write (fun _ => 7) 1000
    (pod_to {| rh_request_type := t; rh_reserved := 0; rh_sector := 1 |}).

Definition example_request (t : Z) (readable writable : list VolatileSlice) (x : list Z) :
    Request (list Z) :=
  {| br_reader := {| c_buffers := readable; c_bytes_consumed := 0 |};
     br_writer := {| c_buffers := writable; c_bytes_consumed := 0 |};
     br_hm := example_request_mem t; br_disk := x |}.

Definition example_disk : DiskProperties :=
  disk_properties_new 1024 (replicate 20 0) CacheWriteback.

Lemma example_request_wf t readable writable x :
  fits 32 t ->
  consumer_wf {| c_buffers := readable; c_bytes_consumed := 0 |} ->
  consumer_wf {| c_buffers := writable; c_bytes_consumed := 0 |} ->
  take 16 (stream readable) = seqZ 1000 16 -> zlen x < 2 ^ 64 ->
  let s := example_request t readable writable x in
  req_header s = {| rh_request_type := t; rh_reserved := 0; rh_sector := 1 |} /\
  request_wf id s.
Proof.
  intros Ht Hr Hw Hs Hx s.
  assert (req_header s = {| rh_request_type := t; rh_reserved := 0; rh_sector := 1 |}) as Hh.
  { unfold req_header, s, consumer_stream. cbn [br_hm br_reader example_request c_buffers].
    rewrite Hs. set (h := {| rh_request_type := t; rh_reserved := 0; rh_sector := 1 |}).
    assert (stream_read (example_request_mem t) (seqZ 1000 16) = pod_to h) as ->.
    { unfold example_request_mem. fold h.
      rewrite <- (stream_read_write (fun _ => 7) (seqZ 1000 16) (pod_to h)).
      - apply map_ext. intros a. rewrite host_write_stream. done.
      - apply NoDup_seqZ.
      - by rewrite length_seqZ, (pod_to_length (T:=RequestHeader)). }
    apply (pod_of_to (T:=RequestHeader)). split_and!; [done|split; vm_compute; congruence..]. }
  split; [done|]. split; [done|done| |by rewrite Hh|done].
  unfold consumer_stream. cbn [br_reader s example_request c_buffers].
  apply (f_equal length) in Hs. rewrite length_take, length_seqZ in Hs. unfold zlen. lia.
Qed.

Lemma example_request_consumer_wf bufs :
  forallb (fun v => (0 <=? vs_addr v) && (0 <=? vs_size v) && (vs_addr v + vs_size v <? 2 ^ 64))
    bufs = true -> zlen (stream bufs) < 2 ^ 64 ->
  consumer_wf {| c_buffers := bufs; c_bytes_consumed := 0 |}.
Proof.
  intros Hb Hl. split; [|done|].
  - apply List.Forall_forall. rewrite forallb_forall in Hb. intros v Hv. specialize (Hb v Hv).
    unfold slice_wf. lia.
  - unfold consumer_stream. cbn [c_buffers c_bytes_consumed]. lia.
Qed.

Lemma block_write_read_roundtrip_witness :
  let s1 := example_request 1 [vs_with_bitmap 1000 528] [vs_with_bitmap 3000 1]
              (replicate 1024 0) in
  exists s1', serve_request (prof:=dev_profile) example_disk s1 = (Ok (Some 512), s1') /\
    br_hm s1' 3000 = 0 /\
    let s2 := example_request 0 [vs_with_bitmap 1000 16]
                [vs_with_bitmap 5000 200; vs_with_bitmap 6000 312; vs_with_bitmap 7000 1]
                (br_disk s1') in
    exists s2', serve_request (prof:=dev_profile) example_disk s2 = (Ok (Some 512), s2') /\
      stream_read (br_hm s2') (stream [vs_with_bitmap 5000 200; vs_with_bitmap 6000 312]) =
        replicate 512 7.
Proof.
  intros s1.
  destruct (example_request_wf 1 [vs_with_bitmap 1000 528] [vs_with_bitmap 3000 1]
    (replicate 1024 0)) as [Hh1 Hw1];
    [split; vm_compute; congruence|by apply example_request_consumer_wf|by apply example_request_consumer_wf
    |reflexivity|reflexivity|]. fold s1 in Hh1, Hw1.
  destruct (block_write_read_roundtrip (prof:=dev_profile) id example_disk s1 3000 [])
    as (s1' & Hrun1 & Hst & Hin); [done|by rewrite Hh1|done|split; vm_compute; congruence
    |exists 1; reflexivity|unfold within_image; rewrite Hh1; vm_compute; congruence|reflexivity|].
  exists s1'. split_and!; [exact Hrun1|exact Hst|]. intros s2.
  assert (zlen (br_disk s1') = 1024) as Hlen.
  { unfold s1 in Hrun1.
    pose proof (f_equal (fun r => zlen (br_disk r.2)) Hrun1) as H. cbn [snd] in H.
    rewrite <- H. vm_compute. reflexivity. }
  destruct (example_request_wf 0 [vs_with_bitmap 1000 16]
    [vs_with_bitmap 5000 200; vs_with_bitmap 6000 312; vs_with_bitmap 7000 1] (br_disk s1'))
    as [Hh2 Hw2]; [split; vm_compute; congruence|by apply example_request_consumer_wf
    |by apply example_request_consumer_wf|reflexivity|by rewrite Hlen|]. fold s2 in Hh2, Hw2.
  destruct (Hin s2 [vs_with_bitmap 5000 200; vs_with_bitmap 6000 312] 7000)
    as (s2' & Hrun2 & _ & Hrd & _); [done|by rewrite Hh2|done|by rewrite Hh1, Hh2|done|done| |].
  - apply (bool_decide_unpack _). vm_compute. exact I.
  - exists s2'. split; [exact Hrun2|]. rewrite Hrd. vm_compute. reflexivity.
Defined.

Lemma block_error_status_misplaced_witness :
  let s := example_request 0 [vs_with_bitmap 1000 16] [vs_with_bitmap 3000 2; vs_with_bitmap 4000 1]
             (replicate 1024 0) in
  exists s', serve_request (prof:=dev_profile) example_disk s = (Ok (Some 0), s') /\
    br_hm s' 3000 = 1 /\ br_hm s' 4000 = 7.
Proof.
  intros s.
  destruct (example_request_wf 0 [vs_with_bitmap 1000 16]
    [vs_with_bitmap 3000 2; vs_with_bitmap 4000 1] (replicate 1024 0)) as [Hh Hw];
    [split; vm_compute; congruence|by apply example_request_consumer_wf|by apply example_request_consumer_wf
    |reflexivity|reflexivity|]. fold s in Hh, Hw.
  destruct (block_error_status_misplaced (prof:=dev_profile) id example_disk s 3000 [3001] 4000)
    as (s' & Hrun & _ & Ha & Hst); [done|by rewrite Hh|split; vm_compute; congruence|reflexivity
    |apply (bool_decide_unpack _); vm_compute; exact I| |].
  - intros [k Hk]. change (2 = k * 512) in Hk. lia.
  - exists s'. split_and!; [exact Hrun|exact Ha|]. rewrite Hst. reflexivity.
Defined.

(** The next entry of the available ring names descriptor 100 of a table of four. *)
Definition stuck_worker : BlockWorker SimpleIrqChip nat (list Z) :=
  {| wk_queues := example_queue;
     wk_hm := host_write (host_write example_hm (1048576 + 4096 + 2) [1; 0])
                (1048576 + 4096 + 10) [100; 0];
     wk_interrupt := mt_interrupt (example_transport 15);
     wk_ext := [] |}.

Lemma block_worker_spins_on_bad_head_witness :
  (block_process_virtio_queues (prof:=dev_profile) example_mm example_disk 1000 stuck_worker).1
    = NoFuel.
Proof.
  apply (block_worker_spins_on_bad_head (prof:=dev_profile) example_mm example_disk 1048576
    (1048576 + 4096) (1048576 + 8192)).
  - apply example_mm_wf.
  - split.
    + split; [apply example_queue_wf|apply example_rings|].
      cbn [wk_hm stuck_worker]. do 2 (apply host_write_wf;
        [|repeat constructor; unfold is_byte; lia]). apply example_hm_wf.
    + vm_compute. congruence.
    + vm_compute. reflexivity.
    + left. vm_compute. congruence.
    + left. vm_compute. congruence.
Defined.
