(* ===== verification/BlockBatch.v ===== *)
(** * BlockBatch: a batch of disk requests

    [Batch] for the block worker: the reads and writes that a driver published
    together are carried out one after the other, in ring order, on the disk
    image, as [block_step] says without queues, chains or rings. *)

From S2P Require Import Prelude Bytes HostMem GuestMem Queue FileTraits DescUtils Irqchip VirtioDev Mmio Worker Batch GoodDriver BlockWorker.

(** ** Requests as the driver wrote them *)

Section requests.
Context {prof : Profile} {X : Type} `{!VirtioConsts} `{!ImageOps X}.
Variables (img_bytes : X -> list Z) (mm : MemoryManager) (hm : hostmem).

Definition chain_header (c : DescriptorChain) : RequestHeader :=
  pod_of (stream_read hm (take 16 (chain_reads mm hm c))).
Definition chain_payload (c : DescriptorChain) : list Z := drop 16 (chain_reads mm hm c).
Definition chain_offset (c : DescriptorChain) : Z := rh_sector (chain_header c) * 512.

(** A write of whole sectors with a status byte, or a read of whole sectors
    with the status byte in a descriptor of its own, within [size] bytes. *)
Inductive request_ok (size : Z) (c : DescriptorChain) : Prop :=
| request_ok_out st rest :
    16 <= zlen (chain_reads mm hm c) ->
    rh_request_type (chain_header c) = VIRTIO_BLK_T_OUT ->
    (512 | zlen (chain_payload c)) -> chain_offset c + zlen (chain_payload c) <= size ->
    chain_writes mm hm c = st :: rest -> request_ok size c
| request_ok_in wr data st :
    16 <= zlen (chain_reads mm hm c) ->
    rh_request_type (chain_header c) = VIRTIO_BLK_T_IN ->
    writer_new mm hm c = Ok wr -> c_buffers wr = data ++ [vs_with_bitmap st 1] ->
    (512 | zlen (stream data)) -> chain_offset c + zlen (stream data) <= size -> request_ok size c.

(** The request on the disk: image [x] becomes [x'], the driver is told [len]
    and finds the result in memory [m]. *)
Inductive block_step (c : DescriptorChain) (x : X) (len : Z) (x' : X) (m : hostmem) : Prop :=
| block_step_out st rest :
    rh_request_type (chain_header c) = VIRTIO_BLK_T_OUT ->
    img_bytes x' =
      splice (Z.to_nat (chain_offset c)) (stream_read hm (chain_payload c)) (img_bytes x) ->
    len = wrap 32 (zlen (chain_payload c) + 1) ->
    chain_writes mm hm c = st :: rest -> m st = VIRTIO_BLK_S_OK -> block_step c x len x' m
| block_step_in data st :
    rh_request_type (chain_header c) = VIRTIO_BLK_T_IN -> x' = x ->
    chain_writes mm hm c = data ++ [st] ->
    stream_read m data = slice (Z.to_nat (chain_offset c)) (length data) (img_bytes x) ->
    m st = VIRTIO_BLK_S_OK -> len = wrap 32 (zlen data + 1) -> block_step c x len x' m.

(** The image keeps its size and holds bytes. *)
Definition image_ok (size : Z) (x : X) : Prop :=
  zlen (img_bytes x) = size /\ bytes_ok (img_bytes x).

Lemma block_step_local c x len x' m m' :
  block_step c x len x' m -> agree (fun a => a ∈ chain_writes mm hm c) m m' ->
  block_step c x len x' m'.
Proof using.
  intros [st rest Ht Hx Hl Hw Hm|data st Ht Hx Hw Hd Hm Hl] Ha.
  - eapply block_step_out; [done..|]. rewrite Ha; [done|]. rewrite Hw. left.
  - eapply block_step_in; [done..| | |done].
    + rewrite <- Hd. eapply agree_stream_read; [exact Ha|]. intros a Hin. rewrite Hw.
      apply elem_of_app. by left.
    + rewrite Ha; [done|]. rewrite Hw. apply elem_of_app. right. by left.
Qed.

End requests.

(** ** Serving one of them *)

Section serve.
Context {prof : Profile} {C Ev X : Type} `{!IrqChipT C Ev} `{!WinEvent Ev} `{!VirtioConsts}
  `{!ImageOps X}.
Variable img_bytes : X -> list Z.
Context `{!ImageLaws X img_bytes}.
Context (mm : MemoryManager) (Hmm : mm_wf mm) (disk : DiskProperties).
Variables (pd pa pu size : Z).
Hypothesis (Htypes : VIRTIO_BLK_T_OUT <> VIRTIO_BLK_T_IN) (Hok : is_byte VIRTIO_BLK_S_OK)
  (Hsize : size < 2 ^ 64).

(** Once the request is answered, the chain goes back with its length. *)
Lemma block_serve_chain_answered (w : BlockWorker C Ev X) c rd wr len s' :
  worker_ready mm the_queue pd pa pu w -> 0 <= dc_index c < q_size (wk_queues w) ->
  reader_new mm (wk_hm w) c = Ok rd -> writer_new mm (wk_hm w) c = Ok wr ->
  serve_request disk (br_put rd wr (wk_hm w) (wk_ext w)) = (Ok (Some len), s') ->
  0 <= len -> len + 1 < 2 ^ 64 -> hostmem_wf (br_hm s') ->
  block_serve_chain mm disk c w =
    (Ok true, w_served the_queue pu w (br_hm s') (br_disk s') c (wrap 32 (len + 1))).
Proof using Hmm.
  intros Hw Hi Hrd Hwr Hs Hl Hl1 Hwf. pose proof Hw as [Hq Hr Hhm].
  unfold block_serve_chain. run_St. rewrite Hrd, Hwr. run_St. rewrite Hs. run_St.
  rewrite uadd_ok by lia. run_St. unfold wk_set_mem_ext. cbn [fst snd].
  by rewrite (wk_add_used_mapped mm Hmm the_queue pd pa pu).
Qed.

Section batch.
Variables (q : Queue) (hm : hostmem) (cs : list DescriptorChain).
Hypothesis (Hq : queue_wf q) (Hhm : hostmem_wf hm) (Hr : rings_mapped mm q pd pa pu)
  (Hg : good_batch mm pd pa pu q hm cs).

(** What a request of the batch finds when its turn comes. *)
Lemma batch_request (w : BlockWorker C Ev X) c :
  worker_ready mm the_queue pd pa pu w -> moved q (wk_queues w) ->
  agree (untouched mm pu q hm cs) hm (wk_hm w) -> c ∈ cs ->
  exists rd wr, reader_new mm (wk_hm w) c = Ok rd /\ writer_new mm (wk_hm w) c = Ok wr /\
    writer_new mm hm c = Ok wr /\ consumer_wf rd /\ consumer_wf wr /\
    NoDup (consumer_stream wr) /\ 0 <= dc_index c < q_size (wk_queues w) /\
    consumer_stream rd = chain_reads mm hm c /\ consumer_stream wr = chain_writes mm hm c /\
    req_header (br_put rd wr (wk_hm w) (wk_ext w)) = chain_header mm hm c /\
    stream_read (wk_hm w) (chain_payload mm hm c) = stream_read hm (chain_payload mm hm c).
Proof using Hmm Hq Hhm Hr Hg.
  intros Hw Hm Ha Hc.
  destruct (good_chain mm pd pa pu q hm cs c Hq Hhm Hg Hc) as [_ Hi].
  destruct (good_reader_writer mm Hmm pd pa pu q hm cs c w) as [Hnr Hnw]; [done..|].
  destruct (gb_reader _ _ _ _ _ _ _ Hg c Hc) as (rd & Hrd & Hrwf).
  destruct (gb_writer _ _ _ _ _ _ _ Hg c Hc) as (wr & Hwr & Hwf & Hnd & _).
  assert (consumer_stream rd = chain_reads mm hm c) as Er by (unfold chain_reads; by rewrite Hrd).
  assert (forall a, a ∈ take 16 (chain_reads mm hm c) \/ a ∈ drop 16 (chain_reads mm hm c) ->
    a ∈ chain_reads mm hm c) as Hpart
    by (intros a Hin; rewrite <- (take_drop 16 (chain_reads mm hm c)); by apply elem_of_app).
  exists rd, wr. split_and!; try done; try by rewrite ?Hnr, ?Hnw.
  - by destruct Hi.
  - pose proof (moved_size _ _ Hm) as E. rewrite E. by destruct Hi.
  - unfold chain_writes. by rewrite Hwr.
  - unfold req_header, chain_header. cbn [br_hm br_reader br_put]. rewrite Er. f_equal.
    apply (good_reads mm pd pa pu q hm cs c); auto.
  - apply (good_reads mm pd pa pu q hm cs c); auto.
Qed.

Lemma chain_offset_nonneg c : 0 <= rh_sector (chain_header mm hm c).
Proof using Hhm.
  unfold chain_header. cbn. apply le_val_bound. apply bytes_ok_take, bytes_ok_drop.
  apply List.Forall_forall. intros b Hb. apply in_map_iff in Hb as (a & <- & _). apply Hhm.
Qed.

Lemma image_splice off bs x x' :
  image_ok img_bytes size x -> bytes_ok bs -> 0 <= off -> off + zlen bs <= size ->
  img_bytes x' = splice (Z.to_nat off) bs (img_bytes x) -> image_ok img_bytes size x'.
Proof using.
  intros [Hz Hb] Hbs Ho Hin E. unfold image_ok, zlen in *. rewrite E. split.
  - unfold zlen. rewrite length_splice; [done|]. lia.
  - unfold splice. repeat (apply bytes_ok_app; split); auto using bytes_ok_take, bytes_ok_drop.
Qed.

Lemma block_serves_out c st rest :
  c ∈ cs -> 16 <= zlen (chain_reads mm hm c) ->
  rh_request_type (chain_header mm hm c) = VIRTIO_BLK_T_OUT ->
  (512 | zlen (chain_payload mm hm c)) ->
  chain_offset mm hm c + zlen (chain_payload mm hm c) <= size ->
  chain_writes mm hm c = st :: rest ->
  serves mm the_queue pd pa pu (block_serve_chain (C:=C) (Ev:=Ev) mm disk) q hm
    (untouched mm pu q hm cs) (image_ok img_bytes size) (chain_writes mm hm)
    (block_step img_bytes mm hm) c.
Proof using All.
  intros Hc Hl Hty Hdiv Hfit Hst w Hw Hm Ha [Hz Hb].
  destruct (batch_request w c Hw Hm Ha Hc) as
    (rd & wr & Hnr & Hnw & _ & Hrwf & Hwwf & Hnd & Hi & Er & Ew & Eh & Ep).
  set (s := br_put rd wr (wk_hm w) (wk_ext w)) in *.
  assert (req_payload s = chain_payload mm hm c) as Epay
    by (unfold req_payload, chain_payload; cbn [br_reader s br_put]; by rewrite Er).
  pose proof (chain_offset_nonneg c) as Hsec. unfold chain_offset in Hfit.
  pose proof (zlen_nonneg (chain_payload mm hm c)) as Hp.
  destruct (serve_out img_bytes disk s st rest) as (s' & Hrun & Himg & Hhm');
    rewrite ?Epay, ?Eh in *; try done.
  - cbn [br_reader s br_put]. by rewrite Er.
  - cbn [br_disk s br_put]. rewrite Hz. lia.
  - cbn [br_writer s br_put]. by rewrite Ew.
  - cbn [br_hm br_disk s br_put] in *. rewrite Ep in Himg.
    assert (hostmem_wf (br_hm s')) as Hwf'.
    { intros a. rewrite Hhm'. case_match; [done|apply Hw]. }
    exists (br_hm s'), (br_disk s'), (wrap 32 (zlen (chain_payload mm hm c) + 1)). split_and!.
    + apply (block_serve_chain_answered w c rd wr); try done. destruct Hdiv as [k Hk]. lia.
    + done.
    + eapply image_splice; [by split|..|exact Himg].
      * apply List.Forall_forall. intros b Hin. apply in_map_iff in Hin as (a & <- & _). apply Hhm.
      * lia.
      * unfold zlen, stream_read in *. rewrite length_map. lia.
    + intros a Hin. rewrite Hhm'. rewrite Hst in Hin.
      rewrite (proj2 (Z.eqb_neq a st)); [done|]. intros ->. apply Hin. left.
    + eapply block_step_out; [done|exact Himg|done|exact Hst|]. by rewrite Hhm', Z.eqb_refl.
Qed.

Lemma block_serves_in c wr0 data st :
  c ∈ cs -> 16 <= zlen (chain_reads mm hm c) ->
  rh_request_type (chain_header mm hm c) = VIRTIO_BLK_T_IN ->
  writer_new mm hm c = Ok wr0 -> c_buffers wr0 = data ++ [vs_with_bitmap st 1] ->
  (512 | zlen (stream data)) -> chain_offset mm hm c + zlen (stream data) <= size ->
  serves mm the_queue pd pa pu (block_serve_chain (C:=C) (Ev:=Ev) mm disk) q hm
    (untouched mm pu q hm cs) (image_ok img_bytes size) (chain_writes mm hm)
    (block_step img_bytes mm hm) c.
Proof using All.
  intros Hc Hl Hty Hwr0 Hbuf Hdiv Hfit w Hw Hm Ha [Hz Hb].
  destruct (batch_request w c Hw Hm Ha Hc) as
    (rd & wr & Hnr & Hnw & Hwr & Hrwf & Hwwf & Hnd & Hi & Er & Ew & Eh & _).
  rewrite Hwr in Hwr0. injection Hwr0 as ->.
  assert (chain_writes mm hm c = stream data ++ [st]) as Est
    by (rewrite <- Ew; unfold consumer_stream; by rewrite Hbuf, stream_app).
  rewrite Ew, Est in Hnd. apply NoDup_app in Hnd as (Hnd & Hdis & _).
  assert (st ∉ stream data) as Hni by (intros Hin; apply (Hdis _ Hin); by left).
  set (s := br_put rd wr0 (wk_hm w) (wk_ext w)) in *.
  pose proof (chain_offset_nonneg c) as Hsec. unfold chain_offset in Hfit.
  pose proof (zlen_nonneg (stream data)) as Hp.
  destruct (serve_in img_bytes disk s data st) as (s' & Hrun & Hd & Hhm');
    rewrite ?Eh in *; try done.
  - cbn [br_reader s br_put]. by rewrite Er.
  - cbn [br_disk s br_put]. rewrite Hz. lia.
  - cbn [br_hm br_disk s br_put] in *. fold (chain_offset mm hm c) in *.
    set (bs := slice _ _ _) in Hhm'.
    assert (length (stream data) = length bs) as Hbs.
    { symmetry. apply length_slice. unfold zlen, chain_offset in *. lia. }
    assert (hostmem_wf (br_hm s')) as Hwf'.
    { intros a. rewrite Hhm'. case_match; [done|]. apply stream_write_wf; [apply Hw|].
      by apply bytes_ok_take, bytes_ok_drop. }
    exists (br_hm s'), (br_disk s'), (wrap 32 (zlen (stream data) + 1)). split_and!.
    + apply (block_serve_chain_answered w c rd wr0); try done. destruct Hdiv as [k Hk]. unfold chain_offset in *. lia.
    + done.
    + by rewrite Hd.
    + intros a Hin. rewrite Est in Hin. apply not_elem_of_app in Hin as [Hin1 Hin2].
      rewrite Hhm'. rewrite (proj2 (Z.eqb_neq a st)); [by apply stream_write_notin|].
      intros ->. apply Hin2. left.
    + eapply block_step_in; [done|exact Hd|exact Est| |by rewrite Hhm', Z.eqb_refl|done].
      change (stream_read (br_hm s') (stream data) = bs).
      rewrite <- (stream_read_write (wk_hm w) (stream data) bs) by done.
      apply map_ext_in. intros a Hin%list_elem_of_In. rewrite Hhm'.
      rewrite (proj2 (Z.eqb_neq a st)); [done|]. by intros ->.
Qed.

Lemma block_serves c :
  c ∈ cs -> request_ok mm hm size c ->
  serves mm the_queue pd pa pu (block_serve_chain (C:=C) (Ev:=Ev) mm disk) q hm
    (untouched mm pu q hm cs) (image_ok img_bytes size) (chain_writes mm hm)
    (block_step img_bytes mm hm) c.
Proof using All.
  intros Hc []; [by eapply block_serves_out|by eapply block_serves_in].
Qed.

End batch.

End serve.

(** ** Property *)

(** C6: the queue, the rings and the loops of the block worker implement a disk
    that answers one request after the other.  For a driver that keeps the
    rules and published reads and writes of whole sectors within the image,
    one wake-up of the worker returns, with one unit of fuel more than there are
    chains.  In ring order each write stores the bytes of its buffers and each
    read finds, at the end, the bytes of the image as the requests before it
    left them, every status byte is OK, the used ring holds each head with its
    length in the same order and its index counts them; the driver is signalled
    at most once, exactly when it asked for it; no other byte outside the used
    ring has changed. *)
Theorem block_serves_batch {prof : Profile} {C Ev X} `{!IrqChipT C Ev} `{!WinEvent Ev}
    `{!VirtioConsts} `{!ImageOps X} (img_bytes : X -> list Z) `{!ImageLaws X img_bytes}
    mm disk pd pa pu (w : BlockWorker C Ev X) cs size fuel :
  VIRTIO_BLK_T_OUT <> VIRTIO_BLK_T_IN -> is_byte VIRTIO_BLK_S_OK -> size < 2 ^ 64 ->
  mm_wf mm -> worker_ready mm the_queue pd pa pu w -> signal_returns (wk_interrupt w) ->
  image_ok img_bytes size (wk_ext w) ->
  good_batch mm pd pa pu (wk_queues w) (wk_hm w) cs ->
  (forall c, c ∈ cs -> request_ok mm (wk_hm w) size c) -> (length cs < fuel)%nat ->
  exists w' lens, block_process_virtio_queues mm disk fuel w = (Ok tt, w') /\
    batch_done the_queue pa pu (image_ok img_bytes size) (chain_writes mm (wk_hm w))
      (block_step img_bytes mm (wk_hm w)) (notification_wanted pa) w cs lens w'.
Proof.
  intros Hty Hok Hsz Hmm Hw Hsig Hx Hg Hreq Hf. pose proof Hw as [Hq Hr Hhm].
  apply (drain_batch mm Hmm the_queue pd pa pu (block_serve_chain mm disk) (wk_queues w) (wk_hm w)
    (untouched mm pu (wk_queues w) (wk_hm w) cs) (image_ok img_bytes size)
    (chain_writes mm (wk_hm w)) (block_step img_bytes mm (wk_hm w)) (notification_wanted pa)
    (wk_finish mm the_queue) (block_process_queue mm disk fuel) cs w fuel); try done.
  - intros q hm hm'. apply notification_wanted_agree.
  - by apply wk_finish_finishes.
  - apply Hg.
  - apply good_service; [done|intros c x len x' m m'; apply block_step_local|].
    intros c Hc. by apply block_serves; auto.
  - apply Hg.
  - apply Hg.
Qed.

(** Eight descriptors; a write of one sector (head 0), then a read of the same
    sector (head 2), both pending.  All other bytes of memory are sevens. *)
Definition batch_queue : Queue :=
  {| q_max_size := 256; q_size := 8; q_ready := true; q_desc_table := 4096;
     q_avail_ring := 8192; q_used_ring := 12288; q_next_avail := 0; q_next_used := 5;
     q_event_idx_enabled := false; q_num_added := 0 |}.

Definition batch_descriptors : list Descriptor :=
  [ {| d_addr := 16384; d_len := 528; d_flags := 1; d_next := 1 |};
    {| d_addr := 17408; d_len := 1; d_flags := 2; d_next := 0 |};
    {| d_addr := 18432; d_len := 16; d_flags := 1; d_next := 3 |};
    {| d_addr := 20480; d_len := 512; d_flags := 3; d_next := 4 |};
    {| d_addr := 21504; d_len := 1; d_flags := 2; d_next := 0 |} ].

Definition batch_hm : hostmem :=
  host_write (host_write (host_write (host_write (fun _ => 7)
    1048576 (concat (map pod_to batch_descriptors)))
    (1048576 + 4096) [0; 0; 2; 0; 0; 0; 2; 0])
    (1048576 + 12288) (pod_to {| rh_request_type := 1; rh_reserved := 0; rh_sector := 1 |}))
    (1048576 + 14336) (pod_to {| rh_request_type := 0; rh_reserved := 0; rh_sector := 1 |}).

Definition batch_worker : BlockWorker SimpleIrqChip nat (list Z) :=
  {| wk_queues := batch_queue; wk_hm := batch_hm;
     wk_interrupt := mt_interrupt (example_transport 15); wk_ext := replicate 1024 0 |}.

Lemma batch_hm_wf : hostmem_wf batch_hm.
Proof.
  unfold batch_hm. repeat (apply host_write_wf; [|by apply bytes_okb_ok]).
  intros a. unfold is_byte. lia.
Qed.

Lemma block_serves_batch_witness :
  exists w' lens,
    block_process_virtio_queues (prof:=dev_profile) example_mm example_disk 3 batch_worker =
      (Ok tt, w') /\
    q_next_avail (wk_queues w') = 2 /\ q_next_used (wk_queues w') = 7 /\
    batch_steps (block_step (prof:=dev_profile) id example_mm batch_hm) (wk_hm w')
      (published 1048576 (1048576 + 4096) batch_queue batch_hm) (replicate 1024 0) lens (wk_ext w').
Proof.
  destruct (block_serves_batch (prof:=dev_profile) id example_mm example_disk 1048576
    (1048576 + 4096) (1048576 + 8192) batch_worker
    (published 1048576 (1048576 + 4096) batch_queue batch_hm) 1024 3) as (w' & lens & Hrun & Hb).
  - vm_compute. congruence.
  - split; vm_compute; congruence.
  - reflexivity.
  - apply example_mm_wf.
  - split; [split; cbn; unfold fits; lia|split; apply example_mapped; cbn; lia|apply batch_hm_wf].
  - vm_compute. exact I.
  - split; [reflexivity|by apply bytes_okb_ok].
  - apply good_batchb_good; [apply batch_hm_wf|]. vm_compute. reflexivity.
  - apply (proj1 (Forall_forall _ _)). cbn [wk_hm batch_worker].
    apply Forall_cons; split; [|apply Forall_cons; split; [|by apply Forall_nil]].
    + apply (request_ok_out _ _ _ _ (1048576 + 13312) []);
        [..|by vm_compute]; [by vm_compute|by vm_compute|exists 1; by vm_compute|by vm_compute].
    + apply (request_ok_in _ _ _ _
        {| c_buffers := [vs_with_bitmap (1048576 + 16384) 512; vs_with_bitmap (1048576 + 17408) 1];
           c_bytes_consumed := 0 |}
        [vs_with_bitmap (1048576 + 16384) 512] (1048576 + 17408));
        [by vm_compute|by vm_compute|by vm_compute|done|exists 1; by vm_compute|by vm_compute].
  - vm_compute. lia.
  - exists w', lens. split_and!; [done| | |apply Hb];
      destruct (bd_queue _ _ _ _ _ _ _ _ _ _ _ Hb) as [n ->]; vm_compute; reflexivity.
Defined.
