(* ===== verification/RngWorker.v ===== *)
(** * RngWorker: the worker of the entropy device,
      [src/devices/virtio/rng/worker.rs]

    Each chain's writable buffers are filled with random bytes from
    [BCryptGenRandom], the class [RandomSource]. *)

From S2P Require Import Prelude Bytes HostMem GuestMem Queue FileTraits DescUtils Irqchip VirtioDev Mmio Worker Batch GoodDriver.

(** [BCryptGenRandom] fills the whole buffer or fails. *)
Class RandomSource (X : Type) : Type := { gen_random : nat -> M X string (list Z) }.
Class RandomLaws (X : Type) `{!RandomSource X} : Prop := {
  gen_random_length n x bs x' : gen_random n x = (Ok bs, x') -> length bs = n;
  gen_random_bytes n x bs x' : gen_random n x = (Ok bs, x') -> bytes_ok bs;
}.

(* src/devices/virtio/rng/worker.rs:17-22, RngWorker *)
Definition RngWorker (C Ev X : Type) : Type := Worker C Ev Queue X.

Section rng.
Context {prof : Profile} {C Ev X : Type} `{!IrqChipT C Ev} `{!WinEvent Ev} `{!RandomSource X}.
Variable mm : MemoryManager.

#[local] Abbreviation W := (RngWorker C Ev X).

(** The request of a chain with a writer [wr] of [len] bytes: the bytes
    written. *)
(* src/devices/virtio/rng/worker.rs:121-137, RngWorker::process_queue *)
Definition rng_fill (wr : Consumer) (len : Z) : M (hostmem * X) string Z :=
  result ← Mtry (zoom snd (fun x s => (s.1, x)) (gen_random (Z.to_nat len)));
  match result with
  | inl buf =>
      r ← Mtry (zoom (fun s => (wr, s.1)) (fun '(_, hm) s => (hm, s.2)) (writer_write_all buf));
      match r with inl _ => mret len | inr _ => mret 0 end
  | inr _ => mret 0
  end.

(** The body of the loop: whether the chain was returned to the driver. *)
(* src/devices/virtio/rng/worker.rs:103-146, RngWorker::process_queue *)
Definition rng_serve_chain (head : DescriptorChain) : M W string bool :=
  w ← gets id;
  match writer_new mm (wk_hm w) head with
  | Ok wr =>
      len ← lift (writer_available_bytes wr);
      if len =? 0 then
        _ ← wk_add_used mm the_queue (dc_index head) 0;
        mret true
      else
        written ← zoom (fun w => (wk_hm w, wk_ext w)) wk_set_mem_ext (rng_fill wr len);
        _ ← wk_add_used mm the_queue (dc_index head) (wrap 32 written);
        mret true
  | Err _ => mret false
  | Panic => lift Panic
  | NoFuel => lift NoFuel
  end.

Fixpoint rng_process_loop (fuel : nat) (used_any : bool) : M W string bool :=
  match fuel with
  | O => lift NoFuel
  | S fuel' =>
      head ← wk_pop mm the_queue;
      match head with
      | None => mret used_any
      | Some head =>
          served ← rng_serve_chain head;
          rng_process_loop fuel' (used_any || served)
      end
  end.

(* src/devices/virtio/rng/worker.rs:99-154, RngWorker::process_queue *)
Definition rng_process_queue (fuel : nat) : M W string unit :=
  used_any ← rng_process_loop fuel false;
  wk_finish mm the_queue used_any.

(* src/devices/virtio/rng/worker.rs:81-93, RngWorker::process_virtio_queues *)
Definition rng_process_virtio_queues (fuel : nat) : M W string unit :=
  drain_loop mm fuel the_queue (rng_process_queue fuel).

(* src/devices/virtio/rng/worker.rs:41-79, RngWorker::work *)
Definition rng_work (fuel : nat) (results : list Z) : M W string bool :=
  work_loop [rng_process_virtio_queues fuel] results.

End rng.

(** ** An example source *)

#[export] Instance counter_source : RandomSource Z := {
  gen_random n := fun x => (Ok (map (fun i => (x + Z.of_nat i) mod 256) (seq 0 n)), x + 1) }.
#[export] Instance counter_source_laws : RandomLaws Z.
Proof.
  split; cbn; intros n x bs x' [= <- _]; [by rewrite length_map, length_seq|].
  apply Forall_fmap, Forall_forall. intros i _. apply Z.mod_pos_bound. lia.
Qed.

(** ** Properties *)

(** The entropy device fills every requested byte.  For a chain whose
    writable buffers hold [len] bytes, one round writes exactly the next [len]
    random bytes over those buffers in order, publishes the element (head,
    [len]) in the next used slot and advances the used index; a chain without
    writable bytes is returned with length 0; nothing else changes. *)
Theorem rng_fills_buffers {prof : Profile} {C Ev X} `{!IrqChipT C Ev} `{!WinEvent Ev}
    `{!RandomSource X} `{!RandomLaws X} mm pd pa pu (w : RngWorker C Ev X) head wr bs x' :
  mm_wf mm -> worker_ready mm the_queue pd pa pu w ->
  0 <= dc_index head < q_size (wk_queues w) ->
  writer_new mm (wk_hm w) head = Ok wr -> consumer_wf wr ->
  zlen (consumer_stream wr) < 2 ^ 32 ->
  (consumer_stream wr <> [] -> gen_random (length (consumer_stream wr)) (wk_ext w) = (Ok bs, x')) ->
  (consumer_stream wr = [] -> bs = [] /\ x' = wk_ext w) ->
  let q := wk_queues w in
  exists hm, (forall a, hm a = stream_write (wk_hm w) (consumer_stream wr) bs a) /\
    rng_serve_chain mm head w =
      (Ok true,
       {| wk_queues := q_set_used (wadd 16 (q_next_used q) 1) (wadd 16 (q_num_added q) 1) q;
          wk_hm := used_write pu q hm (dc_index head) (zlen bs);
          wk_interrupt := wk_interrupt w; wk_ext := x' |}).
Proof.
  intros Hmm Hr Hh Hnew Hwf Hlen Hgen Hnil q. pose proof Hr as [Hq Hrings Hhm].
  unfold rng_serve_chain. run_St. rewrite Hnew. unfold writer_available_bytes.
  rewrite available_bytes_stream by done. run_St.
  destruct (Z.eqb_spec (zlen (consumer_stream wr)) 0) as [E|E].
  - assert (consumer_stream wr = []) as E0 by (apply nil_length_inv; unfold zlen in E; lia).
    destruct (Hnil E0) as [-> ->]. exists (wk_hm w). split; [by rewrite E0|].
    run_St. rewrite (wk_add_used_mapped mm Hmm the_queue pd pa pu) by done. done.
  - assert (consumer_stream wr <> []) as Hne by (intros E0; by rewrite E0 in E).
    specialize (Hgen Hne). pose proof (gen_random_length _ _ _ _ Hgen) as Hbl.
    destruct (writer_write_all_stream wr (wk_hm w) bs Hwf) as (c' & hm & _ & Hw & _ & _ & Hhm').
    assert (zlen bs = zlen (consumer_stream wr)) as Ez by (unfold zlen; lia).
    rewrite Ez, Z.min_id in Hhm'. rewrite Ez, Z.leb_refl in Hw. exists hm. split.
    { intros a. rewrite Hhm'. unfold zlen. rewrite Nat2Z.id. by rewrite !take_ge by lia. }
    unfold rng_fill. run_St.
    replace (Z.to_nat (zlen (consumer_stream wr))) with (length (consumer_stream wr))
      by (unfold zlen; lia).
    cbn [fst snd]. rewrite Hgen. run_St. rewrite Hw. run_St.
    rewrite wrap_small by (split; [apply zlen_nonneg|done]).
    unfold wk_set_mem_ext. cbn [fst snd]. rewrite <- Ez.
    rewrite (wk_add_used_mapped mm Hmm the_queue pd pa pu); [done| |done].
    split; [done|done|]. cbn [wk_hm]. intros a.
    destruct (decide (a ∈ consumer_stream wr)) as [Hin|Hin].
    + rewrite Hhm'. unfold zlen. rewrite Nat2Z.id, !take_ge by lia.
      apply stream_write_wf; [done|]. by eapply gen_random_bytes.
    + rewrite Hhm'. unfold zlen. rewrite Nat2Z.id, !take_ge by lia.
      rewrite stream_write_notin by done. apply Hhm.
Qed.

(** The abstract request: the state [x] of the source becomes [x'], the length
    [len] is reported, and [m] is the memory at the end. *)
Definition rng_step {X} `{!RandomSource X} (writes : DescriptorChain -> list Z)
    (c : DescriptorChain) (x : X) (len : Z) (x' : X) (m : hostmem) : Prop :=
  if decide (writes c = []) then len = 0 /\ x' = x
  else match gen_random (length (writes c)) x with
       | (Ok bs, x1) => x' = x1 /\ len = zlen (writes c) /\ stream_read m (writes c) = bs
       | (_, x1) => x' = x1 /\ len = 0
       end.

Section batch.
Context {prof : Profile} {C Ev X : Type} `{!IrqChipT C Ev} `{!WinEvent Ev}
  `{!RandomSource X} `{!RandomLaws X}.
Context (mm : MemoryManager) (Hmm : mm_wf mm).
Variables (pd pa pu : Z).
Hypothesis gen_returns : forall n x,
  match (gen_random (X:=X) n x).1 with Ok _ | Err _ => True | Panic | NoFuel => False end.

(** A source that fails: the chain goes back empty. *)
Lemma rng_serve_failed (w : RngWorker C Ev X) head wr e x' :
  worker_ready mm the_queue pd pa pu w -> 0 <= dc_index head < q_size (wk_queues w) ->
  writer_new mm (wk_hm w) head = Ok wr -> consumer_wf wr -> consumer_stream wr <> [] ->
  gen_random (length (consumer_stream wr)) (wk_ext w) = (Err e, x') ->
  rng_serve_chain mm head w = (Ok true, w_served the_queue pu w (wk_hm w) x' head 0).
Proof using Hmm.
  intros Hr Hh Hnew Hwf Hne Hgen. pose proof Hr as [Hq Hrings Hhm].
  unfold rng_serve_chain. run_St. rewrite Hnew. unfold writer_available_bytes.
  rewrite available_bytes_stream by done. run_St.
  destruct (Z.eqb_spec (zlen (consumer_stream wr)) 0) as [E|E].
  { exfalso. apply Hne. apply nil_length_inv. unfold zlen in E. lia. }
  unfold rng_fill. run_St.
  replace (Z.to_nat (zlen (consumer_stream wr))) with (length (consumer_stream wr))
    by (unfold zlen; lia).
  cbn [fst snd]. rewrite Hgen. run_St. unfold wk_set_mem_ext. cbn [fst snd].
  rewrite (wk_add_used_mapped mm Hmm the_queue pd pa pu); [done|by split|done].
Qed.

Lemma rng_serves q hm cs c :
  queue_wf q -> hostmem_wf hm -> rings_mapped mm q pd pa pu ->
  good_batch mm pd pa pu q hm cs -> c ∈ cs ->
  serves mm the_queue pd pa pu (rng_serve_chain (C:=C) (Ev:=Ev) mm) q hm
    (untouched mm pu q hm cs) (fun _ => True) (chain_writes mm hm)
    (rng_step (chain_writes mm hm)) c.
Proof using All.
  intros Hq Hhm Hr Hg Hc w Hw Hm Ha _.
  destruct (good_chain mm pd pa pu q hm cs c Hq Hhm Hg Hc) as [_ Hi].
  destruct (good_reader_writer mm Hmm pd pa pu q hm cs c w) as [_ Hnew]; [done..|].
  destruct (gb_writer _ _ _ _ _ _ _ Hg c Hc) as (wr & Hwr & Hwf & Hnd & Hlen).
  assert (chain_writes mm hm c = consumer_stream wr) as Ecw by (unfold chain_writes; by rewrite Hwr).
  assert (0 <= dc_index c < q_size (wk_queues w)) as Hi'
    by (pose proof (moved_size _ _ Hm) as Hsz; cbn in Hsz; by rewrite Hsz).
  rewrite Hwr in Hnew. unfold rng_step. rewrite !Ecw.
  destruct (decide (consumer_stream wr = [])) as [E|E];
    [|destruct (gen_random (length (consumer_stream wr)) (wk_ext w)) as [[bs|e| |] x1] eqn:Eg;
      [|by exists (wk_hm w), x1, 0; split_and!; [by apply (rng_serve_failed w c wr e)|apply Hw|..]
       |by specialize (gen_returns (length (consumer_stream wr)) (wk_ext w)); rewrite Eg in gen_returns..]].
  - destruct (rng_fills_buffers mm pd pa pu w c wr [] (wk_ext w)) as (hm1 & Hhm1 & Hrun);
      [done..|].
    rewrite E in Hhm1. exists hm1, (wk_ext w), 0. split_and!; [exact Hrun| |done| |done..].
    + intros a. rewrite Hhm1. apply Hw.
    + intros a _. apply Hhm1.
  - destruct (rng_fills_buffers mm pd pa pu w c wr bs x1) as (hm1 & Hhm1 & Hrun); [done..|].
    pose proof (gen_random_length _ _ _ _ Eg) as Hbl.
    exists hm1, x1, (zlen bs). split_and!; [exact Hrun| |done| |done|unfold zlen; lia|].
    + intros a. rewrite Hhm1. apply stream_write_wf; [apply Hw|]. by eapply gen_random_bytes.
    + intros a Hin. rewrite Hhm1. by apply stream_write_notin.
    + rewrite <- (stream_read_write (wk_hm w) (consumer_stream wr) bs) by done.
      apply map_ext. intros a. by rewrite Hhm1.
Qed.

End batch.

(** C38: one wake-up of the entropy device serves everything that is pending.
    For a driver that keeps the rules, the worker returns, with one unit of fuel
    more than there are chains; every published chain was taken once and in
    ring order; its buffers hold the random bytes drawn at its turn (or the
    chain goes back with length 0 when the source failed); the used ring
    holds, in the same order, each head with the length reported and its index
    counts them; the driver is signalled at most once, exactly when it asked for
    it; no other byte outside the used ring has changed. *)
Theorem rng_serves_batch {prof : Profile} {C Ev X} `{!IrqChipT C Ev} `{!WinEvent Ev}
    `{!RandomSource X} `{!RandomLaws X} mm pd pa pu (w : RngWorker C Ev X) cs fuel :
  (forall n x, match (gen_random (X:=X) n x).1 with Ok _ | Err _ => True | _ => False end) ->
  mm_wf mm -> worker_ready mm the_queue pd pa pu w -> signal_returns (wk_interrupt w) ->
  good_batch mm pd pa pu (wk_queues w) (wk_hm w) cs -> (length cs < fuel)%nat ->
  exists w' lens, rng_process_virtio_queues mm fuel w = (Ok tt, w') /\
    let writes := chain_writes mm (wk_hm w) in
    batch_done the_queue pa pu (fun _ => True) writes (rng_step writes)
      (notification_wanted pa) w cs lens w'.
Proof.
  intros Hgen Hmm Hw Hsig Hg Hf. pose proof Hw as [Hq Hr Hhm].
  apply (drain_batch mm Hmm the_queue pd pa pu (rng_serve_chain mm) (wk_queues w) (wk_hm w)
    (untouched mm pu (wk_queues w) (wk_hm w) cs) (fun _ => True) (chain_writes mm (wk_hm w))
    (rng_step (chain_writes mm (wk_hm w))) (notification_wanted pa) (wk_finish mm the_queue) (rng_process_queue mm fuel) cs w fuel);
    try done.
  - intros q hm hm'. apply notification_wanted_agree.
  - by apply wk_finish_finishes.
  - apply Hg.
  - apply good_service; [done| |].
    + intros c x len x' m m' HR Ha. unfold rng_step in *. case_decide; [done|].
      destruct (gen_random _ x) as [[] ?]; try done. destruct HR as (? & ? & <-).
      split_and!; [done..|]. eapply agree_stream_read; [exact Ha|done].
    + intros c Hc. by apply rng_serves.
  - apply Hg.
  - apply Hg.
Qed.

(** Heads 2 and 0 are pending: four and eight bytes to fill. *)
Definition rng_batch_hm : hostmem :=
  host_write (host_write example_hm
    1048576 (pod_to {| d_addr := 16384; d_len := 8; d_flags := 2; d_next := 0 |}))
    (1048576 + 32) (pod_to {| d_addr := 20480; d_len := 4; d_flags := 2; d_next := 0 |}).
Definition rng_batch_worker : RngWorker SimpleIrqChip nat Z :=
  {| wk_queues := example_queue; wk_hm := rng_batch_hm;
     wk_interrupt := mt_interrupt (example_transport 15); wk_ext := 40 |}.

Lemma rng_serves_batch_witness :
  exists w' lens,
    rng_process_virtio_queues (prof:=dev_profile) example_mm 3 rng_batch_worker = (Ok tt, w') /\
    q_next_avail (wk_queues w') = 1 /\ length lens = 2%nat /\
    batch_steps (rng_step (chain_writes (prof:=dev_profile) example_mm rng_batch_hm)) (wk_hm w')
      (published 1048576 (1048576 + 4096) example_queue rng_batch_hm) 40 lens (wk_ext w').
Proof.
  assert (hostmem_wf rng_batch_hm) as Hhm.
  { apply host_write_wf; [apply host_write_wf; [apply example_hm_wf|]|]; by apply bytes_okb_ok. }
  destruct (rng_serves_batch (prof:=dev_profile) example_mm 1048576 (1048576 + 4096)
    (1048576 + 8192) rng_batch_worker
    (published 1048576 (1048576 + 4096) example_queue rng_batch_hm) 3) as (w' & lens & Hrun & Hb).
  - intros n x. exact I.
  - apply example_mm_wf.
  - split; [apply example_queue_wf|apply example_rings|done].
  - vm_compute. exact I.
  - apply good_batchb_good; [done|]. vm_compute. reflexivity.
  - vm_compute. lia.
  - exists w', lens. split_and!; [done| | |apply Hb].
    + destruct (bd_queue _ _ _ _ _ _ _ _ _ _ _ Hb) as [n ->]. vm_compute. reflexivity.
    + rewrite (bd_len _ _ _ _ _ _ _ _ _ _ _ Hb). vm_compute. reflexivity.
Defined.

(** Descriptor 1 is a writable buffer of eight bytes. *)
Definition rng_example_hm : hostmem :=
  host_write example_hm (1048576 + 16)
    (pod_to {| d_addr := 16384; d_len := 8; d_flags := 2; d_next := 0 |}).
Definition rng_example_worker : RngWorker SimpleIrqChip nat Z :=
  {| wk_queues := example_queue; wk_hm := rng_example_hm;
     wk_interrupt := mt_interrupt (example_transport 15); wk_ext := 40 |}.

Lemma rng_fills_buffers_witness :
  let head := table_chain example_queue rng_example_hm 1048576 1 in
  exists hm, (forall a, hm a = stream_write rng_example_hm (seqZ (1048576 + 12288) 8)
                                 [40; 41; 42; 43; 44; 45; 46; 47] a) /\
    rng_serve_chain (prof:=dev_profile) example_mm head rng_example_worker =
      (Ok true,
       {| wk_queues := q_set_used 0 1 example_queue;
          wk_hm := used_write (1048576 + 8192) example_queue hm 1 8;
          wk_interrupt := mt_interrupt (example_transport 15); wk_ext := 41 |}).
Proof.
  intros head.
  apply (rng_fills_buffers (prof:=dev_profile) example_mm 1048576 (1048576 + 4096)
    (1048576 + 8192) rng_example_worker head
    {| c_buffers := [vs_with_bitmap (1048576 + 12288) 8]; c_bytes_consumed := 0 |}
    [40; 41; 42; 43; 44; 45; 46; 47] 41).
  - apply example_mm_wf.
  - split; [apply example_queue_wf|apply example_rings|].
    apply host_write_wf; [apply example_hm_wf|]. by apply bytes_okb_ok.
  - split; vm_compute; congruence.
  - vm_compute. reflexivity.
  - split; [repeat constructor; vm_compute; congruence|done|reflexivity].
  - reflexivity.
  - intros _. reflexivity.
  - intros H. vm_compute in H. congruence.
Defined.
