(* ===== verification/ConsoleWorker.v ===== *)
(** * ConsoleWorker: the worker of the console and the host terminal,
      [src/devices/virtio/console/worker.rs] and [src/terminal.rs]

    Guest output goes from the transmit queue to the host's stdout, with the
    cursor queries filtered out; host input goes through a shared buffer into
    the receive queue, with the cursor reports filtered out.  Stdout is a
    parameter: an effect on a state [Tty]. *)

From S2P Require Import Prelude Bytes HostMem GuestMem Queue FileTraits DescUtils Irqchip VirtioDev Mmio Worker Batch GoodDriver.

(** ** The host terminal *)

(* src/terminal.rs:23-24, ESCAPE_KEY *)
Definition ESCAPE_KEY : Z := 0x1d.

(** [u8::is_ascii_digit] or [;]. *)
Definition is_param_byte (b : Z) : bool := ((48 <=? b) && (b <=? 57)) || (b =? 59).

(** The inner loop: the first position at or after [j] that is neither. *)
(* src/terminal.rs:182-185, strip_cpr_responses *)
Fixpoint param_end (bytes : list Z) (j : nat) : nat :=
  match bytes with
  | [] => j
  | b :: bytes' => if is_param_byte b then param_end bytes' (S j) else j
  end.

(* src/terminal.rs:180-193, strip_cpr_responses *)
Fixpoint strip_cpr_loop (fuel : nat) (bytes : list Z) (i : nat) (result : list Z) :
    out string (list Z) :=
  match fuel with
  | O => NoFuel
  | S fuel' =>
      match bytes !! i with
      | None => Ok result
      | Some b =>
          let j := param_end (drop (i + 2) bytes) (i + 2) in
          if (b =? 0x1b) && (i + 2 <? length bytes)%nat && bool_decide (bytes !! (i + 1)%nat = Some 91)
             && (i + 2 <? j)%nat && (j <? length bytes)%nat && bool_decide (bytes !! j = Some 82)
          then strip_cpr_loop fuel' bytes (j + 1) result
          else strip_cpr_loop fuel' bytes (i + 1) (result ++ [b])
      end
  end.

(* src/terminal.rs:172-195, strip_cpr_responses *)
Definition strip_cpr_responses (bytes : list Z) : out string (list Z) :=
  strip_cpr_loop (S (length bytes)) bytes 0 [].

Section terminal.
Context {Ev : Type} `{!WinEvent Ev}.

(** The buffer shared by the stdin reader and the console worker, and its
    event; the mutex makes each access atomic. *)
Record StdinShared : Type := { si_buffer : list Z; si_event : Ev }.

(** [signal]'s result is dropped. *)
Definition si_signal {E} : M StdinShared E unit :=
  s ← gets id;
  match event_signal (si_event s) with
  | Ok e => modify (fun s => {| si_buffer := si_buffer s; si_event := e |})
  | Err _ => mret tt
  | Panic => lift Panic
  | NoFuel => lift NoFuel
  end.

(* src/terminal.rs:164-170, strip_response_and_signal *)
Definition strip_response_and_signal (bytes : list Z) : M StdinShared string unit :=
  filtered ← lift (strip_cpr_responses bytes);
  match filtered with
  | [] => mret tt
  | _ =>
      _ ← modify (fun s => {| si_buffer := si_buffer s ++ filtered; si_event := si_event s |});
      si_signal
  end.

(** The reader thread on the results of its reads, an empty one being the end
    of the file and [None] an error: [true] when it asked for the shutdown of
    the machine. *)
(* src/terminal.rs:83-110, HostConsole::spawn_stdin_reader *)
Fixpoint stdin_reader (reads : list (option (list Z))) : M StdinShared string bool :=
  match reads with
  | [] => mret false
  | None :: _ => mret false
  | Some [] :: _ => mret false
  | Some bytes :: reads' =>
      match list_find (fun b => b = ESCAPE_KEY) bytes with
      | Some (pos, _) =>
          _ ← (if (0 <? pos)%nat then strip_response_and_signal (take pos bytes) else mret tt);
          mret true
      | None =>
          _ ← strip_response_and_signal bytes;
          stdin_reader reads'
      end
  end.

End terminal.
Arguments StdinShared : clear implicits.

(** ** The worker *)

Record ConsoleExt (Ev Tty : Type) : Type := { ce_input : StdinShared Ev; ce_stdout : Tty }.
Arguments ce_input {Ev Tty}.
Arguments ce_stdout {Ev Tty}.
Arguments Build_ConsoleExt {Ev Tty}.

(* src/devices/virtio/console/worker.rs:17-28, ConsoleWorker *)
Definition ConsoleWorker (C Ev Tty : Type) : Type := Worker C Ev RxTx (ConsoleExt Ev Tty).

(** [b"\x1b[6n"] and [b"\x1b[1;1R"]. *)
(* src/devices/virtio/console/worker.rs:178-178, ConsoleWorker::filter_dsr_and_respond *)
Definition DSR : list Z := [0x1b; 91; 54; 110].
(* src/devices/virtio/console/worker.rs:198-198, ConsoleWorker::filter_dsr_and_respond *)
Definition CPR : list Z := [0x1b; 91; 49; 59; 49; 82].

(* src/devices/virtio/console/worker.rs:179-191, ConsoleWorker::filter_dsr_and_respond *)
Fixpoint filter_dsr_loop (fuel : nat) (buf : list Z) (i : nat) (result : list Z) (found : bool) :
    out string (list Z * bool) :=
  match fuel with
  | O => NoFuel
  | S fuel' =>
      match buf !! i with
      | None => Ok (result, found)
      | Some b =>
          if (i + length DSR <=? length buf)%nat && bool_decide (slice i (length DSR) buf = DSR)
          then filter_dsr_loop fuel' buf (i + length DSR) result true
          else filter_dsr_loop fuel' buf (i + 1) (result ++ [b]) found
      end
  end.

Section console.
Context {prof : Profile} {C Ev Tty : Type} `{!IrqChipT C Ev} `{!WinEvent Ev}.
(** [io::stdout().write_all] and [flush], whose results are dropped. *)
Variable stdout_write : list Z -> Tty -> Tty.
Variable mm : MemoryManager.

#[local] Abbreviation W := (ConsoleWorker C Ev Tty).

Definition ce_set_input (s : StdinShared Ev) (w : W) : W :=
  wk_set_mem_ext (wk_hm w, {| ce_input := s; ce_stdout := ce_stdout (wk_ext w) |}) w.
Definition ce_put_stdout (bs : list Z) (w : W) : W :=
  wk_set_mem_ext (wk_hm w, {| ce_input := ce_input (wk_ext w);
                              ce_stdout := stdout_write bs (ce_stdout (wk_ext w)) |}) w.

(* src/devices/virtio/console/worker.rs:173-206, ConsoleWorker::filter_dsr_and_respond *)
Definition filter_dsr_and_respond (buf : list Z) : M W string (list Z) :=
  '(result, found) ← lift (filter_dsr_loop (S (length buf)) buf 0 [] false);
  _ ← (if (found : bool) then
         zoom (fun w => ce_input (wk_ext w)) ce_set_input
           (_ ← modify (fun s => {| si_buffer := si_buffer s ++ CPR; si_event := si_event s |});
            si_signal)
       else mret tt);
  mret result.

(** The body of the transmit loop: whether the chain was returned. *)
(* src/devices/virtio/console/worker.rs:121-158, ConsoleWorker::process_tx_queue *)
Definition console_tx_chain (head : DescriptorChain) : M W string bool :=
  w ← gets id;
  match reader_new mm (wk_hm w) head with
  | Ok reader =>
      avail ← lift (reader_available_bytes reader);
      _ ← (if 0 <? avail then
             match (reader_read (replicate (Z.to_nat avail) 0) (reader, wk_hm w)).1 with
             | Ok (n, buf) =>
                 filtered ← filter_dsr_and_respond (take (Z.to_nat n) buf);
                 match filtered with [] => mret tt | _ => modify (ce_put_stdout filtered) end
             | Err _ => mret tt
             | Panic => lift Panic
             | NoFuel => lift NoFuel
             end
           else mret tt);
      _ ← wk_add_used mm tx_lens (dc_index head) 0;
      mret true
  | Err _ => mret false
  | Panic => lift Panic
  | NoFuel => lift NoFuel
  end.

Fixpoint console_tx_loop (fuel : nat) (used_any : bool) : M W string bool :=
  match fuel with
  | O => lift NoFuel
  | S fuel' =>
      head ← wk_pop mm tx_lens;
      match head with
      | None => mret used_any
      | Some head =>
          served ← console_tx_chain head;
          console_tx_loop fuel' (used_any || served)
      end
  end.

(** The interrupt is signalled without asking [needs_notification]. *)
(* src/devices/virtio/console/worker.rs:114-169, ConsoleWorker::process_tx_queue *)
Definition console_process_tx_queue (fuel : nat) : M W string unit :=
  used_any ← console_tx_loop fuel false;
  if (used_any : bool) then wk_signal else mret tt.

(* src/devices/virtio/console/worker.rs:102-112, ConsoleWorker::process_tx_virtio_queue *)
Definition console_process_tx_virtio_queue (fuel : nat) : M W string unit :=
  drain_loop mm fuel tx_lens (console_process_tx_queue fuel).

(** The receive loop on the bytes that are left, for at most [fuel] chains. *)
(* src/devices/virtio/console/worker.rs:225-255, ConsoleWorker::process_rx_input *)
Fixpoint console_rx_loop (fuel : nat) (data : list Z) (used_any : bool) : M W string bool :=
  match data with
  | [] => mret used_any
  | _ =>
      match fuel with
      | O => lift NoFuel
      | S fuel' =>
          head ← wk_pop mm rx_lens;
          match head with
          | None => mret used_any
          | Some head =>
              w ← gets id;
              match writer_new mm (wk_hm w) head with
              | Ok writer =>
                  avail ← lift (writer_available_bytes writer);
                  let to_write := Z.min (zlen data) avail in
                  r ← Mtry (zoom (fun w => (writer, wk_hm w))
                         (fun '(_, hm) w => wk_set_mem_ext (hm, wk_ext w) w)
                         (writer_write_all (take (Z.to_nat to_write) data)));
                  let data' := match r with
                               | inl _ => drop (Z.to_nat to_write) data
                               | inr _ => data
                               end in
                  _ ← wk_add_used mm rx_lens (dc_index head) (wrap 32 to_write);
                  console_rx_loop fuel' data' true
              | Err _ => console_rx_loop fuel' data used_any
              | Panic => lift Panic
              | NoFuel => lift NoFuel
              end
          end
      end
  end.

(* src/devices/virtio/console/worker.rs:210-262, ConsoleWorker::process_rx_input *)
Definition process_rx_input (fuel : nat) : M W string unit :=
  w ← gets id;
  let data := si_buffer (ce_input (wk_ext w)) in
  _ ← modify (ce_set_input {| si_buffer := []; si_event := si_event (ce_input (wk_ext w)) |});
  match data with
  | [] => mret tt
  | _ =>
      used_any ← console_rx_loop fuel data false;
      wk_finish mm rx_lens used_any
  end.

(* src/devices/virtio/console/worker.rs:58-98, ConsoleWorker::work *)
Definition console_work (fuel : nat) (results : list Z) : M W string bool :=
  work_loop [console_process_tx_virtio_queue fuel; process_rx_input fuel] results.

End console.

(** ** Specifications of the filters *)

(** [join_with sep [p0; ..; pk]] is [p0 ++ sep ++ .. ++ sep ++ pk]. *)
Fixpoint join_with (sep : list Z) (pieces : list (list Z)) : list Z :=
  match pieces with
  | [] => []
  | [p] => p
  | p :: ps => p ++ sep ++ join_with sep ps
  end.

(** No occurrence of [pat] in [l]. *)
Definition free_of (pat l : list Z) : Prop := forall k, slice k (length pat) l <> pat.

(** Host input: bytes without ESC, and cursor reports
    [ESC [ digits-and-semicolons R]. *)
Inductive input_item : Type :=
| Plain (bs : list Z)
| Report (params : list Z).

Definition item_bytes (x : input_item) : list Z :=
  match x with Plain bs => bs | Report ps => 0x1b :: 91 :: ps ++ [82] end.
Definition item_kept (x : input_item) : list Z :=
  match x with Plain bs => bs | Report _ => [] end.
Definition item_ok (x : input_item) : Prop :=
  match x with
  | Plain bs => 0x1b ∉ bs
  | Report ps => ps <> [] /\ forallb is_param_byte ps = true
  end.

(** ** Lemmas *)

Lemma slice_app_r {A} (l k : list A) i n : slice (length l + i) n (l ++ k) = slice i n k.
Proof. unfold slice. by rewrite drop_app_add. Qed.

Lemma free_of_nil pat : pat <> [] -> free_of pat [].
Proof. intros Hne k. unfold slice. rewrite drop_nil, take_nil. congruence. Qed.

Lemma free_of_cons pat b l s :
  free_of pat l -> slice 0 (length pat) ((b :: l) ++ s) <> pat -> free_of pat (b :: l).
Proof.
  intros Hl Hb [|k] E; [|by apply (Hl k)].
  apply Hb. unfold slice in *. rewrite drop_0 in *.
  rewrite take_app_le; [done|]. rewrite <- E at 1. rewrite length_take. lia.
Qed.

(** The loop at position [length pre] of [pre ++ s]. *)
Lemma filter_dsr_loop_spec fuel pre s result found :
  (length s < fuel)%nat ->
  exists p ps, s = join_with DSR (p :: ps) /\ Forall (free_of DSR) (p :: ps) /\
    filter_dsr_loop fuel (pre ++ s) (length pre) result found =
      Ok (result ++ concat (p :: ps), found || negb (bool_decide (ps = []))).
Proof.
  revert pre s result found.
  induction fuel as [|fuel IH]; intros pre s result found Hf; [lia|].
  cbn [filter_dsr_loop]. rewrite lookup_app_r, Nat.sub_diag by lia.
  destruct s as [|b s]; cbn [lookup list_lookup].
  - exists [], []. split_and!; [done|constructor; [by apply free_of_nil|constructor]|].
    cbn. by rewrite app_nil_r, orb_false_r.
  - pose proof (slice_app_r pre (b :: s) 0 (length DSR)) as Hsl.
    rewrite Nat.add_0_r in Hsl. rewrite Hsl.
    destruct ((length pre + length DSR <=? length (pre ++ b :: s))%nat &&
              bool_decide (slice 0 (length DSR) (b :: s) = DSR)) eqn:E.
    + apply andb_prop in E as [_ E%bool_decide_eq_true].
      assert (b :: s = DSR ++ drop 4 (b :: s)) as Hs by (rewrite <- (take_drop 4 (b :: s)) at 1; f_equal; exact E).
      set (s' := drop 4 (b :: s)) in *.
      destruct (IH (pre ++ DSR) s' result true) as (p & ps & Hj & Hfr & Hr).
      { unfold s'. rewrite length_drop. cbn [length] in *. lia. }
      exists [], (p :: ps). split_and!.
      * change (b :: s = DSR ++ join_with DSR (p :: ps)). by rewrite <- Hj.
      * constructor; [by apply free_of_nil|done].
      * rewrite length_app in Hr. rewrite <- app_assoc, <- Hs in Hr. rewrite Hr.
        cbn [concat app]. by rewrite !orb_true_r.
    + destruct (IH (pre ++ [b]) s (result ++ [b]) found) as (p & ps & Hj & Hfr & Hr);
        [cbn in Hf; lia|].
      exists (b :: p), ps. apply Forall_cons in Hfr as [Hp Hps]. split_and!.
      * rewrite Hj. by destruct ps.
      * constructor; [|done].
        apply (free_of_cons DSR b p (drop (length p) s)); [done|].
        assert ((b :: p) ++ drop (length p) s = b :: s) as ->.
        { cbn. f_equal. rewrite Hj at 1.
          assert (take (length p) s = p) as Ht by (rewrite Hj; destruct ps; [by rewrite take_ge|];
            cbn [join_with]; by rewrite take_app_length).
          rewrite <- Hj. rewrite <- Ht at 1. apply take_drop. }
        intros Heq. apply andb_false_iff in E as [E|E].
        -- apply Nat.leb_gt in E. apply (f_equal length) in Heq.
           unfold slice in Heq. rewrite length_take, length_drop in Heq.
           rewrite length_app in E. change (length DSR) with 4%nat in *. lia.
        -- by apply bool_decide_eq_false in E.
      * rewrite length_app, <- app_assoc in Hr. cbn [length app] in Hr. rewrite Hr.
        cbn [concat]. by rewrite <- app_assoc.
Qed.

Lemma param_end_app ps rest j :
  forallb is_param_byte ps = true ->
  param_end (ps ++ rest) j = param_end rest (j + length ps).
Proof.
  revert j. induction ps as [|b ps IH]; intros j Hp; cbn; [by rewrite Nat.add_0_r|].
  cbn in Hp. apply andb_prop in Hp as [-> Hp]. rewrite (IH (S j)) by done. f_equal. lia.
Qed.

Lemma strip_plain fuel pre bs rest result :
  0x1b ∉ bs -> (length bs <= fuel)%nat ->
  strip_cpr_loop fuel (pre ++ bs ++ rest) (length pre) result =
  strip_cpr_loop (fuel - length bs) ((pre ++ bs) ++ rest) (length (pre ++ bs)) (result ++ bs).
Proof.
  revert fuel pre result. induction bs as [|b bs IH]; intros fuel pre result Hn Hf.
  - by rewrite !app_nil_r, Nat.sub_0_r.
  - apply not_elem_of_cons in Hn as [Hb Hn]. destruct fuel as [|fuel]; [cbn in Hf; lia|].
    cbn [strip_cpr_loop]. rewrite lookup_app_r, Nat.sub_diag by lia. cbn [app lookup list_lookup].
    rewrite (proj2 (Z.eqb_neq b 0x1b)) by done. cbn [andb].
    pose proof (IH fuel (pre ++ [b]) (result ++ [b]) Hn ltac:(cbn in Hf; lia)) as H.
    rewrite length_app, <- !app_assoc in H. cbn [app length] in H. rewrite H.
    cbn [length Nat.sub]. by rewrite <- !app_assoc, !length_app.
Qed.

Lemma strip_report fuel pre ps rest result :
  ps <> [] -> forallb is_param_byte ps = true -> (0 < fuel)%nat ->
  strip_cpr_loop fuel (pre ++ item_bytes (Report ps) ++ rest) (length pre) result =
  strip_cpr_loop (fuel - 1) ((pre ++ item_bytes (Report ps)) ++ rest)
    (length (pre ++ item_bytes (Report ps))) result.
Proof.
  intros Hne Hps Hf. destruct fuel as [|fuel]; [lia|]. cbn [strip_cpr_loop item_bytes].
  assert (0 < length ps)%nat by (destruct ps; [done|cbn; lia]).
  rewrite lookup_app_r, Nat.sub_diag by lia. cbn [app lookup list_lookup].
  assert (drop (length pre + 2) (pre ++ 0x1b :: 91 :: (ps ++ [82]) ++ rest) = ps ++ 82 :: rest) as Hd
    by (rewrite drop_app_add; cbn; by rewrite <- app_assoc).
  rewrite Hd. rewrite param_end_app by done. change (param_end (82 :: rest) ?j) with j.
  rewrite (lookup_app_r pre _ (length pre + 1)) by lia.
  rewrite (lookup_app_r pre _ (length pre + 2 + length ps)) by lia.
  replace (length pre + 1 - length pre)%nat with 1%nat by lia.
  replace (length pre + 2 + length ps - length pre)%nat with (S (S (length ps))) by lia.
  cbn [lookup list_lookup]. rewrite <- app_assoc.
  rewrite (lookup_app_r ps) by lia. rewrite Nat.sub_diag. cbn [app lookup list_lookup].
  rewrite !bool_decide_true by done. rewrite !length_app. cbn [length]. rewrite !length_app.
  cbn [length].
  repeat match goal with |- context [(?a <? ?b)%nat] => rewrite (proj2 (Nat.ltb_lt a b)) by lia end.
  cbn [Z.eqb Pos.eqb andb]. rewrite Nat.sub_succ, Nat.sub_0_r.
  rewrite <- !app_assoc. cbn [app]. rewrite <- app_assoc. f_equal. lia.
Qed.

(** ** Properties *)

(** What one pass of the filter does to the worker. *)
Lemma filter_dsr_run {C Ev Tty} `{!WinEvent Ev} (w : ConsoleWorker C Ev Tty) buf :
  (exists r : Ev + Z, event_signal (si_event (ce_input (wk_ext w))) =
     match r with inl e => Ok e | inr code => Err code end) ->
  exists p ps x, buf = join_with DSR (p :: ps) /\ Forall (free_of DSR) (p :: ps) /\
    filter_dsr_and_respond buf w = (Ok (concat (p :: ps)), wk_set_mem_ext (wk_hm w, x) w) /\
    ce_stdout x = ce_stdout (wk_ext w) /\
    si_buffer (ce_input x) =
      si_buffer (ce_input (wk_ext w)) ++ (if bool_decide (ps = []) then [] else CPR).
Proof.
  intros [r Hsig].
  destruct (filter_dsr_loop_spec (S (length buf)) [] buf [] false) as (p & ps & Hj & Hf & Hr);
    [lia|]. cbn [app length orb] in Hr. exists p, ps.
  unfold filter_dsr_and_respond. run_St. rewrite Hr. run_St. destruct (bool_decide (ps = [])) eqn:E.
  - cbn [negb]. exists (wk_ext w). split_and!; [done..| |done|by rewrite app_nil_r].
    run_St. by destruct w.
  - cbn [negb]. run_St. unfold si_signal. run_St. cbn [si_event si_buffer]. rewrite Hsig.
    destruct r as [e|code]; run_St; unfold ce_set_input, wk_set_mem_ext; cbn [fst snd];
      (eexists; split_and!; [done..|reflexivity|done|done]).
Qed.

(** The filter of guest output always returns, and removes exactly the
    cursor queries of its input: the input is a sequence of pieces free of
    [ESC[6n] separated by it, the output is the pieces put together, and the
    synthetic report is injected just when there was a query.  The removal is
    a single pass, so a query can reappear where two pieces meet. *)
Theorem filter_dsr_pieces {C Ev Tty} `{!WinEvent Ev} (w : ConsoleWorker C Ev Tty) buf :
  (exists r : Ev + Z, event_signal (si_event (ce_input (wk_ext w))) =
     match r with inl e => Ok e | inr code => Err code end) ->
  exists pieces, pieces <> [] /\ buf = join_with DSR pieces /\ Forall (free_of DSR) pieces /\
    (filter_dsr_and_respond buf w).1 = Ok (concat pieces) /\
    si_buffer (ce_input (wk_ext (filter_dsr_and_respond buf w).2)) =
      si_buffer (ce_input (wk_ext w)) ++ (if (1 <? length pieces)%nat then CPR else []).
Proof.
  intros Hsig. destruct (filter_dsr_run w buf Hsig) as (p & ps & x & Hj & Hf & Hr & _ & Hb).
  exists (p :: ps). rewrite Hr. split_and!; [done..|]. cbn [snd]. unfold wk_set_mem_ext.
  cbn [wk_ext snd]. rewrite Hb. by destruct ps.
Qed.

Definition example_console : ConsoleWorker SimpleIrqChip nat (list Z) :=
  {| wk_queues := {| rx_queue := example_queue; tx_queue := example_queue |};
     wk_hm := example_hm; wk_interrupt := mt_interrupt (example_transport 15);
     wk_ext := {| ce_input := {| si_buffer := []; si_event := 0%nat |}; ce_stdout := [] |} |}.

(** The prompt [# ESC[6n$]. *)
Lemma filter_dsr_pieces_witness :
  exists pieces, pieces <> [] /\ [35; 0x1b; 91; 54; 110; 36] = join_with DSR pieces /\
    (filter_dsr_and_respond [35; 0x1b; 91; 54; 110; 36] example_console).1
      = Ok (concat pieces).
Proof.
  destruct (filter_dsr_pieces example_console [35; 0x1b; 91; 54; 110; 36])
    as (pieces & H1 & H2 & _ & H4 & _).
  - exists (inl 1%nat). reflexivity.
  - exists pieces. auto.
Defined.

(** The filter of host input removes the terminal's cursor reports and
    nothing else: on any interleaving of ordinary bytes (without ESC) and
    reports [ESC [ params R], it returns the ordinary bytes, in order. *)
Theorem strip_cpr_removes_reports items :
  Forall item_ok items ->
  strip_cpr_responses (concat (map item_bytes items)) = Ok (concat (map item_kept items)).
Proof.
  intros Hok. unfold strip_cpr_responses.
  assert (forall fuel pre result, (length (concat (map item_bytes items)) < fuel)%nat ->
    strip_cpr_loop fuel (pre ++ concat (map item_bytes items)) (length pre) result =
      Ok (result ++ concat (map item_kept items))) as Hgen.
  { induction Hok as [|x items Hx _ IH]; intros fuel pre result Hf.
    - cbn. rewrite !app_nil_r. destruct fuel; [cbn in Hf; lia|]. cbn [strip_cpr_loop].
      by rewrite lookup_ge_None_2 by lia.
    - cbn [map concat] in *. rewrite length_app in Hf. destruct x as [bs|ps].
      + cbn [item_bytes item_kept] in *. rewrite strip_plain by (done || lia).
        rewrite IH by lia. by rewrite <- app_assoc.
      + destruct Hx as [Hne Hps]. rewrite strip_report by (done || lia).
        cbn [item_bytes length] in Hf. rewrite IH by lia. done. }
  apply (Hgen (S (length (concat (map item_bytes items)))) [] []). lia.
Qed.

(** [ls], a report of row 30 and column 5, then a carriage return. *)
Lemma strip_cpr_removes_reports_witness :
  strip_cpr_responses ([108; 115] ++ [0x1b; 91; 51; 48; 59; 53; 82] ++ [13]) =
    Ok [108; 115; 13].
Proof.
  apply (strip_cpr_removes_reports [Plain [108; 115]; Report [51; 48; 59; 53]; Plain [13]]).
  repeat constructor; cbn; try done; intros H; set_solver.
Defined.

(** A query that the filter itself puts together. *)
Example filter_dsr_rejoins :
  filter_dsr_loop 9 [0x1b; 91; 0x1b; 91; 54; 110; 54; 110] 0 [] false = Ok (DSR, true).
Proof. reflexivity. Qed.

(** ** A batch of output *)

(** One chain of guest output: the terminal gets its bytes without the cursor
    queries, and the input buffer a report if there was one. *)
Definition console_step {Ev Tty} (stdout_write : list Z -> Tty -> Tty)
    (bytes : DescriptorChain -> list Z) (c : DescriptorChain) (x : ConsoleExt Ev Tty) (len : Z)
    (x' : ConsoleExt Ev Tty) (_ : hostmem) : Prop :=
  len = 0 /\ exists p ps, bytes c = join_with DSR (p :: ps) /\ Forall (free_of DSR) (p :: ps) /\
    ce_stdout x' = match concat (p :: ps) with
                   | [] => ce_stdout x
                   | shown => stdout_write shown (ce_stdout x)
                   end /\
    si_buffer (ce_input x') =
      si_buffer (ce_input x) ++ (if bool_decide (ps = []) then [] else CPR).

Section batch.
Context {prof : Profile} {C Ev Tty : Type} `{!IrqChipT C Ev} `{!WinEvent Ev}.
Variable stdout_write : list Z -> Tty -> Tty.
Context (mm : MemoryManager) (Hmm : mm_wf mm).
Variables (pd pa pu : Z).
Hypothesis (Hevent : forall e : Ev, exists r : Ev + Z,
  event_signal e = match r with inl e => Ok e | inr code => Err code end).

Lemma console_tx_served (w : ConsoleWorker C Ev Tty) c rd :
  worker_ready mm tx_lens pd pa pu w -> 0 <= dc_index c < q_size (tx_queue (wk_queues w)) ->
  reader_new mm (wk_hm w) c = Ok rd -> consumer_wf rd ->
  exists x, console_tx_chain stdout_write mm c w =
      (Ok true, w_served tx_lens pu w (wk_hm w) x c 0) /\
    console_step stdout_write (fun _ => stream_read (wk_hm w) (consumer_stream rd)) c
      (wk_ext w) 0 x (wk_hm w).
Proof using Hmm Hevent.
  intros Hw Hi Hrd Hwf. set (buf := stream_read (wk_hm w) (consumer_stream rd)).
  assert (length buf = length (consumer_stream rd)) as Hbuf by (apply length_map).
  unfold console_tx_chain. run_St. rewrite Hrd. unfold reader_available_bytes.
  rewrite available_bytes_stream by done. run_St. rewrite read_available by done. fold buf.
  destruct (Z.ltb_spec 0 (zlen (consumer_stream rd))) as [Hpos|Hz].
  - destruct (filter_dsr_run w buf (Hevent _)) as (p & ps & x & Hj & Hf & Hrun & Hx & Hb).
    rewrite take_ge by (unfold zlen; lia). run_St. rewrite Hrun.
    set (x2 := match concat (p :: ps) with [] => x
               | shown => {| ce_input := ce_input x;
                             ce_stdout := stdout_write shown (ce_stdout x) |} end).
    exists x2. split.
    + assert (forall x1, worker_ready mm tx_lens pd pa pu (wk_set_mem_ext (wk_hm w, x1) w)) as Hw1
        by (intros x1; destruct Hw; by split).
      unfold x2. destruct (concat (p :: ps)) as [|b bs].
      * by rewrite (wk_add_used_mapped mm Hmm tx_lens pd pa pu).
      * change (ce_put_stdout stdout_write (b :: bs) (wk_set_mem_ext (wk_hm w, x) w))
          with (wk_set_mem_ext (wk_hm w, {| ce_input := ce_input x;
                  ce_stdout := stdout_write (b :: bs) (ce_stdout x) |}) w).
        by rewrite (wk_add_used_mapped mm Hmm tx_lens pd pa pu).
    + split; [done|]. exists p, ps. split_and!; [done|done| |].
      * unfold x2. rewrite <- Hx. by destruct (concat (p :: ps)).
      * rewrite <- Hb. unfold x2. by destruct (concat (p :: ps)).
  - exists (wk_ext w). split.
    + run_St. rewrite (wk_add_used_mapped mm Hmm tx_lens pd pa pu) by done. done.
    + split; [done|]. exists [], []. split_and!;
        [|constructor; [by apply free_of_nil|constructor]|done|].
      * apply nil_length_inv. rewrite Hbuf. unfold zlen in Hz. lia.
      * by rewrite app_nil_r.
Qed.

Lemma console_serves q hm cs c :
  queue_wf q -> hostmem_wf hm -> rings_mapped mm q pd pa pu ->
  good_batch mm pd pa pu q hm cs -> c ∈ cs ->
  serves mm tx_lens pd pa pu (console_tx_chain (C:=C) stdout_write mm) q hm
    (untouched mm pu q hm cs) (fun _ => True) (chain_writes mm hm)
    (console_step stdout_write (fun c => stream_read hm (chain_reads mm hm c))) c.
Proof using Hmm Hevent.
  intros Hq Hhm Hr Hg Hc w Hw Hm Ha _.
  destruct (good_chain mm pd pa pu q hm cs c Hq Hhm Hg Hc) as [_ Hi].
  destruct (good_reader_writer mm Hmm pd pa pu q hm cs c w) as [Hnew _]; [done..|].
  destruct (gb_reader _ _ _ _ _ _ _ Hg c Hc) as (rd & Hrd & Hwf). rewrite Hrd in Hnew.
  destruct (console_tx_served w c rd) as (x & Hrun & Hstep); [done| |done|done|].
  { pose proof (moved_size _ _ Hm) as Hsz. cbn in Hsz. by rewrite Hsz. }
  exists (wk_hm w), x, 0. split_and!; [done|apply Hw|done|apply agree_refl|].
  assert (chain_reads mm hm c = consumer_stream rd) as Er by (unfold chain_reads; by rewrite Hrd).
  assert (stream_read (wk_hm w) (consumer_stream rd) = stream_read hm (chain_reads mm hm c)) as E
    by (rewrite <- Er; by apply (good_reads mm pd pa pu q hm cs c)).
  unfold console_step in *. by rewrite <- E.
Qed.

End batch.

(** C39: guest output reaches the terminal in order.  For a driver that keeps
    the rules, one wake-up of the console worker returns, with one unit of fuel
    more than there are chains, and the chains' bytes have been written to the
    terminal in ring order, each without the cursor queries in it, with one
    report put into the input for each chain that held a query; the chains went
    back with length 0, the driver is signalled exactly when there was one, and
    guest memory outside the used ring is unchanged where the chains do not
    make it writable. *)
Theorem console_output_in_order {prof : Profile} {C Ev Tty} `{!IrqChipT C Ev} `{!WinEvent Ev}
    (stdout_write : list Z -> Tty -> Tty) mm pd pa pu (w : ConsoleWorker C Ev Tty) cs fuel :
  (forall e : Ev, exists r : Ev + Z,
     event_signal e = match r with inl e => Ok e | inr code => Err code end) ->
  mm_wf mm -> worker_ready mm tx_lens pd pa pu w -> signal_returns (wk_interrupt w) ->
  good_batch mm pd pa pu (tx_queue (wk_queues w)) (wk_hm w) cs -> (length cs < fuel)%nat ->
  exists w' lens,
    console_process_tx_virtio_queue stdout_write mm fuel w = (Ok tt, w') /\
    batch_done tx_lens pa pu (fun _ => True) (chain_writes mm (wk_hm w))
      (console_step stdout_write (fun c => stream_read (wk_hm w) (chain_reads mm (wk_hm w) c)))
      (fun _ _ => true) w cs lens w'.
Proof.
  intros Hev Hmm Hw Hsig Hg Hf. pose proof Hw as [Hq Hr Hhm].
  apply (drain_batch mm Hmm tx_lens pd pa pu (console_tx_chain stdout_write mm)
    (tx_queue (wk_queues w)) (wk_hm w) (untouched mm pu (tx_queue (wk_queues w)) (wk_hm w) cs)
    (fun _ => True) (chain_writes mm (wk_hm w))
    (console_step stdout_write (fun c => stream_read (wk_hm w) (chain_reads mm (wk_hm w) c)))
    (fun _ _ => true) (fun used_any => if used_any then wk_signal else mret tt)
    (console_process_tx_queue stdout_write mm fuel) cs w fuel); try done.
  - apply signal_finishes, _.
  - apply Hg.
  - apply good_service; [done..|]. intros c Hc. by apply console_serves.
  - apply Hg.
  - apply Hg.
Qed.

(** Heads 2 and 0 are pending: 512 bytes that link to 64 bytes, and these 64
    bytes once more. *)
Lemma console_output_in_order_witness :
  exists w' lens,
    console_process_tx_virtio_queue (prof:=dev_profile) (fun bs tty => tty ++ bs) example_mm 3
      example_console = (Ok tt, w') /\
    q_next_avail (tx_queue (wk_queues w')) = 1 /\
    batch_steps (console_step (fun bs tty => tty ++ bs)
        (fun c => stream_read example_hm (chain_reads (prof:=dev_profile) example_mm example_hm c)))
      (wk_hm w') (published 1048576 (1048576 + 4096) example_queue example_hm)
      (wk_ext example_console) lens (wk_ext w').
Proof.
  destruct (console_output_in_order (prof:=dev_profile) (fun bs tty => tty ++ bs) example_mm 1048576
    (1048576 + 4096) (1048576 + 8192) example_console
    (published 1048576 (1048576 + 4096) example_queue example_hm) 3) as (w' & lens & Hrun & Hb).
  - intros e. by exists (inl (S e)).
  - apply example_mm_wf.
  - split; [apply example_queue_wf|apply example_rings|apply example_hm_wf].
  - vm_compute. exact I.
  - apply good_batchb_good; [apply example_hm_wf|]. vm_compute. reflexivity.
  - vm_compute. lia.
  - exists w', lens. split_and!; [done| |apply Hb].
    destruct (bd_queue _ _ _ _ _ _ _ _ _ _ _ Hb) as [n ->]. vm_compute. reflexivity.
Defined.
