(* ===== verification/NetWorker.v ===== *)
(** * NetWorker: the worker of the network device,
      [src/devices/virtio/net/worker.rs]

    Ethernet frames travel between the guest's queues and the [gvproxy]
    process over a pair of pipes, each frame behind its length in two bytes.
    The pipe to the process is the class [PipeOps]; the pipe from it is the
    sequence of bytes it will deliver until it is closed. *)

From S2P Require Import Prelude Bytes HostMem GuestMem Queue FileTraits DescUtils Irqchip VirtioDev Mmio Worker Batch GoodDriver.

(* src/devices/virtio/net/worker.rs:22-23, NET_HDR_SIZE *)
Definition NET_HDR_SIZE : Z := 12.
(* src/devices/virtio/net/worker.rs:25-26, MAX_FRAME_SIZE *)
Definition MAX_FRAME_SIZE : Z := 1514.
(* src/devices/virtio/net/worker.rs:28-30, BATCH_SIZE *)
Definition BATCH_SIZE : Z := 32.

(* src/devices/virtio/net/worker.rs:32-41, default_rx_header *)
Definition default_rx_header : list Z :=
  <[10%nat := 1]> (replicate (Z.to_nat NET_HDR_SIZE) 0).

(** [ChildStdin]. *)
Class PipeOps (P : Type) : Type := {
  pipe_write_all : list Z -> M P IoError unit;
  pipe_flush : M P IoError unit;
}.

(** ** The reader thread *)

(** [read_exact] on the pipe: blocks for the bytes, or meets the end. *)
Definition pipe_read_exact (n : nat) : M (list Z) IoError (list Z) := fun s =>
  if (n <=? length s)%nat then (Ok (take n s), drop n s) else (Err IoUnexpectedEof, []).

(* src/devices/virtio/net/worker.rs:87-111, NetWorker::read_frame *)
Definition read_frame : M (list Z) IoError (list Z) :=
  len_buf ← pipe_read_exact 2;
  let len := le_val len_buf in
  if (len =? 0) || (MAX_FRAME_SIZE <? len) then throw IoInvalidData
  else pipe_read_exact (Z.to_nat len).

Section reader.
Context {Ev : Type} `{!WinEvent Ev}.

(** The pipe, the shared queue of frames, the event, and the coming answers of
    [PeekNamedPipe] ([None] when it fails and writes nothing). *)
Record RxReader : Type := {
  rr_stdout : list Z;
  rr_pending : list (list Z);
  rr_ready : Ev;
  rr_peeks : list (option Z);
}.

Definition rr_read : M RxReader string (list Z + IoError) :=
  Mtry (zoom rr_stdout (fun s r => {| rr_stdout := s; rr_pending := rr_pending r;
          rr_ready := rr_ready r; rr_peeks := rr_peeks r |}) read_frame).

Definition rr_push (frame : list Z) : M RxReader string unit :=
  modify (fun r => {| rr_stdout := rr_stdout r; rr_pending := rr_pending r ++ [frame];
                      rr_ready := rr_ready r; rr_peeks := rr_peeks r |}).

(** [SetEvent] is a foreign call: it succeeds or it is dropped. *)
Definition rr_signal : M RxReader string unit :=
  modify (fun r => {| rr_stdout := rr_stdout r; rr_pending := rr_pending r;
    rr_ready := match event_signal (rr_ready r) with Ok e => e | _ => rr_ready r end;
    rr_peeks := rr_peeks r |}).

(** The new value of [bytes_available]. *)
Definition rr_peek (bytes_available : Z) : M RxReader string Z :=
  r ← gets id;
  match rr_peeks r with
  | [] => mret bytes_available
  | p :: ps =>
      _ ← modify (fun r => {| rr_stdout := rr_stdout r; rr_pending := rr_pending r;
                              rr_ready := rr_ready r; rr_peeks := ps |});
      mret (default bytes_available p)
  end.

Definition is_eof (e : IoError) : bool := match e with IoUnexpectedEof => true | _ => false end.

(** The batch after its first frame. *)
(* src/devices/virtio/net/worker.rs:141-168, NetWorker::rx_reader_loop *)
Fixpoint rx_batch_loop (fuel : nat) (n_frame bytes_available : Z) : M RxReader string unit :=
  match fuel with
  | O => lift NoFuel
  | S fuel' =>
      bytes_available ← rr_peek bytes_available;
      if (bytes_available =? 0) || (BATCH_SIZE <=? n_frame) then mret tt
      else
        frame ← rr_read;
        match frame with
        | inl frame =>
            _ ← rr_push frame;
            rx_batch_loop fuel' (n_frame + 1) 0
        | inr e => if is_eof e then mret tt else rx_batch_loop fuel' n_frame bytes_available
        end
  end.

(* src/devices/virtio/net/worker.rs:113-172, NetWorker::rx_reader_loop *)
Fixpoint rx_reader_loop (fuel : nat) : M RxReader string unit :=
  match fuel with
  | O => lift NoFuel
  | S fuel' =>
      frame ← rr_read;
      match frame with
      | inr e => if is_eof e then mret tt else rx_reader_loop fuel'
      | inl frame =>
          _ ← rr_push frame;
          _ ← rx_batch_loop fuel' 1 0;
          _ ← rr_signal;
          rx_reader_loop fuel'
      end
  end.

End reader.
Arguments RxReader : clear implicits.

(** ** The worker *)

(** [gvproxy_stdin] and the frames the reader thread has queued. *)
Record NetExt (P : Type) : Type := { ne_stdin : option P; ne_pending : list (list Z) }.
Arguments ne_stdin {P}.
Arguments ne_pending {P}.
Arguments Build_NetExt {P}.

(* src/devices/virtio/net/worker.rs:45-63, NetWorker *)
Definition NetWorker (C Ev P : Type) : Type := Worker C Ev RxTx (NetExt P).

(** The bytes of a frame on the pipe. *)
(* src/devices/virtio/net/worker.rs:285-288, NetWorker::process_tx_queue *)
Definition send_frame {P} `{!PipeOps P} (frame : list Z) : M P IoError unit :=
  _ ← pipe_write_all (le_bytes 2 (wrap 16 (zlen frame)));
  _ ← pipe_write_all frame;
  pipe_flush.

Section net.
Context {prof : Profile} {C Ev P : Type} `{!IrqChipT C Ev} `{!WinEvent Ev} `{!PipeOps P}.
Variable mm : MemoryManager.

#[local] Abbreviation W := (NetWorker C Ev P).

Definition ne_set_stdin (p : P) (w : W) : W :=
  wk_set_mem_ext (wk_hm w, {| ne_stdin := Some p; ne_pending := ne_pending (wk_ext w) |}) w.
Definition ne_set_pending (fs : list (list Z)) (w : W) : W :=
  wk_set_mem_ext (wk_hm w, {| ne_stdin := ne_stdin (wk_ext w); ne_pending := fs |}) w.

(** The body of the transmit loop: whether the chain was returned. *)
(* src/devices/virtio/net/worker.rs:264-311, NetWorker::process_tx_queue *)
Definition net_tx_chain (head : DescriptorChain) : M W string bool :=
  w ← gets id;
  match reader_new mm (wk_hm w) head with
  | Ok reader =>
      avail ← lift (reader_available_bytes reader);
      _ ← (if NET_HDR_SIZE <? avail then
             match (reader_read (replicate (Z.to_nat avail) 0) (reader, wk_hm w)).1, ne_stdin (wk_ext w) with
             | Ok (n, buf), Some stdin =>
                 if NET_HDR_SIZE <? n then
                   let frame := drop (Z.to_nat NET_HDR_SIZE) (take (Z.to_nat n) buf) in
                   _ ← Mtry (zoom (fun w => default stdin (ne_stdin (wk_ext w))) ne_set_stdin
                               (send_frame frame));
                   mret tt
                 else mret tt
             | Ok _, None => mret tt
             | Err _, _ => mret tt
             | Panic, _ => lift Panic
             | NoFuel, _ => lift NoFuel
             end
           else mret tt);
      _ ← wk_add_used mm tx_lens (dc_index head) 0;
      mret true
  | Err _ => mret false
  | Panic => lift Panic
  | NoFuel => lift NoFuel
  end.

Fixpoint net_tx_loop (fuel : nat) (used_any : bool) : M W string bool :=
  match fuel with
  | O => lift NoFuel
  | S fuel' =>
      head ← wk_pop mm tx_lens;
      match head with
      | None => mret used_any
      | Some head =>
          served ← net_tx_chain head;
          net_tx_loop fuel' (used_any || served)
      end
  end.

(* src/devices/virtio/net/worker.rs:253-318, NetWorker::process_tx_queue *)
Definition net_process_tx_queue (fuel : nat) : M W string unit :=
  w ← gets id;
  match ne_stdin (wk_ext w) with
  | None => mret tt
  | Some _ =>
      used_any ← net_tx_loop fuel false;
      if (used_any : bool) then wk_signal else mret tt
  end.

(* src/devices/virtio/net/worker.rs:241-251, NetWorker::process_tx_virtio_queue *)
Definition net_process_tx_virtio_queue (fuel : nat) : M W string unit :=
  drain_loop mm fuel tx_lens (net_process_tx_queue fuel).

(** A frame into the buffers of a chain: [None] when they are too small or the
    header fails, else the length to report. *)
(* src/devices/virtio/net/worker.rs:383-402, NetWorker::process_rx_virtio_queue *)
Definition net_deliver (frame : list Z) : M (Consumer * hostmem) string (option Z) :=
  r ← Mtry (writer_write_all default_rx_header);
  match r with
  | inr _ => mret None
  | inl _ =>
      r ← Mtry (writer_write_all frame);
      match r with
      | inl _ => mret (Some (NET_HDR_SIZE + zlen frame))
      | inr _ => mret (Some NET_HDR_SIZE)
      end
  end.

(** Structural on [packets]; what is left goes back to the shared queue, behind
    what the reader thread has queued meanwhile. *)
(* src/devices/virtio/net/worker.rs:339-408, NetWorker::process_rx_virtio_queue *)
Fixpoint net_rx_loop (packets : list (list Z)) (used_any : bool) : M W string bool :=
  match packets with
  | [] => mret used_any
  | frame :: packets' =>
      if MAX_FRAME_SIZE <? zlen frame then net_rx_loop packets' used_any
      else
        head ← wk_pop mm rx_lens;
        match head with
        | None =>
            _ ← modify (fun w => ne_set_pending (ne_pending (wk_ext w) ++ packets) w);
            mret used_any
        | Some head =>
            w ← gets id;
            match writer_new mm (wk_hm w) head with
            | Ok writer =>
                avail ← lift (writer_available_bytes writer);
                if avail <? NET_HDR_SIZE + zlen frame then
                  _ ← wk_add_used mm rx_lens (dc_index head) 0;
                  net_rx_loop packets' used_any
                else
                  written ← zoom (fun w => (writer, wk_hm w))
                    (fun '(_, hm) w => wk_set_mem_ext (hm, wk_ext w) w) (net_deliver frame);
                  match written with
                  | None =>
                      _ ← wk_add_used mm rx_lens (dc_index head) 0;
                      net_rx_loop packets' used_any
                  | Some written =>
                      _ ← wk_add_used mm rx_lens (dc_index head) (wrap 32 written);
                      net_rx_loop packets' true
                  end
            | Err _ => net_rx_loop packets' used_any
            | Panic => lift Panic
            | NoFuel => lift NoFuel
            end
        end
  end.

(* src/devices/virtio/net/worker.rs:322-415, NetWorker::process_rx_virtio_queue *)
Definition net_process_rx_virtio_queue : M W string unit :=
  w ← gets id;
  let packets := ne_pending (wk_ext w) in
  _ ← modify (ne_set_pending []);
  match packets with
  | [] => mret tt
  | _ =>
      used_any ← net_rx_loop packets false;
      wk_finish mm rx_lens used_any
  end.

(* src/devices/virtio/net/worker.rs:196-237, NetWorker::work *)
Definition net_work (fuel : nat) (results : list Z) : M W string bool :=
  work_loop [net_process_tx_virtio_queue fuel; net_process_rx_virtio_queue] results.

End net.

(** ** An example pipe: the bytes written so far *)

#[export] Instance byte_pipe : PipeOps (list Z) := {
  pipe_write_all bs := modify (fun s => s ++ bs); pipe_flush := mret tt }.

(** The pipe of frames, and the frames the protocol allows. *)
Definition encode_frame (frame : list Z) : list Z := le_bytes 2 (zlen frame) ++ frame.
Definition frame_ok (frame : list Z) : Prop := 1 <= zlen frame <= MAX_FRAME_SIZE.

(** ** Lemmas *)

Lemma read_frame_encode frame rest :
  frame_ok frame -> read_frame (encode_frame frame ++ rest) = (Ok frame, rest).
Proof.
  intros Hf. unfold frame_ok, MAX_FRAME_SIZE in Hf. unfold read_frame, encode_frame.
  rewrite <- app_assoc. unfold pipe_read_exact. run_St.
  rewrite (proj2 (Nat.leb_le 2 _)) by (rewrite length_app, length_le_bytes; lia).
  rewrite take_app_length', drop_app_length' by (by rewrite length_le_bytes).
  assert (le_val (le_bytes 2 (zlen frame)) = zlen frame) as ->
    by (apply le_val_le_bytes_fits; split; [lia|]; change (2 ^ (8 * Z.of_nat 2)) with 65536; lia).
  rewrite (proj2 (Z.eqb_neq (zlen frame) 0)) by lia.
  unfold MAX_FRAME_SIZE. rewrite (proj2 (Z.ltb_ge 1514 (zlen frame))) by lia. cbn [orb].
  unfold zlen. rewrite Nat2Z.id, (proj2 (Nat.leb_le (length frame) _)) by (rewrite length_app; lia).
  by rewrite take_app_length, drop_app_length.
Qed.

Lemma read_frame_eof : read_frame [] = (Err IoUnexpectedEof, []).
Proof. reflexivity. Qed.

Section reader_lemmas.
Context {Ev : Type} `{!WinEvent Ev}.

(** One step of the reader over a well-formed stream. *)
Lemma rr_read_frames frames (r : RxReader Ev) :
  Forall frame_ok frames -> rr_stdout r = concat (map encode_frame frames) ->
  rr_read r =
    match frames with
    | [] => (Ok (inr IoUnexpectedEof), r)
    | f :: fs => (Ok (inl f), {| rr_stdout := concat (map encode_frame fs);
                    rr_pending := rr_pending r; rr_ready := rr_ready r; rr_peeks := rr_peeks r |})
    end.
Proof using.
  intros Hf Hs. unfold rr_read, zoom, Mtry, Mmap. rewrite Hs. destruct frames as [|f fs].
  - cbn. destruct r; cbn in *; by rewrite Hs.
  - apply Forall_cons in Hf as [Hf _]. cbn [map concat]. by rewrite read_frame_encode.
Qed.

(** A batch takes a prefix of the frames, in order. *)
Lemma rx_batch_loop_frames fuel frames (r : RxReader Ev) n b :
  Forall frame_ok frames -> rr_stdout r = concat (map encode_frame frames) ->
  (length frames < fuel)%nat ->
  exists k r', rx_batch_loop fuel n b r = (Ok tt, r') /\
    rr_stdout r' = concat (map encode_frame (drop k frames)) /\
    rr_pending r' = rr_pending r ++ take k frames.
Proof using.
  revert frames r n b. induction fuel as [|fuel IH]; intros frames r n b Hf Hs Hl; [lia|].
  cbn [rx_batch_loop]. unfold mbind at 1, M_bind at 1.
  assert (exists b' r1, rr_peek b r = (Ok b', r1) /\ rr_stdout r1 = rr_stdout r /\
    rr_pending r1 = rr_pending r) as (b' & r1 & -> & Hs1 & Hp1).
  { unfold rr_peek. run_St. destruct (rr_peeks r); do 2 eexists; by split_and!. }
  destruct (_ || _).
  { exists 0%nat, r1. rewrite drop_0, take_0, app_nil_r. by rewrite Hs1. }
  unfold mbind at 1, M_bind at 1.
  rewrite (rr_read_frames frames r1) by (done || by rewrite Hs1).
  destruct frames as [|f fs].
  { cbn [is_eof]. exists 0%nat, r1. cbn. by rewrite app_nil_r, Hs1. }
  apply Forall_cons in Hf as [_ Hf]. unfold mbind, M_bind, rr_push, modify.
  destruct (IH fs {| rr_stdout := concat (map encode_frame fs); rr_pending := rr_pending r1 ++ [f];
      rr_ready := rr_ready r1; rr_peeks := rr_peeks r1 |} (n + 1) 0)
    as (k & r' & Hr & Hs' & Hp'); [done|done|cbn in Hl; lia|].
  exists (S k), r'. split_and!; [exact Hr|done|]. rewrite Hp'. cbn.
  by rewrite <- app_assoc, Hp1.
Qed.

End reader_lemmas.

(** ** Properties *)

(** Frames cross the pipes unchanged.  Sending frames writes bytes from
    which the reader loop queues exactly the same frames in the same order and
    then ends, for frames of 1 to 1514 bytes and whatever [PeekNamedPipe]
    answers, so however the frames fall into batches; a number of rounds above
    the number of frames is enough. *)
Theorem net_frames_roundtrip {Ev} `{!WinEvent Ev} frames pending ready peeks fuel :
  Forall frame_ok frames -> (length frames < fuel)%nat ->
  exists sent r',
    foldl (fun s f => (send_frame f s).2) [] frames = sent /\
    rx_reader_loop fuel {| rr_stdout := sent; rr_pending := pending; rr_ready := ready;
                           rr_peeks := peeks |} = (Ok tt, r') /\
    rr_pending r' = pending ++ frames /\ rr_stdout r' = [].
Proof.
  intros Hf Hl.
  assert (forall s, foldl (fun s f => (send_frame f s).2) s frames =
    s ++ concat (map encode_frame frames)) as Hsend.
  { clear Hl. induction Hf as [|f fs Hf1 _ IH]; intros s; [by rewrite app_nil_r|].
    cbn [foldl map concat]. rewrite IH. unfold send_frame, encode_frame.
    cbn [pipe_write_all pipe_flush byte_pipe]. run_St.
    unfold frame_ok, MAX_FRAME_SIZE in Hf1.
    rewrite wrap_small by (split; [lia|]; change (2 ^ 16) with 65536; lia).
    by rewrite <- !app_assoc. }
  eexists. rewrite (Hsend []). cbn [app].
  assert (forall fuel frames (r : RxReader Ev), Forall frame_ok frames ->
    (length frames < fuel)%nat -> rr_stdout r = concat (map encode_frame frames) ->
    exists r', rx_reader_loop fuel r = (Ok tt, r') /\
      rr_pending r' = rr_pending r ++ frames /\ rr_stdout r' = []) as Hgen.
  { clear. intros fuel. induction fuel as [|fuel IH]; intros frames r Hf Hl Hs; [lia|].
    cbn [rx_reader_loop]. unfold mbind at 1, M_bind at 1.
    rewrite (rr_read_frames frames r) by done. destruct frames as [|f fs].
    { exists r. cbn. by rewrite app_nil_r, Hs. }
    apply Forall_cons in Hf as [_ Hf]. cbn [length] in Hl.
    unfold mbind at 1, M_bind at 1, rr_push, modify at 1.
    set (r1 := {| rr_stdout := concat (map encode_frame fs); rr_pending := rr_pending r ++ [f];
                  rr_ready := rr_ready r; rr_peeks := rr_peeks r |}).
    destruct (rx_batch_loop_frames fuel fs r1 1 0) as (k & r2 & Hb & Hs2 & Hp2);
      [done|done|lia|].
    unfold mbind at 1, M_bind at 1. cbn [rr_stdout rr_pending rr_ready rr_peeks]. fold r1. rewrite Hb.
    unfold mbind, M_bind, rr_signal, modify.
    destruct (IH (drop k fs) {| rr_stdout := rr_stdout r2; rr_pending := rr_pending r2;
        rr_ready := match event_signal (rr_ready r2) with Ok e => e | _ => rr_ready r2 end;
        rr_peeks := rr_peeks r2 |})
      as (r' & Hr & Hp & Hst); [by apply Forall_drop|rewrite length_drop; lia|done|].
    exists r'. split_and!; [exact Hr| |done]. rewrite Hp. cbn [rr_pending]. rewrite Hp2.
    cbn [rr_pending r1]. rewrite <- !app_assoc. cbn. by rewrite take_drop. }
  destruct (Hgen fuel frames {| rr_stdout := concat (map encode_frame frames);
    rr_pending := pending; rr_ready := ready; rr_peeks := peeks |}) as (r' & Hr & Hp & Hst);
    [done..|].
  by exists r'.
Qed.

Lemma net_frames_roundtrip_witness :
  let frames := [[1; 2; 3]; [4]; [5; 6]] in
  exists sent r', foldl (fun s f => (send_frame f s).2) [] frames = sent /\
    rx_reader_loop 4 {| rr_stdout := sent; rr_pending := []; rr_ready := 0%nat;
                        rr_peeks := [Some 3; None] |} = (Ok tt, r') /\
    rr_pending r' = frames /\ rr_stdout r' = [].
Proof.
  apply (net_frames_roundtrip [[1; 2; 3]; [4]; [5; 6]] [] 0%nat [Some 3; None] 4).
  - repeat constructor; vm_compute; congruence.
  - cbn; lia.
Defined.

(** Delivering a frame.  A chain with room for it receives the twelve
    bytes of the header, all zero but [num_buffers = 1], followed by the frame,
    over its buffers in order and nowhere else, and the reported length is that
    of both, however the buffers are split. *)
Theorem net_deliver_header_and_frame {prof : Profile} frame wr hm :
  consumer_wf wr -> NET_HDR_SIZE + zlen frame <= zlen (consumer_stream wr) ->
  exists wr' hm', net_deliver frame (wr, hm) = (Ok (Some (12 + zlen frame)), (wr', hm')) /\
    forall a, hm' a = stream_write hm
      (take (12 + length frame) (consumer_stream wr))
      ([0; 0; 0; 0; 0; 0; 0; 0; 0; 0; 1; 0] ++ frame) a.
Proof.
  intros Hw Hl. unfold NET_HDR_SIZE in Hl. pose proof (zlen_nonneg frame). unfold net_deliver. run_St.
  destruct (writer_write_all_stream wr hm default_rx_header Hw)
    as (w1 & hm1 & Hw1 & Hr1 & Hs1 & _ & Hm1).
  change (zlen default_rx_header) with 12 in *.
  rewrite (proj2 (Z.leb_le 12 _)) in Hr1 by lia. rewrite Z.min_l in Hs1, Hm1 by lia.
  rewrite Hr1. run_St.
  destruct (writer_write_all_stream w1 hm1 frame Hw1) as (w2 & hm2 & _ & Hr2 & _ & _ & Hm2).
  rewrite Hs1 in Hr2, Hm2. change (Z.to_nat 12) with 12%nat in *.
  assert (zlen (drop 12 (consumer_stream wr)) = zlen (consumer_stream wr) - 12) as El
    by (rewrite (zlen_drop 12); lia).
  rewrite El in Hr2, Hm2. rewrite (proj2 (Z.leb_le (zlen frame) _)) in Hr2 by lia.
  rewrite Z.min_l in Hm2 by lia. rewrite Hr2. run_St. exists w2, hm2. split; [done|].
  intros a. rewrite Hm2. assert (Z.to_nat (zlen frame) = length frame) as -> by (unfold zlen; lia).
  rewrite (take_ge frame) by lia.
  rewrite <- (take_take_drop (consumer_stream wr) 12 (length frame)).
  rewrite stream_write_app
    by (rewrite length_take; change (length [0; 0; 0; 0; 0; 0; 0; 0; 0; 0; 1; 0]) with 12%nat;
        unfold zlen in *; lia).
  apply stream_write_ext. intros y. by rewrite Hm1.
Qed.

Lemma net_deliver_header_and_frame_witness :
  let wr := {| c_buffers := [vs_with_bitmap 1000 10; vs_with_bitmap 5000 10];
               c_bytes_consumed := 0 |} in
  exists wr' hm', net_deliver [7; 8; 9] (wr, fun _ => 255) =
      (Ok (Some 15), (wr', hm')) /\
    forall a, hm' a = stream_write (fun _ => 255) (take 15 (seqZ 1000 10 ++ seqZ 5000 10))
      ([0; 0; 0; 0; 0; 0; 0; 0; 0; 0; 1; 0] ++ [7; 8; 9]) a.
Proof.
  apply (net_deliver_header_and_frame (prof:=dev_profile) [7; 8; 9]
    {| c_buffers := [vs_with_bitmap 1000 10; vs_with_bitmap 5000 10]; c_bytes_consumed := 0 |}).
  - split; [repeat constructor; vm_compute; congruence|done|reflexivity].
  - vm_compute. congruence.
Defined.

(** ** A batch of frames to send *)

(** A pipe whose other end keeps reading: every write is delivered. *)
Class PipeLaws (P : Type) `{!PipeOps P} (pipe_bytes : P -> list Z) : Prop := {
  pipe_write_delivers bs p : exists p',
    pipe_write_all bs p = (Ok tt, p') /\ pipe_bytes p' = pipe_bytes p ++ bs;
  pipe_flush_delivers p : exists p', pipe_flush p = (Ok tt, p') /\ pipe_bytes p' = pipe_bytes p;
}.

#[export] Instance byte_pipe_laws : PipeLaws (list Z) id.
Proof. split; intros; by eexists. Qed.

(** What a transmitted chain puts on the pipe: the frame behind the virtio
    header, with the low sixteen bits of its length in front; nothing when there
    is only a header. *)
Definition wire_bytes (bytes : list Z) : list Z :=
  let frame := drop (Z.to_nat NET_HDR_SIZE) bytes in
  match frame with [] => [] | _ => le_bytes 2 (wrap 16 (zlen frame)) ++ frame end.

(** How the other end reads the pipe: a length in two bytes, low byte first,
    and as many bytes. *)
Fixpoint split_frames (fuel : nat) (bs : list Z) : option (list (list Z)) :=
  match fuel, bs with
  | _, [] => Some []
  | S fuel', lo :: hi :: rest =>
      let n := Z.to_nat (lo + 256 * hi) in
      if (n <=? length rest)%nat then
        fs ← split_frames fuel' (drop n rest); Some (take n rest :: fs)
      else None
  | _, _ => None
  end.

(** The frames of the chains, without those that hold only a header. *)
Definition frames_of (chains : list (list Z)) : list (list Z) :=
  filter (fun frame => frame <> []) (map (drop 12) chains).

Lemma split_frames_wire chains fuel :
  Forall (fun frame => zlen frame < 2 ^ 16) (frames_of chains) ->
  (length (frames_of chains) < fuel)%nat ->
  split_frames fuel (concat (map wire_bytes chains)) = Some (frames_of chains).
Proof.
  revert fuel. induction chains as [|bytes chains IH]; intros fuel Hf Hl; [by destruct fuel|].
  cbn [map concat]. unfold frames_of in *. cbn [map] in *. unfold wire_bytes at 1.
  change (Z.to_nat NET_HDR_SIZE) with 12%nat. generalize dependent (drop 12 bytes). intros frame Hf Hl.
  destruct (decide (frame = [])) as [->|Hne].
  - rewrite filter_cons_False in * by (intros H; by apply H). by apply IH.
  - rewrite filter_cons_True in * by done. apply Forall_cons in Hf as [Hb Hf].
    replace (match frame with [] => [] | _ :: _ => le_bytes 2 (wrap 16 (zlen frame)) ++ frame end)
      with (le_bytes 2 (wrap 16 (zlen frame)) ++ frame) by (by destruct frame).
    destruct fuel as [|fuel]; [lia|]. pose proof (zlen_nonneg frame). rewrite wrap_small by done.
    rewrite <- app_assoc. cbn [le_bytes app split_frames].
    assert (Z.to_nat (zlen frame mod 256 + 256 * (zlen frame / 256 mod 256)) = length frame) as ->.
    { rewrite (Z.mod_small (zlen frame / 256)) 
        by (split; [apply Z.div_pos; lia|apply Z.div_lt_upper_bound; lia]).
      rewrite Z.add_comm, <- Z.div_mod by lia. unfold zlen. lia. }
    rewrite (proj2 (Nat.leb_le _ _)) by (rewrite length_app; lia).
    rewrite drop_app_length, take_app_length, IH by (done || (cbn in Hl; lia)). done.
Qed.

Definition net_step {P} (pipe_bytes : P -> list Z) (bytes : DescriptorChain -> list Z)
    (c : DescriptorChain) (x : NetExt P) (len : Z) (x' : NetExt P) (_ : hostmem) : Prop :=
  len = 0 /\ ne_pending x' = ne_pending x /\ exists p p', ne_stdin x = Some p /\
    ne_stdin x' = Some p' /\ pipe_bytes p' = pipe_bytes p ++ wire_bytes (bytes c).

Lemma net_steps_wire {P} (pipe_bytes : P -> list Z) bytes m cs x lens x' p :
  batch_steps (net_step pipe_bytes bytes) m cs x lens x' -> ne_stdin x = Some p ->
  ne_pending x' = ne_pending x /\ Forall (eq 0) lens /\ exists p', ne_stdin x' = Some p' /\
    pipe_bytes p' = pipe_bytes p ++ concat (map (fun c => wire_bytes (bytes c)) cs).
Proof.
  intros Hst. revert p. induction Hst as [x|c cs x len x1 lens x2 HR Hst IH]; intros p Hp.
  - split_and!; [done|constructor|]. exists p. by rewrite app_nil_r.
  - destruct HR as (-> & Hpend & p0 & p1 & Hp0 & Hp1 & Hb). rewrite Hp in Hp0. injection Hp0 as <-.
    destruct (IH p1 Hp1) as (Hpend2 & Hlens & p' & Hp' & Hb').
    split_and!; [by rewrite Hpend2|by constructor|]. exists p'. split; [done|].
    cbn. by rewrite Hb', Hb, app_assoc.
Qed.

Section batch.
Context {prof : Profile} {C Ev P : Type} `{!IrqChipT C Ev} `{!WinEvent Ev} `{!PipeOps P}.
Variable pipe_bytes : P -> list Z.
Context `{!PipeLaws P pipe_bytes}.
Context (mm : MemoryManager) (Hmm : mm_wf mm).
Variables (pd pa pu : Z).

Lemma send_frame_delivers frame p :
  exists p', send_frame frame p = (Ok tt, p') /\
    pipe_bytes p' = pipe_bytes p ++ le_bytes 2 (wrap 16 (zlen frame)) ++ frame.
Proof using All.
  unfold send_frame. destruct (pipe_write_delivers (le_bytes 2 (wrap 16 (zlen frame))) p) as (p1 & H1 & B1).
  destruct (pipe_write_delivers frame p1) as (p2 & H2 & B2).
  destruct (pipe_flush_delivers p2) as (p3 & H3 & B3). exists p3. run_St. rewrite H1, H2, H3.
  split; [done|]. by rewrite B3, B2, B1, app_assoc.
Qed.

Lemma net_tx_served (w : NetWorker C Ev P) c rd p :
  worker_ready mm tx_lens pd pa pu w -> 0 <= dc_index c < q_size (tx_queue (wk_queues w)) ->
  reader_new mm (wk_hm w) c = Ok rd -> consumer_wf rd -> ne_stdin (wk_ext w) = Some p ->
  exists x, net_tx_chain mm c w = (Ok true, w_served tx_lens pu w (wk_hm w) x c 0) /\
    net_step pipe_bytes (fun _ => stream_read (wk_hm w) (consumer_stream rd)) c
      (wk_ext w) 0 x (wk_hm w).
Proof using All.
  intros Hw Hi Hrd Hwf Hp. set (buf := stream_read (wk_hm w) (consumer_stream rd)).
  assert (zlen buf = zlen (consumer_stream rd)) as Hbuf
    by (unfold buf, stream_read, zlen; by rewrite length_map).
  unfold net_tx_chain. run_St. rewrite Hrd. unfold reader_available_bytes.
  rewrite available_bytes_stream by done. run_St. rewrite read_available by done. fold buf.
  rewrite <- Hbuf. destruct (Z.ltb_spec NET_HDR_SIZE (zlen buf)) as [Hpos|Hz].
  - rewrite Hp, take_ge by (unfold zlen; lia).
    set (frame := drop (Z.to_nat NET_HDR_SIZE) buf).
    destruct (send_frame_delivers frame p) as (p' & Hrun & Hb). run_St. rewrite Hp. cbn [default from_option].
    rewrite Hrun. run_St.
    set (x := {| ne_stdin := Some p'; ne_pending := ne_pending (wk_ext w) |}). exists x. split.
    + change (ne_set_stdin p' w) with (wk_set_mem_ext (wk_hm w, x) w).
      rewrite (wk_add_used_mapped mm Hmm tx_lens pd pa pu); [done|by destruct Hw|done].
    + split_and!; [done|done|]. exists p, p'. split_and!; [done|done|]. rewrite Hb. f_equal.
      unfold wire_bytes. fold frame. destruct frame eqn:E; [|done]. exfalso.
      apply (f_equal length) in E. unfold frame in E. rewrite length_drop in E.
      unfold NET_HDR_SIZE, zlen in *. cbn in E. lia.
  - exists (wk_ext w). split.
    + run_St. by rewrite (wk_add_used_mapped mm Hmm tx_lens pd pa pu).
    + split_and!; [done|done|]. exists p, p. split_and!; [done|done|]. unfold wire_bytes.
      rewrite drop_ge by (unfold NET_HDR_SIZE, zlen in *; lia). by rewrite app_nil_r.
Qed.

Lemma net_serves q hm cs c :
  queue_wf q -> hostmem_wf hm -> rings_mapped mm q pd pa pu ->
  good_batch mm pd pa pu q hm cs -> c ∈ cs ->
  serves mm tx_lens pd pa pu (net_tx_chain (C:=C) (Ev:=Ev) (P:=P) mm) q hm
    (untouched mm pu q hm cs) (fun x => is_Some (ne_stdin x)) (chain_writes mm hm)
    (net_step pipe_bytes (fun c => stream_read hm (chain_reads mm hm c))) c.
Proof using All.
  intros Hq Hhm Hr Hg Hc w Hw Hm Ha [p Hp].
  destruct (good_chain mm pd pa pu q hm cs c Hq Hhm Hg Hc) as [_ Hi].
  destruct (good_reader_writer mm Hmm pd pa pu q hm cs c w) as [Hnew _]; [done..|].
  destruct (gb_reader _ _ _ _ _ _ _ Hg c Hc) as (rd & Hrd & Hwf). rewrite Hrd in Hnew.
  destruct (net_tx_served w c rd p) as (x & Hrun & Hstep); [done| |done..|].
  { pose proof (moved_size _ _ Hm) as Hsz. cbn in Hsz. by rewrite Hsz. }
  assert (chain_reads mm hm c = consumer_stream rd) as Er by (unfold chain_reads; by rewrite Hrd).
  assert (stream_read (wk_hm w) (consumer_stream rd) = stream_read hm (chain_reads mm hm c)) as E
    by (rewrite <- Er; by apply (good_reads mm pd pa pu q hm cs c)).
  rewrite E in Hstep. exists (wk_hm w), x, 0.
  split_and!; [done|apply Hw| |apply agree_refl|exact Hstep].
  destruct Hstep as (_ & _ & _ & p' & _ & -> & _). by eexists.
Qed.

End batch.

(** C37: guest frames reach the network process in order.  While the process
    keeps reading, and for a driver that keeps the rules, one wake-up of the
    network worker returns, with one unit of fuel more than there are chains;
    the pipe has received, in ring order, the frame of each published chain
    without its virtio header and behind the low sixteen bits of its length,
    nothing for a chain that holds only a header, and nothing else.  When every
    frame is shorter than 64 KiB, whose length two bytes can say, a reader that
    takes a length and as many bytes in turn gets back exactly these frames in
    this order.  The chains went back with length 0, the frames to receive are
    as they were, the driver is signalled exactly when there was a chain. *)
Theorem net_frames_sent_in_order {prof : Profile} {C Ev P} `{!IrqChipT C Ev} `{!WinEvent Ev}
    `{!PipeOps P} (pipe_bytes : P -> list Z) `{!PipeLaws P pipe_bytes}
    mm pd pa pu (w : NetWorker C Ev P) p cs fuel :
  mm_wf mm -> worker_ready mm tx_lens pd pa pu w -> signal_returns (wk_interrupt w) ->
  ne_stdin (wk_ext w) = Some p ->
  good_batch mm pd pa pu (tx_queue (wk_queues w)) (wk_hm w) cs -> (length cs < fuel)%nat ->
  exists w' lens p', net_process_tx_virtio_queue mm fuel w = (Ok tt, w') /\
    let readable c := stream_read (wk_hm w) (chain_reads mm (wk_hm w) c) in
    let out := concat (map (fun c => wire_bytes (readable c)) cs) in
    let frames := frames_of (map readable cs) in
    ne_stdin (wk_ext w') = Some p' /\ pipe_bytes p' = pipe_bytes p ++ out /\
    (Forall (fun frame => zlen frame < 2 ^ 16) frames ->
       split_frames (S (length frames)) out = Some frames) /\
    ne_pending (wk_ext w') = ne_pending (wk_ext w) /\ Forall (eq 0) lens /\
    batch_done tx_lens pa pu (fun x => is_Some (ne_stdin x)) (chain_writes mm (wk_hm w))
      (net_step pipe_bytes (fun c => stream_read (wk_hm w) (chain_reads mm (wk_hm w) c)))
      (fun _ _ => true) w cs lens w'.
Proof.
  intros Hmm Hw Hsig Hp Hg Hf. pose proof Hw as [Hq Hr Hhm].
  destruct (drain_batch mm Hmm tx_lens pd pa pu (net_tx_chain mm) (tx_queue (wk_queues w)) (wk_hm w)
    (untouched mm pu (tx_queue (wk_queues w)) (wk_hm w) cs) (fun x => is_Some (ne_stdin x))
    (chain_writes mm (wk_hm w))
    (net_step pipe_bytes (fun c => stream_read (wk_hm w) (chain_reads mm (wk_hm w) c)))
    (fun _ _ => true) (fun used_any => if used_any then wk_signal else mret tt)
    (net_process_tx_queue mm fuel) cs w fuel) as (w' & lens & Hrun & Hb); try done.
  - intros w0 [p0 Hp0]. unfold net_process_tx_queue. run_St. by rewrite Hp0.
  - apply signal_finishes, _.
  - apply Hg.
  - apply good_service; [done..|]. intros c Hc. by apply net_serves.
  - apply Hg.
  - apply Hg.
  - destruct (net_steps_wire pipe_bytes _ _ cs _ lens _ p (bd_steps _ _ _ _ _ _ _ _ _ _ _ Hb) Hp)
      as (Hpend & Hlens & p' & Hp' & Hbytes).
    exists w', lens, p'. cbv zeta. split_and!; try done. intros Hshort.
    match type of Hshort with Forall _ (frames_of ?cs') =>
      pose proof (split_frames_wire cs' (S (length (frames_of cs'))) Hshort ltac:(lia)) as Hsplit end.
    rewrite map_map in Hsplit. exact Hsplit.
Qed.

(** Heads 2 and 0 are pending: 512 + 64 readable bytes, and 64 of them. *)
Definition example_net : NetWorker SimpleIrqChip nat (list Z) :=
  {| wk_queues := {| rx_queue := example_queue; tx_queue := example_queue |};
     wk_hm := example_hm; wk_interrupt := mt_interrupt (example_transport 15);
     wk_ext := {| ne_stdin := Some []; ne_pending := [] |} |}.

Lemma net_frames_sent_in_order_witness :
  exists w',
    net_process_tx_virtio_queue (prof:=dev_profile) example_mm 3 example_net = (Ok tt, w') /\
    ne_stdin (wk_ext w') =
      Some (le_bytes 2 564 ++ replicate 564 0 ++ le_bytes 2 52 ++ replicate 52 0).
Proof.
  destruct (net_frames_sent_in_order (prof:=dev_profile) id example_mm 1048576 (1048576 + 4096)
    (1048576 + 8192) example_net [] (published 1048576 (1048576 + 4096) example_queue example_hm) 3)
    as (w' & lens & p' & Hrun & Hp' & Hbytes & _).
  - apply example_mm_wf.
  - split; [apply example_queue_wf|apply example_rings|apply example_hm_wf].
  - vm_compute. exact I.
  - done.
  - apply good_batchb_good; [apply example_hm_wf|]. vm_compute. reflexivity.
  - vm_compute. lia.
  - exists w'. split; [done|]. rewrite Hp'. f_equal.
    transitivity (id p'); [done|]. rewrite Hbytes. vm_compute. reflexivity.
Defined.
