(* ===== verification/Terminal.v ===== *)
(** * Terminal: the modes of the host console, [src/terminal.rs]

    [HostConsole] puts the console into raw mode and its destructor restores
    it.  The console of the operating system is a parameter: a state with the
    calls on it, whose laws say that a mode which was set is read back and that
    the calls do not disturb each other's handle. *)

From S2P Require Import Prelude.

(** ** The operating system's console *)

Inductive StdHandle : Type := STD_INPUT_HANDLE | STD_OUTPUT_HANDLE.

#[export] Instance std_handle_eq_dec : EqDecision StdHandle.
Proof. solve_decision. Defined.

(** The flags of a mode by the number of their bit; calls on a state [T], the
    truth value being the success of the call. *)
Class HostTerminal (T : Type) : Type := {
  ENABLE_PROCESSED_INPUT_bit : Z;
  ENABLE_LINE_INPUT_bit : Z;
  ENABLE_ECHO_INPUT_bit : Z;
  ENABLE_VIRTUAL_TERMINAL_INPUT_bit : Z;
  ENABLE_PROCESSED_OUTPUT_bit : Z;
  ENABLE_VIRTUAL_TERMINAL_PROCESSING_bit : Z;
  GetStdHandle : T -> StdHandle -> option Z;
  GetConsoleMode : T -> Z -> option Z;
  SetConsoleMode : Z -> Z -> T -> bool * T;
  SetConsoleCtrlHandler : bool -> T -> bool * T;
  (** the program's handler is registered *)
  ctrl_handler_set : T -> bool;
}.

Class TerminalLaws {T} (HT : HostTerminal T) : Prop := {
  input_bits : NoDup [ENABLE_PROCESSED_INPUT_bit; ENABLE_LINE_INPUT_bit; ENABLE_ECHO_INPUT_bit;
                      ENABLE_VIRTUAL_TERMINAL_INPUT_bit] /\
    Forall (fun i => 0 <= i < 32) [ENABLE_PROCESSED_INPUT_bit; ENABLE_LINE_INPUT_bit;
      ENABLE_ECHO_INPUT_bit; ENABLE_VIRTUAL_TERMINAL_INPUT_bit; ENABLE_PROCESSED_OUTPUT_bit;
      ENABLE_VIRTUAL_TERMINAL_PROCESSING_bit];
  set_then_get h m t t' : SetConsoleMode h m t = (true, t') -> GetConsoleMode t' h = Some m;
  set_failed h m t t' : SetConsoleMode h m t = (false, t') -> t' = t;
  set_other h h' m t : h <> h' -> GetConsoleMode (SetConsoleMode h m t).2 h' = GetConsoleMode t h';
  set_std h m t k : GetStdHandle (SetConsoleMode h m t).2 k = GetStdHandle t k;
  set_handler h m t : ctrl_handler_set (SetConsoleMode h m t).2 = ctrl_handler_set t;
  ctrl_mode b t h : GetConsoleMode (SetConsoleCtrlHandler b t).2 h = GetConsoleMode t h;
  ctrl_std b t k : GetStdHandle (SetConsoleCtrlHandler b t).2 k = GetStdHandle t k;
  ctrl_handler b t : (SetConsoleCtrlHandler b t).1 = true ->
    ctrl_handler_set (SetConsoleCtrlHandler b t).2 = b;
}.

(** ** The guard *)

Section terminal.
Context {T : Type} `{!HostTerminal T}.

(* src/terminal.rs:36-38, HostConsole *)
Record HostConsole : Type := { saved_stdin_mode : option (Z * Z) }.

(** The masks with which the code forms the raw mode. *)
(* src/terminal.rs:127-128, HostConsole::setup_stdin *)
Definition raw_input_mode (mode : Z) : Z :=
  Z.lor (Z.land mode (wnot 32 (Z.lor (Z.lor (bit ENABLE_ECHO_INPUT_bit) (bit ENABLE_LINE_INPUT_bit))
                                 (bit ENABLE_PROCESSED_INPUT_bit))))
        (bit ENABLE_VIRTUAL_TERMINAL_INPUT_bit).

(* src/terminal.rs:119-132, HostConsole::setup_stdin *)
Definition setup_stdin {E} : M T E (option (Z * Z)) :=
  t ← gets id;
  match GetStdHandle t STD_INPUT_HANDLE with
  | None => mret None
  | Some h =>
      match GetConsoleMode t h with
      | None => mret None
      | Some saved =>
          let raw := raw_input_mode saved in
          _ ← modify (fun t => (SetConsoleMode h raw t).2);
          mret (Some (h, saved))
      end
  end.

(* src/terminal.rs:135-145, HostConsole::setup_stdout *)
Definition setup_stdout {E} : M T E unit :=
  t ← gets id;
  match GetStdHandle t STD_OUTPUT_HANDLE with
  | None => mret tt
  | Some h =>
      match GetConsoleMode t h with
      | None => mret tt
      | Some mode =>
          modify (fun t => (SetConsoleMode h
            (Z.lor (Z.lor mode (bit ENABLE_PROCESSED_OUTPUT_bit))
               (bit ENABLE_VIRTUAL_TERMINAL_PROCESSING_bit)) t).2)
      end
  end.

(* src/terminal.rs:53-62, HostConsole::enter_raw_mode *)
Definition enter_raw_mode {E} : M T E HostConsole :=
  saved ← setup_stdin;
  _ ← setup_stdout;
  _ ← modify (fun t => (SetConsoleCtrlHandler true t).2);
  mret {| saved_stdin_mode := saved |}.

(* src/terminal.rs:149-157, HostConsole::drop *)
Definition console_drop {E} (c : HostConsole) : M T E unit :=
  _ ← modify (fun t => (SetConsoleCtrlHandler false t).2);
  match saved_stdin_mode c with
  | Some (h, saved) => modify (fun t => (SetConsoleMode h saved t).2)
  | None => mret tt
  end.

End terminal.

(** ** Lemmas *)

Section lemmas.
Context {T : Type} `{HT : !HostTerminal T} `{!TerminalLaws HT}.

Lemma bit_testbit i j : 0 <= i -> Z.testbit (bit i) j = bool_decide (i = j).
Proof.
  intros Hi. unfold bit. rewrite Z.shiftl_1_l, Z.pow2_bits_eqb by done.
  case_bool_decide; [by apply Z.eqb_eq|by apply Z.eqb_neq].
Qed.

Lemma input_bit_fits i :
  i ∈ [ENABLE_PROCESSED_INPUT_bit; ENABLE_LINE_INPUT_bit; ENABLE_ECHO_INPUT_bit;
       ENABLE_VIRTUAL_TERMINAL_INPUT_bit] -> 0 <= i < 32 /\ fits 32 (bit i).
Proof.
  intros Hi. destruct input_bits as [_ Hb]. rewrite !Forall_cons in Hb.
  rewrite !elem_of_cons, elem_of_nil in Hi.
  assert (0 <= i < 32) as Hr by (destruct Hi as [->|[->|[->|[->|[]]]]]; apply Hb).
  split; [done|]. apply fits_bit. lia.
Qed.

(** The raw mode, bit by bit. *)
Lemma raw_input_mode_bits mode i :
  0 <= i < 32 ->
  Z.testbit (raw_input_mode mode) i =
    if bool_decide (i = ENABLE_VIRTUAL_TERMINAL_INPUT_bit) then true
    else if bool_decide (i ∈ [ENABLE_ECHO_INPUT_bit; ENABLE_LINE_INPUT_bit; ENABLE_PROCESSED_INPUT_bit])
    then false else Z.testbit mode i.
Proof.
  intros Hi.
  destruct (input_bit_fits ENABLE_PROCESSED_INPUT_bit) as [P1 P2]; [rewrite !elem_of_cons; tauto|].
  destruct (input_bit_fits ENABLE_LINE_INPUT_bit) as [L1 L2]; [rewrite !elem_of_cons; tauto|].
  destruct (input_bit_fits ENABLE_ECHO_INPUT_bit) as [E1 E2]; [rewrite !elem_of_cons; tauto|].
  destruct (input_bit_fits ENABLE_VIRTUAL_TERMINAL_INPUT_bit) as [V1 V2]; [rewrite !elem_of_cons; tauto|].
  unfold raw_input_mode. rewrite Z.lor_spec, Z.land_spec, wnot_spec by (done || (repeat apply fits_lor; done || lia)).
  rewrite !Z.lor_spec, !bit_testbit by lia.
  rewrite (bool_decide_ext (i = _) (ENABLE_VIRTUAL_TERMINAL_INPUT_bit = i)) by done.
  rewrite (bool_decide_ext (i ∈ _) (ENABLE_ECHO_INPUT_bit = i \/ ENABLE_LINE_INPUT_bit = i \/
    ENABLE_PROCESSED_INPUT_bit = i)).
  2:{ rewrite !elem_of_cons, elem_of_nil. intuition congruence. }
  repeat case_bool_decide; try (exfalso; tauto); try (by subst); by destruct (Z.testbit mode i).
Qed.

Lemma setup_stdin_eq {E} t h m :
  GetStdHandle t STD_INPUT_HANDLE = Some h -> GetConsoleMode t h = Some m ->
  setup_stdin (E:=E) t = (Ok (Some (h, m)), (SetConsoleMode h (raw_input_mode m) t).2).
Proof. intros Hh Hm. unfold setup_stdin. run_St. by rewrite Hh, Hm. Qed.

(** Stdout's setup leaves every other handle alone. *)
Lemma setup_stdout_other {E} t h :
  GetStdHandle t STD_OUTPUT_HANDLE <> Some h ->
  exists t', setup_stdout (E:=E) t = (Ok tt, t') /\ GetConsoleMode t' h = GetConsoleMode t h.
Proof.
  intros Hne. unfold setup_stdout. run_St.
  destruct (GetStdHandle t STD_OUTPUT_HANDLE) as [o|]; [|by eexists].
  destruct (GetConsoleMode t o) as [m|]; [|by eexists].
  eexists. split; [reflexivity|]. apply set_other. congruence.
Qed.

End lemmas.

(** ** Properties *)

(** Raw mode and back.  When the host's stdin is a console, entering raw
    mode makes its mode exactly the old one without echo, line editing and
    processed input and with virtual terminal input, all other bits as they
    were; the destructor, whatever happened in between, asks for the mode
    stdin had before, removes the handler of control events, and touches no
    other handle.  When stdin is not a console its mode is never set. *)
Theorem raw_mode_is_undone {T} `{HT : !HostTerminal T} `{!TerminalLaws HT} (t : T) :
  GetStdHandle t STD_INPUT_HANDLE <> GetStdHandle t STD_OUTPUT_HANDLE ->
  exists c t1, enter_raw_mode (E:=string) t = (Ok c, t1) /\
    match GetStdHandle t STD_INPUT_HANDLE with
    | Some h =>
        match GetConsoleMode t h with
        | Some m =>
            ((SetConsoleMode h (raw_input_mode m) t).1 = true ->
             exists raw, GetConsoleMode t1 h = Some raw /\
               forall i, 0 <= i < 32 -> Z.testbit raw i =
                 if bool_decide (i = ENABLE_VIRTUAL_TERMINAL_INPUT_bit) then true
                 else if bool_decide (i ∈ [ENABLE_ECHO_INPUT_bit; ENABLE_LINE_INPUT_bit;
                                           ENABLE_PROCESSED_INPUT_bit])
                 then false else Z.testbit m i) /\
            forall t2, let t3 := (console_drop (E:=string) c t2).2 in
              ((SetConsoleMode h m (SetConsoleCtrlHandler false t2).2).1 = true ->
               GetConsoleMode t3 h = Some m) /\
              ((SetConsoleCtrlHandler false t2).1 = true -> ctrl_handler_set t3 = false) /\
              forall h', h' <> h -> GetConsoleMode t3 h' = GetConsoleMode t2 h'
        | None => saved_stdin_mode c = None /\ GetConsoleMode t1 h = None
        end
    | None => saved_stdin_mode c = None
    end.
Proof.
  intros Hne. unfold enter_raw_mode. destruct (GetStdHandle t STD_INPUT_HANDLE) as [h|] eqn:Eh.
  2:{ unfold setup_stdin, setup_stdout. run_St. rewrite Eh.
      destruct (GetStdHandle t STD_OUTPUT_HANDLE) as [o|]; [destruct (GetConsoleMode t o)|];
        (eexists _, _; split; [reflexivity|done]). }
  destruct (GetConsoleMode t h) as [m|] eqn:Em.
  - unfold mbind, M_bind. rewrite (setup_stdin_eq t h m) by done.
    destruct (setup_stdout_other (E:=string) (SetConsoleMode h (raw_input_mode m) t).2 h)
      as (t' & -> & Hm); [by rewrite set_std|].
    eexists _, _. split; [reflexivity|]. split.
    + intros Hs. eexists. split; [|apply raw_input_mode_bits].
      cbn [modify snd]. rewrite ctrl_mode, Hm. eapply set_then_get.
      rewrite <- Hs. apply surjective_pairing.
    + intros t2. unfold console_drop. run_St. cbn [saved_stdin_mode snd]. split_and!.
      * intros Hs. eapply set_then_get. rewrite <- Hs. apply surjective_pairing.
      * intros Hs. rewrite set_handler. by apply ctrl_handler.
      * intros h' Hh'. rewrite set_other by done. apply ctrl_mode.
  - unfold setup_stdin, mbind, M_bind. run_St. rewrite Eh, Em.
    destruct (setup_stdout_other (E:=string) t h) as (t' & -> & Hm); [done|].
    eexists _, _. split; [reflexivity|]. split; [done|]. cbn [snd]. by rewrite ctrl_mode, Hm.
Qed.

(** The guard's comment says that the original mode is restored; for stdout it
    is not: the bits that were set stay set. *)
Lemma stdout_mode_not_restored {T} `{HT : !HostTerminal T} `{!TerminalLaws HT} (t2 : T) c h h' saved :
  saved_stdin_mode c = Some (h, saved) -> h' <> h ->
  GetConsoleMode (console_drop (E:=string) c t2).2 h' = GetConsoleMode t2 h'.
Proof.
  intros Hc Hne. unfold console_drop. run_St. rewrite Hc. cbn [snd]. rewrite set_other by done. apply ctrl_mode.
Qed.

(** ** Witness *)

(** A console with the modes of its two handles and the registration. *)
Record ExampleConsole : Type := { xc_in : Z; xc_out : Z; xc_handler : bool }.

Definition example_set_mode (h m : Z) (t : ExampleConsole) : bool * ExampleConsole :=
  if bool_decide (fits 32 m) then
    if h =? 1 then (true, {| xc_in := m; xc_out := xc_out t; xc_handler := xc_handler t |})
    else if h =? 2 then (true, {| xc_in := xc_in t; xc_out := m; xc_handler := xc_handler t |})
    else (false, t)
  else (false, t).

#[export] Instance example_terminal : HostTerminal ExampleConsole := {
  ENABLE_PROCESSED_INPUT_bit := 0;
  ENABLE_LINE_INPUT_bit := 1;
  ENABLE_ECHO_INPUT_bit := 2;
  ENABLE_VIRTUAL_TERMINAL_INPUT_bit := 9;
  ENABLE_PROCESSED_OUTPUT_bit := 0;
  ENABLE_VIRTUAL_TERMINAL_PROCESSING_bit := 2;
  GetStdHandle _ k := match k with STD_INPUT_HANDLE => Some 1 | STD_OUTPUT_HANDLE => Some 2 end;
  GetConsoleMode t h := if h =? 1 then Some (xc_in t) else if h =? 2 then Some (xc_out t) else None;
  SetConsoleMode := example_set_mode;
  SetConsoleCtrlHandler b t := (true, {| xc_in := xc_in t; xc_out := xc_out t; xc_handler := b |});
  ctrl_handler_set := xc_handler;
}.

#[export] Instance example_terminal_laws : TerminalLaws example_terminal.
Proof.
  split; cbn [ENABLE_PROCESSED_INPUT_bit ENABLE_LINE_INPUT_bit ENABLE_ECHO_INPUT_bit
    ENABLE_VIRTUAL_TERMINAL_INPUT_bit ENABLE_PROCESSED_OUTPUT_bit
    ENABLE_VIRTUAL_TERMINAL_PROCESSING_bit GetStdHandle GetConsoleMode SetConsoleMode
    SetConsoleCtrlHandler ctrl_handler_set example_terminal]; try done.
  - split; [|repeat constructor; lia]. apply (bool_decide_unpack _). vm_compute. constructor.
  - intros h m t t'. unfold example_set_mode. repeat case_match; intros [=]; subst; (done || lia).
  - intros h m t t'. unfold example_set_mode. repeat case_match; intros [=]; by subst.
  - intros h h' m t Hne. unfold example_set_mode.
    destruct (Z.eqb_spec h 1), (Z.eqb_spec h' 1), (Z.eqb_spec h 2), (Z.eqb_spec h' 2);
      try lia; by destruct (bool_decide (fits 32 m)).
  - intros h m t. unfold example_set_mode.
    by destruct (bool_decide (fits 32 m)), (h =? 1), (h =? 2).
Qed.

(** A console in its usual mode: the raw mode, and the old one after the drop. *)
Lemma raw_mode_is_undone_witness :
  let t := {| xc_in := 0x1f7; xc_out := 3; xc_handler := false |} in
  exists c t1, enter_raw_mode (E:=string) t = (Ok c, t1) /\ raw_input_mode 0x1f7 = 0x3f0 /\
    forall t2, GetConsoleMode (console_drop (E:=string) c t2).2 1 = Some 0x1f7.
Proof.
  intros t. destruct (raw_mode_is_undone t) as (c & t1 & He & Hc); [done|].
  exists c, t1. split; [done|]. split; [reflexivity|]. intros t2.
  change (GetStdHandle t STD_INPUT_HANDLE) with (Some 1) in Hc. cbv iota in Hc.
  change (GetConsoleMode t 1) with (Some 0x1f7) in Hc. cbv iota in Hc.
  destruct Hc as [_ Hd]. apply (Hd t2). reflexivity.
Defined.
