(* ===== verification/Program.v ===== *)
(** * Program: the configuration and [main], [src/config.rs] and [src/main.rs]

    The whole process: the settings come from the environment, the machine is
    assembled, the console switched to raw mode, the kernel loaded, the
    processor run; then the console and the partition are dropped, on success
    as on every error.  The theorems put the components' results together. *)

From S2P Require Import Prelude Bytes HostMem GuestMem Queue Irqchip Bus VirtioDev Mmio Layout Acpi Partition Vm VmRun Lifecycle CLayout BootParams Boot BootState ZeroPage ElfLoad BootFields BzImage KernelImage Worker Batch GoodDriver ConsoleWorker Terminal.
From stdpp Require Import pretty.

#[local] Open Scope Z_scope.

(** ** Configuration *)

(* src/config.rs:6-12, VmConfig *)
Record VmConfig : Type := {
  kernel_path : string;
  initram_path : string;
  rootfs_path : string;
  memory_size : Z;
}.

(** The environment of the process, the files of the host and the call that
    programs the registers of the boot processor. *)
Class ProcessHost : Type := {
  env_var : string -> option string;
  (** [std::fs::exists], [std::fs::metadata(..).is_ok()], the contents *)
  file_exists : string -> out string bool;
  file_metadata : string -> bool;
  file_contents : string -> option (list Z);
  WHvSetBootRegisters : list (RegName * RegValue) -> out string unit;
}.

(** [str::parse::<usize>]: an optional plus sign and at least one digit, every
    step checked for overflow. *)
Definition digit (c : Ascii.ascii) : option Z :=
  let n := Z.of_nat (Ascii.nat_of_ascii c) in
  if (48 <=? n) && (n <=? 57) then Some (n - 48) else None.

Fixpoint parse_digits (s : string) (acc : Z) : option Z :=
  match s with
  | EmptyString => Some acc
  | String c s' =>
      d ← digit c;
      a ← (if acc * 10 <? 2 ^ 64 then Some (acc * 10) else None);
      b ← checked_add 64 a d;
      parse_digits s' b
  end.

Definition parse_usize (s : string) : option Z :=
  match s with
  | EmptyString => None
  | String c s' =>
      if Z.of_nat (Ascii.nat_of_ascii c) =? 43 then match s' with EmptyString => None | _ => parse_digits s' 0 end
      else parse_digits s 0
  end.

Section config.
Context {prof : Profile} `{!ProcessHost}.

(* src/config.rs:42-47, require_file *)
Definition require_file (path label : string) : out string unit :=
  exists_ ← file_exists path;
  if negb exists_ then Err (label ++ " file not found: " ++ path)%string else Ok tt.

(* src/config.rs:17-39, VmConfig::from_env *)
Definition from_env : out string VmConfig :=
  let kernel_path := default "kernels/fedora-kernel"%string (env_var "KERNEL_PATH") in
  let initram_path := default "kernels/initramfs.img"%string (env_var "INITRAM_PATH") in
  let rootfs_path := default "kernels/fedora-rootfs.img"%string (env_var "ROOTFS_PATH") in
  memory_size ← config_memory_size (env_var "MEMORY_GB" ≫= parse_usize);
  _ ← require_file kernel_path "Kernel";
  _ ← require_file initram_path "Initramfs";
  _ ← require_file rootfs_path "Rootfs";
  Ok {| kernel_path := kernel_path; initram_path := initram_path; rootfs_path := rootfs_path;
        memory_size := memory_size |}.

End config.

(** ** The process *)

Record Process (Ev T : Type) : Type := {
  pr_vm : Vm Ev;
  pr_terminal : T;
  (** the guard, while it is alive, and what the keyboard's thread shares *)
  pr_console : option HostConsole;
  pr_stdin : option (StdinShared Ev);
  pr_boot_registers : list (RegName * RegValue);
}.
Arguments pr_vm {Ev T}.
Arguments pr_terminal {Ev T}.
Arguments pr_console {Ev T}.
Arguments pr_stdin {Ev T}.
Arguments pr_boot_registers {Ev T}.
Arguments Build_Process {Ev T}.

(** What is left when the process ends: its result, the terminal, the partition
    as its destructor finds it, the calls to the hypervisor before and in the
    destructor. *)
Record Ended (Ev T : Type) : Type := {
  en_result : out string unit;
  en_terminal : T;
  en_partition : option (Partition Ev);
  en_calls : list HvCall;
  en_drop : list HvCall;
}.
Arguments en_result {Ev T}.
Arguments en_terminal {Ev T}.
Arguments en_partition {Ev T}.
Arguments en_calls {Ev T}.
Arguments en_drop {Ev T}.
Arguments Build_Ended {Ev T}.

Section process.
Context {prof : Profile} {Ev : Type} `{!WinEvent Ev} `{!WhvInterruptTypes} `{!VirtioConsts}
  `{!PartitionHost} {Sdt : Type} `{!AcpiTables Sdt} `{!VmHost} {T : Type} `{!HostTerminal T}
  `{!ProcessHost}.

#[local] Abbreviation V := (Vm Ev).
#[local] Abbreviation R := (Process Ev T).

Definition pr_set_vm (v : V) (s : R) : R :=
  {| pr_vm := v; pr_terminal := pr_terminal s; pr_console := pr_console s; pr_stdin := pr_stdin s;
     pr_boot_registers := pr_boot_registers s |}.
Definition pr_set_terminal (t : T) (s : R) : R :=
  {| pr_vm := pr_vm s; pr_terminal := t; pr_console := pr_console s; pr_stdin := pr_stdin s;
     pr_boot_registers := pr_boot_registers s |}.
Definition pr_set_console (c : HostConsole) (s : R) : R :=
  {| pr_vm := pr_vm s; pr_terminal := pr_terminal s; pr_console := Some c; pr_stdin := pr_stdin s;
     pr_boot_registers := pr_boot_registers s |}.
Definition pr_set_stdin (x : StdinShared Ev) (s : R) : R :=
  {| pr_vm := pr_vm s; pr_terminal := pr_terminal s; pr_console := pr_console s;
     pr_stdin := Some x; pr_boot_registers := pr_boot_registers s |}.
Definition pr_set_boot_registers (rs : list (RegName * RegValue)) (s : R) : R :=
  {| pr_vm := pr_vm s; pr_terminal := pr_terminal s; pr_console := pr_console s;
     pr_stdin := pr_stdin s; pr_boot_registers := rs |}.

(** The loader works on guest memory and looks at the partition. *)
Definition on_memory {A} (f : Partition Ev -> M hostmem string A) : M V string A :=
  v ← gets id;
  zoom v_memory v_set_memory (f (v_partition v)).

Definition in_vm {A} (m : M V string A) : M R string A := zoom pr_vm pr_set_vm m.
Definition in_terminal {A} (m : M T string A) : M R string A := zoom pr_terminal pr_set_terminal m.

(** The shared buffer and its event; the thread itself is [stdin_reader]. *)
(* src/terminal.rs:70-76, HostConsole::spawn_stdin_reader *)
Definition spawn_stdin_reader : M R string unit :=
  event ← lift (unwrap CreateEventW);
  modify (pr_set_stdin {| si_buffer := []; si_event := event |}).

(* src/main.rs:68-69, main *)
Definition setup_console : M R string unit :=
  console ← in_terminal enter_raw_mode;
  _ ← modify (pr_set_console console);
  spawn_stdin_reader.

(* src/main.rs:81-85, main *)
Definition load_kernel (cfg : VmConfig) : M R string Z :=
  kernel_entry ← in_vm (on_memory (fun p =>
    load_linux_kernel (Sdt:=Sdt) p (file_contents (kernel_path cfg))));
  regs ← in_vm (on_memory (fun p => partition_setup_linux_registers p kernel_entry));
  _ ← lift (WHvSetBootRegisters regs);
  _ ← modify (pr_set_boot_registers regs);
  mret kernel_entry.

(** [main] while the partition lives.  The outcome of the run does not matter
    to it. *)
(* src/main.rs:61-92, main *)
Definition main_body (cfg : VmConfig) (turns : list (bool * (ExitContext + string))) :
    M R string unit :=
  _ ← in_vm (on_partition (prepare (memory_size cfg)));
  _ ← setup_console;
  _ ← in_vm (on_partition (register_devices (rootfs_path cfg) (file_metadata (rootfs_path cfg))));
  _ ← load_kernel cfg;
  _ ← in_vm (vm_run turns);
  mret tt.

(** The statics and the host's memory at the start. *)
Definition initial_vm (hm : hostmem) (p : Partition Ev) : V :=
  {| v_partition := p; v_memory := hm; v_rtc_time := 0; v_rtc_counter := 0;
     v_internal_counter := 0; v_last_interrupt := 0; v_tsc_invariant_control := 0;
     v_registers := []; v_interrupts := [] |}.

(** The scope's end: the console's guard is dropped before the partition, since
    it was created later. *)
(* src/main.rs:92-93, main *)
Definition end_scope (order : list string -> list string) (o : out string unit) (s : R) : Ended Ev T :=
  let p := v_partition (pr_vm s) in
  {| en_result := o;
     en_terminal :=
       match pr_console s with
       | Some c => (console_drop (E:=string) c (pr_terminal s)).2
       | None => pr_terminal s
       end;
     en_partition := Some p;
     en_calls := pt_calls p;
     en_drop := drop_calls (order (running_workers p)) p |}.

(** The end before there is a partition. *)
Definition ended_early {A} (o : out string A) (calls : list HvCall) (t : T) : Ended Ev T :=
  {| en_result := (fun _ => tt) <$> o; en_terminal := t; en_partition := None; en_calls := calls;
     en_drop := [] |}.

(** [order] picks the order in which the map of handlers is cleared; [tsc],
    [now], [hm] and [t] are the host's counter, clock, memory and terminal. *)
(* src/main.rs:50-93, main *)
Definition main (order : list string -> list string) (tsc now : Z) (hm : hostmem) (t : T)
    (turns : list (bool * (ExitContext + string))) : Ended Ev T :=
  match from_env with
  | Ok cfg =>
      match partition_new (Sdt:=Sdt) tsc now (memory_size cfg) [] with
      | (Ok p, _) =>
          let '(o, s) := main_body cfg turns
            {| pr_vm := initial_vm hm p; pr_terminal := t; pr_console := None; pr_stdin := None;
               pr_boot_registers := [] |} in
          end_scope order o s
      | (o, log) => ended_early o log t
      end
  | o => ended_early o [] t
  end.

End process.

(** ** Lemmas *)

(** *** Numbers *)

Lemma digit_pretty (x : N) : (x < 10)%N -> digit (pretty_N_char x) = Some (Z.of_N x).
Proof.
  intros Hx. assert (x = 0 \/ x = 1 \/ x = 2 \/ x = 3 \/ x = 4 \/ x = 5 \/ x = 6 \/ x = 7 \/ x = 8
    \/ x = 9)%N as Hc by lia.
  by repeat destruct Hc as [->|Hc]; [reflexivity..|subst].
Qed.

Lemma parse_pretty_go (x : N) : forall s,
  Z.of_N x < 2 ^ 64 -> parse_digits (pretty_N_go x s) 0 = parse_digits s (Z.of_N x).
Proof.
  induction (N.lt_wf_0 x) as [x _ IH]. intros s Hx.
  destruct (decide (0 < x)%N) as [Hp|Hp].
  - rewrite pretty_N_go_step by done.
    assert (x / 10 < x)%N as Hd by (apply N.div_lt; lia).
    rewrite IH by lia. cbn [parse_digits]. 
    assert (x mod 10 < 10)%N as Hm by (apply N.mod_lt; lia). rewrite digit_pretty by done.
    pose proof (N.div_mod x 10 ltac:(lia)) as Hdm. cbn [mbind option_bind].
    assert (Z.of_N x = Z.of_N (x / 10) * 10 + Z.of_N (x mod 10)) as Hz by lia.
    clear IH Hdm. generalize dependent (x / 10)%N. generalize dependent (x mod 10)%N.
    intros m Hm q Hd Hz.
    rewrite (proj2 (Z.ltb_lt _ _)) by lia. cbn [mbind option_bind].
    unfold checked_add. rewrite (proj2 (Z.ltb_lt _ _)) by lia. cbn [mbind option_bind]. f_equal. lia.
  - assert (x = 0%N) as -> by lia. by rewrite pretty_N_go_0.
Qed.

Lemma pretty_first (n : N) :
  exists c s, pretty n = String c s /\ digit c <> None.
Proof.
  unfold pretty, pretty_N. case_decide as Hn; [by eexists _, _|].
  assert (forall x s, (exists c t, s = String c t /\ digit c <> None) \/ (0 < x)%N ->
    exists c t, pretty_N_go x s = String c t /\ digit c <> None) as Hgo.
  { intros x. induction (N.lt_wf_0 x) as [x _ IH]. intros s Hs.
    destruct (decide (0 < x)%N) as [Hp|Hp].
    - rewrite pretty_N_go_step by done. apply IH; [apply N.div_lt; lia|]. left.
      eexists _, _. split; [done|]. rewrite digit_pretty by (apply N.mod_lt; lia). done.
    - assert (x = 0%N) as -> by lia. rewrite pretty_N_go_0. destruct Hs as [Hs|]; [done|lia]. }
  apply Hgo. right. lia.
Qed.

Lemma parse_usize_digits (n : N) : parse_usize (pretty n) = parse_digits (pretty n) 0.
Proof.
  destruct (pretty_first n) as (c & s & Hs & Hc). rewrite Hs. unfold parse_usize.
  destruct (Z.eqb_spec (Z.of_nat (Ascii.nat_of_ascii c)) 43) as [He|]; [|done].
  unfold digit in Hc. rewrite He in Hc. done.
Qed.

Lemma parse_usize_pretty (n : N) :
  Z.of_N n < 2 ^ 64 -> parse_usize (pretty n) = Some (Z.of_N n).
Proof.
  intros Hn. rewrite parse_usize_digits. unfold pretty, pretty_N. case_decide as Hz; [by subst|]. by rewrite parse_pretty_go.
Qed.

(** A decimal number that does not fit a word is refused. *)
Lemma parse_pretty_go_value (x : N) : forall s n,
  parse_digits (pretty_N_go x s) 0 = Some n -> 2 ^ 64 <= Z.of_N x -> False.
Proof.
  induction (N.lt_wf_0 x) as [x _ IH]. intros s n Hp Hx.
  rewrite pretty_N_go_step in Hp by lia.
  assert (x / 10 < x)%N as Hd by (apply N.div_lt; lia).
  destruct (Z.leb_spec (2 ^ 64) (Z.of_N (x / 10))) as [Hb|Hb]; [by eapply IH|].
  rewrite parse_pretty_go in Hp by done. cbn [parse_digits] in Hp.
  assert (x mod 10 < 10)%N as Hm by (apply N.mod_lt; lia). rewrite digit_pretty in Hp by done.
  pose proof (N.div_mod x 10 ltac:(lia)) as Hdm.
  assert (Z.of_N x = Z.of_N (x / 10) * 10 + Z.of_N (x mod 10)) as Hz by lia.
  cbn [mbind option_bind] in Hp. unfold checked_add in Hp.
  destruct (Z.of_N (x / 10) * 10 <? 2 ^ 64); [|done]. cbn [mbind option_bind] in Hp.
  rewrite (proj2 (Z.ltb_ge _ _)) in Hp by lia. done.
Qed.

Lemma parse_usize_pretty_overflow (n : N) :
  2 ^ 64 <= Z.of_N n -> parse_usize (pretty n) = None.
Proof.
  intros Hn. destruct (parse_usize (pretty n)) as [v|] eqn:Ev; [|done]. exfalso.
  rewrite parse_usize_digits in Ev. unfold pretty, pretty_N in Ev. case_decide as Hz; [lia|].
  by eapply parse_pretty_go_value.
Qed.

(** *** The configuration *)

Section config_lemmas.
Context {prof : Profile} `{!ProcessHost}.

Lemma config_memory_size_spec {E} o :
  0 <= default 5 o ->
  config_memory_size (E:=E) o =
    let size := default 5 o * 2 ^ 30 in
    if size <? 2 ^ 64 then Ok size
    else if overflow_checks then Panic else Ok (wrap 64 size).
Proof.
  intros Hn. unfold config_memory_size, umul. set (n := default 5 o) in *. cbv zeta.
  destruct (Z.ltb_spec (n * 2 ^ 30) (2 ^ 64)) as [Hs|Hs].
  { rewrite (proj2 (Z.ltb_lt (n * 1024) _)) by lia. cbn [mbind out_bind].
    rewrite (proj2 (Z.ltb_lt (n * 1024 * 1024) _)) by lia. cbn [mbind out_bind].
    rewrite (proj2 (Z.ltb_lt _ _)) by lia. f_equal. lia. }
  unfold overflow_checks. destruct prof.
  - case_Z; [|done]. cbn [mbind out_bind]. case_Z; [|done]. cbn [mbind out_bind]. case_Z; [lia|done].
  - assert (forall a, (if a <? 2 ^ 64 then Ok a else Ok (wrap 64 a)) = Ok (E:=E) (wrap 64 a) \/ a < 0) as Hw.
    { intros a. destruct (Z.ltb_spec a 0); [by right|left]. case_Z; [|done].
      by rewrite wrap_small by (unfold fits; lia). }
    assert (forall a, 0 <= wrap 64 a) as Hp by (intros a; apply wrap_fits; lia).
    destruct (Hw (n * 1024)) as [->|]; [|lia]. cbn [mbind out_bind].
    pose proof (Hp (n * 1024)) as P1.
    destruct (Hw (wrap 64 (n * 1024) * 1024)) as [->|]; [|lia]. cbn [mbind out_bind].
    pose proof (Hp (wrap 64 (n * 1024) * 1024)) as P2.
    destruct (Hw (wrap 64 (wrap 64 (n * 1024) * 1024) * 1024)) as [->|]; [|lia]. f_equal.
    unfold wrap. rewrite Z.mul_mod_idemp_l by lia. rewrite <- Z.mul_assoc.
    rewrite Z.mul_mod_idemp_l by lia. f_equal. lia.
Qed.

Lemma parse_digits_nonneg s : forall acc n, 0 <= acc -> parse_digits s acc = Some n -> 0 <= n.
Proof.
  induction s as [|c s IH]; intros acc n Ha; cbn [parse_digits]; [by intros [= <-]|].
  intros (d & Hd & (a & Haa & (b & Hb & Hn)%bind_Some)%bind_Some)%bind_Some.
  apply checked_add_Some in Hb as [-> _]. eapply IH, Hn.
  unfold digit in Hd. repeat case_match; simplify_eq; lia.
Qed.

Lemma parse_usize_nonneg s n : parse_usize s = Some n -> 0 <= n.
Proof.
  unfold parse_usize. repeat case_match; try done; by apply parse_digits_nonneg.
Qed.

(** The number of gibibytes asked for. *)
Definition memory_gb : Z := default 5 (env_var "MEMORY_GB" ≫= parse_usize).

Lemma memory_gb_nonneg : 0 <= memory_gb.
Proof.
  unfold memory_gb. destruct (env_var "MEMORY_GB") as [s|]; [|done]. cbn [mbind option_bind].
  destruct (parse_usize s) as [n|] eqn:En; [|done]. by eapply parse_usize_nonneg.
Qed.

(** Either the size fits or it wraps. *)
Lemma config_memory_size_fits {E} :
  memory_gb < 2 ^ 34 \/ overflow_checks = false ->
  exists size, config_memory_size (E:=E) (env_var "MEMORY_GB" ≫= parse_usize) = Ok size.
Proof.
  intros Hgb. rewrite config_memory_size_spec by exact memory_gb_nonneg. cbv zeta. fold memory_gb.
  destruct (Z.ltb_spec (memory_gb * 2 ^ 30) (2 ^ 64)); [by eexists|].
  destruct Hgb as [Hgb| ->]; [lia|by eexists].
Qed.

Definition configured_paths : list string :=
  [default "kernels/fedora-kernel" (env_var "KERNEL_PATH");
   default "kernels/initramfs.img" (env_var "INITRAM_PATH");
   default "kernels/fedora-rootfs.img" (env_var "ROOTFS_PATH")]%string.

Lemma require_file_Ok path label x : require_file path label = Ok x -> file_exists path = Ok true.
Proof. unfold require_file. destruct (file_exists path) as [[]| | |]; by cbn. Qed.

Lemma from_env_Ok cfg :
  from_env = Ok cfg ->
  [kernel_path cfg; initram_path cfg; rootfs_path cfg] = configured_paths /\
  Forall (fun path => file_exists path = Ok true) configured_paths /\
  memory_size cfg = wrap 64 (memory_gb * 2 ^ 30) /\
  (overflow_checks = true -> memory_size cfg = memory_gb * 2 ^ 30).
Proof.
  unfold from_env. rewrite config_memory_size_spec by exact memory_gb_nonneg. cbv zeta.
  fold memory_gb. pose proof memory_gb_nonneg as Hn. unfold configured_paths.
  match goal with |- context [if ?c then _ else if _ then _ else _] => set (big := c) end.
  assert (forall m, (_ ← require_file (default "kernels/fedora-kernel"%string (env_var "KERNEL_PATH")) "Kernel";
    _ ← require_file (default "kernels/initramfs.img"%string (env_var "INITRAM_PATH")) "Initramfs";
    _ ← require_file (default "kernels/fedora-rootfs.img"%string (env_var "ROOTFS_PATH")) "Rootfs";
    Ok {| kernel_path := default "kernels/fedora-kernel"%string (env_var "KERNEL_PATH");
          initram_path := default "kernels/initramfs.img"%string (env_var "INITRAM_PATH");
          rootfs_path := default "kernels/fedora-rootfs.img"%string (env_var "ROOTFS_PATH");
          memory_size := m |}) = Ok cfg ->
    [kernel_path cfg; initram_path cfg; rootfs_path cfg] = configured_paths /\
    Forall (fun path => file_exists path = Ok true) configured_paths /\ memory_size cfg = m) as Hfiles.
  { intros m. 
    destruct (require_file _ "Kernel") eqn:E1; try done. cbn [mbind out_bind].
    destruct (require_file _ "Initramfs") eqn:E2; try done. cbn [mbind out_bind].
    destruct (require_file _ "Rootfs") eqn:E3; try done. cbn [mbind out_bind]. intros [= <-].
    apply require_file_Ok in E1, E2, E3. split; [done|]. split; [|done]. by repeat constructor. }
  destruct big eqn:Eb; cbn [mbind out_bind].
  - intros (Hp & Hf & Hm)%Hfiles. apply Z.ltb_lt in Eb. rewrite wrap_small by (unfold fits; lia). by split_and!.
  - unfold overflow_checks. destruct prof; [done|]. intros (Hp & Hf & Hm)%Hfiles. by split_and!.
Qed.

End config_lemmas.

(** *** The machine and its loader *)

Section boot_lemmas.
Context {prof : Profile} {Ev : Type} `{!WinEvent Ev} `{!WhvInterruptTypes} `{!VirtioConsts}
  `{!PartitionHost} {Sdt : Type} `{!AcpiTables Sdt}.
Implicit Types p : Partition Ev.

(** What the loader needs of the machine. *)
Record loadable (p : Partition Ev) : Prop := {
  ld_map : address_map_wf p;
  ld_low : exists q, mapped (pt_memory p) 0 HIGH_RAM_START q;
  ld_ends : Forall (fun r => mr_gpa r + mr_size r < 2 ^ 64) (mm_regions (pt_memory p));
  ld_windows : Forall window_fits (mm_mmio_regions (pt_memory p));
  ld_e820 : (length (machine_e820 (pt_memory p)) <= 128)%nat;
}.

Lemma assembled_loadable tsc now size path ex p :
  size_fits_map size -> HIGH_RAM_START < size -> host_ready Ev size path ->
  assemble (Ev:=Ev) (Sdt:=Sdt) tsc now size path ex = Ok p -> loadable p.
Proof.
  intros Hs Hlow Hh Hp.
  destruct (assemble_ok (Sdt:=Sdt) tsc now size path ex Hs Hh) as (p' & b & r & c & n & Hp' & Ha & _).
  assert (p' = p) as -> by congruence. pose proof Ha as [Hr Hw _].
  pose proof (eq_refl : HIGH_RAM_START = 0x100000) as Vh.
  change (take 6 machine_windows) with machine_windows in Hw. split.
  - eapply assembling_map_wf, Ha; [done|apply (hr_alloc _ _ Hh)].
  - exists (VirtualAlloc size). unfold mapped, region_at. rewrite Hr. unfold ram_regions.
    layout_values. destruct (Z.leb_spec size MEM_32BIT_RESERVED_START); cbn [list_find];
      rewrite decide_True by (unfold region_contains; cbn [ram mr_gpa mr_size]; lia);
      eexists _, _; (split; [reflexivity|]); cbn [fst snd ram mr_gpa mr_size mr_hpa mr_perms];
      (split; [reflexivity|]); (split; [reflexivity|]); (split; [reflexivity|]);
      split_and!; lia.
  - rewrite Hr. unfold ram_regions, size_fits_map in *. layout_values.
    case_Z; repeat constructor; cbn [ram mr_gpa mr_size]; lia.
  - rewrite Hw. repeat constructor; vm_compute; congruence.
  - unfold machine_e820. rewrite !length_app, !length_map, Hr, Hw.
    change (length machine_windows) with 6%nat. unfold ram_regions.
    destruct (size <=? MEM_32BIT_RESERVED_START), (existsb _ _); cbn [length]; lia.
Qed.

(** The processor's first fetch. *)
Definition fetches (mm : MemoryManager) (hm : hostmem) (regs : list (RegName * RegValue)) (b : Z) : Prop :=
  exists cr3 rip pa, reg regs RegCr3 = Some (Reg64 cr3) /\ reg regs RegRip = Some (Reg64 rip) /\
    page_walk mm hm cr3 rip = Some (Some pa) /\ guest_byte mm hm pa = Some b.

(** The state in which a kernel starts. *)
Record kernel_ready (p : Partition Ev) (im : Image) (regs : list (RegName * RegValue))
    (hm : hostmem) : Prop := {
  kr_mode : long_mode regs;
  kr_rip : reg regs RegRip = Some (Reg64 (im_entry im));
  kr_rsi : reg regs RegRsi = Some (Reg64 ZERO_PAGE_START);
  kr_paging : exists cr3, reg regs RegCr3 = Some (Reg64 cr3) /\
    forall va, 0 <= va < 2 ^ 48 ->
      page_walk (pt_memory p) hm cr3 va = Some (if va <? 2 ^ 32 then Some va else None);
  kr_code : segment_from_gdt (pt_memory p) hm regs RegCs 0x10;
  kr_data : Forall (fun s => segment_from_gdt (pt_memory p) hm regs s 0x18) [RegDs; RegEs; RegSs];
  kr_loaded : kernel_loaded (pt_memory p) im hm;
  kr_fetch x i b : x ∈ im_pieces im -> x.2 !! i = Some b -> im_entry im = x.1 + Z.of_nat i ->
    fetches (pt_memory p) hm regs b;
}.

Lemma load_kernel_ok p bs im hm :
  loadable p -> acpi_fits Sdt p -> kernel_image (pt_memory p) bs im -> 0 <= im_entry im < 2 ^ 32 ->
  exists hm1 hm2 regs,
    load_linux_kernel (Sdt:=Sdt) p (Some bs) hm = (Ok (im_entry im), hm1) /\
    partition_setup_linux_registers p (im_entry im) hm1 = (Ok regs, hm2) /\
    kernel_ready p im regs hm2.
Proof.
  intros [[Hwf _ _ _] [q Hq] Hends Hwin Hn] Hacpi Him He.
  pose proof (eq_refl : HIGH_RAM_START = 0x100000) as Vh.
  pose proof (eq_refl : ZERO_PAGE_START = 0x7000) as Vz.
  pose proof (eq_refl : CMDLINE_START = 0x20000) as Vc.
  pose proof (eq_refl : CMDLINE_MAX_SIZE = 0x10000) as Vs.
  pose proof (eq_refl : PML4_START = 0xa000) as Vp.
  pose proof (eq_refl : BOOT_GDT_START = 0x500) as Vg.
  destruct (image_loaded (Sdt:=Sdt) p bs im hm q Hwf Hq Hacpi Hends Hwin Hn Him) as (hm1 & L & K).
  destruct (kl_page _ _ _ K) as (b & Gz & _ & Hb). change (size_of boot_params) with 4096%nat in Gz.
  assert (host_read hm1 (q + ZERO_PAGE_START) 4096 = b) as Hpage.
  { apply (inj Some). rewrite <- Gz. symmetry. apply mapped_guest_bytes; [done|].
    apply low_mapped; first [assumption|lia]. }
  destruct (boot_state_ok p (im_entry im) hm1 q Hwf Hq)
    as (regs & hm2 & R & Rl & Rip & Rsi & (cr3 & Rc & Rw) & Rcs & Rds & Rf).
  { rewrite Hpage. apply init_size_bound; [done|]. by rewrite <- Hpage, length_host_read. }
  1-2: lia.
  assert (kernel_loaded (pt_memory p) im hm2) as K2.
  { apply (kernel_loaded_frame _ bs im hm1 hm2 Him); [|exact K]. intros a Ha. apply Rf; lia. }
  exists hm1, hm2, regs. split; [exact L|]. split; [exact R|]. split; try assumption; [by exists cr3|].
  intros x i y Hx Hy Hent. exists cr3, (im_entry im), (im_entry im). split; [done|]. split; [done|]. split.
  - rewrite Rw by lia. by rewrite (proj2 (Z.ltb_lt _ _)) by lia.
  - pose proof (kl_pieces _ _ _ K2) as G. rewrite Forall_forall in G.
    specialize (G x Hx). apply guest_bytes_Some in G as [_ Hg].
    rewrite Hent, Hg; [done|]. by eapply lookup_lt_Some.
Qed.

End boot_lemmas.

(** *** The process *)

Section main_lemmas.
Context {prof : Profile} {Ev : Type} `{!WinEvent Ev} `{!WhvInterruptTypes} `{!VirtioConsts}
  `{!PartitionHost} {Sdt : Type} `{!AcpiTables Sdt} `{!VmHost} {T : Type} `{!HostTerminal T}
  `{!ProcessHost}.
Implicit Types s : Process Ev T.

Lemma assemble_inv tsc now size path ex (p : Partition Ev) :
  assemble (Sdt:=Sdt) tsc now size path ex = Ok p ->
  exists p0 log p1, partition_new (Sdt:=Sdt) tsc now size [] = (Ok p0, log) /\
    prepare size p0 = (Ok tt, p1) /\ register_devices path ex p1 = (Ok tt, p).
Proof.
  unfold assemble. destruct (partition_new tsc now size []) as [[p0|e| |] log]; try done.
  cbn [fst mbind out_bind]. unfold construct, mbind, M_bind.
  destruct (prepare size p0) as [[[]|e| |] p1] eqn:E1; try done.
  destruct (register_devices path ex p1) as [[[]|e| |] p2] eqn:E2; try done.
  intros [= <-]. by exists p0, log, p1.
Qed.

Lemma in_vm_partition {A} (m : M (Partition Ev) string A) s :
  in_vm (on_partition m) s =
    let '(o, p) := m (v_partition (pr_vm s)) in (o, pr_set_vm (v_set_partition p (pr_vm s)) s).
Proof. unfold in_vm, on_partition, zoom. by destruct (m _). Qed.

Lemma in_vm_memory {A} (f : Partition Ev -> M hostmem string A) s :
  in_vm (on_memory f) s =
    let '(o, hm) := f (v_partition (pr_vm s)) (v_memory (pr_vm s)) in
    (o, pr_set_vm (v_set_memory hm (pr_vm s)) s).
Proof.
  unfold in_vm, on_memory, zoom, gets, mbind, M_bind, id. by destruct (f _ _).
Qed.

Lemma enter_raw_mode_Ok (t : T) :
  exists c t', enter_raw_mode (E:=string) t = (Ok c, t').
Proof.
  unfold enter_raw_mode, setup_stdin, setup_stdout. run_St.
  destruct (GetStdHandle t STD_INPUT_HANDLE) as [h|]; [destruct (GetConsoleMode t h) as [m|]|];
    match goal with |- context [GetStdHandle ?x STD_OUTPUT_HANDLE] =>
      destruct (GetStdHandle x STD_OUTPUT_HANDLE) as [o|]; [destruct (GetConsoleMode x o)|] end;
    by eexists _, _.
Qed.

Lemma setup_console_Ok s (e : Ev) :
  CreateEventW = Ok e ->
  exists c t, setup_console s =
    (Ok tt, pr_set_stdin {| si_buffer := []; si_event := e |} (pr_set_console c (pr_set_terminal t s))).
Proof.
  intros He. destruct (enter_raw_mode_Ok (pr_terminal s)) as (c & t & Hc). exists c, t.
  unfold setup_console, in_terminal, spawn_stdin_reader. run_St. by rewrite Hc, He.
Qed.

(** The body up to the run. *)
Lemma main_body_boots cfg turns t bs hm (p0 p1 p : Partition Ev) entry hm1 hm2 regs (e : Ev) :
  prepare (memory_size cfg) p0 = (Ok tt, p1) ->
  register_devices (rootfs_path cfg) (file_metadata (rootfs_path cfg)) p1 = (Ok tt, p) ->
  CreateEventW = Ok e -> file_contents (kernel_path cfg) = Some bs ->
  load_linux_kernel (Sdt:=Sdt) p (Some bs) hm = (Ok entry, hm1) ->
  partition_setup_linux_registers p entry hm1 = (Ok regs, hm2) ->
  WHvSetBootRegisters regs = Ok tt ->
  exists s, pr_vm s = v_set_memory hm2 (initial_vm hm p) /\ pr_boot_registers s = regs /\
    is_Some (pr_console s) /\
    main_body (Sdt:=Sdt) cfg turns {| pr_vm := initial_vm hm p0; pr_terminal := t; pr_console := None;
        pr_stdin := None; pr_boot_registers := [] |} =
      ((fun _ => tt) <$> (vm_run turns (pr_vm s)).1, pr_set_vm (vm_run turns (pr_vm s)).2 s).
Proof.
  intros Hp Hr He Hk Hl Hs Hw.
  set (s0 := {| pr_vm := initial_vm hm p0; pr_terminal := t; pr_console := None; pr_stdin := None;
                pr_boot_registers := [] |}).
  destruct (setup_console_Ok (pr_set_vm (initial_vm hm p1) s0) e He) as (c & t' & Hc).
  eexists (pr_set_boot_registers regs (pr_set_vm (v_set_memory hm2 (initial_vm hm p))
    (pr_set_stdin _ (pr_set_console c (pr_set_terminal t' s0))))).
  split; [reflexivity|]. split; [reflexivity|]. split; [by eexists|].
  unfold main_body, load_kernel. unfold mbind, M_bind.
  rewrite in_vm_partition. change (v_partition (pr_vm s0)) with p0. rewrite Hp.
  change (v_set_partition p1 (pr_vm s0)) with (initial_vm hm p1). rewrite Hc.
  rewrite in_vm_partition. cbn [v_partition pr_vm pr_set_stdin pr_set_console pr_set_terminal
    pr_set_vm initial_vm]. rewrite Hr.
  rewrite in_vm_memory. cbn [v_partition v_memory pr_vm pr_set_vm v_set_partition]. rewrite Hk.
  change (v_memory (initial_vm hm p1)) with hm. rewrite Hl.
  rewrite in_vm_memory. cbn [v_partition v_memory pr_vm pr_set_vm v_set_memory v_set_partition].
  rewrite Hs.
  cbn [lift modify]. rewrite Hw. unfold in_vm, zoom, mret, M_ret.
  cbn [pr_vm pr_set_vm pr_set_boot_registers].
  change (v_set_memory hm2 _) with (v_set_memory hm2 (initial_vm hm p)).
  by destruct (vm_run turns (v_set_memory hm2 (initial_vm hm p))) as [[]].
Qed.

End main_lemmas.

(** *** What the process leaves alone *)

Section frame_lemmas.
Context {prof : Profile} {Ev : Type} `{!WinEvent Ev} `{!WhvInterruptTypes} `{!VirtioConsts}
  `{!PartitionHost} {Sdt : Type} `{!AcpiTables Sdt} `{!VmHost} `{!EmulatorLaws} {T : Type}
  `{!HostTerminal T} `{!ProcessHost}.
Implicit Types s : Process Ev T.

(** The resources of the partition, the terminal and the guard. *)
Record process_frame s s' : Prop := {
  pf_resources : same_host (v_partition (pr_vm s)) (v_partition (pr_vm s'));
  pf_console : (pr_terminal s', pr_console s') = (pr_terminal s, pr_console s);
}.

#[local] Instance process_frame_preorder : PreOrder process_frame.
Proof.
  split; [by intros s|]. intros s1 s2 s3 [R1 C1] [R2 C2]. split; [by etransitivity|congruence].
Qed.

Lemma in_vm_frame {A} (m : M (Vm Ev) string A) :
  keeps (fun v v' => same_host (v_partition v) (v_partition v')) m -> keeps process_frame (in_vm m).
Proof. intros Hm. eapply keeps_zoom; [exact Hm|]. by intros s v Hv. Qed.

Lemma on_memory_frame {A} (f : Partition Ev -> M hostmem string A) :
  keeps (fun v v' => same_host (v_partition v) (v_partition v')) (on_memory f).
Proof. intros v. unfold on_memory, zoom. run_St. by destruct (f _ _). Qed.

Lemma on_partition_frame {A} (m : M (Partition Ev) string A) :
  keeps same_host m -> keeps (fun v v' => same_host (v_partition v) (v_partition v')) (on_partition m).
Proof. intros Hm. eapply keeps_zoom; [exact Hm|]. by intros v p Hp. Qed.

Lemma run_frame turns :
  keeps (fun v v' => same_host (v_partition v) (v_partition v')) (vm_run (Ev:=Ev) turns).
Proof.
  intros v. destruct (vm_run_keeps turns v) as [[Em _ _ Eh _ _] _ _].
  injection Eh as Ec En Eb. unfold same_host, host_part. congruence.
Qed.

#[local] Hint Resolve in_vm_frame on_memory_frame on_partition_frame run_frame
  register_devices_host : keeps.

Lemma load_kernel_frame cfg : keeps process_frame (load_kernel (Sdt:=Sdt) (Ev:=Ev) cfg).
Proof. unfold load_kernel. keeps. by split. Qed.
#[local] Hint Resolve load_kernel_frame : keeps.

(** The body after the console was set up. *)
Definition main_rest (cfg : VmConfig) turns : M (Process Ev T) string unit :=
  _ ← in_vm (on_partition (register_devices (rootfs_path cfg) (file_metadata (rootfs_path cfg))));
  _ ← load_kernel (Sdt:=Sdt) cfg;
  _ ← in_vm (vm_run turns);
  mret tt.

Lemma main_rest_frame cfg turns : keeps process_frame (main_rest cfg turns).
Proof. unfold main_rest. keeps. Qed.

(** The three ways in which the body ends. *)
Lemma main_body_end cfg turns s0 :
  let s := (main_body (Sdt:=Sdt) cfg turns s0).2 in
  let p1 := (prepare (memory_size cfg) (v_partition (pr_vm s0))).2 in
  same_host p1 (v_partition (pr_vm s)) /\
  ((pr_terminal s, pr_console s) = (pr_terminal s0, pr_console s0) \/
   exists c t, enter_raw_mode (E:=string) (pr_terminal s0) = (Ok c, t) /\
     (pr_terminal s, pr_console s) = (t, Some c)).
Proof.
  assert (main_body (Sdt:=Sdt) cfg turns s0 =
    (_ ← in_vm (on_partition (prepare (memory_size cfg))); _ ← setup_console; main_rest cfg turns) s0)
    as -> by done.
  cbv zeta. unfold mbind, M_bind. rewrite in_vm_partition.
  destruct (prepare (memory_size cfg) (v_partition (pr_vm s0))) as [[[]|e| |] p1];
    cbn [snd]; [|split; [done|left; reflexivity]..].
  set (s1 := pr_set_vm (v_set_partition p1 (pr_vm s0)) s0).
  destruct (enter_raw_mode_Ok (pr_terminal s0)) as (c & t & Hc).
  assert (v_partition (pr_vm (setup_console s1).2) = p1 /\
    (pr_terminal (setup_console s1).2, pr_console (setup_console s1).2) = (t, Some c)) as [Hp Ht].
  { unfold setup_console, in_terminal, spawn_stdin_reader. run_St. cbn [pr_terminal s1 pr_set_vm].
    change (pr_terminal s1) with (pr_terminal s0). rewrite Hc. by destruct CreateEventW. }
  destruct (setup_console s1) as [[[]|e| |] s2] ; cbn [snd] in *;
    [|split; [by rewrite Hp|right; by exists c, t]..].
  pose proof (main_rest_frame cfg turns s2) as [Hr Hk]. rewrite Hp in Hr. split; [done|].
  right. exists c, t. split; [done|]. by rewrite Hk.
Qed.

End frame_lemmas.

(** The calls are acceptable and nothing is left in the end; when the destructor
    starts the workers of the partition run, and their joins come first. *)
Definition gives_back {Ev T} (e : Ended Ev T) : Prop :=
  exists h, hv_run hv_empty (en_calls e) = Some h /\ hv_workers h = [] /\
    match en_partition e with
    | Some p =>
        hv_run (hv_with_workers (running_workers p) h) (en_drop e) = Some hv_empty /\
        exists joined rest, en_drop e = map CallJoinWorker joined ++ rest /\ joined ≡ₚ running_workers p
    | None => en_drop e = [] /\ h = hv_empty
    end.

Lemma gives_back_early {Ev T A} (o : out string A) (t : T) :
  gives_back (ended_early (Ev:=Ev) o [] t).
Proof. by exists hv_empty. Qed.

Lemma memory_size_bound {prof : Profile} `{!ProcessHost} cfg :
  memory_size cfg = wrap 64 (memory_gb * 2 ^ 30) -> memory_size cfg + 1 < 2 ^ 64.
Proof.
  intros ->. unfold wrap.
  change (2 ^ 64) with (2 ^ 34 * 2 ^ 30). rewrite Z.mul_mod_distr_r by lia.
  pose proof (Z.mod_pos_bound memory_gb (2 ^ 34)). lia.
Qed.

(** Where the construction of the partition object fails. *)
Lemma partition_new_fails {prof : Profile} {Ev} `{!PartitionHost} {Sdt} `{!AcpiTables Sdt}
    tsc now size o log :
  partition_new (Ev:=Ev) (Sdt:=Sdt) tsc now size [] = (o, log) -> (forall p, o <> Ok p) ->
  size + 1 < 2 ^ 64 ->
  log = [] \/
  (log = [CallCreatePartition] /\ WHvCreatePartition = Ok tt /\ WHvEmulatorCreateEmulator <> Ok tt).
Proof.
  intros Hn Ho Hs. revert Hn. unfold partition_new, device_manager_new. rewrite uadd_ok by done. run_St.
  destruct WHvCreatePartition as [[]|e| |]; [|intros [= <- <-]; by left..].
  destruct WHvEmulatorCreateEmulator as [[]|e| |]; [|intros [= <- <-]; right; by split_and!..].
  intros [= <- <-]. by destruct (Ho _ eq_refl).
Qed.

Lemma enter_saved {T} `{!HostTerminal T} (t : T) h m c t1 :
  GetStdHandle t STD_INPUT_HANDLE = Some h -> GetConsoleMode t h = Some m ->
  enter_raw_mode (E:=string) t = (Ok c, t1) -> saved_stdin_mode c = Some (h, m).
Proof.
  intros Hh Hm. unfold enter_raw_mode, mbind, M_bind. rewrite (setup_stdin_eq t h m) by done.
  destruct (setup_stdout _) as [[[]|e| |] t2]; try done. by intros [= <- _].
Qed.

(** ** Properties *)

(** C2: the machine boots.  With a configuration whose memory fits the address
    map, a host that grants the resources and a well-formed kernel on disk, ELF
    or bzImage, that is entered below 4 GiB, [main] reaches the processor loop,
    and its result is the loop's.  At that moment the partition is the
    assembled machine and satisfies the invariant of the loop; the processor is
    in 64-bit mode with paging, its segments come from the descriptor table in
    guest memory, its page tables map the first 4 GiB one to one; the kernel's
    pieces, the command line and a zero page whose [boot_params] describe this
    very machine are in guest memory, [RSI] points to the zero page, and the
    byte fetched first, through the page tables at [RIP], is the byte of the
    kernel file at the entry. *)
Theorem machine_boots {prof : Profile} {Ev} `{!WinEvent Ev} `{!WhvInterruptTypes} `{!VirtioConsts}
    `{!PartitionHost} {Sdt} `{!AcpiTables Sdt} `{!VmHost} {T} `{!HostTerminal T} `{!ProcessHost}
    order tsc now hm (t : T) turns cfg bs im (p : Partition Ev) :
  from_env = Ok cfg ->
  size_fits_map (memory_size cfg) -> HIGH_RAM_START < memory_size cfg ->
  host_ready Ev (memory_size cfg) (rootfs_path cfg) ->
  (forall regs, WHvSetBootRegisters regs = Ok tt) ->
  file_contents (kernel_path cfg) = Some bs ->
  assemble (Sdt:=Sdt) tsc now (memory_size cfg) (rootfs_path cfg) (file_metadata (rootfs_path cfg))
    = Ok p ->
  acpi_fits Sdt p -> kernel_image (pt_memory p) bs im -> 0 <= im_entry im < 2 ^ 32 ->
  exists s : Process Ev T,
    main (Ev:=Ev) (Sdt:=Sdt) order tsc now hm t turns =
      end_scope order ((fun _ => tt) <$> (vm_run turns (pr_vm s)).1)
        (pr_set_vm (vm_run turns (pr_vm s)).2 s) /\
    v_partition (pr_vm s) = p /\ machine_wf (pr_vm s) /\
    kernel_ready p im (pr_boot_registers s) (v_memory (pr_vm s)) /\ is_Some (pr_console s).
Proof.
  intros Hcfg Hs Hlow Hh Hset Hk Hp Hacpi Hok He.
  pose proof (assembled_loadable _ _ _ _ _ _ Hs Hlow Hh Hp) as Hl.
  destruct (load_kernel_ok (Sdt:=Sdt) p bs im hm Hl Hacpi Hok He) as (hm1 & hm2 & regs & Hload & Hregs & Hr).
  destruct (assemble_inv _ _ _ _ _ _ Hp) as (p0 & log & p1 & Hnew & Hprep & Hreg).
  destruct (hr_event _ _ Hh) as [e Hev].
  destruct (main_body_boots (Sdt:=Sdt) cfg turns t bs hm p0 p1 p _ hm1 hm2 regs e Hprep Hreg Hev Hk
    Hload Hregs (Hset regs)) as (s & Hv & Hb & Hc & Hm).
  exists s. split_and!.
  - unfold main. by rewrite Hcfg, Hnew, Hm.
  - by rewrite Hv.
  - rewrite Hv. split; [apply (ld_map _ Hl)|]. by eapply assemble_chip_wf.
  - by rewrite Hv, Hb.
  - done.
Qed.


(** C40: the configuration.  Settings are read only when all three files exist;
    a path that is not set has its default.  [MEMORY_GB] that is not set or
    does not parse means 5; a decimal number counts gibibytes.  A size that does
    not fit a machine word panics in a build with overflow checks, before the
    files are looked at, and wraps in one without; otherwise a missing file is
    an error.  On an error and on a panic [main] ends at once, with that result:
    nothing was asked of the hypervisor and the terminal is as it was. *)
Theorem configuration_outcomes {prof : Profile} {Ev} `{!WinEvent Ev} `{!WhvInterruptTypes}
    `{!VirtioConsts} `{!PartitionHost} {Sdt} `{!AcpiTables Sdt} `{!VmHost} {T} `{!HostTerminal T}
    `{!ProcessHost} :
  (forall cfg, from_env = Ok cfg ->
     [kernel_path cfg; initram_path cfg; rootfs_path cfg] = configured_paths /\
     Forall (fun path => file_exists path = Ok true) configured_paths /\
     memory_size cfg = wrap 64 (memory_gb * 2 ^ 30) /\
     (overflow_checks = true -> memory_size cfg = memory_gb * 2 ^ 30)) /\
  (memory_gb < 2 ^ 34 \/ overflow_checks = false ->
     (Forall (fun path => file_exists path = Ok true) configured_paths ->
        exists cfg, from_env = Ok cfg) /\
     (forall path, path ∈ configured_paths -> file_exists path = Ok false ->
        Forall (fun path => exists b, file_exists path = Ok b) configured_paths ->
        exists e, from_env = Err e)) /\
  (2 ^ 34 <= memory_gb -> overflow_checks = true -> from_env = Panic) /\
  (env_var "MEMORY_GB" = None -> memory_gb = 5) /\
  (forall n : N, env_var "MEMORY_GB" = Some (pretty n) ->
     memory_gb = if Z.of_N n <? 2 ^ 64 then Z.of_N n else 5) /\
  (forall order tsc now hm (t : T) turns, (forall cfg, from_env <> Ok cfg) ->
     let e := main (Ev:=Ev) (Sdt:=Sdt) order tsc now hm t turns in
     en_result e = (fun _ => tt) <$> from_env /\ en_terminal e = t /\ en_partition e = None /\
     en_calls e = [] /\ en_drop e = []).
Proof.
  pose proof memory_gb_nonneg as Hn. split_and!.
  - intros cfg. apply from_env_Ok.
  - intros Hgb. destruct (config_memory_size_fits (E:=string) Hgb) as [size Hs].
    unfold from_env. rewrite Hs. cbn [mbind out_bind]. split.
    + unfold configured_paths. rewrite !Forall_cons. intros (F1 & F2 & F3 & _). unfold require_file.
      rewrite F1. cbn [mbind out_bind negb]. rewrite F2. cbn [mbind out_bind negb].
      rewrite F3. cbn [mbind out_bind negb]. by eexists.
    + intros path Hin Hno Hall. unfold configured_paths in *. rewrite !Forall_cons in Hall.
      destruct Hall as ([b1 F1] & [b2 F2] & [b3 F3] & _).
      unfold require_file. rewrite F1. cbn [mbind out_bind].
      destruct b1; cbn [negb mbind out_bind]; [|by eexists]. rewrite F2. cbn [mbind out_bind].
      destruct b2; cbn [negb mbind out_bind]; [|by eexists]. rewrite F3. cbn [mbind out_bind].
      destruct b3; cbn [negb mbind out_bind]; [|by eexists].
      rewrite !elem_of_cons, elem_of_nil in Hin. destruct Hin as [->|[->|[->|[]]]]; congruence.
  - intros Hgb Hc. unfold from_env. rewrite config_memory_size_spec by done. cbv zeta. fold memory_gb.
    rewrite (proj2 (Z.ltb_ge _ _)) by lia. by rewrite Hc.
  - unfold memory_gb. by intros ->.
  - intros n He. unfold memory_gb. rewrite He. cbn [mbind option_bind].
    case_Z; [by rewrite parse_usize_pretty|]. by rewrite parse_usize_pretty_overflow.
  - intros order tsc now hm t turns Hno e. subst e. unfold main.
    destruct from_env as [cfg| | |]; [by destruct (Hno cfg)|done..].
Qed.

(** ** Witnesses *)

(** A host with every file and five gibibytes asked for; the kernel is the
    example of [ElfLoad]. *)
Definition example_process_host : ProcessHost :=
  {| env_var name := if String.eqb name "MEMORY_GB" then Some "5"%string else None;
     file_exists _ := Ok true; file_metadata _ := true;
     file_contents path := if String.eqb path "kernels/fedora-kernel" then Some example_elf else None;
     WHvSetBootRegisters _ := Ok tt |}.

Definition example_config : VmConfig :=
  {| kernel_path := "kernels/fedora-kernel"; initram_path := "kernels/initramfs.img";
     rootfs_path := "kernels/fedora-rootfs.img"; memory_size := 0x140000000 |}.

Definition example_machine : Partition nat :=
  match assemble (prof:=dev_profile) (Ev:=nat) (WinEvent0:=example_event) (H1:=example_host)
          (Sdt:=list Z) 17 0 0x140000000 "kernels/fedora-rootfs.img" true with
  | Ok p => p
  | _ => example_partition
  end.

Lemma example_machine_assembled :
  assemble (prof:=dev_profile) (Ev:=nat) (WinEvent0:=example_event) (H1:=example_host)
    (Sdt:=list Z) 17 0 0x140000000 "kernels/fedora-rootfs.img" true = Ok example_machine.
Proof. vm_compute. reflexivity. Qed.

Lemma example_machine_acpi : acpi_fits (list Z) example_machine.
Proof.
  unfold acpi_fits. eexists _, _, _. split_and!; [vm_compute; congruence|vm_compute; reflexivity|..];
    vm_compute; congruence.
Qed.

Lemma example_machine_elf : elf_ok (pt_memory example_machine) example_elf.
Proof.
  destruct example_elf_ok as [E1 E2 E3 E4 E5 E6]. split; try done. clear -E4.
  rewrite example_elf_loads in *. constructor; [|constructor].
  inversion E4 as [|x l [S1 S2 S3 S4 _] _]; subst. split; try done. intros _.
  exists (0x7f0000000000 + HIGH_RAM_START), (ram 0 MEM_32BIT_DEVICES_START 0x7f0000000000), 0x7f0000000000.
  split; [vm_compute; reflexivity|]. split_and!; (reflexivity || (vm_compute; congruence)).
Qed.

Lemma machine_boots_witness :
  exists s : Process nat ExampleConsole,
    v_partition (pr_vm s) = example_machine /\
    reg (pr_boot_registers s) RegRip = Some (Reg64 0x100002) /\
    fetches (pt_memory example_machine) (v_memory (pr_vm s)) (pr_boot_registers s) 0xfd.
Proof.
  destruct (machine_boots (prof:=dev_profile) (Ev:=nat) (WinEvent0:=example_event)
    (H1:=example_host) (Sdt:=list Z) (H2:=example_vm_host) (T:=ExampleConsole)
    (H3:=example_process_host) id 17 0 (fun _ => 0)
    {| xc_in := 0x1f7; xc_out := 3; xc_handler := false |} [] example_config example_elf
    (elf_image (pt_memory example_machine) example_elf) example_machine)
    as (s & _ & Hp & _ & Hr & _).
  - vm_compute. reflexivity.
  - right. split; vm_compute; congruence.
  - vm_compute. reflexivity.
  - apply example_host_ready.
  - done.
  - reflexivity.
  - exact example_machine_assembled.
  - exact example_machine_acpi.
  - apply image_elf, example_machine_elf.
  - split; [vm_compute; congruence|vm_compute; reflexivity].
  - exists s. split; [done|]. split.
    + rewrite (kr_rip _ _ _ _ Hr). vm_compute. reflexivity.
    + apply (kr_fetch _ _ _ _ Hr (HIGH_RAM_START, segment_bytes example_elf example_segment) 2).
      * cbn [im_pieces elf_image]. rewrite example_elf_loads. by apply list_elem_of_singleton.
      * vm_compute. reflexivity.
      * vm_compute. reflexivity.
Defined.


(** The root image is missing. *)
Definition missing_image_host : ProcessHost :=
  {| env_var name := None; file_exists path := Ok (negb (String.eqb path "kernels/fedora-rootfs.img"));
     file_metadata _ := false; file_contents _ := None; WHvSetBootRegisters _ := Ok tt |}.

Lemma configuration_outcomes_witness :
  @from_env dev_profile example_process_host = Ok example_config /\
  let e := main (prof:=dev_profile) (Ev:=nat) (WinEvent0:=example_event) (H1:=example_host)
    (Sdt:=list Z) (H2:=example_vm_host) (H3:=missing_image_host) id 17 0 (fun _ => 0)
    {| xc_in := 0x1f7; xc_out := 3; xc_handler := false |} [] in
  (exists x, en_result e = Err x) /\ en_calls e = [].
Proof.
  split.
  - destruct (configuration_outcomes (prof:=dev_profile) (Ev:=nat) (WinEvent0:=example_event)
      (H1:=example_host) (Sdt:=list Z) (H2:=example_vm_host) (T:=ExampleConsole)
      (H3:=example_process_host)) as (Hok & Hex & _).
    destruct (proj1 (Hex (or_introl eq_refl))) as [cfg Hc]; [by repeat constructor|].
    rewrite Hc. f_equal. destruct (Hok cfg Hc) as ([= Hk Hi Hr] & _ & _ & Hm).
    destruct cfg as [k i r m]. cbn in *. subst. f_equal. by apply Hm.
  - destruct (configuration_outcomes (prof:=dev_profile) (Ev:=nat) (WinEvent0:=example_event)
      (H1:=example_host) (Sdt:=list Z) (H2:=example_vm_host) (T:=ExampleConsole)
      (H3:=missing_image_host)) as (_ & Hex & _ & _ & _ & Hmain).
    destruct (proj2 (Hex (or_introl eq_refl)) "kernels/fedora-rootfs.img"%string) as [x Hx].
    + vm_compute. by right; right; left.
    + reflexivity.
    + repeat constructor; by eexists.
    + destruct (Hmain id 17 0 (fun _ => 0) {| xc_in := 0x1f7; xc_out := 3; xc_handler := false |} [])
        as (Hr & _ & _ & Hc & _); [intros cfg; by rewrite Hx|].
      split; [exists x; by rewrite Hr, Hx|exact Hc].
Defined.
